(** * Neon Galaxy: the simulation core of [GameEngine]

    A shallow embedding of the drone store, the squad registry, the path
    sampler, the stride scheduler and the combat resolver of
    [GameEngine], with the properties the specification states about them.

    Numbers.  JavaScript numbers are modelled as exact rationals ([Q]):
    every finite double is a rational, and an equality below is an
    equality of the exact values ([==] on [Q]).  Rounding is left out
    where it perturbs a continuous quantity (a position, a load, a
    health).  It is modelled, to the nearest double with ties to even,
    where the program floors a rounded product to an integer that
    decides how many drones are taken and which slot a drone holds.
    Integer-valued quantities (array indices, counters, command ids) are
    [nat] or [Z].  The irrational and random builtins ([Math.sqrt],
    [Math.sin], [Math.cos], [Math.random]) are parameters of the model. *)

From Stdlib Require Import ZArith Znumtheory QArith Qround Qabs Qminmax Qpower
  Lqa Lia
  List Bool String.
From stdpp Require Import base list gmap sorting.

Open Scope Q_scope.

(** ** JavaScript comparisons and rounding on rationals *)

(** [a < b] *)
Definition Qlt_bool (a b : Q) : bool := negb (Qle_bool b a).

(** [a === b] on numbers *)
Definition Qeqb (a b : Q) : bool := Qeq_bool a b.

(** [Math.floor], [Math.ceil] *)
Definition Math_floor (x : Q) : Z := Qfloor x.
Definition Math_ceil (x : Q) : Z := Qceiling x.

(** [Math.round]: the nearest integer, halves rounded up. *)
Definition Math_round (x : Q) : Z := Qfloor (x + (1 # 2)).

(** [x || 1] on a number: [1] replaces a zero. *)
Definition orOne (x : Q) : Q := if Qeqb x 0 then 1 else x.

(** ** Double-precision arithmetic *)

(** [floor (log2 q)] for a positive [q]: the difference of the binary
    logarithms of numerator and denominator, or one less. *)
Definition Qlog2 (q : Q) : Z :=
  let g := (Z.log2 (Qnum q) - Z.log2 (Zpos (Qden q)))%Z in
  if Qle_bool (2 ^ g) q then g else (g - 1)%Z.

(** The nearest integer, a half going to the even neighbour. *)
Definition roundEven (x : Q) : Z :=
  let f := Qfloor x in
  match Qcompare (x - inject_Z f) (1 # 2) with
  | Lt => f
  | Gt => (f + 1)%Z
  | Eq => if Z.even f then f else (f + 1)%Z
  end.

(** The exponent of the last place of the double nearest to a positive
    [q]: 53 significant bits, and no exponent below [-1074], that of
    the subnormal numbers. *)
Definition ulpExp (q : Q) : Z := Z.max (-1074) (Qlog2 q - 52).

Definition roundPos (q : Q) : Q :=
  let e := ulpExp q in inject_Z (roundEven (q / 2 ^ e)) * 2 ^ e.

(** The double nearest to [q], ties to even, as IEEE 754 rounds the
    exact result of an operation.  A magnitude of [2 ^ 1024] or more,
    which rounds to [Infinity], is outside the model. *)
Definition roundDouble (q : Q) : Q :=
  match Qcompare q 0 with
  | Eq => 0
  | Gt => roundPos q
  | Lt => - roundPos (- q)
  end.

(** [a * b] and [a / b] on doubles. *)
Definition double_mul (a b : Q) : Q := roundDouble (a * b).
Definition double_div (a b : Q) : Q := roundDouble (a / b).

(** A rational square root for the examples: exact on the squares of
    rationals, rounded down on the numerator elsewhere. *)
Definition Qsqrt (x : Q) : Q :=
  let r := Qred x in
  Z.sqrt (Qnum r * Zpos (Qden r)) # Qden r.

(** ** [THREE.Vector3] *)

Record Vector3 := Vec3 { vx : Q; vy : Q; vz : Q }.

(** Equality of vectors up to the representation of their coordinates. *)
Definition veq (a b : Vector3) : Prop :=
  vx a == vx b /\ vy a == vy b /\ vz a == vz b.

Infix "=v=" := veq (at level 70, no associativity).

Definition vzero : Vector3 := Vec3 0 0 0.

Definition subVectors (a b : Vector3) : Vector3 :=
  Vec3 (vx a - vx b) (vy a - vy b) (vz a - vz b).

Definition addVectors (a b : Vector3) : Vector3 :=
  Vec3 (vx a + vx b) (vy a + vy b) (vz a + vz b).

Definition multiplyScalar (a : Vector3) (s : Q) : Vector3 :=
  Vec3 (vx a * s) (vy a * s) (vz a * s).

Definition divideScalar (a : Vector3) (s : Q) : Vector3 :=
  multiplyScalar a (1 / s).

Definition addScaledVector (a v : Vector3) (s : Q) : Vector3 :=
  Vec3 (vx a + vx v * s) (vy a + vy v * s) (vz a + vz v * s).

Definition dot (a b : Vector3) : Q :=
  vx a * vx b + vy a * vy b + vz a * vz b.

Definition lengthSq (a : Vector3) : Q :=
  vx a * vx a + vy a * vy a + vz a * vz a.

Definition distanceToSquared (a b : Vector3) : Q :=
  let dx := vx a - vx b in
  let dy := vy a - vy b in
  let dz := vz a - vz b in
  dx * dx + dy * dy + dz * dz.

Definition lerpVectors (v1 v2 : Vector3) (alpha : Q) : Vector3 :=
  Vec3 (vx v1 + (vx v2 - vx v1) * alpha)
       (vy v1 + (vy v2 - vy v1) * alpha)
       (vz v1 + (vz v2 - vz v1) * alpha).

Section Sqrt.
Variable Math_sqrt : Q -> Q.

Definition vlength (a : Vector3) : Q := Math_sqrt (lengthSq a).

Definition distanceTo (a b : Vector3) : Q :=
  Math_sqrt (distanceToSquared a b).

(** [normalize()] is [divideScalar(length() || 1)]. *)
Definition normalize (a : Vector3) : Vector3 :=
  divideScalar a (orOne (vlength a)).

(** The steering statement shared by every branch of the drone update:
    [_dir.subVectors(_target, _pos).normalize();
     _pos.addScaledVector(_dir, move)]. *)
Definition steerToward (pos target : Vector3) (move : Q) : Vector3 :=
  addScaledVector pos (normalize (subVectors target pos)) move.

(** ** PathSampler: [interpolatePath] *)

(** [dists]: the length of every segment of the polyline. *)
Fixpoint segDists (points : list Vector3) : list Q :=
  match points with
  | p :: (q :: _) as rest => distanceTo p q :: segDists rest
  | _ => []
  end.

(** [totalLen], accumulated from [0] in segment order. *)
Definition totalLen (points : list Vector3) : Q :=
  fold_left Qplus (segDists points) 0.

(** The inner loop over [j]: the first segment that contains the arc
    length [targetDist], and the point on it; [None] is [!added]. *)
Fixpoint locate (targetDist distSoFar : Q) (dists : list Q)
    (points : list Vector3) : option Vector3 :=
  match dists, points with
  | segLen :: dists', pj :: (pj1 :: _) as points' =>
      if Qle_bool targetDist (distSoFar + segLen)
      then Some (lerpVectors pj pj1 ((targetDist - distSoFar) / segLen))
      else locate targetDist (distSoFar + segLen) dists' points'
  | _, _ => None
  end.

(** The point pushed at iteration [i] of the outer loop; [final] is
    [points[points.length - 1]]. *)
Definition samplePoint (points : list Vector3) (step : Q) (final : Vector3)
    (i : nat) : Vector3 :=
  match locate (inject_Z (Z.of_nat i) * step) 0 (segDists points) points with
  | Some p => p
  | None => final
  end.

Definition interpolatePath (points : list Vector3) (count : Z)
    : list Vector3 :=
  match points with
  | first :: _ :: _ =>
      if Qle_bool (totalLen points) (1 # 10) then points
      else
        let step := totalLen points / inject_Z (count - 1) in
        let final := List.last points first in
        first
          :: map (samplePoint points step final)
                 (seq 1 (Z.to_nat (count - 2)))
          ++ [final]
  | _ => points
  end.
End Sqrt.

(** ** Data model *)

(** [droneState] holds one of the three state constants. *)
Inductive DroneState := STATE_MINING_SEEK | STATE_RETURNING | STATE_ATTACKING.

(** [state.attackMode], also a command's [type]. *)
Inductive AttackMode := SWARM | WALL.

#[global] Instance DroneState_eq_dec : EqDecision DroneState.
Proof. solve_decision. Defined.

#[global] Instance AttackMode_eq_dec : EqDecision AttackMode.
Proof. solve_decision. Defined.

(** A squad command object ([cmd] in [createSquadFromPending]); the line
    mesh and the colour belong to the presentation layer. *)
Record Command := MkCommand {
  cmdId : Z;
  cmdType : AttackMode;
  path : list Vector3;
  spreadPoints : list Vector3;
  center : Vector3;
  radius : Q;
  activeDroneCount : Z
}.

Definition set_activeDroneCount (v : Z) (c : Command) : Command :=
  MkCommand (cmdId c) (cmdType c) (path c) (spreadPoints c) (center c)
    (radius c) v.

(** An enemy ship: its position and the [userData] the combat code reads. *)
Record Enemy := MkEnemy { position : Vector3; hp : Q; shield : Q }.

(** A missile: [mesh.position], [velocity], [damage]. *)
Record Missile := MkMissile {
  meshPosition : Vector3;
  velocity : Vector3;
  damage : Q
}.

(** Command objects are shared JavaScript objects: the registry
    [this.commands] and the per-frame [cmdMap] hold references to them, and
    [activeDroneCount] is mutated through either.  A reference is an index
    into the store of allocated command objects. *)
Definition ref := nat.

(** What the engine reports through [config.onMessage] and
    [config.onGameOver]. *)
Inductive Message :=
| Text (s : string)
| SquadDeployed (id : Z).

Inductive Callback :=
| onMessage (m : Message)
| onGameOver.

(** [this.state] *)
Record GameState := MkGameState {
  resources : Q;
  droneCount : nat;
  droneSpeed : Q;
  miningSpeed : Q;
  cargoCapacity : Q;
  critChance : Q;
  shieldMax : Q;
  shieldCurrent : Q;
  shieldRegen : Q;
  hullIntegrity : Q;
  damageMultiplier : Q;
  wallHP : Q;
  attackMode : AttackMode;
  deploymentRatio : Q;
  activeSquads : Z;
  lagOptimization : bool
}.

Definition set_resources (v : Q) (s : GameState) : GameState :=
  MkGameState v (droneCount s) (droneSpeed s) (miningSpeed s)
    (cargoCapacity s) (critChance s) (shieldMax s) (shieldCurrent s)
    (shieldRegen s) (hullIntegrity s) (damageMultiplier s) (wallHP s)
    (attackMode s) (deploymentRatio s) (activeSquads s) (lagOptimization s).

Definition set_droneCount (v : nat) (s : GameState) : GameState :=
  MkGameState (resources s) v (droneSpeed s) (miningSpeed s)
    (cargoCapacity s) (critChance s) (shieldMax s) (shieldCurrent s)
    (shieldRegen s) (hullIntegrity s) (damageMultiplier s) (wallHP s)
    (attackMode s) (deploymentRatio s) (activeSquads s) (lagOptimization s).

Definition set_shieldCurrent (v : Q) (s : GameState) : GameState :=
  MkGameState (resources s) (droneCount s) (droneSpeed s) (miningSpeed s)
    (cargoCapacity s) (critChance s) (shieldMax s) v (shieldRegen s)
    (hullIntegrity s) (damageMultiplier s) (wallHP s) (attackMode s)
    (deploymentRatio s) (activeSquads s) (lagOptimization s).

Definition set_hullIntegrity (v : Q) (s : GameState) : GameState :=
  MkGameState (resources s) (droneCount s) (droneSpeed s) (miningSpeed s)
    (cargoCapacity s) (critChance s) (shieldMax s) (shieldCurrent s)
    (shieldRegen s) v (damageMultiplier s) (wallHP s) (attackMode s)
    (deploymentRatio s) (activeSquads s) (lagOptimization s).

Definition set_activeSquads (v : Z) (s : GameState) : GameState :=
  MkGameState (resources s) (droneCount s) (droneSpeed s) (miningSpeed s)
    (cargoCapacity s) (critChance s) (shieldMax s) (shieldCurrent s)
    (shieldRegen s) (hullIntegrity s) (damageMultiplier s) (wallHP s)
    (attackMode s) (deploymentRatio s) v (lagOptimization s).

(** The engine: the fields of [GameEngine] the simulation reads and writes;
    [commandObjs] is the store of command objects, [frame] is
    [renderer.info.render.frame], [randomCalls] counts the calls of
    [Math.random] so far, [callbacks] lists the callbacks made, latest
    last. *)
Record Engine := MkEngine {
  state : GameState;
  gameTime : Q;
  isGameOver : bool;
  commandObjs : list Command;
  commands : list ref;
  nextCommandId : Z;
  enemies : list Enemy;
  asteroids : list Vector3;
  missiles : list Missile;
  pendingPath : list Vector3;
  dronePos : list Q;
  droneTargetId : list Z;
  droneCommandId : list Z;
  droneState : list DroneState;
  droneLoad : list Q;
  droneHP : list Q;
  frame : nat;
  randomCalls : nat;
  callbacks : list Callback
}.

Definition set_state (v : GameState) (e : Engine) : Engine :=
  MkEngine v (gameTime e) (isGameOver e) (commandObjs e) (commands e)
    (nextCommandId e) (enemies e) (asteroids e) (missiles e) (pendingPath e)
    (dronePos e) (droneTargetId e) (droneCommandId e) (droneState e)
    (droneLoad e) (droneHP e) (frame e) (randomCalls e) (callbacks e).

Definition set_isGameOver (v : bool) (e : Engine) : Engine :=
  MkEngine (state e) (gameTime e) v (commandObjs e) (commands e)
    (nextCommandId e) (enemies e) (asteroids e) (missiles e) (pendingPath e)
    (dronePos e) (droneTargetId e) (droneCommandId e) (droneState e)
    (droneLoad e) (droneHP e) (frame e) (randomCalls e) (callbacks e).

Definition set_commandObjs (v : list Command) (e : Engine) : Engine :=
  MkEngine (state e) (gameTime e) (isGameOver e) v (commands e)
    (nextCommandId e) (enemies e) (asteroids e) (missiles e) (pendingPath e)
    (dronePos e) (droneTargetId e) (droneCommandId e) (droneState e)
    (droneLoad e) (droneHP e) (frame e) (randomCalls e) (callbacks e).

Definition set_commands (v : list ref) (e : Engine) : Engine :=
  MkEngine (state e) (gameTime e) (isGameOver e) (commandObjs e) v
    (nextCommandId e) (enemies e) (asteroids e) (missiles e) (pendingPath e)
    (dronePos e) (droneTargetId e) (droneCommandId e) (droneState e)
    (droneLoad e) (droneHP e) (frame e) (randomCalls e) (callbacks e).

Definition set_nextCommandId (v : Z) (e : Engine) : Engine :=
  MkEngine (state e) (gameTime e) (isGameOver e) (commandObjs e)
    (commands e) v (enemies e) (asteroids e) (missiles e) (pendingPath e)
    (dronePos e) (droneTargetId e) (droneCommandId e) (droneState e)
    (droneLoad e) (droneHP e) (frame e) (randomCalls e) (callbacks e).

Definition set_enemies (v : list Enemy) (e : Engine) : Engine :=
  MkEngine (state e) (gameTime e) (isGameOver e) (commandObjs e)
    (commands e) (nextCommandId e) v (asteroids e) (missiles e)
    (pendingPath e) (dronePos e) (droneTargetId e) (droneCommandId e)
    (droneState e) (droneLoad e) (droneHP e) (frame e) (randomCalls e)
    (callbacks e).

Definition set_missiles (v : list Missile) (e : Engine) : Engine :=
  MkEngine (state e) (gameTime e) (isGameOver e) (commandObjs e)
    (commands e) (nextCommandId e) (enemies e) (asteroids e) v
    (pendingPath e) (dronePos e) (droneTargetId e) (droneCommandId e)
    (droneState e) (droneLoad e) (droneHP e) (frame e) (randomCalls e)
    (callbacks e).

Definition set_pendingPath (v : list Vector3) (e : Engine) : Engine :=
  MkEngine (state e) (gameTime e) (isGameOver e) (commandObjs e)
    (commands e) (nextCommandId e) (enemies e) (asteroids e) (missiles e) v
    (dronePos e) (droneTargetId e) (droneCommandId e) (droneState e)
    (droneLoad e) (droneHP e) (frame e) (randomCalls e) (callbacks e).

Definition set_dronePos (v : list Q) (e : Engine) : Engine :=
  MkEngine (state e) (gameTime e) (isGameOver e) (commandObjs e)
    (commands e) (nextCommandId e) (enemies e) (asteroids e) (missiles e)
    (pendingPath e) v (droneTargetId e) (droneCommandId e) (droneState e)
    (droneLoad e) (droneHP e) (frame e) (randomCalls e) (callbacks e).

Definition set_droneTargetId (v : list Z) (e : Engine) : Engine :=
  MkEngine (state e) (gameTime e) (isGameOver e) (commandObjs e)
    (commands e) (nextCommandId e) (enemies e) (asteroids e) (missiles e)
    (pendingPath e) (dronePos e) v (droneCommandId e) (droneState e)
    (droneLoad e) (droneHP e) (frame e) (randomCalls e) (callbacks e).

Definition set_droneCommandId (v : list Z) (e : Engine) : Engine :=
  MkEngine (state e) (gameTime e) (isGameOver e) (commandObjs e)
    (commands e) (nextCommandId e) (enemies e) (asteroids e) (missiles e)
    (pendingPath e) (dronePos e) (droneTargetId e) v (droneState e)
    (droneLoad e) (droneHP e) (frame e) (randomCalls e) (callbacks e).

Definition set_droneState (v : list DroneState) (e : Engine) : Engine :=
  MkEngine (state e) (gameTime e) (isGameOver e) (commandObjs e)
    (commands e) (nextCommandId e) (enemies e) (asteroids e) (missiles e)
    (pendingPath e) (dronePos e) (droneTargetId e) (droneCommandId e) v
    (droneLoad e) (droneHP e) (frame e) (randomCalls e) (callbacks e).

Definition set_droneLoad (v : list Q) (e : Engine) : Engine :=
  MkEngine (state e) (gameTime e) (isGameOver e) (commandObjs e)
    (commands e) (nextCommandId e) (enemies e) (asteroids e) (missiles e)
    (pendingPath e) (dronePos e) (droneTargetId e) (droneCommandId e)
    (droneState e) v (droneHP e) (frame e) (randomCalls e) (callbacks e).

Definition set_droneHP (v : list Q) (e : Engine) : Engine :=
  MkEngine (state e) (gameTime e) (isGameOver e) (commandObjs e)
    (commands e) (nextCommandId e) (enemies e) (asteroids e) (missiles e)
    (pendingPath e) (dronePos e) (droneTargetId e) (droneCommandId e)
    (droneState e) (droneLoad e) v (frame e) (randomCalls e) (callbacks e).

Definition set_randomCalls (v : nat) (e : Engine) : Engine :=
  MkEngine (state e) (gameTime e) (isGameOver e) (commandObjs e)
    (commands e) (nextCommandId e) (enemies e) (asteroids e) (missiles e)
    (pendingPath e) (dronePos e) (droneTargetId e) (droneCommandId e)
    (droneState e) (droneLoad e) (droneHP e) (frame e) v (callbacks e).

Definition set_callbacks (v : list Callback) (e : Engine) : Engine :=
  MkEngine (state e) (gameTime e) (isGameOver e) (commandObjs e)
    (commands e) (nextCommandId e) (enemies e) (asteroids e) (missiles e)
    (pendingPath e) (dronePos e) (droneTargetId e) (droneCommandId e)
    (droneState e) (droneLoad e) (droneHP e) (frame e) (randomCalls e) v.


(** The order of [(a, b) => b - a]: larger indices first. *)
Definition descending (a b : nat) : Prop := (b <= a)%nat.

#[global] Instance descending_dec : RelDecision descending.
Proof. intros a b. unfold descending. apply _. Defined.

(** ** Operations *)

Section Simulation.
Variables Math_sqrt Math_sin Math_cos : Q -> Q.
Variable Math_random : nat -> Q.

(** *** Typed-array and registry access *)

(** [this.droneState[i] === s]; an index outside the array reads
    [undefined], which equals no state. *)
Definition stateIs (e : Engine) (i : nat) (s : DroneState) : bool :=
  bool_decide (droneState e !! i = Some s).

(** The command object behind a reference. *)
Definition lookupCmd (e : Engine) (r : ref) : option Command :=
  commandObjs e !! r.

(** [c.id === id] for the object behind [r]. *)
Definition hasId (e : Engine) (id : Z) (r : ref) : bool :=
  match lookupCmd e r with
  | Some c => (cmdId c =? id)%Z
  | None => false
  end.

(** [this.commands.find(c => c.id === id)] *)
Definition findCommand (e : Engine) (id : Z) : option ref :=
  List.find (hasId e id) (commands e).

(** [config.onMessage(m)] *)
Definition emit (m : Message) (e : Engine) : Engine :=
  set_callbacks (callbacks e ++ [onMessage m]) e.

(** *** [createSquadFromPending] *)

(** The first loop: the indices of the drones that are seeking or
    returning, in index order. *)
Definition idleDrones (e : Engine) : list nat :=
  List.filter (fun i => stateIs e i STATE_MINING_SEEK
                        || stateIs e i STATE_RETURNING)
              (seq 0 (droneCount (state e))).

(** [needed]: the product is the double one, so that a ratio just
    below a decimal fraction can still reach the next whole number
    (a hundred drones at the double nearest [0.03] give [3]), or miss
    it (at the double nearest [0.29] they give [28]). *)
Definition needed (e : Engine) : Z :=
  Z.max 1 (Math_floor
             (double_mul (inject_Z (Z.of_nat (droneCount (state e))))
                         (deploymentRatio (state e)))).

(** The second loop, for a Wall with no idle drone: attacking drones are
    taken in index order until [needed] are found. *)
Fixpoint retaskAttacking (e : Engine) (need : Z) (indices avail : list nat)
    : list nat :=
  match indices with
  | [] => avail
  | i :: rest =>
      let avail' :=
        if stateIs e i STATE_ATTACKING then avail ++ [i] else avail in
      if (need <=? Z.of_nat (length avail'))%Z then avail'
      else retaskAttacking e need rest avail'
  end.

(** [avail] as it stands when the emptiness test is made. *)
Definition eligiblePool (e : Engine) : list nat :=
  let avail := idleDrones e in
  if bool_decide (avail = []) && bool_decide (attackMode (state e) = WALL)
  then retaskAttacking e (needed e) (seq 0 (droneCount (state e))) avail
  else avail.

(** [center]: the mean of the path points. *)
Definition pathCenter (pts : list Vector3) : Vector3 :=
  divideScalar (foldl addVectors vzero pts)
               (inject_Z (Z.of_nat (length pts))).

(** [maxD]: the largest squared distance from the centre. *)
Definition pathMaxD (c : Vector3) (pts : list Vector3) : Q :=
  foldl (fun maxD p => Qmax maxD (distanceToSquared c p)) 0 pts.

(** The slot a Wall drone receives: [Math.floor(ratio *
    (spreadPoints.length - 1))] with [ratio = assignedIndex /
    (totalAssigned - 1)]. *)
Definition wallSlot (assignedIndex totalAssigned spreadLen : nat) : Z :=
  let ratio := double_div (inject_Z (Z.of_nat assignedIndex))
                          (inject_Z (Z.of_nat totalAssigned - 1)) in
  Math_floor (double_mul ratio (inject_Z (Z.of_nat spreadLen - 1))).

(** The [targetIdx] written for the drone at position [assignedIndex] of
    the assignment order. *)
Definition assignedTarget (type : AttackMode)
    (assignedIndex totalAssigned spreadLen : nat) : Z :=
  match type with
  | WALL =>
      if (1 <? totalAssigned)%nat
      then wallSlot assignedIndex totalAssigned spreadLen
      else 0%Z
  | SWARM => 0%Z
  end.

(** One iteration of the assignment loop, for drone [i]. *)
Definition assignDrone (id : Z) (type : AttackMode)
    (totalAssigned spreadLen assignedIndex i : nat) (e : Engine) : Engine :=
  let e1 := set_droneState (<[i := STATE_ATTACKING]> (droneState e)) e in
  let e2 := set_droneCommandId (<[i := id]> (droneCommandId e1)) e1 in
  let e3 :=
    set_droneHP
      (<[i := match type with WALL => wallHP (state e2) | SWARM => 1 end]>
         (droneHP e2)) e2 in
  set_droneTargetId
    (<[i := assignedTarget type assignedIndex totalAssigned spreadLen]>
       (droneTargetId e3)) e3.

(** The assignment loop; [assignedIndex] counts the iterations. *)
Fixpoint assignDrones (id : Z) (type : AttackMode)
    (totalAssigned spreadLen assignedIndex : nat) (dronesToAssign : list nat)
    (e : Engine) : Engine :=
  match dronesToAssign with
  | [] => e
  | i :: rest =>
      assignDrones id type totalAssigned spreadLen (S assignedIndex) rest
        (assignDrone id type totalAssigned spreadLen assignedIndex i e)
  end.

(** The command object built from the pending path, as it is pushed:
    [id = ++nextCommandId], [center], [radius], [spreadPoints] and an
    [activeDroneCount] of [0]. *)
Definition newCommand (e : Engine) : Command :=
  let c := pathCenter (pendingPath e) in
  MkCommand (nextCommandId e + 1) (attackMode (state e)) (pendingPath e)
    (interpolatePath Math_sqrt (pendingPath e) 1000) c
    (Math_sqrt (pathMaxD c (pendingPath e))) 0.

(** [++this.nextCommandId; this.commands.push(cmd);
    this.state.activeSquads++]: the new object is allocated at the end of
    the store. *)
Definition registerCommand (cmd : Command) (e : Engine) : Engine :=
  let e1 := set_nextCommandId (cmdId cmd) e in
  let e2 := set_commands (commands e1 ++ [length (commandObjs e1)])
              (set_commandObjs (commandObjs e1 ++ [cmd]) e1) in
  set_state (set_activeSquads (activeSquads (state e2) + 1) (state e2)) e2.

Definition createSquadFromPending (e : Engine) : Engine :=
  if (length (pendingPath e) <? 2)%nat then set_pendingPath [] e
  else
    let avail := eligiblePool e in
    if bool_decide (avail = []) then
      set_pendingPath [] (emit (Text "NO IDLE DRONES") e)
    else
      let cmd := newCommand e in
      let r : ref := length (commandObjs e) in
      let e3 := registerCommand cmd e in
      let dronesToAssign := take (Z.to_nat (needed e)) avail in
      let totalAssigned := length dronesToAssign in
      let e4 := assignDrones (cmdId cmd) (cmdType cmd) totalAssigned
                  (length (spreadPoints cmd)) 0 dronesToAssign e3 in
      let e5 := set_commandObjs
                  (alter (set_activeDroneCount (Z.of_nat totalAssigned)) r
                     (commandObjs e4)) e4 in
      set_pendingPath [] (emit (SquadDeployed (cmdId cmd)) e5).

(** *** [removeSquad] *)

(** One iteration of the loop over the drones. *)
Definition releaseDrone (id : Z) (e : Engine) (i : nat) : Engine :=
  if bool_decide (droneCommandId e !! i = Some id) then
    let e1 := set_droneState (<[i := STATE_MINING_SEEK]> (droneState e)) e in
    let e2 := set_droneCommandId (<[i := (-1)%Z]> (droneCommandId e1)) e1 in
    set_droneTargetId (<[i := (-1)%Z]> (droneTargetId e2)) e2
  else e.

Definition removeSquad (id : Z) (reason : string) (e : Engine) : Engine :=
  match findCommand e id with
  | None => e
  | Some _ =>
      let e1 := set_commands
                  (List.filter (fun r => negb (hasId e id r)) (commands e))
                  e in
      let e2 := set_state
                  (set_activeSquads (Z.of_nat (length (commands e1)))
                     (state e1)) e1 in
      let e3 := foldl (releaseDrone id) e2 (seq 0 (droneCount (state e2))) in
      let e4 := if bool_decide (commands e3 = [])
                then set_nextCommandId 0 e3 else e3 in
      if bool_decide (reason = EmptyString) then e4
      else emit (Text reason) e4
  end.

(** *** [removeDrone] *)

(** [arr[i] = arr[last]] on a typed array: a write outside the array is
    dropped.  [last] is inside the array whenever a drone is live. *)
Definition copySlot {A} (arr : list A) (i last : nat) : list A :=
  match arr !! last with
  | Some v => <[i := v]> arr
  | None => arr
  end.

(** Called on a live index only, so the count it decrements is positive. *)
Definition removeDrone (i : nat) (e : Engine) : Engine :=
  let last := (droneCount (state e) - 1)%nat in
  let e' :=
    if bool_decide (i <> last) then
      let e1 := set_droneState (copySlot (droneState e) i last) e in
      let e2 := set_droneTargetId (copySlot (droneTargetId e1) i last) e1 in
      let e3 := set_droneCommandId (copySlot (droneCommandId e2) i last) e2 in
      let e4 := set_droneLoad (copySlot (droneLoad e3) i last) e3 in
      let e5 := set_droneHP (copySlot (droneHP e4) i last) e4 in
      let e6 := set_dronePos
                  (copySlot (dronePos e5) (i * 3) (last * 3)) e5 in
      let e7 := set_dronePos
                  (copySlot (dronePos e6) (i * 3 + 1) (last * 3 + 1)) e6 in
      set_dronePos (copySlot (dronePos e7) (i * 3 + 2) (last * 3 + 2)) e7
    else e in
  set_state (set_droneCount (droneCount (state e') - 1)%nat (state e')) e'.

(** *** The drone store, read one record at a time *)

(** The record of drone [i] across the parallel arrays. *)
Record Drone := MkDrone {
  dPos : Vector3;
  dState : DroneState;
  dTarget : Z;
  dCommand : Z;
  dLoad : Q;
  dHP : Q
}.

(** [None] when [i] lies outside the arrays: every read is [undefined]. *)
Definition readDrone (e : Engine) (i : nat) : option Drone :=
  x ← dronePos e !! (i * 3)%nat;
  y ← dronePos e !! (i * 3 + 1)%nat;
  z ← dronePos e !! (i * 3 + 2)%nat;
  s ← droneState e !! i;
  t ← droneTargetId e !! i;
  c ← droneCommandId e !! i;
  l ← droneLoad e !! i;
  h ← droneHP e !! i;
  Some (MkDrone (Vec3 x y z) s t c l h).

(** The write-back of [_pos] at the end of the update. *)
Definition writePos (i : nat) (p : Vector3) (e : Engine) : Engine :=
  set_dronePos
    (<[(i * 3 + 2)%nat := vz p]>
       (<[(i * 3 + 1)%nat := vy p]>
          (<[(i * 3)%nat := vx p]> (dronePos e)))) e.

(** [pts[tIdx]] for a JavaScript array: [undefined] off the array. *)
Definition pointAt (pts : list Vector3) (tIdx : Z) : option Vector3 :=
  if (tIdx <? 0)%Z then None else pts !! Z.to_nat tIdx.

(** *** Melee damage of a Swarm drone *)

(** [dmg]: base [2 * damageMultiplier], tripled on a critical hit, scaled
    by the stride. *)
Definition meleeDamage (damageMultiplier : Q) (isCrit : bool) (stride : nat)
    : Q :=
  let dmg := 2 * damageMultiplier in
  let dmg := if isCrit then dmg * 3 else dmg in
  dmg * inject_Z (Z.of_nat stride).

(** The cosine between the enemy's heading (it faces the origin) and
    the direction from the enemy to the drone. *)
Definition approachDot (pos : Vector3) (en : Enemy) : Q :=
  let dir := normalize Math_sqrt (subVectors vzero (position en)) in
  let diff := normalize Math_sqrt (subVectors pos (position en)) in
  dot dir diff.

(** The hit itself: the shield takes it from the front while it holds,
    and what it cannot absorb passes to [hp]; otherwise [hp] takes it. *)
Definition applyMeleeHit (dmg d : Q) (en : Enemy) : Enemy :=
  if Qlt_bool (- (1 # 5)) d && Qlt_bool 0 (shield en) then
    let s := shield en - dmg in
    if Qlt_bool s 0 then MkEnemy (position en) (hp en + s) 0
    else MkEnemy (position en) (hp en) s
  else
    let h := hp en - dmg in
    let h := if Qlt_bool 0 (shield en) then h - dmg * (1 # 2) else h in
    MkEnemy (position en) h (shield en).

(** The calls of [Math.random] one hit makes: the critical roll, on a
    critical hit the roll for the ring, and three more for the ring's
    offset when it is drawn. *)
Definition meleeRandomCalls (isCrit ring : bool) : nat :=
  if isCrit then (if ring then 5 else 2) else 1.

(** The block executed after a Swarm drone moved to [pos]. *)
Definition meleeAttack (pos : Vector3) (stride : nat) (e : Engine) : Engine :=
  match enemies e with
  | [] => e
  | enemy :: others =>
      if Qlt_bool (distanceToSquared pos (position enemy)) 2500 then
        let isCrit :=
          Qlt_bool (Math_random (randomCalls e)) (critChance (state e)) in
        let dmg := meleeDamage (damageMultiplier (state e)) isCrit stride in
        let ring :=
          isCrit && Qlt_bool (Math_random (S (randomCalls e))) (3 # 10) in
        let e1 := set_randomCalls
                    (randomCalls e + meleeRandomCalls isCrit ring)%nat e in
        set_enemies (applyMeleeHit dmg (approachDot pos enemy) enemy :: others)
          e1
      else e
  end.

(** *** [updateSingleDrone] *)

(** [cmd.activeDroneCount--] through the reference [r]. *)
Definition decrementActive (r : ref) (e : Engine) : Engine :=
  set_commandObjs
    (alter (fun c => set_activeDroneCount (activeDroneCount c - 1) c) r
       (commandObjs e)) e.

(** The Wall branch: hold the slot [spreadPoints[tIdx]]. *)
Definition updateWall (i : nat) (move : Q) (d : Drone) (cmd : Command)
    (e : Engine) : option Engine :=
  let pts := spreadPoints cmd in
  let len := Z.of_nat (length pts) in
  let tIdx := dTarget d in
  let tIdx := if (len <=? tIdx)%Z then Z.rem tIdx len else tIdx in
  if (len =? 0)%Z then None
  else
    target ← pointAt pts tIdx;
    let pos :=
      if Qlt_bool 1 (distanceTo Math_sqrt (dPos d) target)
      then steerToward Math_sqrt (dPos d) target move
      else dPos d in
    Some (writePos i pos e).

(** The Swarm branch: follow the waypoints, leave at the last one, and
    strike the first enemy when it is in range. *)
Definition updateSwarm (i : nat) (move : Q) (stride : nat) (d : Drone)
    (r : ref) (cmd : Command) (e : Engine) : option Engine :=
  let pts := path cmd in
  let len := Z.of_nat (length pts) in
  let tIdx := dTarget d in
  let tIdx := if (len <=? tIdx)%Z then 0%Z else tIdx in
  target ← pointAt pts tIdx;
  if Qlt_bool (distanceTo Math_sqrt (dPos d) target) move then
    if (tIdx <? len - 1)%Z then
      let e1 := set_droneTargetId
                  (<[i := (dTarget d + 1)%Z]> (droneTargetId e)) e in
      Some (writePos i target (meleeAttack target stride e1))
    else
      let e1 := set_droneState (<[i := STATE_MINING_SEEK]> (droneState e)) e in
      let e2 := set_droneCommandId (<[i := (-1)%Z]> (droneCommandId e1)) e1 in
      let e3 := set_droneTargetId (<[i := (-1)%Z]> (droneTargetId e2)) e2 in
      let e4 := decrementActive r e3 in
      match lookupCmd e4 r with
      | Some cmd' =>
          if (activeDroneCount cmd' <=? 0)%Z
          then Some (removeSquad (cmdId cmd') "PATH COMPLETE" e4)
          else Some e4
      | None => Some e4
      end
  else
    let pos := steerToward Math_sqrt (dPos d) target move in
    Some (writePos i pos (meleeAttack pos stride e)).

(** [this.asteroids[tId]], the position of the asteroid if there is one. *)
Definition asteroidAt (e : Engine) (tId : Z) : option Vector3 :=
  pointAt (asteroids e) tId.

(** The Seeking branch.  [_target] is [(0, 30, 0)] exactly when there is
    no asteroid at all; otherwise it is the jittered asteroid position. *)
Definition updateSeeking (dt : Q) (i : nat) (move : Q) (stride : nat)
    (d : Drone) (e : Engine) : Engine :=
  let asteroidCount := length (asteroids e) in
  let e1 :=
    if ((dTarget d =? -1)%Z || negb (bool_decide (is_Some (asteroidAt e (dTarget d)))))
       && (0 <? asteroidCount)%nat
    then set_droneTargetId
           (<[i := Z.of_nat (i mod asteroidCount)]> (droneTargetId e)) e
    else e in
  let tId := default (dTarget d) (droneTargetId e1 !! i) in
  match asteroidAt e1 tId with
  | Some ast =>
      let phase := gameTime e1 + inject_Z (Z.of_nat i) in
      let target := Vec3 (vx ast + Math_sin phase * 20) (vy ast)
                         (vz ast + Math_cos phase * 20) in
      let e2 :=
        if Qlt_bool (distanceToSquared (dPos d) ast) 3000 then
          let load := dLoad d + dt * inject_Z (Z.of_nat stride) * 10
                                * miningSpeed (state e1) in
          let e' := set_droneLoad (<[i := load]> (droneLoad e1)) e1 in
          if Qle_bool (cargoCapacity (state e')) load
          then set_droneState (<[i := STATE_RETURNING]> (droneState e')) e'
          else e'
        else e1 in
      writePos i (steerToward Math_sqrt (dPos d) target move) e2
  | None =>
      writePos i (steerToward Math_sqrt (dPos d) (Vec3 0 30 0) move) e1
  end.

(** The Returning branch. *)
Definition updateReturning (i : nat) (move : Q) (d : Drone) (e : Engine)
    : Engine :=
  let target := Vec3 0 10 0 in
  if Qlt_bool (distanceTo Math_sqrt (dPos d) target) 10 then
    let e1 := set_state
                (set_resources
                   (resources (state e) + inject_Z (Math_floor (dLoad d)))
                   (state e)) e in
    let e2 := set_droneLoad (<[i := 0]> (droneLoad e1)) e1 in
    let e3 := set_droneState (<[i := STATE_MINING_SEEK]> (droneState e2)) e2 in
    let e4 := set_droneTargetId (<[i := (-1)%Z]> (droneTargetId e3)) e3 in
    writePos i (dPos d) e4
  else writePos i (steerToward Math_sqrt (dPos d) target move) e.

(** The per-drone update.  [None] stands for the [TypeError] raised when
    the point a drone is sent to does not exist; the drawing of the drone
    ([updateVisuals]) is not modelled. *)
Definition updateSingleDrone (dt : Q) (cmdMap : gmap Z ref) (i : nat)
    (move : Q) (stride : nat) (e : Engine) : option Engine :=
  match readDrone e i with
  | None => Some e
  | Some d =>
      match dState d with
      | STATE_ATTACKING =>
          match cmdMap !! dCommand d with
          | None =>
              Some (set_droneState
                      (<[i := STATE_MINING_SEEK]> (droneState e)) e)
          | Some r =>
              match lookupCmd e r with
              | None =>
                  Some (set_droneState
                          (<[i := STATE_MINING_SEEK]> (droneState e)) e)
              | Some cmd =>
                  match cmdType cmd with
                  | WALL => updateWall i move d cmd e
                  | SWARM => updateSwarm i move stride d r cmd e
                  end
              end
          end
      | STATE_MINING_SEEK => Some (updateSeeking dt i move stride d e)
      | STATE_RETURNING => Some (updateReturning i move d e)
      end
  end.

(** *** The stride scheduler: [updateDrones] *)

Definition MAX_DRONES : Z := 5000000.
Definition OPTIMIZED_RENDER_CAP : Z := 40000.

(** [cmdMap]: the commands of the registry by id, as the frame starts. *)
Definition buildCmdMap (e : Engine) : gmap Z ref :=
  foldl (fun (m : gmap Z ref) r =>
           match lookupCmd e r with
           | Some c => <[cmdId c := r]> m
           | None => m
           end) ∅ (commands e).

(** The indices visited by [for (i = start; i < stop; i += stride)]. *)
Fixpoint strideFrom (fuel start stop stride : nat) : list nat :=
  match fuel with
  | O => []
  | S fuel' =>
      if (start <? stop)%nat
      then start :: strideFrom fuel' (start + stride) stop stride
      else []
  end.

Definition strideLoop (start stop stride : nat) : list nat :=
  strideFrom (stop - start) start stop stride.

(** [fgStride] *)
Definition fgStride (lagOpt : bool) (visibleCap : nat) : nat :=
  if negb lagOpt && (50000 <? Z.of_nat visibleCap)%Z
  then Z.to_nat (Math_ceil (inject_Z (Z.of_nat visibleCap) / 50000))
  else 1%nat.

(** [bgStride] *)
Definition bgStride (bgCount : nat) : nat :=
  Nat.max 1 (Z.to_nat (Math_ceil (inject_Z (Z.of_nat bgCount) / 10000))).

(** [fgMove], [bgMove]: the movement budget of one update at a stride. *)
Definition strideMove (droneSpeed dt : Q) (stride : nat) : Q :=
  droneSpeed * 20 * dt * inject_Z (Z.of_nat stride).

(** One of the two loops; an exception ends the frame. *)
Definition runLoop (dt : Q) (cmdMap : gmap Z ref) (move : Q) (stride : nat)
    (indices : list nat) (e : Engine) : option Engine :=
  foldl (fun oe i => oe ≫= updateSingleDrone dt cmdMap i move stride)
        (Some e) indices.

Definition updateDrones (dt : Q) (e : Engine) : option Engine :=
  let dCount := droneCount (state e) in
  if (dCount =? 0)%nat then Some e
  else
    let lagOpt := lagOptimization (state e) in
    let renderLimit :=
      if lagOpt then OPTIMIZED_RENDER_CAP else MAX_DRONES in
    let visibleCap := Z.to_nat (Z.min (Z.of_nat dCount) renderLimit) in
    let fgS := fgStride lagOpt visibleCap in
    let fgOffset := (frame e mod fgS)%nat in
    let fgMove := strideMove (droneSpeed (state e)) dt fgS in
    let cmdMap := buildCmdMap e in
    e1 ← runLoop dt cmdMap fgMove fgS (strideLoop fgOffset visibleCap fgS) e;
    if (visibleCap <? dCount)%nat then
      let bgCount := (dCount - visibleCap)%nat in
      let bgS := bgStride bgCount in
      let bgOffset := (frame e mod bgS)%nat in
      let bgMove := strideMove (droneSpeed (state e)) dt bgS in
      runLoop dt cmdMap bgMove bgS
        (strideLoop (visibleCap + bgOffset) dCount bgS) e1
    else Some e1.

(** *** The combat resolver: [updateMissiles] *)

Definition distToSegSq (p v w : Vector3) : Q :=
  let l2 := distanceToSquared v w in
  if Qeqb l2 0 then distanceToSquared p v
  else
    let t := ((vx p - vx v) * (vx w - vx v) + (vz p - vz v) * (vz w - vz v))
             / l2 in
    let t := Qmax 0 (Qmin 1 t) in
    distanceToSquared p
      (Vec3 (vx v + t * (vx w - vx v)) 0 (vz v + t * (vz w - vz v))).

(** The narrow phase: some segment of the path is closer than the
    threshold. *)
Fixpoint nearSegment (p : Vector3) (pts : list Vector3) : bool :=
  match pts with
  | v :: (w :: _) as rest =>
      Qlt_bool (distToSegSq p v w) 100 || nearSegment p rest
  | _ => false
  end.

(** [hitCmdId]: the first Wall command of the registry the missile
    touches. *)
Fixpoint wallHit (e : Engine) (p : Vector3) (refs : list ref) : option Z :=
  match refs with
  | [] => None
  | r :: rest =>
      match lookupCmd e r with
      | Some cmd =>
          if bool_decide (cmdType cmd = WALL)
             && Qlt_bool (distanceToSquared p (center cmd))
                         (radius cmd * radius cmd + 3000)
             && nearSegment p (path cmd)
          then Some (cmdId cmd)
          else wallHit e p rest
      | None => wallHit e p rest
      end
  end.

(** [damageCandidates]: the damage queued per command id, in the order
    the ids were first hit. *)
Definition DamageQueue := list (Z * list Q).

Definition queueDamage (cid : Z) (dmg : Q) (q : DamageQueue) : DamageQueue :=
  if existsb (fun kv => (fst kv =? cid)%Z) q
  then map (fun kv => if (fst kv =? cid)%Z
                      then (fst kv, snd kv ++ [dmg]) else kv) q
  else q ++ [(cid, [dmg])].

(** A missile that reaches the mothership. *)
Definition hitMothership (m : Missile) (e : Engine) : Engine :=
  if Qlt_bool 0 (shieldCurrent (state e)) then
    set_state
      (set_shieldCurrent (shieldCurrent (state e) - damage m * 2) (state e))
      e
  else
    let e1 := set_state
                (set_hullIntegrity (hullIntegrity (state e) - damage m)
                   (state e)) e in
    if Qle_bool (hullIntegrity (state e1)) 0
    then set_callbacks (callbacks e1 ++ [onGameOver])
           (set_isGameOver true e1)
    else e1.

(** What happens to one missile in a frame. *)
Inductive MissileFate :=
| HitWall (cid : Z)
| HitMothership
| OutOfRange
| InFlight.

Definition missileFate (e : Engine) (p : Vector3) : MissileFate :=
  match wallHit e p (commands e) with
  | Some cid => HitWall cid
  | None =>
      if Qlt_bool (lengthSq p) 900 then HitMothership
      else if Qlt_bool 2000000 (lengthSq p) then OutOfRange
      else InFlight
  end.

(** One iteration of the loop over the missiles; [kept] are the missiles
    that stay in [this.missiles]. *)
Definition stepMissile (dt : Q) (acc : Engine * list Missile * DamageQueue)
    (m : Missile) : Engine * list Missile * DamageQueue :=
  let '(e, kept, queue) := acc in
  let p := addScaledVector (meshPosition m) (velocity m) dt in
  match missileFate e p with
  | HitWall cid => (e, kept, queueDamage cid (damage m) queue)
  | HitMothership => (hitMothership m e, kept, queue)
  | OutOfRange => (e, kept, queue)
  | InFlight => (e, MkMissile p (velocity m) (damage m) :: kept, queue)
  end.

(** [squadMembers.get(cid)]: the live drones of a command, by index. *)
Definition squadMembers (e : Engine) (cid : Z) : list nat :=
  List.filter (fun i => bool_decide (droneCommandId e !! i = Some cid))
              (seq 0 (droneCount (state e))).

(** Up to [attempts] draws of a member whose health is positive; the
    second component counts the draws made. *)
Fixpoint pickLiving (attempts : nat) (members : list nat) (e : Engine)
    (calls : nat) : option nat * nat :=
  match attempts with
  | O => (None, calls)
  | S attempts' =>
      let rIdx := Math_floor (Math_random calls
                              * inject_Z (Z.of_nat (length members))) in
      let idx := if (rIdx <? 0)%Z then None else members !! Z.to_nat rIdx in
      match idx with
      | Some t =>
          match droneHP e !! t with
          | Some h =>
              if Qlt_bool 0 h then (Some t, S calls)
              else pickLiving attempts' members e (S calls)
          | None => pickLiving attempts' members e (S calls)
          end
      | None => pickLiving attempts' members e (S calls)
      end
  end.

(** [deadIndices.add(idx)] *)
Definition addDead (idx : nat) (dead : list nat) : list nat :=
  if bool_decide (idx ∈ dead) then dead else dead ++ [idx].

(** One queued hit against the members of command [cid]. *)
Definition applyWallHit (cid : Z) (members : list nat)
    (acc : Engine * list nat) (dmg : Q) : Engine * list nat :=
  let '(e, dead) := acc in
  let '(target, calls) := pickLiving 5 members e (randomCalls e) in
  let e1 := set_randomCalls calls e in
  match target with
  | None => (e1, dead)
  | Some t =>
      match droneHP e1 !! t with
      | None => (e1, dead)
      | Some h =>
          let e2 := set_droneHP (<[t := h - dmg]> (droneHP e1)) e1 in
          if Qle_bool (h - dmg) 0 then
            let e3 :=
              match findCommand e2 cid with
              | Some r =>
                  set_commandObjs
                    (alter (fun c => set_activeDroneCount
                                       (Z.max 0 (activeDroneCount c - 1)) c)
                       r (commandObjs e2)) e2
              | None => e2
              end in
            (e3, addDead t dead)
          else (e2, dead)
      end
  end.

(** The hits queued against one command. *)
Definition applyWallDamage (acc : Engine * list nat) (entry : Z * list Q)
    : Engine * list nat :=
  let members := squadMembers (fst acc) (fst entry) in
  match members with
  | [] => acc
  | _ => foldl (applyWallHit (fst entry) members) acc (snd entry)
  end.

(** [Array.from(deadIndices).sort((a, b) => b - a)] *)
Definition sortDescending (l : list nat) : list nat :=
  merge_sort descending l.

Definition updateMissiles (dt : Q) (e : Engine) : Engine :=
  let '(e1, kept, queue) :=
    foldl (stepMissile dt) (e, [], []) (rev (missiles e)) in
  let e2 := set_missiles kept e1 in
  match queue with
  | [] => e2
  | _ =>
      let '(e3, dead) := foldl applyWallDamage (e2, []) queue in
      foldl (fun e' idx => removeDrone idx e') e3 (sortDescending dead)
  end.

(** *** Shield regeneration, from [animate] *)

Definition regenShield (dt : Q) (s : GameState) : GameState :=
  if Qlt_bool (shieldCurrent s) (shieldMax s) && Qlt_bool 0 (shieldRegen s)
  then set_shieldCurrent
         (Qmin (shieldMax s) (shieldCurrent s + shieldRegen s * dt * 20)) s
  else s.
End Simulation.

(** ** Hosts for the examples *)

(** A host without jitter and whose random draws are all [0]. *)
Definition noJitter (_ : Q) : Q := 0.
Definition alwaysZero (_ : nat) : Q := 0.

(** ** Engines for the examples *)

Definition exampleState : GameState :=
  MkGameState 0 6 1 1 1 (5 # 100) 10 10 1 100 1 3 WALL (1 # 2) 0 false.

(** Six idle drones in a store of eight slots, a two-point path drawn
    across the base, no command yet. *)
Definition exampleEngine : Engine :=
  MkEngine exampleState 0 false [] [] 0 [] [] []
    [Vec3 (-15) 0 0; Vec3 15 0 0]
    [40; 10; 0; 50; 10; 0; 60; 10; 0; 70; 10; 0; 80; 10; 0; 90; 10; 0;
     0; 0; 0; 0; 0; 0]
    (replicate 8 (-1)%Z) (replicate 8 (-1)%Z)
    (replicate 8 STATE_MINING_SEEK) (replicate 8 0) (replicate 8 1)
    0 0 [].

(** The same engine once the path has been submitted as a Wall. *)
Definition wallEngine : Engine := createSquadFromPending Qsqrt exampleEngine.

(** A missile five units from the base after a frame of a tenth of a
    second. *)
Definition exampleMissile : Missile :=
  MkMissile (Vec3 0 0 10) (Vec3 0 0 (-50)) 3.

(** A host whose random draws are all one half, so that no roll against
    a chance below one half succeeds. *)
Definition alwaysHalf (_ : nat) : Q := 1 # 2.

(** An enemy a hundred units from the base, facing it, and one far away. *)
Definition nearEnemy : Enemy := MkEnemy (Vec3 100 0 0) 100 10.
Definition farEnemy : Enemy := MkEnemy (Vec3 1000 0 0) 100 10.

(** ** The store and its live records *)

(** The arrays have room for [n] drones. *)
Definition storeFits (e : Engine) (n : nat) : Prop :=
  (n * 3 <= length (dronePos e))%nat
  /\ (n <= length (droneState e))%nat
  /\ (n <= length (droneTargetId e))%nat
  /\ (n <= length (droneCommandId e))%nat
  /\ (n <= length (droneLoad e))%nat
  /\ (n <= length (droneHP e))%nat.

(** The records of the live drones, by index. *)
Definition liveDrones (e : Engine) : list (option Drone) :=
  readDrone e <$> seq 0 (droneCount (state e)).

(** ** The eligible pool, in the words of the specification *)

(** The attacking drones, in index order. *)
Definition attackingDrones (e : Engine) : list nat :=
  List.filter (fun i => stateIs e i STATE_ATTACKING)
              (seq 0 (droneCount (state e))).

(** The seeking or returning drones and, for a Wall when there are none,
    the attacking ones. *)
Definition eligibleDrones (e : Engine) : list nat :=
  match idleDrones e with
  | [] =>
      match attackMode (state e) with
      | WALL => attackingDrones e
      | SWARM => []
      end
  | idle => idle
  end.

(** The scenario of the specification: a hundred idle drones, half of
    them deployed, a two-point Swarm path. *)
Definition scenarioEngine : Engine :=
  MkEngine
    (MkGameState 0 100 1 1 1 (5 # 100) 0 0 0 100 1 1 SWARM (1 # 2) 0 false)
    0 false [] [] 0 [] [] []
    [Vec3 200 0 0; Vec3 400 0 0]
    (replicate 300 0) (replicate 100 (-1)%Z) (replicate 100 (-1)%Z)
    (replicate 100 STATE_MINING_SEEK) (replicate 100 0) (replicate 100 1)
    0 0 [].

(** ** Arc length along a polyline *)

Definition sumQ (l : list Q) : Q := fold_right Qplus 0 l.

(** The arc length from the first point to point [j]. *)
Definition arcPrefix (Math_sqrt : Q -> Q) (points : list Vector3) (j : nat)
    : Q :=
  sumQ (take j (segDists Math_sqrt points)).

(** ** Stride phases *)

(** The number of frames from frame [f] to the next one on which the loop
    of stride [k] over the indices from [base] visits drone [i]; [0] on a
    frame that visits it. *)
Definition phase (k base i f : nat) : Z :=
  ((Z.of_nat i - Z.of_nat base - Z.of_nat f) mod Z.of_nat k)%Z.

(** The updates drone [i] receives in the [n] frames from frame [f]. *)
Fixpoint visits (k base stop i f n : nat) : nat :=
  match n with
  | O => 0%nat
  | S n' =>
      ((if bool_decide (i ∈ strideLoop (base + f mod k) stop k)
        then 1 else 0)
       + visits k base stop i (S f) n')%nat
  end.

(** ** The link between drones and commands *)

(** [c] is the id of a command of the registry. *)
Definition liveId (e : Engine) (c : Z) : Prop :=
  exists (r : ref) (cmd : Command),
    r ∈ commands e /\ lookupCmd e r = Some cmd /\ cmdId cmd = c.

(** A live drone has a command id of at least [0] exactly when it is
    attacking, and such an id is that of a command of the registry. *)
Definition commandLinked (e : Engine) : Prop :=
  forall (i : nat) (s : DroneState) (c : Z),
    (i < droneCount (state e))%nat ->
    droneState e !! i = Some s -> droneCommandId e !! i = Some c ->
    ((0 <= c)%Z <-> s = STATE_ATTACKING) /\ ((0 <= c)%Z -> liveId e c).

(** The target reference of an attacking drone is not negative. *)
Definition targetsInBounds (e : Engine) : Prop :=
  forall (i : nat) (t : Z),
    (i < droneCount (state e))%nat ->
    droneState e !! i = Some STATE_ATTACKING ->
    droneTargetId e !! i = Some t -> (0 <= t)%Z.

(** Every command object has points to steer to. *)
Definition objectsOk (e : Engine) : Prop :=
  forall (r : ref) (cmd : Command),
    lookupCmd e r = Some cmd ->
    (1 <= length (path cmd))%nat /\ (1 <= length (spreadPoints cmd))%nat.

(** What the engine maintains besides the link, and what keeps the
    drone update from raising. *)
Definition wellFormed (e : Engine) : Prop :=
  storeFits e (droneCount (state e))
  /\ targetsInBounds e
  /\ objectsOk e
  /\ (0 <= nextCommandId e)%Z.

(** The command map of a frame knows every command of the registry, and
    maps an id to an object of that id. *)
Definition cmdMapOk (e : Engine) (cmdMap : gmap Z ref) : Prop :=
  (forall c : Z, liveId e c -> is_Some (cmdMap !! c))
  /\ (forall (c : Z) (r : ref), cmdMap !! c = Some r ->
        exists cmd : Command, lookupCmd e r = Some cmd /\ cmdId cmd = c).

(** The part of a command object the link depends on. *)
Definition skeleton (cmd : Command) : Z * nat * nat :=
  (cmdId cmd, length (path cmd), length (spreadPoints cmd)).

(** The part of the engine the link depends on. *)
Definition linkView (e : Engine) :=
  (droneCount (state e), droneState e, droneCommandId e, droneTargetId e,
   (length (dronePos e), length (droneLoad e), length (droneHP e)),
   commands e, skeleton <$> commandObjs e, nextCommandId e).

(** A freshly initialised engine: [n] seeking drones, no command. *)
Definition initialEngine (n capacity : nat) (s : GameState) : Engine :=
  MkEngine (set_droneCount n s) 0 false [] [] 0 [] [] [] []
    (replicate (capacity * 3) 0) (replicate capacity (-1)%Z)
    (replicate capacity (-1)%Z) (replicate capacity STATE_MINING_SEEK)
    (replicate capacity 0) (replicate capacity 1) 0 0 [].

(** The record [(s, c, t)] of a drone respects the link in [e]. *)
Definition droneOk (e : Engine) (s : DroneState) (c t : Z) : Prop :=
  ((0 <= c)%Z <-> s = STATE_ATTACKING)
  /\ ((0 <= c)%Z -> liveId e c)
  /\ (s = STATE_ATTACKING -> (0 <= t)%Z).

(** [e'] has the drone count, the array sizes and the registry of [e],
    command objects compared by their skeleton. *)
Definition sameFrame (e e' : Engine) : Prop :=
  droneCount (state e') = droneCount (state e)
  /\ length (dronePos e') = length (dronePos e)
  /\ length (droneLoad e') = length (droneLoad e)
  /\ length (droneHP e') = length (droneHP e)
  /\ length (droneState e') = length (droneState e)
  /\ length (droneCommandId e') = length (droneCommandId e)
  /\ length (droneTargetId e') = length (droneTargetId e)
  /\ commands e' = commands e
  /\ skeleton <$> commandObjs e' = skeleton <$> commandObjs e
  /\ nextCommandId e' = nextCommandId e.

(** The missiles of the next frame: those still in flight, moved. *)
Definition survivor (dt : Q) (e : Engine) (m : Missile) : option Missile :=
  let p := addScaledVector (meshPosition m) (velocity m) dt in
  match missileFate e p with
  | InFlight => Some (MkMissile p (velocity m) (damage m))
  | _ => None
  end.

(** What one drone update guarantees for the rest of the frame. *)
Definition stepOk (e e' : Engine) (cmdMap : gmap Z ref) : Prop :=
  (wellFormed e' /\ commandLinked e')
  /\ cmdMapOk e' cmdMap
  /\ droneCount (state e') = droneCount (state e).

(** [e'] has the frame and the three link arrays of [e]. *)
Definition sameLinks (e e' : Engine) : Prop :=
  sameFrame e e'
  /\ droneState e' = droneState e
  /\ droneCommandId e' = droneCommandId e
  /\ droneTargetId e' = droneTargetId e.

(** ** The registry of commands *)

(** The ids of the commands of the registry, in registry order. *)
Definition registryIds (e : Engine) : list Z :=
  omap (fun r => cmdId <$> lookupCmd e r) (commands e).

(** What the engine keeps true of its registry: every reference has its
    object, no two commands share an id, the ids lie between [1] and
    [nextCommandId], which is not negative, and [state.activeSquads]
    counts the commands. *)
Definition registryOk (e : Engine) : Prop :=
  (forall r : ref, r ∈ commands e -> is_Some (lookupCmd e r))
  /\ NoDup (registryIds e)
  /\ (forall c : Z, c ∈ registryIds e -> (0 < c <= nextCommandId e)%Z)
  /\ (0 <= nextCommandId e)%Z
  /\ activeSquads (state e) = Z.of_nat (length (commands e)).

(** The part of the engine [registryOk] depends on. *)
Definition registryView (e : Engine) :=
  (commands e, cmdId <$> commandObjs e, nextCommandId e,
   activeSquads (state e)).

(** *** The sweep of the empty squads, from [animate] *)

(** [for (i = n - 1; i >= 0; i--)
      if (this.commands[i].activeDroneCount <= 0)
        this.removeSquad(this.commands[i].id, "")]:
    [None] is the [TypeError] of reading [activeDroneCount] off the end
    of the array. *)
Fixpoint sweepFrom (n : nat) (e : Engine) : option Engine :=
  match n with
  | O => Some e
  | S i =>
      r ← commands e !! i;
      c ← lookupCmd e r;
      sweepFrom i (if (activeDroneCount c <=? 0)%Z
                   then removeSquad (cmdId c) "" e else e)
  end.

Definition sweepSquads (e : Engine) : option Engine :=
  sweepFrom (length (commands e)) e.

(** The test of the sweep, on a reference. *)
Definition isActive (e : Engine) (r : ref) : bool :=
  match lookupCmd e r with
  | Some c => negb (activeDroneCount c <=? 0)%Z
  | None => false
  end.

(** ** The health of the live drones *)

(** Every live drone has positive health. *)
Definition hpPositive (e : Engine) : Prop :=
  forall (i : nat) (h : Q),
    (i < droneCount (state e))%nat -> droneHP e !! i = Some h -> 0 < h.

(** [dead] lists, each once, the live drones whose health is not
    positive. *)
Definition deadExactly (e : Engine) (dead : list nat) : Prop :=
  NoDup dead
  /\ (forall i : nat, i ∈ dead -> (i < droneCount (state e))%nat)
  /\ (forall (i : nat) (h : Q),
        (i < droneCount (state e))%nat -> droneHP e !! i = Some h ->
        (h <= 0 <-> i ∈ dead)).

(** ** The pointer: drawing a path and recalling a squad *)

Section Pointer.
Variable Math_sqrt : Q -> Q.

(** [addPathPoint].  [intersect] is what the ray cast from the pointer
    onto the ground plane returns: the point under the pointer, or
    [None] for [null] when the ray misses the plane.  A point is kept
    when the path is empty or its last point is further than [5]. *)
Definition addPathPoint (intersect : option Vector3) (e : Engine) : Engine :=
  match intersect with
  | None => e
  | Some p =>
      match last (pendingPath e) with
      | None => set_pendingPath (pendingPath e ++ [p]) e
      | Some q =>
          if Qlt_bool 5 (distanceTo Math_sqrt q p)
          then set_pendingPath (pendingPath e ++ [p]) e
          else e
      end
  end.

(** A stroke: [onMouseDown] with the left button empties the pending
    path and adds the point under the pointer, and every [onMouseMove]
    until the button is released adds the point then under it. *)
Definition drawStroke (hits : list (option Vector3)) (e : Engine) : Engine :=
  foldl (fun e' hit => addPathPoint hit e') (set_pendingPath [] e) hits.

(** Consecutive points of a path are further than [5] apart. *)
Definition spaced (pts : list Vector3) : Prop :=
  forall (k : nat) (a b : Vector3),
    pts !! k = Some a -> pts !! S k = Some b ->
    5 < distanceTo Math_sqrt a b.

(** The inner loop of [checkSquadClick]: some segment of the path passes
    within [30] of the point. *)
Fixpoint nearPath (p : Vector3) (pts : list Vector3) : bool :=
  match pts with
  | v :: (w :: _) as rest =>
      Qlt_bool (distToSegSq p v w) 900 || nearPath p rest
  | _ => false
  end.

(** The outer loop: the id of the first command of the registry that is
    not skipped by the test on its centre and whose path is near. *)
Fixpoint clickedSquad (e : Engine) (p : Vector3) (refs : list ref)
    : option Z :=
  match refs with
  | [] => None
  | r :: rest =>
      match lookupCmd e r with
      | Some cmd =>
          if Qlt_bool (radius cmd * radius cmd + 2500)
                      (distanceToSquared (center cmd) p)
          then clickedSquad e p rest
          else if nearPath p (path cmd) then Some (cmdId cmd)
          else clickedSquad e p rest
      | None => clickedSquad e p rest
      end
  end.

(** [checkSquadClick], on the point the ray cast returned. *)
Definition checkSquadClick (intersect : option Vector3) (e : Engine)
    : Engine :=
  match intersect with
  | None => e
  | Some p =>
      match clickedSquad e p (commands e) with
      | Some id => removeSquad id "SQUAD RECALLED" e
      | None => e
      end
  end.
End Pointer.

(** ** The shop *)

Definition set_droneSpeed (v : Q) (s : GameState) : GameState :=
  MkGameState (resources s) (droneCount s) v (miningSpeed s)
    (cargoCapacity s) (critChance s) (shieldMax s) (shieldCurrent s)
    (shieldRegen s) (hullIntegrity s) (damageMultiplier s) (wallHP s)
    (attackMode s) (deploymentRatio s) (activeSquads s) (lagOptimization s).

Definition set_miningSpeed (v : Q) (s : GameState) : GameState :=
  MkGameState (resources s) (droneCount s) (droneSpeed s) v
    (cargoCapacity s) (critChance s) (shieldMax s) (shieldCurrent s)
    (shieldRegen s) (hullIntegrity s) (damageMultiplier s) (wallHP s)
    (attackMode s) (deploymentRatio s) (activeSquads s) (lagOptimization s).

Definition set_cargoCapacity (v : Q) (s : GameState) : GameState :=
  MkGameState (resources s) (droneCount s) (droneSpeed s) (miningSpeed s)
    v (critChance s) (shieldMax s) (shieldCurrent s)
    (shieldRegen s) (hullIntegrity s) (damageMultiplier s) (wallHP s)
    (attackMode s) (deploymentRatio s) (activeSquads s) (lagOptimization s).

Definition set_critChance (v : Q) (s : GameState) : GameState :=
  MkGameState (resources s) (droneCount s) (droneSpeed s) (miningSpeed s)
    (cargoCapacity s) v (shieldMax s) (shieldCurrent s)
    (shieldRegen s) (hullIntegrity s) (damageMultiplier s) (wallHP s)
    (attackMode s) (deploymentRatio s) (activeSquads s) (lagOptimization s).

Definition set_shieldMax (v : Q) (s : GameState) : GameState :=
  MkGameState (resources s) (droneCount s) (droneSpeed s) (miningSpeed s)
    (cargoCapacity s) (critChance s) v (shieldCurrent s)
    (shieldRegen s) (hullIntegrity s) (damageMultiplier s) (wallHP s)
    (attackMode s) (deploymentRatio s) (activeSquads s) (lagOptimization s).

Definition set_shieldRegen (v : Q) (s : GameState) : GameState :=
  MkGameState (resources s) (droneCount s) (droneSpeed s) (miningSpeed s)
    (cargoCapacity s) (critChance s) (shieldMax s) (shieldCurrent s)
    v (hullIntegrity s) (damageMultiplier s) (wallHP s)
    (attackMode s) (deploymentRatio s) (activeSquads s) (lagOptimization s).

Definition set_damageMultiplier (v : Q) (s : GameState) : GameState :=
  MkGameState (resources s) (droneCount s) (droneSpeed s) (miningSpeed s)
    (cargoCapacity s) (critChance s) (shieldMax s) (shieldCurrent s)
    (shieldRegen s) (hullIntegrity s) v (wallHP s)
    (attackMode s) (deploymentRatio s) (activeSquads s) (lagOptimization s).

Definition set_wallHP (v : Q) (s : GameState) : GameState :=
  MkGameState (resources s) (droneCount s) (droneSpeed s) (miningSpeed s)
    (cargoCapacity s) (critChance s) (shieldMax s) (shieldCurrent s)
    (shieldRegen s) (hullIntegrity s) (damageMultiplier s) v
    (attackMode s) (deploymentRatio s) (activeSquads s) (lagOptimization s).

(** [this.state.resources -= c] *)
Definition pay (c : Q) (s : GameState) : GameState :=
  set_resources (resources s - c) s.

(** The upgrades: each computes its price [c] from the level it raises
    and the multiplier [m], and is bought when [resources >= c]. *)

Definition buySpeed (m : Q) (s : GameState) : GameState :=
  let c := inject_Z
             (Math_floor
                (500 * (1 + inject_Z (Math_round ((droneSpeed s - 1)
                                                  / (1 # 10)))) * m)) in
  if Qle_bool c (resources s)
  then let s1 := pay c s in set_droneSpeed (droneSpeed s1 + (1 # 10) * m) s1
  else s.

Definition buyMining (m : Q) (s : GameState) : GameState :=
  let c := inject_Z
             (Math_floor
                (800 * (1 + inject_Z (Math_round ((miningSpeed s - 1)
                                                  / (2 # 10)))) * m)) in
  if Qle_bool c (resources s)
  then let s1 := pay c s in
       set_miningSpeed (miningSpeed s1 + (2 # 10) * m) s1
  else s.

Definition buyCargo (m : Q) (s : GameState) : GameState :=
  let c := 1000 * cargoCapacity s * m in
  if Qle_bool c (resources s)
  then let s1 := pay c s in set_cargoCapacity (cargoCapacity s1 + 1 * m) s1
  else s.

Definition buyCrit (m : Q) (s : GameState) : GameState :=
  let c := 2000 * (1 + inject_Z (Math_floor (critChance s * 10))) * m in
  if Qle_bool c (resources s)
  then let s1 := pay c s in set_critChance (critChance s1 + (1 # 100) * m) s1
  else s.

Definition buyShield (m : Q) (s : GameState) : GameState :=
  let c := 5000 * (1 + shieldMax s / 500) * m in
  if Qle_bool c (resources s)
  then let s1 := pay c s in
       let s2 := set_shieldMax (shieldMax s1 + 100 * m) s1 in
       set_shieldCurrent (shieldMax s2) s2
  else s.

Definition buyDamage (m : Q) (s : GameState) : GameState :=
  let c := 5000 * inject_Z (Math_round (damageMultiplier s)) * m in
  if Qle_bool c (resources s)
  then let s1 := pay c s in
       set_damageMultiplier (damageMultiplier s1 + (1 # 10) * m) s1
  else s.

Definition buyWallHP (m : Q) (s : GameState) : GameState :=
  let c := 3000 * (wallHP s - 1) * m in
  if Qle_bool c (resources s)
  then let s1 := pay c s in set_wallHP (wallHP s1 + 1 * m) s1
  else s.

Definition buyShieldRegen (m : Q) (s : GameState) : GameState :=
  let c := 8000 * (1 + shieldRegen s) * m in
  if Qle_bool c (resources s)
  then let s1 := pay c s in set_shieldRegen (shieldRegen s1 + (2 # 10) * m) s1
  else s.

Definition repairHull (s : GameState) : GameState :=
  if Qlt_bool (hullIntegrity s) 100 && Qle_bool 500 (resources s)
  then let s1 := pay 500 s in
       set_hullIntegrity (Qmin 100 (hullIntegrity s1 + 10)) s1
  else s.

(** The fields of [this.state] that the purchase of drones reads besides
    those of [GameState], with [config.isTutorial].  [softMaxDrones] is
    a whole number of drones. *)
Record Progress := MkProgress {
  tutorialStep : Z;
  softMaxDrones : Z;
  customMaxDronesEnabled : bool;
  isTutorial : bool
}.

Definition set_tutorialStep (v : Z) (p : Progress) : Progress :=
  MkProgress v (softMaxDrones p) (customMaxDronesEnabled p) (isTutorial p).

Definition set_softMaxDrones (v : Z) (p : Progress) : Progress :=
  MkProgress (tutorialStep p) v (customMaxDronesEnabled p) (isTutorial p).

(** [setSoftMaxDrones]; the saving of the settings is not modelled. *)
Definition setSoftMaxDrones (limit : Z) (p : Progress) : Progress :=
  set_softMaxDrones (Z.max 100 (Z.min MAX_DRONES limit)) p.

Section Shop.
Variables Math_sin Math_cos : Q -> Q.
Variable Math_random : nat -> Q.
Variable Math_PI : Q.
Variable toLocaleString : Z -> string.

(** [initDrone]: a position on a ring around the mothership, three
    random draws, and the record of an idle drone. *)
Definition initDrone (i : nat) (e : Engine) : Engine :=
  let a := Math_random (randomCalls e) * Math_PI * 2 in
  let r := 30 + Math_random (S (randomCalls e)) * 20 in
  let y := 10 + Math_random (S (S (randomCalls e))) * 10 in
  let e1 := writePos i (Vec3 (Math_cos a * r) y (Math_sin a * r)) e in
  let e2 := set_randomCalls (randomCalls e1 + 3)%nat e1 in
  let e3 := set_droneState (<[i := STATE_MINING_SEEK]> (droneState e2)) e2 in
  let e4 := set_droneTargetId (<[i := (-1)%Z]> (droneTargetId e3)) e3 in
  let e5 := set_droneCommandId (<[i := (-1)%Z]> (droneCommandId e4)) e4 in
  let e6 := set_droneLoad (<[i := 0]> (droneLoad e5)) e5 in
  set_droneHP (<[i := 1]> (droneHP e6)) e6.

(** [limit] *)
Definition droneLimit (p : Progress) : Z :=
  if customMaxDronesEnabled p then Z.min MAX_DRONES (softMaxDrones p)
  else MAX_DRONES.

(** [buyDrones(amt, cost)], for a whole number [amt] of drones. *)
Definition buyDrones (amt : nat) (cost : Q) (g : Engine * Progress)
    : Engine * Progress :=
  let '(e, p) := g in
  if Qlt_bool (resources (state e)) 1 then g
  else
    let p1 := if isTutorial p && (tutorialStep p =? 1)%Z
              then set_tutorialStep 2 p else p in
    let availableSpace := (droneLimit p1 - Z.of_nat (droneCount (state e)))%Z in
    if (availableSpace <=? 0)%Z then
      (emit (Text (if customMaxDronesEnabled p1
                   then "CUSTOM LIMIT REACHED"
                   else "SYSTEM CAPACITY REACHED")) e, p1)
    else
      let partialFill := (availableSpace <? Z.of_nat amt)%Z in
      let actualAmount :=
        if partialFill then availableSpace else Z.of_nat amt in
      let actualCost :=
        if partialFill
        then inject_Z (Math_ceil (cost / inject_Z (Z.of_nat amt)
                                  * inject_Z actualAmount))
        else cost in
      if Qle_bool actualCost (resources (state e)) then
        let e1 := set_state (pay actualCost (state e)) e in
        let s := droneCount (state e1) in
        let e2 := foldl (fun e' i => initDrone i e') e1
                    (seq s (Z.to_nat actualAmount)) in
        let e3 := set_state
                    (set_droneCount (s + Z.to_nat actualAmount)%nat
                       (state e2)) e2 in
        let e4 := if (actualAmount <? Z.of_nat amt)%Z
                  then emit (Text ("PARTIAL FILL: +"
                                   ++ toLocaleString actualAmount)) e3
                  else e3 in
        (e4, p1)
      else (e, p1).
End Shop.

(** ** An engine of full size, for the examples of the shop *)

(** Five drones in arrays of [MAX_DRONES] slots, a hundred resources. *)
Definition fullEngine : Engine :=
  initialEngine 5 (Z.to_nat MAX_DRONES) (set_resources 100 exampleState).

(** The settings as the constructor leaves them. *)
Definition defaultProgress : Progress := MkProgress 0 2500000 false false.

(** A host that prints no digit. *)
Definition noDigits (_ : Z) : string := EmptyString.

(** The points a drone of the command steers to: the spread points of a
    Wall, the path of a Swarm. *)
Definition commandPoints (cmd : Command) : list Vector3 :=
  match cmdType cmd with
  | WALL => spreadPoints cmd
  | SWARM => path cmd
  end.

(** ** An engine with asteroids, for the examples of mining *)

(** Two seeking drones at the base, neither with a target yet, and two
    asteroids. *)
Definition miningEngine : Engine :=
  MkEngine (set_droneCount 2 exampleState) 0 false [] [] 0 []
    [Vec3 300 0 0; Vec3 0 0 300] [] []
    [0; 10; 0; 0; 10; 0]
    [(-1)%Z; (-1)%Z] [(-1)%Z; (-1)%Z]
    [STATE_MINING_SEEK; STATE_MINING_SEEK] [0; 0] [1; 1]
    0 0 [].

(** The second of them, as the update reads it. *)
Definition secondMiner : Drone :=
  MkDrone (Vec3 0 10 0) STATE_MINING_SEEK (-1) (-1) 0 1.

(** ** The ledger of the mining economy *)

(** No drone carries a negative load. *)
Definition loadsNonneg (e : Engine) : Prop :=
  Forall (fun l : Q => 0 <= l) (droneLoad e).

(** What the mining economy reads: the loads, the resources and the
    mining speed. *)
Definition ledger (e : Engine) : list Q * Q * Q :=
  (droneLoad e, resources (state e), miningSpeed (state e)).

(** From [e] to [e'] the resources did not shrink, the mining speed did
    not change, and no load is negative afterwards. *)
Definition earns (e e' : Engine) : Prop :=
  miningSpeed (state e') = miningSpeed (state e)
  /\ resources (state e) <= resources (state e')
  /\ loadsNonneg e'.

(** ** The shield over a frame *)

(** The shield line of the block [animate] runs while no enemy is left
    (the hull line beside it reads [hullRegen], which the state above
    does not carry).  The sum is not capped. *)
Definition idleShieldRegen (dt : Q) (s : GameState) : GameState :=
  if Qlt_bool (shieldCurrent s) (shieldMax s)
  then set_shieldCurrent (shieldCurrent s + dt * 50) s
  else s.

(** The shield and its capacity. *)
Definition shieldOf (e : Engine) : Q * Q :=
  (shieldCurrent (state e), shieldMax (state e)).

(** The shield is at most five above its capacity. *)
Definition shieldBounded (s : GameState) : Prop :=
  shieldCurrent s <= shieldMax s + 5.

(** ** The drone update over frames *)

Definition set_frame (v : nat) (e : Engine) : Engine :=
  MkEngine (state e) (gameTime e) (isGameOver e) (commandObjs e) (commands e)
    (nextCommandId e) (enemies e) (asteroids e) (missiles e) (pendingPath e)
    (dronePos e) (droneTargetId e) (droneCommandId e) (droneState e)
    (droneLoad e) (droneHP e) v (randomCalls e) (callbacks e).

(** [this.renderer.render(this.scene, this.camera)], the statement that
    ends [animate]: of what the renderer does the engine reads only the
    number of the frames drawn, [renderer.info.render.frame], which the
    call increments. *)
Definition render (e : Engine) : Engine := set_frame (S (frame e)) e.

Section Frames.
Variables Math_sqrt Math_sin Math_cos : Q -> Q.
Variable Math_random : nat -> Q.

(** A frame in which nothing but [updateDrones] acts on the store. *)
Definition droneFrame (dt : Q) (e : Engine) : option Engine :=
  e' ← updateDrones Math_sqrt Math_sin Math_cos Math_random dt e;
  Some (render e').

(** [n] such frames in a row. *)
Fixpoint droneFrames (dt : Q) (n : nat) (e : Engine) : option Engine :=
  match n with
  | O => Some e
  | S n' => e' ← droneFrame dt e; droneFrames dt n' e'
  end.
End Frames.

(** [visibleCap] *)
Definition visibleCap (e : Engine) : nat :=
  Z.to_nat (Z.min (Z.of_nat (droneCount (state e)))
                  (if lagOptimization (state e)
                   then OPTIMIZED_RENDER_CAP else MAX_DRONES)).

(** The loop of [updateDrones] that visits drone [i]: its stride, its
    first index and its bound. *)
Definition strideOf (e : Engine) (i : nat) : nat :=
  if (i <? visibleCap e)%nat
  then fgStride (lagOptimization (state e)) (visibleCap e)
  else bgStride (droneCount (state e) - visibleCap e).

Definition loopBase (e : Engine) (i : nat) : nat :=
  if (i <? visibleCap e)%nat then 0%nat else visibleCap e.

Definition loopStop (e : Engine) (i : nat) : nat :=
  if (i <? visibleCap e)%nat then visibleCap e else droneCount (state e).

(** [state.droneSpeed * 20 * dt], the movement budget of one frame. *)
Definition perFrame (e : Engine) (dt : Q) : Q :=
  droneSpeed (state e) * 20 * dt.

(** [this._pos] as the update of drone [i] reads it. *)
Definition dronePosition (e : Engine) (i : nat) : option Vector3 :=
  dPos <$> readDrone e i.

(** The index at which a Wall drone reads its slot:
    [if (tIdx >= pts.length) tIdx = tIdx % pts.length]. *)
Definition wallIndex (cmd : Command) (tIdx : Z) : Z :=
  let len := Z.of_nat (length (spreadPoints cmd)) in
  if (len <=? tIdx)%Z then Z.rem tIdx len else tIdx.

(** The dock a returning drone steers to: [_target.set(0, 10, 0)]. *)
Definition dock : Vector3 := Vec3 0 10 0.

(** Drone [i] steers to the fixed point [target]: it is returning,
    which takes it to the dock, or it is attacking for a Wall of the
    registry and [target] is its slot.  (A seeking drone circles its
    asteroid and a Swarm drone goes from waypoint to waypoint.) *)
Definition steersTo (e : Engine) (i : nat) (target : Vector3) : Prop :=
  (droneState e !! i = Some STATE_RETURNING /\ target = dock)
  \/ (droneState e !! i = Some STATE_ATTACKING
      /\ exists (c t : Z) (r : ref) (cmd : Command),
           droneCommandId e !! i = Some c
           /\ droneTargetId e !! i = Some t
           /\ r ∈ commands e /\ lookupCmd e r = Some cmd /\ cmdId cmd = c
           /\ cmdType cmd = WALL
           /\ pointAt (spreadPoints cmd) (wallIndex cmd t) = Some target).

(** The same within a frame, where the command is found through the
    frame's [cmdMap]. *)
Definition heading (e : Engine) (cmdMap : gmap Z ref) (d : Drone)
    (target : Vector3) : Prop :=
  (dState d = STATE_RETURNING /\ cmdMap !! dCommand d = None
   /\ target = dock)
  \/ (dState d = STATE_ATTACKING
      /\ exists (r : ref) (cmd : Command),
           cmdMap !! dCommand d = Some r /\ lookupCmd e r = Some cmd
           /\ cmdType cmd = WALL
           /\ pointAt (spreadPoints cmd) (wallIndex cmd (dTarget d))
              = Some target).

(** The record of a drone after it has moved to [p]. *)
Definition movedTo (p : Vector3) (d : Drone) : Drone :=
  MkDrone p (dState d) (dTarget d) (dCommand d) (dLoad d) (dHP d).

(** What a command object is apart from its [activeDroneCount]. *)
Definition plan (cmd : Command)
    : Z * AttackMode * list Vector3 * list Vector3 :=
  (cmdId cmd, cmdType cmd, path cmd, spreadPoints cmd).

(** From [e] to [e'] the command objects kept their plans, the registry
    gained no command, and the scheduler reads the same drone count,
    optimisation flag, speed and frame number. *)
Definition sameSchedule (e e' : Engine) : Prop :=
  plan <$> commandObjs e' = plan <$> commandObjs e
  /\ (forall r : ref, r ∈ commands e' -> r ∈ commands e)
  /\ droneCount (state e') = droneCount (state e)
  /\ lagOptimization (state e') = lagOptimization (state e)
  /\ droneSpeed (state e') = droneSpeed (state e)
  /\ frame e' = frame e.

(** The point at distance [s] from [pos] on the segment of length [D]
    from [pos] to [target]. *)
Definition along (pos target : Vector3) (D s : Q) : Vector3 :=
  lerpVectors pos target (s / D).

(** ** A crowded engine, for the examples of the stride scheduler *)

(** A hundred thousand and one drones, none of them assigned. *)
Definition crowd : nat := Z.to_nat 100001.

Definition crowdState (lagOpt : bool) : GameState :=
  MkGameState 0 crowd 1 1 1 (5 # 100) 10 10 1 100 1 3 WALL (1 # 2) 0 lagOpt.

(** Drone 7 is returning from [(30, 50, 0)], fifty away from the dock;
    every other drone is seeking. *)
Definition crowdEngine (lagOpt : bool) : Engine :=
  MkEngine (crowdState lagOpt) 0 false [] [] 0 [] [] [] []
    (<[23%nat := 0]>
       (<[22%nat := 50]> (<[21%nat := 30]> (replicate (crowd * 3) 0))))
    (replicate crowd (-1)%Z) (replicate crowd (-1)%Z)
    (<[7%nat := STATE_RETURNING]> (replicate crowd STATE_MINING_SEEK))
    (replicate crowd 0) (replicate crowd 1) 0 0 [].

(** * Properties *)

(** ** Rounding to the nearest double *)

Lemma roundEven_cases (x : Q) :
  roundEven x = Qfloor x \/ roundEven x = (Qfloor x + 1)%Z.
Proof.
  unfold roundEven. destruct (_ ?= _); [destruct (Z.even _) | |]; auto.
Qed.

Lemma roundEven_mono (x y : Q) : x <= y -> (roundEven x <= roundEven y)%Z.
Proof.
  intros Hxy. pose proof (Qfloor_resp_le x y Hxy) as Hf.
  destruct (Z.eq_dec (Qfloor x) (Qfloor y)) as [Heq|Hne].
  - unfold roundEven. rewrite <- Heq.
    destruct (Qcompare_spec (x - inject_Z (Qfloor x)) (1 # 2)) as [Hx|Hx|Hx];
      destruct (Qcompare_spec (y - inject_Z (Qfloor x)) (1 # 2)) as [Hy|Hy|Hy];
      try destruct (Z.even (Qfloor x)); try lia; exfalso; lra.
  - destruct (roundEven_cases x) as [-> | ->];
      destruct (roundEven_cases y) as [-> | ->]; lia.
Qed.

Lemma roundEven_comp (x y : Q) : x == y -> roundEven x = roundEven y.
Proof.
  intros H. apply Z.le_antisymm; apply roundEven_mono; rewrite H;
    apply Qle_refl.
Qed.

Lemma roundEven_Z (z : Z) : roundEven (inject_Z z) = z.
Proof.
  unfold roundEven. rewrite Qfloor_Z.
  destruct (Qcompare_spec (inject_Z z - inject_Z z) (1 # 2)) as [H|H|H];
    [exfalso; lra | reflexivity | exfalso; lra].
Qed.

Lemma pow2_pos (e : Z) : 0 < 2 ^ e.
Proof. apply Qpower_0_lt. reflexivity. Qed.

Lemma pow2_S (e : Z) : 2 ^ (e + 1) == 2 * 2 ^ e.
Proof.
  rewrite Qpower_plus by (intros H; discriminate H).
  rewrite Qmult_comm. reflexivity.
Qed.

Lemma pow2_le (a b : Z) : (a <= b)%Z -> 2 ^ a <= 2 ^ b.
Proof. intros H. apply Qpower_le_compat_l; [exact H | discriminate]. Qed.

Lemma ratio_bounds (A B N D : Q) :
  0 < A -> 0 < B -> A <= N -> N < 2 * A -> B <= D -> D < 2 * B ->
  N / D < 2 * (A / B) /\ A / B < 2 * (N / D).
Proof.
  intros HA HB H1 H2 H3 H4.
  assert (HN : 0 < N) by lra. assert (HD : 0 < D) by lra.
  assert (HnB : ~ B == 0) by lra. assert (HnD : ~ D == 0) by lra.
  split.
  - apply Qlt_shift_div_r; [exact HD |].
    assert (E : 2 * (A / B) * D == (2 * A * D) / B) by (field; exact HnB).
    rewrite E. apply Qlt_shift_div_l; [exact HB |].
    apply Qlt_le_trans with (2 * A * B).
    + apply Qmult_lt_compat_r; [exact HB | exact H2].
    + apply Qmult_le_l; [lra | exact H3].
  - apply Qlt_shift_div_r; [exact HB |].
    assert (E : 2 * (N / D) * B == (2 * N * B) / D) by (field; exact HnD).
    rewrite E. apply Qlt_shift_div_l; [exact HD |].
    apply Qlt_le_trans with (A * (2 * B)).
    + apply Qmult_lt_l; [exact HA | exact H4].
    + assert (E2 : A * (2 * B) == 2 * A * B) by ring.
      assert (E3 : 2 * N * B == 2 * B * N) by ring.
      assert (E4 : 2 * A * B == 2 * B * A) by ring.
      rewrite E2, E3, E4. apply Qmult_le_l; [lra | exact H1].
Qed.

Lemma Qlog2_spec (q : Q) :
  0 < q -> 2 ^ Qlog2 q <= q /\ q < 2 ^ (Qlog2 q + 1).
Proof.
  intros Hq. destruct q as [n d].
  assert (Hn : (0 < n)%Z).
  { unfold Qlt in Hq. simpl in Hq. lia. }
  unfold Qlog2. cbn [Qnum Qden].
  set (a := Z.log2 n). set (b := Z.log2 (Zpos d)).
  pose proof (Z.log2_spec n Hn) as [Ha1 Ha2]. fold a in Ha1, Ha2.
  pose proof (Z.log2_spec (Zpos d) ltac:(lia)) as [Hb1 Hb2].
  fold b in Hb1, Hb2.
  pose proof (Z.log2_nonneg n) as Ha0. fold a in Ha0.
  pose proof (Z.log2_nonneg (Zpos d)) as Hb0. fold b in Hb0.
  assert (HA1 : 2 ^ a <= inject_Z n).
  { change 2 with (inject_Z 2). rewrite <- Zpower_Qpower by exact Ha0.
    rewrite <- Zle_Qle. exact Ha1. }
  assert (HA2 : inject_Z n < 2 * 2 ^ a).
  { rewrite <- pow2_S. change 2 with (inject_Z 2).
    rewrite <- Zpower_Qpower by lia. rewrite <- Zlt_Qlt.
    replace (a + 1)%Z with (Z.succ a) by lia. exact Ha2. }
  assert (HB1 : 2 ^ b <= inject_Z (Zpos d)).
  { change 2 with (inject_Z 2). rewrite <- Zpower_Qpower by exact Hb0.
    rewrite <- Zle_Qle. exact Hb1. }
  assert (HB2 : inject_Z (Zpos d) < 2 * 2 ^ b).
  { rewrite <- pow2_S. change 2 with (inject_Z 2).
    rewrite <- Zpower_Qpower by lia. rewrite <- Zlt_Qlt.
    replace (b + 1)%Z with (Z.succ b) by lia. exact Hb2. }
  assert (Hq' : n # d == inject_Z n / inject_Z (Zpos d)) by apply Qmake_Qdiv.
  assert (Hg : 2 ^ (a - b) == 2 ^ a / 2 ^ b)
    by (apply Qpower_minus; intros H; discriminate H).
  destruct (ratio_bounds (2 ^ a) (2 ^ b) (inject_Z n) (inject_Z (Zpos d))
              (pow2_pos a) (pow2_pos b) HA1 HA2 HB1 HB2) as [Hup Hlo].
  rewrite <- Hq', <- Hg in Hup, Hlo.
  destruct (Qle_bool (2 ^ (a - b)) (n # d)) eqn:Ht.
  - apply Qle_bool_iff in Ht. split; [exact Ht |].
    rewrite pow2_S. exact Hup.
  - assert (Hlt : n # d < 2 ^ (a - b)).
    { apply Qnot_le_lt. intros H. apply Qle_bool_iff in H. congruence. }
    replace (a - b - 1 + 1)%Z with (a - b)%Z by lia.
    split; [| exact Hlt].
    assert (E : 2 ^ (a - b) == 2 * 2 ^ (a - b - 1)).
    { rewrite <- pow2_S. replace (a - b - 1 + 1)%Z with (a - b)%Z by lia.
      reflexivity. }
    rewrite E in Hlo. lra.
Qed.

Lemma Qlog2_mono (x y : Q) : 0 < x -> x <= y -> (Qlog2 x <= Qlog2 y)%Z.
Proof.
  intros Hx Hxy.
  destruct (Qlog2_spec x Hx) as [Hx1 _].
  destruct (Qlog2_spec y ltac:(lra)) as [_ Hy2].
  destruct (Z.le_gt_cases (Qlog2 x) (Qlog2 y)) as [H|H]; [exact H |].
  exfalso. pose proof (pow2_le (Qlog2 y + 1) (Qlog2 x) ltac:(lia)). lra.
Qed.

Lemma Qlog2_unique (q : Q) (l : Z) :
  2 ^ l <= q -> q < 2 ^ (l + 1) -> Qlog2 q = l.
Proof.
  intros H1 H2. pose proof (pow2_pos l) as Hl.
  destruct (Qlog2_spec q ltac:(lra)) as [S1 S2].
  destruct (Z.lt_trichotomy (Qlog2 q) l) as [H | [H | H]]; [| exact H |];
    exfalso.
  - pose proof (pow2_le (Qlog2 q + 1) l ltac:(lia)). lra.
  - pose proof (pow2_le (l + 1) (Qlog2 q) ltac:(lia)). lra.
Qed.

Lemma ulpExp_mono (x y : Q) : 0 < x -> x <= y -> (ulpExp x <= ulpExp y)%Z.
Proof.
  intros Hx Hxy. unfold ulpExp. pose proof (Qlog2_mono x y Hx Hxy). lia.
Qed.

(** The scaled value lies below [2 ^ 53], and from [2 ^ 52] on for a
    normal number. *)
Lemma scaled_bounds (q : Q) :
  0 < q ->
  q / 2 ^ ulpExp q < 2 ^ 53
  /\ ((-1074 < ulpExp q)%Z -> 2 ^ 52 <= q / 2 ^ ulpExp q).
Proof.
  intros Hq. destruct (Qlog2_spec q Hq) as [S1 S2].
  pose proof (pow2_pos (ulpExp q)) as He.
  split.
  - apply Qlt_shift_div_r; [exact He |].
    rewrite <- Qpower_plus by (intros H; discriminate H).
    apply Qlt_le_trans with (2 ^ (Qlog2 q + 1)); [exact S2 |].
    apply pow2_le. unfold ulpExp. lia.
  - intros Hnorm. apply Qle_shift_div_l; [exact He |].
    rewrite <- Qpower_plus by (intros H; discriminate H).
    apply Qle_trans with (2 ^ Qlog2 q); [| exact S1].
    apply pow2_le. unfold ulpExp in *. lia.
Qed.

Lemma roundPos_bounds (q : Q) :
  0 < q ->
  0 <= roundPos q
  /\ roundPos q <= 2 ^ (ulpExp q + 53)
  /\ ((-1074 < ulpExp q)%Z -> 2 ^ (ulpExp q + 52) <= roundPos q).
Proof.
  intros Hq. destruct (scaled_bounds q Hq) as [B1 B2].
  pose proof (pow2_pos (ulpExp q)) as He.
  unfold roundPos. cbv zeta.
  set (s := q / 2 ^ ulpExp q) in *.
  assert (Hs : 0 <= s).
  { unfold s. apply Qle_shift_div_l; [exact He | lra]. }
  assert (H0 : (0 <= roundEven s)%Z).
  { rewrite <- (roundEven_Z 0). apply roundEven_mono. exact Hs. }
  assert (H53 : (roundEven s <= 2 ^ 53)%Z).
  { rewrite <- (roundEven_Z (2 ^ 53)). apply roundEven_mono.
    apply Qlt_le_weak. exact B1. }
  split; [| split].
  - apply Qmult_le_0_compat; [| lra].
    change 0 with (inject_Z 0). rewrite <- Zle_Qle. exact H0.
  - rewrite Qpower_plus by (intros H; discriminate H).
    rewrite (Qmult_comm (2 ^ ulpExp q)).
    apply Qmult_le_compat_r; [| lra].
    change (2 ^ 53) with (inject_Z (2 ^ 53)). rewrite <- Zle_Qle. exact H53.
  - intros Hnorm. specialize (B2 Hnorm).
    rewrite Qpower_plus by (intros H; discriminate H).
    rewrite (Qmult_comm (2 ^ ulpExp q)).
    apply Qmult_le_compat_r; [| lra].
    change (2 ^ 52) with (inject_Z (2 ^ 52)). rewrite <- Zle_Qle.
    rewrite <- (roundEven_Z (2 ^ 52)). apply roundEven_mono. exact B2.
Qed.

Lemma roundPos_mono (x y : Q) : 0 < x -> x <= y -> roundPos x <= roundPos y.
Proof.
  intros Hx Hxy. assert (Hy : 0 < y) by lra.
  pose proof (ulpExp_mono x y Hx Hxy) as He.
  destruct (Z.eq_dec (ulpExp x) (ulpExp y)) as [Heq|Hne].
  - unfold roundPos. cbv zeta. rewrite <- Heq.
    pose proof (pow2_pos (ulpExp x)) as Hp.
    apply Qmult_le_compat_r; [| lra].
    rewrite <- Zle_Qle. apply roundEven_mono.
    unfold Qdiv. apply Qmult_le_compat_r; [exact Hxy |].
    apply Qlt_le_weak, Qinv_lt_0_compat, Hp.
  - destruct (roundPos_bounds x Hx) as (_ & Hup & _).
    destruct (roundPos_bounds y Hy) as (_ & _ & Hlo).
    assert (Hmin : (-1074 <= ulpExp x)%Z) by (unfold ulpExp; lia).
    specialize (Hlo ltac:(lia)).
    pose proof (pow2_le (ulpExp x + 53) (ulpExp y + 52) ltac:(lia)). lra.
Qed.

Lemma roundPos_comp (x y : Q) : 0 < x -> x == y -> roundPos x == roundPos y.
Proof.
  intros Hx Hxy. apply Qle_antisym; apply roundPos_mono; lra.
Qed.

Lemma roundDouble_mono (x y : Q) : x <= y -> roundDouble x <= roundDouble y.
Proof.
  intros Hxy. unfold roundDouble.
  destruct (Qcompare_spec x 0) as [Hx|Hx|Hx];
    destruct (Qcompare_spec y 0) as [Hy|Hy|Hy]; try (exfalso; lra).
  - apply Qle_refl.
  - apply roundPos_bounds, Hy.
  - pose proof (roundPos_bounds (- x) ltac:(lra)). lra.
  - pose proof (roundPos_mono (- y) (- x) ltac:(lra) ltac:(lra)). lra.
  - pose proof (roundPos_bounds (- x) ltac:(lra)).
    pose proof (roundPos_bounds y Hy). lra.
  - apply roundPos_mono; assumption.
Qed.

Lemma roundDouble_comp (x y : Q) : x == y -> roundDouble x == roundDouble y.
Proof.
  intros Hxy. apply Qle_antisym; apply roundDouble_mono; lra.
Qed.

#[global] Instance roundDouble_Proper : Proper (Qeq ==> Qeq) roundDouble.
Proof. intros x y H. apply roundDouble_comp, H. Qed.

Lemma roundDouble_nonneg (x : Q) : 0 <= x -> 0 <= roundDouble x.
Proof. intros H. apply (roundDouble_mono 0 x H). Qed.

(** Whole numbers below [2 ^ 53] are doubles. *)
Lemma roundDouble_Z (z : Z) :
  (Z.abs z < 2 ^ 53)%Z -> roundDouble (inject_Z z) == inject_Z z.
Proof.
  assert (Hpos : forall p : Z, (0 < p < 2 ^ 53)%Z ->
            roundPos (inject_Z p) == inject_Z p).
  { intros p [Hp0 Hp]. assert (Hq : 0 < inject_Z p).
    { change 0 with (inject_Z 0). rewrite <- Zlt_Qlt. exact Hp0. }
    destruct (Qlog2_spec (inject_Z p) Hq) as [S1 _].
    assert (Hl : (Qlog2 (inject_Z p) <= 52)%Z).
    { destruct (Z.le_gt_cases (Qlog2 (inject_Z p)) 52) as [H|H]; [exact H |].
      exfalso. pose proof (pow2_le 53 (Qlog2 (inject_Z p)) ltac:(lia)) as H53.
      assert (inject_Z p < 2 ^ 53).
      { change (2 ^ 53) with (inject_Z (2 ^ 53)). rewrite <- Zlt_Qlt.
        exact Hp. }
      lra. }
    unfold roundPos. cbv zeta.
    set (e := ulpExp (inject_Z p)).
    assert (He : (e <= 0)%Z) by (unfold e, ulpExp; lia).
    pose proof (pow2_pos e) as Pe.
    assert (Hinv : / 2 ^ e == inject_Z (2 ^ (- e))).
    { rewrite <- Qpower_opp. change 2 with (inject_Z 2) at 1.
      rewrite Zpower_Qpower by lia. reflexivity. }
    assert (Hs : inject_Z p / 2 ^ e == inject_Z (p * 2 ^ (- e))).
    { unfold Qdiv. rewrite Hinv, inject_Z_mult. reflexivity. }
    rewrite (roundEven_comp _ _ Hs), roundEven_Z, inject_Z_mult, <- Hinv.
    field. lra. }
  intros Hz. unfold roundDouble.
  destruct (Qcompare_spec (inject_Z z) 0) as [H|H|H].
  - symmetry. exact H.
  - change 0 with (inject_Z 0) in H. rewrite <- Zlt_Qlt in H.
    rewrite <- inject_Z_opp, (Hpos (- z)%Z) by lia.
    rewrite inject_Z_opp. ring.
  - change 0 with (inject_Z 0) in H. rewrite <- Zlt_Qlt in H.
    apply Hpos. lia.
Qed.

(** ** Comparisons *)

Lemma Qlt_bool_iff (a b : Q) : Qlt_bool a b = true <-> a < b.
Proof.
  unfold Qlt_bool. rewrite negb_true_iff, <- not_true_iff_false, Qle_bool_iff.
  split; intros H; lra.
Qed.

Lemma Qlt_bool_false (a b : Q) : Qlt_bool a b = false <-> b <= a.
Proof.
  unfold Qlt_bool. rewrite negb_false_iff, Qle_bool_iff. reflexivity.
Qed.

Lemma Qle_bool_false (a b : Q) : Qle_bool a b = false <-> b < a.
Proof.
  rewrite <- not_true_iff_false, Qle_bool_iff. split; intros H; lra.
Qed.

Ltac qbool :=
  repeat match goal with
  | H : Qlt_bool _ _ = true |- _ => apply Qlt_bool_iff in H
  | H : Qlt_bool _ _ = false |- _ => apply Qlt_bool_false in H
  | H : Qle_bool _ _ = true |- _ => apply Qle_bool_iff in H
  | H : Qle_bool _ _ = false |- _ => apply Qle_bool_false in H
  end.

(** ** Enemy shield and hull under a melee hit *)

Lemma applyMeleeHit_front (dmg d : Q) (en : Enemy) :
  - (1 # 5) < d -> 0 < shield en ->
  applyMeleeHit dmg d en =
    if Qlt_bool (shield en - dmg) 0
    then MkEnemy (position en) (hp en + (shield en - dmg)) 0
    else MkEnemy (position en) (hp en) (shield en - dmg).
Proof.
  intros Hd Hs. unfold applyMeleeHit.
  apply Qlt_bool_iff in Hd, Hs. rewrite Hd, Hs. reflexivity.
Qed.

Lemma applyMeleeHit_other (dmg d : Q) (en : Enemy) :
  d <= - (1 # 5) \/ shield en <= 0 ->
  applyMeleeHit dmg d en =
    MkEnemy (position en)
      (if Qlt_bool 0 (shield en) then hp en - dmg - dmg * (1 # 2)
       else hp en - dmg)
      (shield en).
Proof.
  intros H. unfold applyMeleeHit.
  assert (Qlt_bool (- (1 # 5)) d && Qlt_bool 0 (shield en) = false) as ->.
  { apply andb_false_iff. rewrite !Qlt_bool_false. exact H. }
  destruct (Qlt_bool 0 (shield en)); reflexivity.
Qed.

(** C7. A hit routed to the shield (cosine above [-0.2], shield
    positive) of damage [dmg]: when the shield covers it, the shield drops
    by [dmg] and [hp] is unchanged; when it does not, the shield becomes
    [0] and [hp] drops by the excess [dmg - shield]. *)
Theorem enemy_shield_overflow_carry (dmg d : Q) (en : Enemy) :
  - (1 # 5) < d -> 0 < shield en ->
  (dmg <= shield en ->
     shield (applyMeleeHit dmg d en) == shield en - dmg
     /\ hp (applyMeleeHit dmg d en) = hp en)
  /\ (shield en < dmg ->
        shield (applyMeleeHit dmg d en) = 0
        /\ hp (applyMeleeHit dmg d en) == hp en - (dmg - shield en)).
Proof.
  intros Hd Hs. rewrite (applyMeleeHit_front dmg d en Hd Hs).
  split; intros Hcmp.
  - assert (Qlt_bool (shield en - dmg) 0 = false) as ->.
    { apply Qlt_bool_false. lra. }
    simpl. split; reflexivity.
  - assert (Qlt_bool (shield en - dmg) 0 = true) as ->.
    { apply Qlt_bool_iff. lra. }
    simpl. split; [reflexivity | lra].
Qed.

(** The scenario of the specification: shield 10, damage 15. *)
Lemma enemy_shield_overflow_carry_witness :
  shield (applyMeleeHit 15 1 (MkEnemy (Vec3 100 0 0) 50 10)) = 0
  /\ hp (applyMeleeHit 15 1 (MkEnemy (Vec3 100 0 0) 50 10)) == 50 - (15 - 10).
Proof.
  apply (enemy_shield_overflow_carry 15 1 (MkEnemy (Vec3 100 0 0) 50 10));
    simpl; reflexivity.
Defined.

(** ** Missiles and the mothership *)

Lemma hitMothership_shielded (m : Missile) (e : Engine) :
  0 < shieldCurrent (state e) ->
  hitMothership m e =
    set_state
      (set_shieldCurrent (shieldCurrent (state e) - damage m * 2) (state e)) e.
Proof.
  intros H. unfold hitMothership. apply Qlt_bool_iff in H. rewrite H.
  reflexivity.
Qed.

Lemma hitMothership_bare (m : Missile) (e : Engine) :
  shieldCurrent (state e) <= 0 ->
  let e1 := set_state
              (set_hullIntegrity (hullIntegrity (state e) - damage m) (state e))
              e in
  hitMothership m e =
    if Qle_bool (hullIntegrity (state e) - damage m) 0
    then set_callbacks (callbacks e ++ [onGameOver]) (set_isGameOver true e1)
    else e1.
Proof.
  intros H. unfold hitMothership. apply Qlt_bool_false in H. rewrite H.
  reflexivity.
Qed.

Lemma stepMissile_mothership (dt : Q) (e : Engine) (m : Missile)
    (kept : list Missile) (queue : DamageQueue) :
  missileFate e (addScaledVector (meshPosition m) (velocity m) dt)
    = HitMothership ->
  stepMissile dt (e, kept, queue) m = (hitMothership m e, kept, queue).
Proof. intros H. unfold stepMissile. rewrite H. reflexivity. Qed.

(** C10. A missile of damage [d] reaching the mothership while
    [0 < shieldCurrent < 2 d] leaves the shield at the negative value
    [shieldCurrent - 2 d] and the hull untouched, with no game over; the
    regeneration of a later frame then starts from that negative value. *)
Theorem mothership_shield_overflow_dropped (dt : Q) (e : Engine) (m : Missile)
    (kept : list Missile) (queue : DamageQueue) :
  missileFate e (addScaledVector (meshPosition m) (velocity m) dt)
    = HitMothership ->
  0 < shieldCurrent (state e) ->
  shieldCurrent (state e) < 2 * damage m ->
  let e' := (stepMissile dt (e, kept, queue) m).1.1 in
  shieldCurrent (state e') == shieldCurrent (state e) - 2 * damage m
  /\ shieldCurrent (state e') < 0
  /\ hullIntegrity (state e') = hullIntegrity (state e)
  /\ isGameOver e' = isGameOver e
  /\ callbacks e' = callbacks e
  /\ forall dt' : Q,
       0 < dt' -> 0 < shieldRegen (state e') -> 0 <= shieldMax (state e') ->
       shieldCurrent (regenShield dt' (state e'))
         == Qmin (shieldMax (state e))
                 (shieldCurrent (state e) - 2 * damage m
                  + shieldRegen (state e) * dt' * 20)
       /\ shieldCurrent (state e') < shieldCurrent (regenShield dt' (state e')).
Proof.
  intros Hfate Hpos Hlt e'. subst e'.
  rewrite (stepMissile_mothership dt e m kept queue Hfate).
  rewrite (hitMothership_shielded m e Hpos). cbn.
  repeat split; try lra.
  - unfold regenShield. cbn.
    assert (Qlt_bool (shieldCurrent (state e) - damage m * 2)
              (shieldMax (state e)) = true) as ->.
    { apply Qlt_bool_iff. cbn in *. lra. }
    assert (Qlt_bool 0 (shieldRegen (state e)) = true) as ->.
    { apply Qlt_bool_iff. assumption. }
    cbn.
    apply Q.min_compat; [reflexivity | lra].
  - unfold regenShield. cbn.
    assert (Qlt_bool (shieldCurrent (state e) - damage m * 2)
              (shieldMax (state e)) = true) as ->.
    { apply Qlt_bool_iff. cbn in *. lra. }
    assert (Qlt_bool 0 (shieldRegen (state e)) = true) as ->.
    { apply Qlt_bool_iff. assumption. }
    cbn in *.
    apply Q.min_glb_lt; [lra |].
    assert (0 < shieldRegen (state e) * dt').
    { apply Qmult_lt_0_compat; assumption. }
    lra.
Qed.

Lemma wallHit_ext (e1 e2 : Engine) (p : Vector3) (refs : list ref) :
  commandObjs e1 = commandObjs e2 -> wallHit e1 p refs = wallHit e2 p refs.
Proof.
  intros Hobjs. induction refs as [|r refs IH]; simpl; [reflexivity |].
  unfold lookupCmd. rewrite Hobjs, IH. reflexivity.
Qed.

Lemma missileFate_ext (e1 e2 : Engine) (p : Vector3) :
  commands e1 = commands e2 -> commandObjs e1 = commandObjs e2 ->
  missileFate e1 p = missileFate e2 p.
Proof.
  intros Hc Ho. unfold missileFate.
  rewrite Hc, (wallHit_ext e1 e2 p _ Ho). reflexivity.
Qed.

Lemma hitMothership_registry (m : Missile) (e : Engine) :
  commands (hitMothership m e) = commands e
  /\ commandObjs (hitMothership m e) = commandObjs e.
Proof.
  unfold hitMothership. repeat case_match; split; reflexivity.
Qed.

Lemma stepMissile_kept (dt : Q) (e : Engine) (m : Missile)
    (kept : list Missile) (queue : DamageQueue) :
  let r := stepMissile dt (e, kept, queue) m in
  commands r.1.1 = commands e
  /\ commandObjs r.1.1 = commandObjs e
  /\ r.1.2 = option_list (survivor dt e m) ++ kept.
Proof.
  unfold stepMissile, survivor.
  destruct (missileFate e _) eqn:Hf; cbn; repeat split;
    apply hitMothership_registry.
Qed.

Lemma foldl_stepMissile_kept (dt : Q) (e0 : Engine) (l : list Missile) :
  forall (e : Engine) (kept : list Missile) (queue : DamageQueue),
  commands e = commands e0 -> commandObjs e = commandObjs e0 ->
  let r := foldl (stepMissile dt) (e, kept, queue) (rev l) in
  commands r.1.1 = commands e0
  /\ commandObjs r.1.1 = commandObjs e0
  /\ r.1.2 = omap (survivor dt e0) l ++ kept.
Proof.
  induction l as [|m l IH]; intros e kept queue Hc Ho; simpl.
  - auto.
  - rewrite foldl_app. simpl.
    specialize (IH e kept queue Hc Ho). cbv zeta in IH.
    destruct (foldl (stepMissile dt) (e, kept, queue) (rev l))
      as [[e1 kept1] queue1] eqn:Hfold.
    cbn in IH. destruct IH as (Hc1 & Ho1 & Hk1).
    pose proof (stepMissile_kept dt e1 m kept1 queue1) as Hstep.
    cbv zeta in Hstep. destruct Hstep as (Hc2 & Ho2 & Hk2).
    rewrite Hc2, Ho2, Hk2, Hk1.
    repeat split; [congruence | congruence |].
    unfold survivor.
    rewrite (missileFate_ext e1 e0 _ Hc1 Ho1).
    destruct (missileFate e0 _); reflexivity.
Qed.

Lemma removeDrone_missiles (i : nat) (e : Engine) :
  missiles (removeDrone i e) = missiles e.
Proof. unfold removeDrone. case_bool_decide; reflexivity. Qed.

Lemma foldl_removeDrone_missiles (l : list nat) (e : Engine) :
  missiles (foldl (fun e' idx => removeDrone idx e') e l) = missiles e.
Proof.
  revert e. induction l as [|i l IH]; intros e; simpl; [reflexivity |].
  rewrite IH. apply removeDrone_missiles.
Qed.

Section WallDamage.
Variable Math_random : nat -> Q.

Lemma applyWallHit_missiles (cid : Z) (members : list nat)
    (acc : Engine * list nat) (dmg : Q) :
  missiles (applyWallHit Math_random cid members acc dmg).1 = missiles acc.1.
Proof.
  unfold applyWallHit. destruct acc as [e dead].
  destruct (pickLiving _ _ _ _ _) as [target calls].
  repeat case_match; reflexivity.
Qed.

Lemma applyWallDamage_missiles (acc : Engine * list nat)
    (entry : Z * list Q) :
  missiles (applyWallDamage Math_random acc entry).1 = missiles acc.1.
Proof.
  unfold applyWallDamage.
  destruct (squadMembers acc.1 entry.1) as [|i members]; [reflexivity |].
  generalize (i :: members). intros ms.
  generalize (snd entry). intros dmgs. revert acc.
  induction dmgs as [|d dmgs IH]; intros acc; simpl; [reflexivity |].
  rewrite IH. apply applyWallHit_missiles.
Qed.

Lemma foldl_applyWallDamage_missiles (queue : DamageQueue)
    (acc : Engine * list nat) :
  missiles (foldl (applyWallDamage Math_random) acc queue).1
  = missiles acc.1.
Proof.
  revert acc. induction queue as [|entry queue IH]; intros acc; simpl;
    [reflexivity |].
  rewrite IH. apply applyWallDamage_missiles.
Qed.

(** The missile list after a frame. *)
Lemma updateMissiles_missiles (dt : Q) (e : Engine) :
  missiles (updateMissiles Math_random dt e)
  = omap (survivor dt e) (missiles e).
Proof.
  unfold updateMissiles.
  destruct (foldl (stepMissile dt) (e, [], []) (rev (missiles e)))
    as [[e1 kept] queue] eqn:Hfold.
  assert (Hk : kept = omap (survivor dt e) (missiles e)).
  { pose proof (foldl_stepMissile_kept dt e (missiles e) e [] []
                  eq_refl eq_refl) as H.
    cbv zeta in H. destruct H as (_ & _ & Hk).
    rewrite app_nil_r in Hk. rewrite <- Hk.
    transitivity ((e1, kept, queue).1.2); [reflexivity |].
    rewrite <- Hfold. reflexivity. }
  destruct queue as [|entry queue].
  - cbn. exact Hk.
  - destruct (foldl (applyWallDamage Math_random)
                (set_missiles kept e1, []) (entry :: queue))
      as [e3 dead] eqn:Hdmg.
    rewrite foldl_removeDrone_missiles.
    pose proof (foldl_applyWallDamage_missiles (entry :: queue)
                  (set_missiles kept e1, [])) as Hm.
    rewrite Hdmg in Hm. cbn in Hm. congruence.
Qed.
End WallDamage.

Lemma mothership_shield_overflow_dropped_witness :
  let e := set_state (set_shieldCurrent 1 exampleState) exampleEngine in
  let e' := (stepMissile (1 # 10) (e, [], []) exampleMissile).1.1 in
  shieldCurrent (state e') == 1 - 2 * 3
  /\ shieldCurrent (state e') < 0
  /\ hullIntegrity (state e') = 100
  /\ isGameOver e' = false
  /\ callbacks e' = []
  /\ forall dt' : Q,
       0 < dt' -> 0 < shieldRegen (state e') -> 0 <= shieldMax (state e') ->
       shieldCurrent (regenShield dt' (state e'))
         == Qmin 10 (1 - 2 * 3 + 1 * dt' * 20)
       /\ shieldCurrent (state e') < shieldCurrent (regenShield dt' (state e')).
Proof.
  apply (mothership_shield_overflow_dropped (1 # 10)
           (set_state (set_shieldCurrent 1 exampleState) exampleEngine)
           exampleMissile [] []);
    vm_compute; reflexivity.
Defined.

(** C9, as stated, fails: a missile within the mothership threshold is
    first tested against the Wall commands, and one that touches a Wall is
    taken by it, the shield being left as it was. *)
Lemma mothership_hit_counterexample :
  let e := set_missiles [exampleMissile] wallEngine in
  let e' := updateMissiles alwaysZero (1 # 10) e in
  lengthSq (addScaledVector (meshPosition exampleMissile)
              (velocity exampleMissile) (1 # 10)) < 900
  /\ 0 < shieldCurrent (state e)
  /\ missiles e' = []
  /\ shieldCurrent (state e') = shieldCurrent (state e)
  /\ ~ shieldCurrent (state e')
       == shieldCurrent (state e) - 2 * damage exampleMissile.
Proof.
  cbv zeta.
  split; [vm_compute; reflexivity |].
  split; [vm_compute; reflexivity |].
  split; [vm_compute; reflexivity |].
  split; [vm_compute; reflexivity |].
  vm_compute. discriminate.
Qed.

(** C9, amended.  After a frame the missile list holds exactly the moved
    missiles still in flight, so a missile within the mothership threshold
    has left it.  When no Wall command takes such a missile: with
    [shieldCurrent > 0] the shield drops by twice the damage and the hull,
    the game-over flag and the callbacks are unchanged; with
    [shieldCurrent <= 0] the hull drops by the damage, and the game-over
    callback is made exactly when the hull is then [<= 0].  When a Wall
    command takes it, the engine is unchanged and the damage is queued
    against that command. *)
Theorem mothership_hit_handling (Math_random : nat -> Q) (dt : Q)
    (e : Engine) (m : Missile) :
  let p := addScaledVector (meshPosition m) (velocity m) dt in
  lengthSq p < 900 ->
  missiles (updateMissiles Math_random dt e)
    = omap (survivor dt e) (missiles e)
  /\ survivor dt e m = None
  /\ forall (kept : list Missile) (queue : DamageQueue),
       let r := stepMissile dt (e, kept, queue) m in
       r.1.2 = kept
       /\ (wallHit e p (commands e) = None ->
           0 < shieldCurrent (state e) ->
           shieldCurrent (state r.1.1)
             == shieldCurrent (state e) - 2 * damage m
           /\ hullIntegrity (state r.1.1) = hullIntegrity (state e)
           /\ isGameOver r.1.1 = isGameOver e
           /\ callbacks r.1.1 = callbacks e)
       /\ (wallHit e p (commands e) = None ->
           shieldCurrent (state e) <= 0 ->
           hullIntegrity (state r.1.1) = hullIntegrity (state e) - damage m
           /\ shieldCurrent (state r.1.1) = shieldCurrent (state e)
           /\ (hullIntegrity (state e) - damage m <= 0 ->
               isGameOver r.1.1 = true
               /\ callbacks r.1.1 = callbacks e ++ [onGameOver])
           /\ (0 < hullIntegrity (state e) - damage m ->
               isGameOver r.1.1 = isGameOver e
               /\ callbacks r.1.1 = callbacks e))
       /\ (forall cid : Z,
             wallHit e p (commands e) = Some cid ->
             r.1.1 = e /\ r.2 = queueDamage cid (damage m) queue).
Proof.
  intros p Hnear.
  assert (Hfate : forall cid, wallHit e p (commands e) = Some cid ->
                  missileFate e p = HitWall cid).
  { intros cid H. unfold missileFate. rewrite H. reflexivity. }
  assert (Hfate' : wallHit e p (commands e) = None ->
                   missileFate e p = HitMothership).
  { intros H. unfold missileFate. rewrite H.
    apply Qlt_bool_iff in Hnear. rewrite Hnear. reflexivity. }
  split; [apply updateMissiles_missiles |].
  split.
  { unfold survivor. fold p.
    destruct (wallHit e p (commands e)) as [cid|] eqn:Hw.
    - rewrite (Hfate cid eq_refl). reflexivity.
    - rewrite (Hfate' eq_refl). reflexivity. }
  intros kept queue r. subst r. unfold stepMissile. fold p.
  destruct (wallHit e p (commands e)) as [cid|] eqn:Hw.
  - rewrite (Hfate cid eq_refl). cbn.
    split; [reflexivity |]. split; [discriminate |].
    split; [discriminate |].
    intros cid' [= <-]. split; reflexivity.
  - rewrite (Hfate' eq_refl). cbn.
    split; [reflexivity |]. split; [| split; [| discriminate]].
    + intros _ Hs. rewrite (hitMothership_shielded m e Hs). cbn.
      repeat split. lra.
    + intros _ Hs. pose proof (hitMothership_bare m e Hs) as Hb.
      cbv zeta in Hb. rewrite Hb.
      destruct (Qle_bool (hullIntegrity (state e) - damage m) 0) eqn:Hh;
        qbool; cbn; repeat split; try reflexivity; intros; lra.
Qed.

Lemma mothership_hit_handling_witness :
  missiles (updateMissiles alwaysZero (1 # 10)
              (set_missiles [exampleMissile] exampleEngine)) = []
  /\ shieldCurrent
       (state (stepMissile (1 # 10)
                 (set_missiles [exampleMissile] exampleEngine, [], [])
                 exampleMissile).1.1) == 10 - 2 * 3.
Proof.
  pose proof (mothership_hit_handling alwaysZero (1 # 10)
                (set_missiles [exampleMissile] exampleEngine) exampleMissile)
    as H.
  cbv zeta in H.
  destruct H as (Hlist & Hgone & Hstep); [vm_compute; reflexivity |].
  split.
  - rewrite Hlist. vm_compute. reflexivity.
  - destruct (Hstep [] []) as (_ & Hshield & _).
    destruct Hshield as (Hs & _); [reflexivity | vm_compute; reflexivity |].
    exact Hs.
Defined.

(** ** The melee rule of a Swarm drone *)

Lemma meleeDamage_value (mult : Q) (isCrit : bool) (stride : nat) :
  meleeDamage mult isCrit stride
  == 2 * mult * (if isCrit then 3 else 1) * inject_Z (Z.of_nat stride).
Proof. unfold meleeDamage. destruct isCrit; ring. Qed.

(** C6, as stated, fails twice.  A hit from behind on an enemy whose
    shield still holds costs it one and a half times the damage, not the
    damage alone; and the enemy struck is the first of the enemy list,
    so a drone next to the second enemy and far from the first strikes
    nothing. *)
Lemma swarm_melee_counterexample :
  let pos := Vec3 110 0 0 in
  (distanceToSquared pos (position nearEnemy) < 2500
   /\ approachDot Qsqrt pos nearEnemy <= - (1 # 5)
   /\ exists en' : Enemy,
        enemies (meleeAttack Qsqrt alwaysHalf pos 1
                   (set_enemies [nearEnemy] exampleEngine)) = [en']
        /\ hp en' == 97
        /\ ~ hp en' == hp nearEnemy - meleeDamage 1 false 1)
  /\ enemies (meleeAttack Qsqrt alwaysHalf pos 1
                (set_enemies [farEnemy; nearEnemy] exampleEngine))
     = [farEnemy; nearEnemy].
Proof.
  cbv zeta. split; [| vm_compute; reflexivity].
  split; [vm_compute; reflexivity |].
  split; [vm_compute; discriminate |].
  eexists. split; [vm_compute; reflexivity |].
  split; [vm_compute; reflexivity |].
  vm_compute. discriminate.
Qed.

(** C6, amended.  A Swarm drone that has moved to [pos] and is within
    melee range (squared distance below 2500) of the first enemy of the
    enemy list strikes that enemy once.  The damage is
    [2 * damageMultiplier], tripled exactly when the draw of
    [Math.random] is below [critChance], times the stride.  With the
    approach cosine above [-0.2] and the shield positive the shield takes
    it, what it cannot absorb passing to [hp]; otherwise [hp] drops by the
    damage, and by half of it again when the shield is still positive.
    The other enemies are untouched. *)
Theorem swarm_melee_rule (Math_sqrt : Q -> Q) (Math_random : nat -> Q)
    (pos : Vector3) (stride : nat) (e : Engine) (enemy : Enemy)
    (others : list Enemy) :
  enemies e = enemy :: others ->
  distanceToSquared pos (position enemy) < 2500 ->
  let isCrit := Qlt_bool (Math_random (randomCalls e)) (critChance (state e)) in
  let dmg := meleeDamage (damageMultiplier (state e)) isCrit stride in
  let d := approachDot Math_sqrt pos enemy in
  (isCrit = true <-> Math_random (randomCalls e) < critChance (state e))
  /\ dmg == 2 * damageMultiplier (state e) * (if isCrit then 3 else 1)
            * inject_Z (Z.of_nat stride)
  /\ exists en' : Enemy,
       enemies (meleeAttack Math_sqrt Math_random pos stride e)
         = en' :: others
       /\ position en' = position enemy
       /\ (- (1 # 5) < d -> 0 < shield enemy ->
           shield en' == Qmax 0 (shield enemy - dmg)
           /\ hp en' == hp enemy - Qmax 0 (dmg - shield enemy))
       /\ (d <= - (1 # 5) \/ shield enemy <= 0 ->
           shield en' = shield enemy
           /\ hp en' == hp enemy - dmg
                        - (if Qlt_bool 0 (shield enemy)
                           then dmg * (1 # 2) else 0)).
Proof.
  intros Hen Hrange isCrit dmg d.
  split; [apply Qlt_bool_iff |].
  split; [apply meleeDamage_value |].
  exists (applyMeleeHit dmg d enemy).
  split.
  { unfold meleeAttack. rewrite Hen.
    apply Qlt_bool_iff in Hrange. rewrite Hrange. reflexivity. }
  split.
  { unfold applyMeleeHit. repeat case_match; reflexivity. }
  split.
  - intros Hd Hs. rewrite (applyMeleeHit_front dmg d enemy Hd Hs).
    destruct (Qlt_bool (shield enemy - dmg) 0) eqn:Hneg; qbool; cbn.
    + rewrite Q.max_l by lra. rewrite Q.max_r by lra. split; lra.
    + rewrite Q.max_r by lra. rewrite Q.max_l by lra. split; lra.
  - intros Hcase. rewrite (applyMeleeHit_other dmg d enemy Hcase). cbn.
    split; [reflexivity |].
    destruct (Qlt_bool 0 (shield enemy)); lra.
Qed.

Lemma swarm_melee_rule_witness :
  exists en' : Enemy,
    enemies (meleeAttack Qsqrt alwaysHalf (Vec3 90 0 0) 1
               (set_enemies [nearEnemy] exampleEngine)) = [en']
    /\ shield en' == Qmax 0 (10 - meleeDamage 1 false 1)
    /\ hp en' == 100 - Qmax 0 (meleeDamage 1 false 1 - 10).
Proof.
  destruct (swarm_melee_rule Qsqrt alwaysHalf (Vec3 90 0 0) 1
              (set_enemies [nearEnemy] exampleEngine) nearEnemy [])
    as (_ & _ & en' & Hen & _ & Hfront & _);
    [reflexivity | vm_compute; reflexivity |].
  exists en'. split; [exact Hen |].
  apply Hfront; vm_compute; reflexivity.
Defined.

(** ** Swap-with-last removal *)

(** Overwriting slot [i] with a new last element, or appending that
    element and deleting slot [i], leave the same elements. *)
Lemma insert_Permutation_delete_snoc {A} (l : list A) (i : nat) (x : A) :
  (i < length l)%nat -> <[i := x]> l ≡ₚ delete i (l ++ [x]).
Proof.
  revert i. induction l as [|a l IH]; intros i Hi; simpl in Hi; [lia |].
  destruct i as [|i]; simpl.
  - apply Permutation_cons_append.
  - constructor. apply IH. lia.
Qed.

Lemma copySlot_length {A} (arr : list A) (i last : nat) :
  length (copySlot arr i last) = length arr.
Proof. unfold copySlot. case_match; [apply length_insert | reflexivity]. Qed.

Lemma copySlot_lookup {A} (arr : list A) (i last j : nat) :
  (i < length arr)%nat -> (last < length arr)%nat ->
  copySlot arr i last !! j = if decide (j = i) then arr !! last else arr !! j.
Proof.
  intros Hi Hl. unfold copySlot.
  destruct (lookup_lt_is_Some_2 arr last Hl) as [v Hv]. rewrite Hv.
  case_decide as Hj.
  - subst j. apply list_lookup_insert_eq. exact Hi.
  - apply list_lookup_insert_ne. congruence.
Qed.

Lemma readDrone_is_Some (e : Engine) (n i : nat) :
  storeFits e n -> (i < n)%nat -> is_Some (readDrone e i).
Proof.
  intros (Hp & Hs & Ht & Hc & Hl & Hh) Hi. unfold readDrone.
  destruct (lookup_lt_is_Some_2 (dronePos e) (i * 3)) as [x ->]; [lia |].
  destruct (lookup_lt_is_Some_2 (dronePos e) (i * 3 + 1)) as [y ->]; [lia |].
  destruct (lookup_lt_is_Some_2 (dronePos e) (i * 3 + 2)) as [z ->]; [lia |].
  destruct (lookup_lt_is_Some_2 (droneState e) i) as [s ->]; [lia |].
  destruct (lookup_lt_is_Some_2 (droneTargetId e) i) as [t ->]; [lia |].
  destruct (lookup_lt_is_Some_2 (droneCommandId e) i) as [c ->]; [lia |].
  destruct (lookup_lt_is_Some_2 (droneLoad e) i) as [l ->]; [lia |].
  destruct (lookup_lt_is_Some_2 (droneHP e) i) as [h ->]; [lia |].
  cbn. eauto.
Qed.

(** The record read at [j] once [removeDrone i] has run on a store with
    more than one live drone above [i]. *)
Lemma removeDrone_read (i j : nat) (e : Engine) :
  storeFits e (droneCount (state e)) ->
  (i < droneCount (state e))%nat ->
  (j < droneCount (state e))%nat ->
  readDrone (removeDrone i e) j
  = if decide (j = i) then readDrone e (droneCount (state e) - 1)
    else readDrone e j.
Proof.
  intros (Hp & Hs & Ht & Hc & Hl & Hh) Hi Hj.
  unfold removeDrone. set (last := (droneCount (state e) - 1)%nat).
  case_bool_decide as Hne.
  - unfold readDrone. cbn.
    rewrite !copySlot_lookup by (rewrite ?copySlot_length; lia).
    repeat (case_decide; try lia); subst; reflexivity.
  - cbn. case_decide as Hji; [rewrite Hji, Hne; reflexivity | reflexivity].
Qed.

(** C8. On a live index [i], [removeDrone] leaves [droneCount - 1] live
    drones; slot [i] reads the full record the last live drone had, every
    other live slot reads what it read before, the live records are the
    former ones without that of [i], and nothing but the drone arrays and
    the count is written. *)
Theorem removeDrone_swap_with_last (i : nat) (e : Engine) :
  storeFits e (droneCount (state e)) ->
  (i < droneCount (state e))%nat ->
  let last := (droneCount (state e) - 1)%nat in
  let e' := removeDrone i e in
  droneCount (state e') = last
  /\ is_Some (readDrone e last)
  /\ readDrone e' i = readDrone e last
  /\ (forall j : nat, (j < last)%nat -> j <> i ->
        readDrone e' j = readDrone e j)
  /\ liveDrones e' ≡ₚ delete i (liveDrones e)
  /\ state e' = set_droneCount last (state e)
  /\ commands e' = commands e
  /\ commandObjs e' = commandObjs e
  /\ enemies e' = enemies e
  /\ missiles e' = missiles e
  /\ callbacks e' = callbacks e.
Proof.
  intros Hfit Hi last e'.
  assert (Hcount : droneCount (state e') = last).
  { subst e'. unfold removeDrone. case_bool_decide; reflexivity. }
  assert (Hread : forall j, (j < droneCount (state e))%nat ->
            readDrone e' j
            = if decide (j = i) then readDrone e last else readDrone e j).
  { intros j Hj. apply removeDrone_read; assumption. }
  split; [exact Hcount |].
  split; [apply (readDrone_is_Some e (droneCount (state e))); [assumption | lia] |].
  split; [rewrite Hread by lia; case_decide; congruence |].
  split; [intros j Hj Hne; rewrite Hread by lia; case_decide; congruence |].
  split.
  { unfold liveDrones. rewrite Hcount.
    replace (droneCount (state e)) with (S last) by lia.
    rewrite seq_S, fmap_app. cbn [fmap list_fmap plus].
    set (old := readDrone e <$> seq 0 last).
    assert (Hlen : length old = last).
    { unfold old. rewrite length_fmap, length_seq. reflexivity. }
    destruct (decide (i = last)) as [-> | Hne].
    - rewrite <- Hlen at 2. rewrite delete_middle, app_nil_r.
      assert (Hsame : readDrone e' <$> seq 0 last = old).
      { apply list_eq. intros k. unfold old. rewrite !list_lookup_fmap.
        destruct (seq 0 last !! k) as [j|] eqn:Hk; [| reflexivity].
        apply lookup_seq in Hk as [-> Hk]. cbn.
        rewrite Hread by lia. case_decide; [lia | reflexivity]. }
      rewrite Hsame. reflexivity.
    - assert (Hnew : readDrone e' <$> seq 0 last
                     = <[i := readDrone e last]> old).
      { apply list_eq. intros k. unfold old.
        destruct (decide (k = i)) as [-> | Hk].
        - rewrite list_lookup_insert_eq by (rewrite length_fmap, length_seq; lia).
          rewrite list_lookup_fmap, lookup_seq_lt by lia. cbn.
          rewrite Hread by lia. case_decide; congruence.
        - rewrite list_lookup_insert_ne by congruence.
          rewrite !list_lookup_fmap.
          destruct (seq 0 last !! k) as [j|] eqn:Hj; [| reflexivity].
          apply lookup_seq in Hj as [-> Hj]. cbn.
          rewrite Hread by lia. case_decide; [lia | reflexivity]. }
      rewrite Hnew. apply insert_Permutation_delete_snoc. lia. }
  subst e'. unfold removeDrone.
  case_bool_decide; cbn; repeat split; reflexivity.
Qed.

Lemma removeDrone_swap_with_last_witness :
  droneCount (state (removeDrone 1 exampleEngine)) = 5%nat
  /\ readDrone (removeDrone 1 exampleEngine) 1 = readDrone exampleEngine 5
  /\ liveDrones (removeDrone 1 exampleEngine)
     ≡ₚ delete 1%nat (liveDrones exampleEngine).
Proof.
  destruct (removeDrone_swap_with_last 1 exampleEngine)
    as (Hcount & _ & Hslot & _ & Hlive & _).
  - unfold storeFits. cbn. lia.
  - cbn. lia.
  - split; [exact Hcount |]. split; [exact Hslot | exact Hlive].
Defined.

(** ** Squad creation *)

(** *** The assignment loop *)

Lemma assignDrones_frame (id : Z) (type : AttackMode) (k m : nat)
    (l : list nat) :
  forall (a : nat) (e : Engine),
  let e' := assignDrones id type k m a l e in
  state e' = state e
  /\ commands e' = commands e
  /\ commandObjs e' = commandObjs e
  /\ nextCommandId e' = nextCommandId e
  /\ callbacks e' = callbacks e
  /\ pendingPath e' = pendingPath e
  /\ dronePos e' = dronePos e
  /\ droneLoad e' = droneLoad e
  /\ length (droneState e') = length (droneState e)
  /\ length (droneCommandId e') = length (droneCommandId e)
  /\ length (droneTargetId e') = length (droneTargetId e)
  /\ length (droneHP e') = length (droneHP e).
Proof.
  induction l as [|i l IH]; intros a e; simpl.
  - repeat split; reflexivity.
  - specialize (IH (S a) (assignDrone id type k m a i e)).
    cbv zeta in IH. destruct IH as (H1&H2&H3&H4&H5&H6&H7&H8&H9&H10&H11&H12).
    rewrite H1, H2, H3, H4, H5, H6, H7, H8, H9, H10, H11, H12.
    unfold assignDrone. cbn. rewrite !length_insert.
    repeat split; reflexivity.
Qed.

Lemma assignDrones_other (id : Z) (type : AttackMode) (k m : nat)
    (l : list nat) :
  forall (a : nat) (e : Engine) (i : nat),
  i ∉ l ->
  let e' := assignDrones id type k m a l e in
  droneState e' !! i = droneState e !! i
  /\ droneCommandId e' !! i = droneCommandId e !! i
  /\ droneTargetId e' !! i = droneTargetId e !! i
  /\ droneHP e' !! i = droneHP e !! i.
Proof.
  induction l as [|i0 l IH]; intros a e i Hnot; simpl.
  - repeat split; reflexivity.
  - apply not_elem_of_cons in Hnot as [Hne Hnot].
    specialize (IH (S a) (assignDrone id type k m a i0 e) i Hnot).
    cbv zeta in IH. destruct IH as (H1 & H2 & H3 & H4).
    rewrite H1, H2, H3, H4. unfold assignDrone. cbn.
    rewrite !list_lookup_insert_ne by congruence.
    repeat split; reflexivity.
Qed.

Lemma assignDrones_assigned (id : Z) (type : AttackMode) (k m : nat)
    (l : list nat) :
  forall (a : nat) (e : Engine) (j i : nat),
  NoDup l ->
  (forall i', i' ∈ l ->
     (i' < length (droneState e))%nat
     /\ (i' < length (droneCommandId e))%nat
     /\ (i' < length (droneTargetId e))%nat
     /\ (i' < length (droneHP e))%nat) ->
  l !! j = Some i ->
  let e' := assignDrones id type k m a l e in
  droneState e' !! i = Some STATE_ATTACKING
  /\ droneCommandId e' !! i = Some id
  /\ droneTargetId e' !! i = Some (assignedTarget type (a + j) k m)
  /\ droneHP e' !! i
     = Some (match type with WALL => wallHP (state e) | SWARM => 1 end).
Proof.
  induction l as [|i0 l IH]; intros a e j i Hnd Hfit Hj; [discriminate |].
  apply NoDup_cons in Hnd as [Hfresh Hnd]. simpl.
  destruct j as [|j]; simpl in Hj.
  - injection Hj as ->.
    destruct (assignDrones_other id type k m l (S a)
                (assignDrone id type k m a i e) i Hfresh)
      as (H1 & H2 & H3 & H4).
    rewrite H1, H2, H3, H4. unfold assignDrone. cbn.
    destruct (Hfit i) as (F1 & F2 & F3 & F4); [left |].
    rewrite !list_lookup_insert_eq by (rewrite ?length_insert; lia).
    rewrite Nat.add_0_r. repeat split; reflexivity.
  - replace (a + S j)%nat with (S a + j)%nat by lia.
    apply (IH (S a) (assignDrone id type k m a i0 e) j i Hnd); [| exact Hj].
    intros i' Hi'. unfold assignDrone. cbn. rewrite !length_insert.
    apply Hfit. right. exact Hi'.
Qed.

(** *** The eligible pool *)

Lemma needed_pos (e : Engine) : (1 <= needed e)%Z.
Proof. unfold needed. lia. Qed.

Lemma retaskAttacking_take (e : Engine) (need : Z) (indices : list nat) :
  forall avail : list nat,
  (Z.of_nat (length avail) < need)%Z ->
  retaskAttacking e need indices avail
  = avail ++ take (Z.to_nat need - length avail)
                  (List.filter (fun i => stateIs e i STATE_ATTACKING) indices).
Proof.
  induction indices as [|i rest IH]; intros avail Hlt; simpl.
  - rewrite take_nil, app_nil_r. reflexivity.
  - destruct (stateIs e i STATE_ATTACKING) eqn:Hatt.
    + destruct (Z.leb_spec need (Z.of_nat (length (avail ++ [i])))) as [Hle|Hgt].
      * rewrite length_app in Hle. simpl in Hle.
        replace (Z.to_nat need - length avail)%nat with 1%nat by lia.
        simpl. rewrite take_0. reflexivity.
      * rewrite IH by exact Hgt.
        rewrite length_app in *. simpl in *.
        replace (Z.to_nat need - length avail)%nat
          with (S (Z.to_nat need - (length avail + 1)))%nat by lia.
        simpl. rewrite <- app_assoc. reflexivity.
    + destruct (Z.leb_spec need (Z.of_nat (length avail))) as [Hle|Hgt];
        [lia |].
      apply IH. exact Hgt.
Qed.

Lemma eligiblePool_eq (e : Engine) :
  eligiblePool e = match idleDrones e with
                   | [] => take (Z.to_nat (needed e)) (eligibleDrones e)
                   | idle => idle
                   end.
Proof.
  unfold eligiblePool, eligibleDrones.
  destruct (idleDrones e) as [|i idle] eqn:Hidle; [| reflexivity].
  destruct (attackMode (state e)); cbn.
  - rewrite take_nil. reflexivity.
  - rewrite retaskAttacking_take by (pose proof (needed_pos e); simpl; lia).
    simpl. rewrite Nat.sub_0_r. reflexivity.
Qed.

Lemma eligiblePool_take (e : Engine) :
  take (Z.to_nat (needed e)) (eligiblePool e)
  = take (Z.to_nat (needed e)) (eligibleDrones e).
Proof.
  rewrite eligiblePool_eq. unfold eligibleDrones.
  destruct (idleDrones e); [| reflexivity].
  rewrite take_take, Nat.min_id. reflexivity.
Qed.

Lemma eligiblePool_nil (e : Engine) :
  eligiblePool e = [] <-> eligibleDrones e = [].
Proof.
  rewrite eligiblePool_eq. unfold eligibleDrones.
  destruct (idleDrones e); [| reflexivity].
  pose proof (needed_pos e) as Hn.
  destruct (match attackMode (state e) with
            | SWARM => [] | WALL => attackingDrones e end) as [|i l].
  - rewrite take_nil. reflexivity.
  - destruct (Z.to_nat (needed e)) eqn:Hz; [lia |]. simpl.
    split; discriminate.
Qed.

Lemma filter_seq_bound (f : nat -> bool) (n i : nat) :
  i ∈ List.filter f (seq 0 n) -> (i < n)%nat /\ f i = true.
Proof.
  rewrite list_elem_of_In, filter_In, <- list_elem_of_In, elem_of_seq.
  intros [H1 H2]. split; [lia | exact H2].
Qed.

Lemma NoDup_filter_seq (f : nat -> bool) (n : nat) :
  NoDup (List.filter f (seq 0 n)).
Proof.
  apply NoDup_ListNoDup, List.NoDup_filter, NoDup_ListNoDup, NoDup_seq.
Qed.

Lemma eligibleDrones_NoDup (e : Engine) : NoDup (eligibleDrones e).
Proof.
  unfold eligibleDrones.
  destruct (idleDrones e) as [|i idle] eqn:Hidle.
  - destruct (attackMode (state e)); [constructor |].
    apply NoDup_filter_seq.
  - rewrite <- Hidle. apply NoDup_filter_seq.
Qed.

Lemma eligibleDrones_live (e : Engine) (i : nat) :
  i ∈ eligibleDrones e -> (i < droneCount (state e))%nat.
Proof.
  unfold eligibleDrones.
  destruct (idleDrones e) as [|i0 idle] eqn:Hidle.
  - destruct (attackMode (state e)); [intros H; inversion H |].
    unfold attackingDrones. intros H. apply filter_seq_bound in H. tauto.
  - rewrite <- Hidle. unfold idleDrones. intros H.
    apply filter_seq_bound in H. tauto.
Qed.

(** The drones an eligible pool yields: seeking or returning ones, or
    attacking ones for a Wall. *)
Lemma eligibleDrones_state (e : Engine) (i : nat) :
  i ∈ eligibleDrones e ->
  droneState e !! i = Some STATE_MINING_SEEK
  \/ droneState e !! i = Some STATE_RETURNING
  \/ (droneState e !! i = Some STATE_ATTACKING
      /\ attackMode (state e) = WALL /\ idleDrones e = []).
Proof.
  unfold eligibleDrones.
  destruct (idleDrones e) as [|i0 idle] eqn:Hidle.
  - destruct (attackMode (state e)); [intros H; inversion H |].
    unfold attackingDrones. intros H. apply filter_seq_bound in H as [_ H].
    unfold stateIs in H. apply bool_decide_eq_true in H. auto.
  - rewrite <- Hidle. unfold idleDrones. intros H.
    apply filter_seq_bound in H as [_ H].
    apply orb_true_iff in H as [H|H]; unfold stateIs in H;
      apply bool_decide_eq_true in H; auto.
Qed.

(** *** [createSquadFromPending] *)

Section SquadCreation.
Variable Math_sqrt : Q -> Q.

Lemma createSquad_rejected (e : Engine) :
  (2 <= length (pendingPath e))%nat -> eligibleDrones e = [] ->
  createSquadFromPending Math_sqrt e
  = set_pendingPath [] (emit (Text "NO IDLE DRONES") e).
Proof.
  intros Hlen Hnil. unfold createSquadFromPending.
  destruct (Nat.ltb_spec (length (pendingPath e)) 2) as [Hlt|_]; [lia |].
  apply eligiblePool_nil in Hnil. rewrite Hnil. reflexivity.
Qed.

Lemma createSquad_deployed (e : Engine) :
  (2 <= length (pendingPath e))%nat -> eligibleDrones e <> [] ->
  let cmd := newCommand Math_sqrt e in
  let assigned := take (Z.to_nat (needed e)) (eligibleDrones e) in
  let e4 := assignDrones (cmdId cmd) (cmdType cmd) (length assigned)
              (length (spreadPoints cmd)) 0 assigned
              (registerCommand cmd e) in
  createSquadFromPending Math_sqrt e
  = set_pendingPath []
      (emit (SquadDeployed (cmdId cmd))
         (set_commandObjs
            (alter (set_activeDroneCount (Z.of_nat (length assigned)))
               (length (commandObjs e)) (commandObjs e4)) e4)).
Proof.
  intros Hlen Hne cmd assigned e4. unfold createSquadFromPending.
  destruct (Nat.ltb_spec (length (pendingPath e)) 2) as [Hlt|_]; [lia |].
  rewrite bool_decide_eq_false_2 by (rewrite eligiblePool_nil; exact Hne).
  rewrite eligiblePool_take. reflexivity.
Qed.

Lemma assigned_NoDup (e : Engine) :
  NoDup (take (Z.to_nat (needed e)) (eligibleDrones e)).
Proof.
  eapply sublist_NoDup; [apply eligibleDrones_NoDup | apply sublist_take].
Qed.

Lemma assigned_eligible (e : Engine) (i : nat) :
  i ∈ take (Z.to_nat (needed e)) (eligibleDrones e) -> i ∈ eligibleDrones e.
Proof.
  intros H. apply elem_of_take in H as (j & Hj & _).
  eapply list_elem_of_lookup_2. exact Hj.
Qed.

Lemma assigned_length (e : Engine) :
  Z.of_nat (length (take (Z.to_nat (needed e)) (eligibleDrones e)))
  = Z.min (needed e) (Z.of_nat (length (eligibleDrones e))).
Proof. rewrite length_take. pose proof (needed_pos e). lia. Qed.

(** The arrays after a deployment, slot by slot. *)
Lemma createSquad_slots (e : Engine) :
  (2 <= length (pendingPath e))%nat -> eligibleDrones e <> [] ->
  storeFits e (droneCount (state e)) ->
  let e' := createSquadFromPending Math_sqrt e in
  let cmd := newCommand Math_sqrt e in
  let assigned := take (Z.to_nat (needed e)) (eligibleDrones e) in
  (forall j i : nat, assigned !! j = Some i ->
     droneState e' !! i = Some STATE_ATTACKING
     /\ droneCommandId e' !! i = Some (cmdId cmd)
     /\ droneTargetId e' !! i
        = Some (assignedTarget (cmdType cmd) j (length assigned)
                  (length (spreadPoints cmd)))
     /\ droneHP e' !! i
        = Some (match cmdType cmd with
                | WALL => wallHP (state e) | SWARM => 1 end))
  /\ (forall i : nat, i ∉ assigned ->
        droneState e' !! i = droneState e !! i
        /\ droneCommandId e' !! i = droneCommandId e !! i
        /\ droneTargetId e' !! i = droneTargetId e !! i
        /\ droneHP e' !! i = droneHP e !! i).
Proof.
  intros Hlen Hne Hfit e' cmd assigned. subst e'.
  rewrite (createSquad_deployed e Hlen Hne). cbn. fold cmd. fold assigned.
  split.
  - intros j i Hj.
    apply (assignDrones_assigned (cmdId cmd) (cmdType cmd) (length assigned)
             (length (spreadPoints cmd)) assigned 0 (registerCommand cmd e)
             j i).
    + apply assigned_NoDup.
    + intros i' Hi'. apply assigned_eligible, eligibleDrones_live in Hi'.
      destruct Hfit as (_ & H1 & H2 & H3 & _ & H4). cbn. lia.
    + exact Hj.
  - intros i Hi.
    apply (assignDrones_other (cmdId cmd) (cmdType cmd) (length assigned)
             (length (spreadPoints cmd)) assigned 0 (registerCommand cmd e)
             i Hi).
Qed.

(** The registry after a deployment. *)
Lemma createSquad_registry (e : Engine) :
  (2 <= length (pendingPath e))%nat -> eligibleDrones e <> [] ->
  let e' := createSquadFromPending Math_sqrt e in
  let cmd := newCommand Math_sqrt e in
  let assigned := take (Z.to_nat (needed e)) (eligibleDrones e) in
  commands e' = commands e ++ [length (commandObjs e)]
  /\ commandObjs e'
     = commandObjs e
       ++ [set_activeDroneCount (Z.of_nat (length assigned)) cmd]
  /\ nextCommandId e' = (nextCommandId e + 1)%Z
  /\ callbacks e'
     = callbacks e ++ [onMessage (SquadDeployed (nextCommandId e + 1))]
  /\ state e'
     = set_activeSquads (activeSquads (state e) + 1) (state e)
  /\ dronePos e' = dronePos e
  /\ droneLoad e' = droneLoad e.
Proof.
  intros Hlen Hne e' cmd assigned. subst e'.
  rewrite (createSquad_deployed e Hlen Hne). cbv zeta.
  fold cmd. fold assigned.
  pose proof (assignDrones_frame (cmdId cmd) (cmdType cmd) (length assigned)
                (length (spreadPoints cmd)) assigned 0
                (registerCommand cmd e)) as Hframe.
  cbv zeta in Hframe.
  set (e4 := assignDrones _ _ _ _ _ _ _) in *. clearbody e4.
  destruct Hframe as (H1 & H2 & H3 & H4 & H5 & _ & H7 & H8 & _).
  cbn. rewrite H1, H2, H3, H4, H5, H7, H8. cbn.
  repeat split; try reflexivity.
  apply list_eq. intros k.
  rewrite list_lookup_alter.
  case_decide as Hk.
  - subst k. rewrite !lookup_app_r by lia. rewrite Nat.sub_diag. reflexivity.
  - destruct (decide (k < length (commandObjs e))%nat).
    + rewrite !lookup_app_l by lia. reflexivity.
    + rewrite !lookup_app_r by lia.
      destruct (k - length (commandObjs e))%nat eqn:Hd; [lia |]. reflexivity.
Qed.
End SquadCreation.

Lemma squadMembers_elem (e : Engine) (cid : Z) (i : nat) :
  i ∈ squadMembers e cid
  <-> (i < droneCount (state e))%nat /\ droneCommandId e !! i = Some cid.
Proof.
  unfold squadMembers.
  rewrite list_elem_of_In, filter_In, <- list_elem_of_In, elem_of_seq.
  rewrite bool_decide_eq_true. split; intros [H1 H2]; (split; [lia | exact H2]).
Qed.

(** C3. A path of at least two points is submitted.  With an empty
    eligible pool no command is created, the drone arrays are as before
    and "NO IDLE DRONES" is reported.  Otherwise the drones assigned are
    [min (max 1 (floor (droneCount * deploymentRatio))) (pool size)]
    distinct drones of the pool, the product being the double one the
    program computes: each becomes attacking under the new id,
    every other drone keeps its state and command, the new command is
    registered with that number as its [activeDroneCount], and, the id
    being fresh, that number is the count of drones under the id. *)
Theorem squad_assignment_count (Math_sqrt : Q -> Q) (e : Engine) :
  (2 <= length (pendingPath e))%nat ->
  storeFits e (droneCount (state e)) ->
  let e' := createSquadFromPending Math_sqrt e in
  let id := (nextCommandId e + 1)%Z in
  let n := Z.min (Z.max 1 (Math_floor
                             (double_mul
                                (inject_Z (Z.of_nat (droneCount (state e))))
                                (deploymentRatio (state e)))))
                 (Z.of_nat (length (eligibleDrones e))) in
  (eligibleDrones e = [] ->
     commands e' = commands e
     /\ commandObjs e' = commandObjs e
     /\ nextCommandId e' = nextCommandId e
     /\ droneState e' = droneState e
     /\ droneCommandId e' = droneCommandId e
     /\ droneTargetId e' = droneTargetId e
     /\ droneHP e' = droneHP e
     /\ callbacks e' = callbacks e ++ [onMessage (Text "NO IDLE DRONES")])
  /\ (eligibleDrones e <> [] ->
      exists assigned : list nat,
        NoDup assigned
        /\ Z.of_nat (length assigned) = n
        /\ (forall i : nat, i ∈ assigned ->
              i ∈ eligibleDrones e
              /\ droneState e' !! i = Some STATE_ATTACKING
              /\ droneCommandId e' !! i = Some id)
        /\ (forall i : nat, i ∉ assigned ->
              droneState e' !! i = droneState e !! i
              /\ droneCommandId e' !! i = droneCommandId e !! i)
        /\ commands e' = commands e ++ [length (commandObjs e)]
        /\ (exists cmd : Command,
              commandObjs e' !! length (commandObjs e) = Some cmd
              /\ cmdId cmd = id
              /\ activeDroneCount cmd = n)
        /\ callbacks e' = callbacks e ++ [onMessage (SquadDeployed id)]
        /\ ((forall i : nat, (i < droneCount (state e))%nat ->
               droneCommandId e !! i <> Some id) ->
            Z.of_nat (length (squadMembers e' id)) = n)).
Proof.
  intros Hlen Hfit e' id n. split.
  - intros Hnil. subst e'. rewrite (createSquad_rejected _ e Hlen Hnil).
    cbn. repeat split; reflexivity.
  - intros Hne.
    set (assigned := take (Z.to_nat (needed e)) (eligibleDrones e)).
    assert (Hn : Z.of_nat (length assigned) = n) by apply assigned_length.
    pose proof (createSquad_slots Math_sqrt e Hlen Hne Hfit) as Hslots.
    pose proof (createSquad_registry Math_sqrt e Hlen Hne) as Hreg.
    cbv zeta in Hslots, Hreg. fold e' in Hslots, Hreg.
    fold assigned in Hslots, Hreg.
    destruct Hslots as [Hin Hout].
    destruct Hreg as (Hcmds & Hobjs & Hnext & Hcb & Hstate & _).
    assert (Hmine : forall i, i ∈ assigned ->
              droneState e' !! i = Some STATE_ATTACKING
              /\ droneCommandId e' !! i = Some id).
    { intros i Hi. apply list_elem_of_lookup_1 in Hi as [j Hj].
      destruct (Hin j i Hj) as (H1 & H2 & _). split; assumption. }
    exists assigned.
    split; [apply assigned_NoDup |].
    split; [exact Hn |].
    split.
    { intros i Hi. split; [apply assigned_eligible; exact Hi |].
      apply Hmine. exact Hi. }
    split.
    { intros i Hi. destruct (Hout i Hi) as (H1 & H2 & _). split; assumption. }
    split; [exact Hcmds |].
    split.
    { eexists. rewrite Hobjs.
      rewrite lookup_app_r, Nat.sub_diag by lia.
      split; [reflexivity |]. split; [reflexivity |]. exact Hn. }
    split; [exact Hcb |].
    intros Hfresh. rewrite <- Hn. f_equal.
    apply Permutation_length, NoDup_Permutation.
    + apply NoDup_filter_seq.
    + apply assigned_NoDup.
    + intros i. rewrite squadMembers_elem.
      replace (droneCount (state e')) with (droneCount (state e))
        by (rewrite Hstate; reflexivity).
      split.
      * intros [Hi Hc]. destruct (decide (i ∈ assigned)) as [|Hnot];
          [assumption |].
        destruct (Hout i Hnot) as (_ & H2 & _). rewrite H2 in Hc.
        exfalso. exact (Hfresh i Hi Hc).
      * intros Hi. split.
        -- apply eligibleDrones_live, assigned_eligible. exact Hi.
        -- apply Hmine. exact Hi.
Qed.

(** The scenario of the specification: of a hundred idle drones with a
    deployment ratio of one half, fifty attack under the new id. *)
Lemma squad_assignment_count_witness :
  Z.of_nat (length (squadMembers (createSquadFromPending Qsqrt scenarioEngine)
                      1)) = 50%Z
  /\ exists cmd : Command,
       commandObjs (createSquadFromPending Qsqrt scenarioEngine) !! 0%nat
         = Some cmd
       /\ activeDroneCount cmd = 50%Z.
Proof.
  destruct (squad_assignment_count Qsqrt scenarioEngine) as [_ H].
  - cbn. lia.
  - unfold storeFits. cbn. lia.
  - destruct H as (assigned & _ & _ & _ & _ & _ & Hcmd & _ & Hcount).
    + vm_compute. discriminate.
    + split.
      * apply Hcount. intros i Hi.
        change (droneCommandId scenarioEngine) with (replicate 100 (-1)%Z).
        intros Hc. apply lookup_replicate in Hc as [Hc _]. discriminate.
      * destruct Hcmd as (cmd & H1 & _ & H3). exists cmd.
        split; [exact H1 | exact H3].
Defined.

(** *** Wall slots *)

(** The sampler returns [count] points or its input. *)
Lemma interpolatePath_length (Math_sqrt : Q -> Q) (points : list Vector3)
    (count : Z) :
  (2 <= count)%Z ->
  length (interpolatePath Math_sqrt points count) = Z.to_nat count
  \/ length (interpolatePath Math_sqrt points count) = length points.
Proof.
  intros Hc. unfold interpolatePath.
  destruct points as [|p [|q pts]]; [right; reflexivity .. |].
  destruct (Qle_bool _ _); [right; reflexivity |]. left.
  cbn [length]. rewrite length_app, length_map, length_seq. cbn [length].
  lia.
Qed.

Lemma wallSlot_first (k m : nat) : wallSlot 0 k m = 0%Z.
Proof.
  unfold wallSlot, Math_floor, double_mul, double_div.
  rewrite <- (Qfloor_Z 0). apply Qfloor_comp.
  assert (E1 : inject_Z (Z.of_nat 0) / inject_Z (Z.of_nat k - 1) == 0)
    by (unfold Qdiv; simpl inject_Z; ring).
  rewrite E1. change (roundDouble 0) with 0.
  assert (E2 : 0 * inject_Z (Z.of_nat m - 1) == 0) by ring.
  rewrite E2. reflexivity.
Qed.

(** The ratio of the last drone is [1] and the number of the last
    point, like every whole number below [2 ^ 53], is a double. *)
Lemma wallSlot_last (k m : nat) :
  (1 < k)%nat -> (Z.of_nat m < 2 ^ 53)%Z ->
  wallSlot (k - 1) k m = (Z.of_nat m - 1)%Z.
Proof.
  intros Hk Hm. unfold wallSlot, Math_floor, double_mul, double_div.
  rewrite <- (Qfloor_Z (Z.of_nat m - 1)) at 2. apply Qfloor_comp.
  replace (Z.of_nat (k - 1)) with (Z.of_nat k - 1)%Z by lia.
  assert (Hnz : ~ inject_Z (Z.of_nat k - 1) == 0).
  { change 0 with (inject_Z 0). rewrite inject_Z_injective. lia. }
  assert (E1 : inject_Z (Z.of_nat k - 1) / inject_Z (Z.of_nat k - 1)
               == inject_Z 1) by (simpl (inject_Z 1); field; exact Hnz).
  rewrite E1, (roundDouble_Z 1) by (cbn; lia).
  assert (E2 : inject_Z 1 * inject_Z (Z.of_nat m - 1)
               == inject_Z (Z.of_nat m - 1)) by (simpl (inject_Z 1); ring).
  rewrite E2. apply roundDouble_Z. lia.
Qed.

(** Where the double product and the exact one part.  A hundred drones
    at the double nearest [0.03] give a product of exactly [3], though
    that double lies below [0.03]; at the double nearest [0.29] they
    give a product below [29].  On a Wall of a thousand points the
    eighth of [112] drones holds slot [62], where the exact quotient and
    product give [63]. *)
Example double_rounding_decides :
  Math_floor (double_mul 100 (roundDouble (3 # 100))) = 3%Z
  /\ Math_floor (100 * roundDouble (3 # 100)) = 2%Z
  /\ Math_floor (double_mul 100 (roundDouble (29 # 100))) = 28%Z
  /\ Math_floor (100 * (29 # 100)) = 29%Z
  /\ wallSlot 7 112 1000 = 62%Z
  /\ Math_floor (inject_Z 7 / inject_Z 111 * inject_Z 999) = 63%Z.
Proof. repeat split; vm_compute; reflexivity. Qed.

(** C4, as stated, fails: the slot is rounded down, not to the nearest
    integer.  Three drones on a Wall of a thousand points: the middle
    drone receives slot 499, where rounding would give 500. *)
Lemma wall_slot_counterexample :
  take (Z.to_nat (needed exampleEngine)) (eligibleDrones exampleEngine)
    = [0; 1; 2]%nat
  /\ (exists cmd : Command,
        commandObjs wallEngine !! 0%nat = Some cmd
        /\ cmdType cmd = WALL
        /\ length (spreadPoints cmd) = 1000%nat)
  /\ droneTargetId wallEngine !! 1%nat = Some 499%Z
  /\ Math_round (double_mul (double_div (inject_Z 1) (inject_Z (3 - 1)))
                            (inject_Z (1000 - 1))) = 500%Z.
Proof.
  split; [vm_compute; reflexivity |].
  split; [eexists; split; [vm_compute; reflexivity |];
          split; vm_compute; reflexivity |].
  split; vm_compute; reflexivity.
Qed.

(** C4, amended.  When [k > 1] drones are assigned to a Wall command
    with [m] spread points, the drone at position [j] of the assignment
    order receives the slot [floor (j / (k - 1) * (m - 1))], quotient
    and product being the double ones the program computes; a single
    drone receives slot [0].  So the first drone holds slot [0] and the
    last one slot [m - 1].  The pending path is a JavaScript array and
    so has fewer than [2 ^ 32] points. *)
Theorem wall_slot_assignment (Math_sqrt : Q -> Q) (e : Engine) :
  (2 <= length (pendingPath e))%nat ->
  (Z.of_nat (length (pendingPath e)) < 2 ^ 32)%Z ->
  storeFits e (droneCount (state e)) ->
  attackMode (state e) = WALL ->
  eligibleDrones e <> [] ->
  let e' := createSquadFromPending Math_sqrt e in
  let assigned := take (Z.to_nat (needed e)) (eligibleDrones e) in
  let k := length assigned in
  exists cmd : Command,
    commandObjs e' !! length (commandObjs e) = Some cmd
    /\ cmdType cmd = WALL
    /\ activeDroneCount cmd = Z.of_nat k
    /\ (forall j i : nat, assigned !! j = Some i ->
          droneCommandId e' !! i = Some (cmdId cmd)
          /\ droneTargetId e' !! i
             = Some (if (1 <? k)%nat
                     then Math_floor
                            (double_mul
                               (double_div (inject_Z (Z.of_nat j))
                                           (inject_Z (Z.of_nat k - 1)))
                               (inject_Z
                                  (Z.of_nat (length (spreadPoints cmd))
                                   - 1)))
                     else 0%Z))
    /\ (forall i : nat, assigned !! 0%nat = Some i ->
          droneTargetId e' !! i = Some 0%Z)
    /\ (forall i : nat, (1 < k)%nat -> assigned !! (k - 1)%nat = Some i ->
          droneTargetId e' !! i
          = Some (Z.of_nat (length (spreadPoints cmd)) - 1)%Z).
Proof.
  intros Hlen Hmax Hfit Hwall Hne e' assigned k.
  pose proof (createSquad_slots Math_sqrt e Hlen Hne Hfit) as Hslots.
  pose proof (createSquad_registry Math_sqrt e Hlen Hne) as Hreg.
  cbv zeta in Hslots, Hreg. fold e' in Hslots, Hreg.
  fold assigned in Hslots, Hreg. fold k in Hslots, Hreg.
  destruct Hslots as [Hin _]. destruct Hreg as (_ & Hobjs & _).
  set (cmd := newCommand Math_sqrt e) in *.
  assert (Htype : cmdType cmd = WALL) by exact Hwall.
  exists (set_activeDroneCount (Z.of_nat k) cmd).
  split; [rewrite Hobjs, lookup_app_r, Nat.sub_diag by lia; reflexivity |].
  split; [exact Htype |]. split; [reflexivity |].
  cbn [spreadPoints cmdId set_activeDroneCount].
  assert (Hslot : forall j i, assigned !! j = Some i ->
            droneTargetId e' !! i
            = Some (if (1 <? k)%nat
                    then wallSlot j k (length (spreadPoints cmd)) else 0%Z)).
  { intros j i Hj. destruct (Hin j i Hj) as (_ & _ & Ht & _).
    rewrite Ht, Htype. reflexivity. }
  split; [| split].
  - intros j i Hj. split; [apply (Hin j i Hj) | apply (Hslot j i Hj)].
  - intros i Hi. rewrite (Hslot 0%nat i Hi), wallSlot_first.
    destruct (1 <? k)%nat; reflexivity.
  - intros i Hk Hi. rewrite (Hslot (k - 1)%nat i Hi).
    destruct (Nat.ltb_spec 1 k) as [_|]; [| lia].
    rewrite wallSlot_last; [reflexivity | exact Hk |].
    pose proof (interpolatePath_length Math_sqrt (pendingPath e) 1000
                  ltac:(lia)) as [Hl | Hl]; unfold cmd, newCommand; cbn [spreadPoints];
      rewrite Hl; lia.
Qed.

Lemma wall_slot_assignment_witness :
  exists cmd : Command,
    commandObjs wallEngine !! 0%nat = Some cmd
    /\ droneTargetId wallEngine !! 0%nat = Some 0%Z
    /\ droneTargetId wallEngine !! 2%nat
       = Some (Z.of_nat (length (spreadPoints cmd)) - 1)%Z.
Proof.
  destruct (wall_slot_assignment Qsqrt exampleEngine)
    as (cmd & Hcmd & _ & _ & _ & Hfirst & Hlast).
  - cbn. lia.
  - cbn. lia.
  - unfold storeFits. cbn. lia.
  - reflexivity.
  - vm_compute. discriminate.
  - exists cmd. split; [exact Hcmd |].
    split; [apply Hfirst; vm_compute; reflexivity |].
    apply Hlast; [vm_compute; lia | vm_compute; reflexivity].
Defined.

(** ** The path sampler *)

Lemma Qsqrt_nonneg (x : Q) : 0 <= Qsqrt x.
Proof.
  unfold Qsqrt, Qle. simpl. rewrite Z.mul_1_r. apply Z.sqrt_nonneg.
Qed.

Lemma veq_refl (a : Vector3) : a =v= a.
Proof. unfold veq. repeat split; reflexivity. Qed.

#[global] Instance veq_equivalence : Equivalence veq.
Proof.
  split.
  - intros a. apply veq_refl.
  - intros a b (H1 & H2 & H3). unfold veq.
    rewrite H1, H2, H3. repeat split; reflexivity.
  - intros a b c (H1 & H2 & H3) (H4 & H5 & H6). unfold veq.
    rewrite H1, H2, H3, H4, H5, H6. repeat split; reflexivity.
Qed.

Lemma lerpVectors_0 (a b : Vector3) : lerpVectors a b 0 =v= a.
Proof. unfold veq, lerpVectors. simpl. repeat split; ring. Qed.

Lemma lerpVectors_1 (a b : Vector3) : lerpVectors a b 1 =v= b.
Proof. unfold veq, lerpVectors. simpl. repeat split; ring. Qed.

Lemma lerpVectors_alpha (a b : Vector3) (s t : Q) :
  s == t -> lerpVectors a b s =v= lerpVectors a b t.
Proof.
  intros H. unfold veq, lerpVectors. simpl. rewrite H.
  repeat split; reflexivity.
Qed.

Lemma distanceToSquared_veq (a a' b b' : Vector3) :
  a =v= a' -> b =v= b' -> distanceToSquared a b == distanceToSquared a' b'.
Proof.
  intros (H1 & H2 & H3) (H4 & H5 & H6). unfold distanceToSquared.
  rewrite H1, H2, H3, H4, H5, H6. reflexivity.
Qed.

Lemma fold_left_Qplus (l : list Q) (a : Q) :
  fold_left Qplus l a == a + sumQ l.
Proof.
  revert a. induction l as [|x l IH]; intros a; simpl.
  - ring.
  - rewrite IH. ring.
Qed.

Lemma last_List_last {A} (l : list A) (d : A) :
  l <> [] -> last l = Some (List.last l d).
Proof.
  induction l as [|x l IH]; intros Hne; [congruence |].
  destruct l as [|y l]; [reflexivity |].
  change (last (x :: y :: l)) with (last (y :: l)).
  change (List.last (x :: y :: l) d) with (List.last (y :: l) d).
  apply IH. discriminate.
Qed.

Section PathSampler.
Variable Math_sqrt : Q -> Q.
Hypothesis Math_sqrt_nonneg : forall x : Q, 0 <= Math_sqrt x.

Lemma totalLen_sum (points : list Vector3) :
  totalLen Math_sqrt points == sumQ (segDists Math_sqrt points).
Proof. unfold totalLen. rewrite fold_left_Qplus. ring. Qed.

Lemma segDists_length (points : list Vector3) :
  length (segDists Math_sqrt points) = (length points - 1)%nat.
Proof.
  induction points as [|p points IH]; [reflexivity |].
  destruct points as [|q points]; [reflexivity |].
  change (segDists Math_sqrt (p :: q :: points))
    with (distanceTo Math_sqrt p q :: segDists Math_sqrt (q :: points)).
  simpl length in *. rewrite IH. lia.
Qed.

Lemma segDists_lookup (points : list Vector3) (j : nat) (pj pj1 : Vector3) :
  points !! j = Some pj -> points !! S j = Some pj1 ->
  segDists Math_sqrt points !! j = Some (distanceTo Math_sqrt pj pj1).
Proof.
  revert j. induction points as [|p points IH]; intros j Hj Hj1;
    [discriminate |].
  destruct points as [|q points]; [discriminate |].
  change (segDists Math_sqrt (p :: q :: points))
    with (distanceTo Math_sqrt p q :: segDists Math_sqrt (q :: points)).
  destruct j as [|j].
  - simpl in Hj, Hj1. injection Hj as ->. injection Hj1 as ->. reflexivity.
  - simpl. apply IH; assumption.
Qed.

Lemma arcPrefix_S (points : list Vector3) (j : nat) (pj pj1 : Vector3) :
  points !! j = Some pj -> points !! S j = Some pj1 ->
  arcPrefix Math_sqrt points (S j)
  == arcPrefix Math_sqrt points j + distanceTo Math_sqrt pj pj1.
Proof.
  intros Hj Hj1. unfold arcPrefix.
  rewrite (take_S_r _ _ _ (segDists_lookup points j pj pj1 Hj Hj1)).
  generalize (take j (segDists Math_sqrt points)). intros l.
  induction l as [|x l IH]; simpl; [ring |]. rewrite IH. ring.
Qed.

Lemma arcPrefix_full (points : list Vector3) :
  arcPrefix Math_sqrt points (length points - 1)
  == totalLen Math_sqrt points.
Proof.
  rewrite totalLen_sum. unfold arcPrefix.
  rewrite <- segDists_length, firstn_all. reflexivity.
Qed.

(** The inner loop finds the segment that holds the arc length [t], and
    the point it returns lies at that arc length. *)
Lemma locate_spec (points : list Vector3) :
  forall t acc : Q,
  acc < t -> t <= acc + sumQ (segDists Math_sqrt points) ->
  exists (j : nat) (pj pj1 : Vector3) (alpha : Q),
    points !! j = Some pj
    /\ points !! S j = Some pj1
    /\ locate t acc (segDists Math_sqrt points) points
       = Some (lerpVectors pj pj1 alpha)
    /\ 0 < alpha /\ alpha <= 1
    /\ acc + arcPrefix Math_sqrt points j
       + alpha * distanceTo Math_sqrt pj pj1 == t.
Proof.
  induction points as [|p points IH]; intros t acc Hlt Hle.
  { simpl in Hle. lra. }
  destruct points as [|q points].
  { simpl in Hle. lra. }
  change (segDists Math_sqrt (p :: q :: points))
    with (distanceTo Math_sqrt p q :: segDists Math_sqrt (q :: points)) in *.
  set (d := distanceTo Math_sqrt p q) in *.
  assert (Hd : 0 <= d) by apply Math_sqrt_nonneg.
  cbn [locate].
  destruct (Qle_bool t (acc + d)) eqn:Hhit; qbool.
  - assert (Hdpos : 0 < d) by lra.
    exists 0%nat, p, q, ((t - acc) / d).
    split; [reflexivity |]. split; [reflexivity |]. split; [reflexivity |].
    split; [apply Qlt_shift_div_l; lra |].
    split; [apply Qle_shift_div_r; lra |].
    unfold arcPrefix. rewrite take_0. change (sumQ []) with 0.
    fold d. clearbody d. field. lra.
  - change (sumQ (d :: segDists Math_sqrt (q :: points)))
      with (d + sumQ (segDists Math_sqrt (q :: points))) in Hle.
    destruct (IH t (acc + d)) as (j & pj & pj1 & alpha & H1 & H2 & H3 & H4 & H5 & H6);
      [lra | lra |].
    exists (S j), pj, pj1, alpha.
    split; [exact H1 |]. split; [exact H2 |]. split; [exact H3 |].
    split; [exact H4 |]. split; [exact H5 |].
    unfold arcPrefix in *.
    change (sumQ (take (S j) (segDists Math_sqrt (p :: q :: points))))
      with (d + sumQ (take j (segDists Math_sqrt (q :: points)))).
    lra.
Qed.
End PathSampler.

Lemma lerpVectors_distance (a b : Vector3) (s t : Q) :
  distanceToSquared (lerpVectors a b s) (lerpVectors a b t)
  == (t - s) * (t - s) * distanceToSquared a b.
Proof. unfold distanceToSquared, lerpVectors. simpl. ring. Qed.

Lemma interpolatePath_degenerate (Math_sqrt : Q -> Q) (points : list Vector3)
    (N : Z) :
  (length points < 2)%nat \/ totalLen Math_sqrt points <= 1 # 10 ->
  interpolatePath Math_sqrt points N = points.
Proof.
  intros H. unfold interpolatePath.
  destruct points as [|p [|q points]]; try reflexivity.
  destruct H as [H|H]; [simpl in H; lia |].
  apply Qle_bool_iff in H. rewrite H. reflexivity.
Qed.

(** The output, point by point: the first input point, the samples, the
    last input point. *)
Lemma interpolatePath_lookup (Math_sqrt : Q -> Q) (points : list Vector3)
    (N : Z) (i : nat) :
  (2 <= length points)%nat -> 1 # 10 < totalLen Math_sqrt points ->
  (2 <= N)%Z -> (i < Z.to_nat N)%nat ->
  exists first final : Vector3,
    head points = Some first
    /\ last points = Some final
    /\ length (interpolatePath Math_sqrt points N) = Z.to_nat N
    /\ interpolatePath Math_sqrt points N !! i
       = Some (if decide (i = 0%nat) then first
               else if decide (i = (Z.to_nat N - 1)%nat) then final
               else samplePoint Math_sqrt points
                      (totalLen Math_sqrt points / inject_Z (N - 1)) final i).
Proof.
  intros Hlen Htot HN Hi.
  destruct points as [|first [|second rest]]; simpl in Hlen; try lia.
  exists first, (List.last (first :: second :: rest) first).
  split; [reflexivity |].
  split; [apply last_List_last; discriminate |].
  unfold interpolatePath.
  assert (Qle_bool (totalLen Math_sqrt (first :: second :: rest)) (1 # 10)
          = false) as -> by (apply Qle_bool_false; exact Htot).
  cbv zeta.
  set (final := List.last (first :: second :: rest) first).
  set (f := samplePoint Math_sqrt (first :: second :: rest) _ final).
  assert (Hmid : length (map f (seq 1 (Z.to_nat (N - 2))))
                 = Z.to_nat (N - 2)).
  { rewrite length_map, length_seq. reflexivity. }
  split.
  { simpl. rewrite length_app, Hmid. simpl. lia. }
  destruct i as [|i]; [reflexivity |].
  rewrite decide_False by lia.
  change ((first :: map f (seq 1 (Z.to_nat (N - 2))) ++ [final]) !! S i)
    with ((map f (seq 1 (Z.to_nat (N - 2))) ++ [final]) !! i).
  case_decide as Hend.
  - rewrite lookup_app_r by lia.
    replace (i - length (map f (seq 1 (Z.to_nat (N - 2)))))%nat with 0%nat
      by lia.
    reflexivity.
  - rewrite lookup_app_l by lia.
    change (map f (seq 1 (Z.to_nat (N - 2))))
      with (f <$> seq 1 (Z.to_nat (N - 2))).
    rewrite list_lookup_fmap, lookup_seq_lt by lia. reflexivity.
Qed.

(** C2. Degenerate input (fewer than two points, or a total length of
    at most a tenth) comes back unchanged.  Otherwise, for a target count
    [N >= 2], the output has exactly [N] points, begins with the first
    input point and ends with the last, and its point [i] lies on the
    input polyline at arc length [i * totalLen / (N - 1)]; for a straight
    two-point input of length [L], consecutive output points are
    [L / (N - 1)] apart. *)
Theorem interpolatePath_even_spacing (Math_sqrt : Q -> Q)
    (points : list Vector3) (N : Z) :
  (forall x : Q, 0 <= Math_sqrt x) ->
  ((length points < 2)%nat \/ totalLen Math_sqrt points <= 1 # 10 ->
     interpolatePath Math_sqrt points N = points)
  /\ ((2 <= length points)%nat -> 1 # 10 < totalLen Math_sqrt points ->
      (2 <= N)%Z ->
      let out := interpolatePath Math_sqrt points N in
      let step := totalLen Math_sqrt points / inject_Z (N - 1) in
      length out = Z.to_nat N
      /\ head out = head points
      /\ last out = last points
      /\ (forall i : nat, (i < Z.to_nat N)%nat ->
            exists (p : Vector3) (j : nat) (pj pj1 : Vector3) (alpha : Q),
              out !! i = Some p
              /\ points !! j = Some pj
              /\ points !! S j = Some pj1
              /\ 0 <= alpha /\ alpha <= 1
              /\ p =v= lerpVectors pj pj1 alpha
              /\ arcPrefix Math_sqrt points j
                 + alpha * distanceTo Math_sqrt pj pj1
                 == inject_Z (Z.of_nat i) * step)
      /\ (forall a b : Vector3, points = [a; b] ->
            let L := distanceTo Math_sqrt a b in
            L * L == distanceToSquared a b ->
            forall (i : nat) (p q : Vector3),
              out !! i = Some p -> out !! S i = Some q ->
              distanceToSquared p q
              == (L / inject_Z (N - 1)) * (L / inject_Z (N - 1)))).
Proof.
  intros Hnn. split; [apply interpolatePath_degenerate |].
  intros Hlen Htot HN out step.
  assert (Hc : 0 < inject_Z (N - 1)).
  { change 0 with (inject_Z 0). rewrite <- Zlt_Qlt. lia. }
  assert (Hstep : step * inject_Z (N - 1) == totalLen Math_sqrt points).
  { unfold step. field. lra. }
  assert (Hstep0 : 0 < step).
  { unfold step. apply Qlt_shift_div_l; lra. }
  assert (Hspaced : forall i : nat, (i < Z.to_nat N)%nat ->
            exists (p : Vector3) (j : nat) (pj pj1 : Vector3) (alpha : Q),
              out !! i = Some p
              /\ points !! j = Some pj
              /\ points !! S j = Some pj1
              /\ 0 <= alpha /\ alpha <= 1
              /\ p =v= lerpVectors pj pj1 alpha
              /\ arcPrefix Math_sqrt points j
                 + alpha * distanceTo Math_sqrt pj pj1
                 == inject_Z (Z.of_nat i) * step).
  { intros i Hi.
    destruct (interpolatePath_lookup Math_sqrt points N i Hlen Htot HN Hi)
      as (first & final & Hfirst & Hfinal & _ & Hout).
    fold out in Hout. fold step in Hout.
    destruct (lookup_lt_is_Some_2 points 1%nat) as [second Hsecond]; [lia |].
    case_decide as Hi0.
    - subst i. exists first, 0%nat, first, second, 0.
      split; [exact Hout |].
      split; [rewrite <- head_lookup; exact Hfirst |].
      split; [exact Hsecond |].
      split; [lra |]. split; [lra |].
      split; [symmetry; apply lerpVectors_0 |].
      unfold arcPrefix. rewrite take_0. change (sumQ []) with 0.
      simpl inject_Z. ring.
    - case_decide as Hend.
      + rewrite last_lookup in Hfinal.
        destruct (lookup_lt_is_Some_2 points (length points - 2)%nat)
          as [pj Hpj]; [lia |].
        replace (Init.Nat.pred (length points)) with (S (length points - 2))
          in Hfinal by lia.
        exists final, (length points - 2)%nat, pj, final, 1.
        split; [exact Hout |]. split; [exact Hpj |]. split; [exact Hfinal |].
        split; [lra |]. split; [lra |].
        split; [symmetry; apply lerpVectors_1 |].
        pose proof (arcPrefix_S Math_sqrt points _ pj final Hpj Hfinal) as HS.
        replace (S (length points - 2)) with (length points - 1)%nat in HS
          by lia.
        rewrite arcPrefix_full in HS.
        replace (Z.of_nat i) with (N - 1)%Z by lia. lra.
      + assert (Hi1 : 0 < inject_Z (Z.of_nat i)).
        { change 0 with (inject_Z 0). rewrite <- Zlt_Qlt. lia. }
        assert (Hi2 : inject_Z (Z.of_nat i) <= inject_Z (N - 1)).
        { rewrite <- Zle_Qle. lia. }
        destruct (locate_spec Math_sqrt Hnn points
                    (inject_Z (Z.of_nat i) * step) 0)
          as (j & pj & pj1 & alpha & H1 & H2 & H3 & H4 & H5 & H6).
        * apply Qmult_lt_0_compat; assumption.
        * rewrite <- totalLen_sum, <- Hstep.
          rewrite Qplus_0_l, (Qmult_comm step).
          apply Qmult_le_compat_r; lra.
        * exists (lerpVectors pj pj1 alpha), j, pj, pj1, alpha.
          split; [rewrite Hout; unfold samplePoint; rewrite H3; reflexivity |].
          split; [exact H1 |]. split; [exact H2 |].
          split; [lra |]. split; [exact H5 |].
          split; [apply veq_refl |]. lra. }
  destruct (interpolatePath_lookup Math_sqrt points N 0 Hlen Htot HN)
    as (first & final & Hfirst & Hfinal & Hlength & Hout0); [lia |].
  fold out in Hlength, Hout0.
  split; [exact Hlength |].
  split; [rewrite head_lookup, Hout0, Hfirst; reflexivity |].
  split.
  { rewrite last_lookup, Hlength.
    destruct (interpolatePath_lookup Math_sqrt points N (Z.to_nat N - 1)
                Hlen Htot HN) as (f' & final' & _ & Hf' & _ & Hlast); [lia |].
    fold out in Hlast.
    replace (Init.Nat.pred (Z.to_nat N)) with (Z.to_nat N - 1)%nat by lia.
    rewrite Hlast, decide_False by lia. rewrite decide_True by reflexivity.
    congruence. }
  split; [exact Hspaced |].
  intros a b -> L HL i p q Hp Hq.
  assert (Hi : (S i < Z.to_nat N)%nat).
  { apply lookup_lt_Some in Hq. lia. }
  assert (Htwo : forall (k : nat) (x : Vector3),
            (k < Z.to_nat N)%nat -> out !! k = Some x ->
            exists alpha : Q,
              x =v= lerpVectors a b alpha
              /\ alpha * L == inject_Z (Z.of_nat k) * step).
  { intros k x Hk Hx.
    destruct (Hspaced k Hk) as (x' & j & pj & pj1 & alpha & E1 & E2 & E3 & _ & _ & E4 & E5).
    assert (x' = x) as -> by congruence.
    destruct j as [|[|j]]; try discriminate.
    simpl in E2, E3. injection E2 as <-. injection E3 as <-.
    exists alpha. split; [exact E4 |].
    unfold arcPrefix in E5. rewrite take_0 in E5.
    change (sumQ []) with 0 in E5. fold L in E5. lra. }
  destruct (Htwo i p) as (s & Hs1 & Hs2); [lia | exact Hp |].
  destruct (Htwo (S i) q) as (t & Ht1 & Ht2); [exact Hi | exact Hq |].
  rewrite (distanceToSquared_veq _ _ _ _ Hs1 Ht1), lerpVectors_distance.
  rewrite <- HL.
  assert (HT : totalLen Math_sqrt [a; b] == L).
  { unfold totalLen. simpl. fold L. ring. }
  assert (Hdelta : (t - s) * L == step).
  { rewrite Nat2Z.inj_succ in Ht2. unfold Z.succ in Ht2.
    rewrite inject_Z_plus in Ht2. change (inject_Z 1) with 1 in Ht2.
    transitivity (t * L - s * L); [ring |].
    rewrite Ht2, Hs2. ring. }
  assert (Hquot : L / inject_Z (N - 1) == step).
  { unfold step. rewrite HT. reflexivity. }
  rewrite Hquot, <- Hdelta. ring.
Qed.

Lemma interpolatePath_even_spacing_witness :
  let out := interpolatePath Qsqrt [Vec3 0 0 0; Vec3 3 4 0] 6 in
  length out = 6%nat
  /\ head out = Some (Vec3 0 0 0)
  /\ last out = Some (Vec3 3 4 0)
  /\ forall (i : nat) (p q : Vector3),
       out !! i = Some p -> out !! S i = Some q ->
       distanceToSquared p q == 1.
Proof.
  destruct (interpolatePath_even_spacing Qsqrt [Vec3 0 0 0; Vec3 3 4 0] 6
              Qsqrt_nonneg) as [_ H].
  destruct H as (H1 & H2 & H3 & _ & H5);
    [cbn; lia | vm_compute; reflexivity | lia |].
  split; [exact H1 |]. split; [exact H2 |]. split; [exact H3 |].
  intros i p q Hp Hq.
  rewrite (H5 (Vec3 0 0 0) (Vec3 3 4 0) eq_refl
             ltac:(vm_compute; reflexivity) i p q Hp Hq).
  vm_compute. reflexivity.
Defined.

(** ** The stride scheduler *)

(** *** The square root of the examples *)

Lemma Qsqrt_proper (x y : Q) : x == y -> Qsqrt x = Qsqrt y.
Proof. intros H. unfold Qsqrt. rewrite (Qred_complete x y H). reflexivity. Qed.

Lemma Qsqrt_square (q : Q) : 0 <= q -> Qsqrt (q * q) == q.
Proof.
  intros Hq.
  set (q' := Qred q).
  assert (Hq' : q' == q) by apply Qred_correct.
  assert (Hn : (0 <= Qnum q')%Z).
  { assert (H0 : 0 <= q') by (rewrite Hq'; exact Hq).
    unfold Qle in H0. simpl in H0. lia. }
  assert (Hred : Qred (q * q) = q' * q').
  { rewrite (Qred_complete (q * q) (q' * q'))
      by (rewrite Hq'; reflexivity).
    set (r := Qred (q' * q')).
    assert (Hr : r == q' * q') by apply Qred_correct.
    assert (Hrp : Z.coprime (Qnum r) (Zpos (Qden r))) by apply gcd_Qred.
    assert (Hqp : Z.coprime (Qnum q') (Zpos (Qden q'))) by apply gcd_Qred.
    assert (Hsq : Z.coprime (Qnum q' * Qnum q')
                    (Zpos (Qden q') * Zpos (Qden q'))).
    { apply Z.coprime_mul_l; apply Z.coprime_mul_r; exact Hqp. }
    apply rel_prime_iff_coprime in Hrp, Hsq.
    unfold Qeq in Hr. simpl in Hr. rewrite Pos2Z.inj_mul in Hr.
    destruct (rel_prime_cross_prod _ _ _ _ Hrp Hsq) as [E1 E2]; try lia.
    destruct r as [rn rd]. simpl in *. unfold Qmult. simpl.
    f_equal; [exact E1 | lia]. }
  unfold Qsqrt. rewrite Hred. simpl.
  rewrite Pos2Z.inj_mul.
  replace (Qnum q' * Qnum q' * (Zpos (Qden q') * Zpos (Qden q')))%Z
    with ((Qnum q' * Zpos (Qden q')) * (Qnum q' * Zpos (Qden q')))%Z by ring.
  rewrite Z.sqrt_square by lia.
  rewrite <- Hq'. unfold Qeq. simpl. rewrite Pos2Z.inj_mul. ring.
Qed.

(** *** Which frames visit a drone *)

Lemma strideFrom_elem (stop stride : nat) :
  (1 <= stride)%nat ->
  forall (fuel start x : nat),
  (stop - start <= fuel)%nat ->
  x ∈ strideFrom fuel start stop stride
  <-> (x < stop)%nat /\ exists q : nat, x = (start + q * stride)%nat.
Proof.
  intros Hs. induction fuel as [|fuel IH]; intros start x Hfuel; simpl.
  - split; [intros H; inversion H |].
    intros (Hx & q & ->). lia.
  - destruct (Nat.ltb_spec start stop) as [Hlt|Hge].
    + rewrite elem_of_cons, IH by lia. split.
      * intros [-> | (Hx & q & ->)].
        -- split; [exact Hlt |]. exists 0%nat. lia.
        -- split; [exact Hx |]. exists (S q). lia.
      * intros (Hx & q & ->). destruct q as [|q].
        -- left. lia.
        -- right. split; [exact Hx |]. exists q. lia.
    + split; [intros H; inversion H |].
      intros (Hx & q & ->). lia.
Qed.

Lemma phase_bound (k base i f : nat) :
  (1 <= k)%nat -> (0 <= phase k base i f < Z.of_nat k)%Z.
Proof. intros Hk. unfold phase. apply Z.mod_pos_bound. lia. Qed.

(** A loop visits drone [i] exactly on the frames of phase [0]. *)
Lemma visited_phase (k base stop i f : nat) :
  (1 <= k)%nat -> (base <= i < stop)%nat ->
  i ∈ strideLoop (base + f mod k) stop k <-> phase k base i f = 0%Z.
Proof.
  intros Hk Hi. unfold strideLoop, phase.
  rewrite (strideFrom_elem stop k Hk) by lia.
  pose proof (Nat.mod_upper_bound f k ltac:(lia)) as Hmod.
  pose proof (Nat.div_mod_eq f k) as Hf.
  split.
  - intros (_ & q & Hq).
    replace (Z.of_nat i - Z.of_nat base - Z.of_nat f)%Z
      with ((Z.of_nat q - Z.of_nat (f / k)) * Z.of_nat k)%Z by nia.
    apply Z.mod_mul. lia.
  - intros Hz. split; [lia |].
    apply Z.mod_divide in Hz as [z Hz]; [| lia].
    assert (Hq : (0 <= z + Z.of_nat (f / k))%Z) by nia.
    exists (Z.to_nat (z + Z.of_nat (f / k))). nia.
Qed.

Lemma phase_S (k base i f : nat) :
  (1 <= k)%nat ->
  phase k base i (S f)
  = if (phase k base i f =? 0)%Z then (Z.of_nat k - 1)%Z
    else (phase k base i f - 1)%Z.
Proof.
  intros Hk. unfold phase.
  set (d := (Z.of_nat i - Z.of_nat base - Z.of_nat f)%Z).
  replace (Z.of_nat i - Z.of_nat base - Z.of_nat (S f))%Z with (d - 1)%Z
    by lia.
  assert (Hkz : (0 < Z.of_nat k)%Z) by lia.
  pose proof (Z.div_mod d (Z.of_nat k) ltac:(lia)) as Hd.
  pose proof (Z.mod_pos_bound d (Z.of_nat k) Hkz) as Hb.
  destruct (Z.eqb_spec (d mod Z.of_nat k) 0) as [H|H]; symmetry.
  - apply (Zmod_unique (d - 1) (Z.of_nat k) (d / Z.of_nat k - 1)); lia.
  - apply (Zmod_unique (d - 1) (Z.of_nat k) (d / Z.of_nat k)); lia.
Qed.

(** The updates received in a window, by the phases at its ends: each
    update is worth [k] frames. *)
Lemma visits_phase (k base stop i : nat) :
  (1 <= k)%nat -> (base <= i < stop)%nat ->
  forall f n : nat,
  (Z.of_nat k * Z.of_nat (visits k base stop i f n)
   = Z.of_nat n + phase k base i (f + n) - phase k base i f)%Z.
Proof.
  intros Hk Hi f n. revert f.
  induction n as [|n IH]; intros f.
  - simpl. rewrite Nat.add_0_r. lia.
  - cbn [visits]. rewrite Nat2Z.inj_add, Z.mul_add_distr_l, IH.
    replace (S f + n)%nat with (f + S n)%nat by lia.
    rewrite (phase_S k base i f Hk).
    pose proof (visited_phase k base stop i f Hk Hi) as Hv.
    case_bool_decide as Hin.
    + apply Hv in Hin. rewrite Hin. simpl. lia.
    + destruct (Z.eqb_spec (phase k base i f) 0) as [Hz|Hz];
        [apply Hv in Hz; contradiction |].
      lia.
Qed.

Lemma phase_period (k base i f n : nat) :
  (1 <= k)%nat -> (n mod k = 0)%nat ->
  phase k base i (f + n) = phase k base i f.
Proof.
  intros Hk Hn. unfold phase.
  pose proof (Nat.div_mod_eq n k) as Hd. rewrite Hn in Hd.
  replace (Z.of_nat i - Z.of_nat base - Z.of_nat (f + n))%Z
    with (Z.of_nat i - Z.of_nat base - Z.of_nat f
          + (- Z.of_nat (n / k)) * Z.of_nat k)%Z by nia.
  apply Z.mod_add. lia.
Qed.

Lemma fgStride_pos (lagOpt : bool) (visibleCap : nat) :
  (1 <= fgStride lagOpt visibleCap)%nat.
Proof.
  unfold fgStride.
  destruct (negb lagOpt && (50000 <? Z.of_nat visibleCap)%Z) eqn:E; [| lia].
  apply andb_true_iff in E as [_ E]. apply Z.ltb_lt in E.
  unfold Math_ceil.
  assert (H : (1 <= Qceiling (inject_Z (Z.of_nat visibleCap) / 50000))%Z).
  { assert (Hq : 1 <= inject_Z (Z.of_nat visibleCap) / 50000).
    { apply Qle_shift_div_l; [reflexivity |].
      rewrite Qmult_1_l. change 50000 with (inject_Z 50000).
      rewrite <- Zle_Qle. lia. }
    pose proof (Qle_ceiling (inject_Z (Z.of_nat visibleCap) / 50000)) as Hc.
    assert (Hz : inject_Z 1 <= inject_Z
                   (Qceiling (inject_Z (Z.of_nat visibleCap) / 50000)))
      by (change (inject_Z 1) with 1; lra).
    rewrite <- Zle_Qle in Hz. exact Hz. }
  lia.
Qed.

Lemma bgStride_pos (bgCount : nat) : (1 <= bgStride bgCount)%nat.
Proof. unfold bgStride. lia. Qed.

(** The update of a returning drone that is not within ten of the dock:
    it steers toward the dock. *)
Lemma updateSingleDrone_returning (Math_sqrt Math_sin Math_cos : Q -> Q)
    (Math_random : nat -> Q) (dt : Q) (cmdMap : gmap Z ref) (i : nat)
    (move : Q) (stride : nat) (e : Engine) (d : Drone) :
  readDrone e i = Some d -> dState d = STATE_RETURNING ->
  10 <= distanceTo Math_sqrt (dPos d) (Vec3 0 10 0) ->
  updateSingleDrone Math_sqrt Math_sin Math_cos Math_random dt cmdMap i move
    stride e
  = Some (writePos i (steerToward Math_sqrt (dPos d) (Vec3 0 10 0) move) e).
Proof.
  intros Hd Hs Hfar. unfold updateSingleDrone, updateReturning.
  rewrite Hd, Hs. apply Qlt_bool_false in Hfar. rewrite Hfar. reflexivity.
Qed.

(** ** The link between drones and commands is an invariant *)

Lemma skeleton_lookup (objs objs' : list Command) (r : ref) (cmd : Command) :
  skeleton <$> objs' = skeleton <$> objs ->
  objs !! r = Some cmd ->
  exists cmd' : Command, objs' !! r = Some cmd' /\ skeleton cmd' = skeleton cmd.
Proof.
  intros Hsk Hr.
  assert (H : (skeleton <$> objs') !! r = Some (skeleton cmd)).
  { rewrite Hsk. apply list_lookup_fmap_Some_2. exact Hr. }
  apply list_lookup_fmap_Some_1 in H as (cmd' & Heq & Hcmd').
  eauto.
Qed.

Lemma liveId_view (e e' : Engine) (c : Z) :
  commands e' = commands e ->
  skeleton <$> commandObjs e' = skeleton <$> commandObjs e ->
  liveId e c -> liveId e' c.
Proof.
  intros Hc Hsk (r & cmd & Hr & Hcmd & Hid).
  destruct (skeleton_lookup _ _ r cmd Hsk Hcmd) as (cmd' & Hcmd' & Heq).
  exists r, cmd'. rewrite Hc. split; [exact Hr |]. split; [exact Hcmd' |].
  unfold skeleton in Heq. congruence.
Qed.

(** Two engines with the same view are linked and well formed together. *)
Lemma invariant_view (e e' : Engine) :
  linkView e' = linkView e ->
  wellFormed e /\ commandLinked e -> wellFormed e' /\ commandLinked e'.
Proof.
  unfold linkView.
  intros [= Hn Hs Hc Ht Hp Hl Hh Hcmds Hsk Hnext]
         ((Hfit & Htgt & Hobj & Hnx) & Hlink).
  split; [split; [| split; [| split]] |].
  - unfold storeFits in *. rewrite Hn, Hs, Hc, Ht, Hp, Hl, Hh. exact Hfit.
  - unfold targetsInBounds in *. rewrite Hn, Hs, Ht. exact Htgt.
  - intros r cmd' Hr.
    destruct (skeleton_lookup _ _ r cmd' (eq_sym Hsk) Hr)
      as (cmd & Hcmd & Heq).
    destruct (Hobj r cmd Hcmd) as [H1 H2].
    unfold skeleton in Heq. injection Heq as _ Hpath Hspread.
    rewrite <- Hpath, <- Hspread. split; assumption.
  - rewrite Hnext. exact Hnx.
  - intros i s c Hi Hst Hcid. rewrite Hn in Hi. rewrite Hs in Hst.
    rewrite Hc in Hcid.
    destruct (Hlink i s c Hi Hst Hcid) as [H1 H2].
    split; [exact H1 |].
    intros Hpos. apply (liveId_view e e' c Hcmds Hsk), H2, Hpos.
Qed.

Lemma cmdMapOk_view (e e' : Engine) (cmdMap : gmap Z ref) :
  linkView e' = linkView e -> cmdMapOk e cmdMap -> cmdMapOk e' cmdMap.
Proof.
  unfold linkView.
  intros [= _ _ _ _ _ _ _ Hcmds Hsk _] [Hkeys Hvals]. split.
  - intros c Hlive. apply Hkeys.
    apply (liveId_view e' e c (eq_sym Hcmds) (eq_sym Hsk) Hlive).
  - intros c r Hr. destruct (Hvals c r Hr) as (cmd & Hcmd & Hid).
    destruct (skeleton_lookup _ _ r cmd Hsk Hcmd) as (cmd' & Hcmd' & Heq).
    exists cmd'. split; [exact Hcmd' |]. unfold skeleton in Heq. congruence.
Qed.

(** The invariant holds when the engine starts. *)
Lemma invariant_initial (n capacity : nat) (s : GameState) :
  (n <= capacity)%nat ->
  wellFormed (initialEngine n capacity s)
  /\ commandLinked (initialEngine n capacity s).
Proof.
  intros Hn. split; [split; [| split; [| split]] |].
  - unfold storeFits. cbn. rewrite !length_replicate. lia.
  - intros i t _ Hs _. cbn in Hs.
    apply lookup_replicate in Hs as [Hs _]. discriminate.
  - intros r cmd Hr. unfold lookupCmd in Hr. cbn in Hr.
    rewrite lookup_nil in Hr. discriminate.
  - cbn. lia.
  - intros i st c _ Hs Hc. cbn in Hs, Hc.
    apply lookup_replicate in Hs as [-> _].
    apply lookup_replicate in Hc as [-> _].
    split; [split; [lia | discriminate] | lia].
Qed.

(** *** The invariant, drone by drone *)

Lemma invariant_intro (e : Engine) :
  storeFits e (droneCount (state e)) ->
  objectsOk e -> (0 <= nextCommandId e)%Z ->
  (forall (i : nat) (s : DroneState) (c t : Z),
     (i < droneCount (state e))%nat ->
     droneState e !! i = Some s -> droneCommandId e !! i = Some c ->
     droneTargetId e !! i = Some t -> droneOk e s c t) ->
  wellFormed e /\ commandLinked e.
Proof.
  intros Hfit Hobj Hnext Hok.
  pose proof Hfit as (_ & Hs & Ht & Hc & _).
  split; [split; [exact Hfit | split; [| split; assumption]] |].
  - intros i t Hi Hst Htid.
    destruct (lookup_lt_is_Some_2 (droneCommandId e) i) as [c Hcid]; [lia |].
    destruct (Hok i _ c t Hi Hst Hcid Htid) as (_ & _ & H). auto.
  - intros i s c Hi Hst Hcid.
    destruct (lookup_lt_is_Some_2 (droneTargetId e) i) as [t Htid]; [lia |].
    destruct (Hok i s c t Hi Hst Hcid Htid) as (H1 & H2 & _). auto.
Qed.

Lemma invariant_elim (e : Engine) (i : nat) (s : DroneState) (c t : Z) :
  wellFormed e /\ commandLinked e ->
  (i < droneCount (state e))%nat ->
  droneState e !! i = Some s -> droneCommandId e !! i = Some c ->
  droneTargetId e !! i = Some t -> droneOk e s c t.
Proof.
  intros ((_ & Htgt & _) & Hlink) Hi Hst Hcid Htid.
  destruct (Hlink i s c Hi Hst Hcid) as [H1 H2].
  split; [exact H1 |]. split; [exact H2 |].
  intros ->. apply (Htgt i t Hi Hst Htid).
Qed.

Lemma droneOk_registry (e e' : Engine) (s : DroneState) (c t : Z) :
  (forall c' : Z, liveId e c' -> liveId e' c') ->
  droneOk e s c t -> droneOk e' s c t.
Proof. intros Hlive (H1 & H2 & H3). split; [| split]; auto. Qed.

(** An engine that differs from a linked one in the record of one
    drone, the new record respecting the link, is linked. *)
Lemma invariant_update_drone (e e' : Engine) (i : nat) :
  wellFormed e /\ commandLinked e ->
  droneCount (state e') = droneCount (state e) ->
  length (dronePos e') = length (dronePos e) ->
  length (droneLoad e') = length (droneLoad e) ->
  length (droneHP e') = length (droneHP e) ->
  length (droneState e') = length (droneState e) ->
  length (droneCommandId e') = length (droneCommandId e) ->
  length (droneTargetId e') = length (droneTargetId e) ->
  commands e' = commands e ->
  skeleton <$> commandObjs e' = skeleton <$> commandObjs e ->
  nextCommandId e' = nextCommandId e ->
  (forall j : nat, j <> i ->
     droneState e' !! j = droneState e !! j
     /\ droneCommandId e' !! j = droneCommandId e !! j
     /\ droneTargetId e' !! j = droneTargetId e !! j) ->
  (forall (s : DroneState) (c t : Z),
     (i < droneCount (state e))%nat ->
     droneState e' !! i = Some s -> droneCommandId e' !! i = Some c ->
     droneTargetId e' !! i = Some t -> droneOk e s c t) ->
  wellFormed e' /\ commandLinked e'.
Proof.
  intros Hinv Hn Hp Hl Hh Hs Hc Ht Hcmds Hsk Hnext Hother Hmine.
  pose proof Hinv as ((Hfit & _ & Hobj & Hnx) & _).
  assert (Hlive : forall c, liveId e c -> liveId e' c).
  { intros c. apply liveId_view; assumption. }
  apply invariant_intro.
  - unfold storeFits in *. rewrite Hn, Hp, Hl, Hh, Hs, Hc, Ht. exact Hfit.
  - intros r cmd' Hr.
    destruct (skeleton_lookup _ _ r cmd' (eq_sym Hsk) Hr)
      as (cmd & Hcmd & Heq).
    destruct (Hobj r cmd Hcmd) as [H1 H2].
    unfold skeleton in Heq. injection Heq as _ Hpath Hspread.
    rewrite <- Hpath, <- Hspread. split; assumption.
  - rewrite Hnext. exact Hnx.
  - intros j s c t Hj Hst Hcid Htid. rewrite Hn in Hj.
    apply (droneOk_registry e e' s c t Hlive).
    destruct (decide (j = i)) as [-> | Hne].
    + apply Hmine; assumption.
    + destruct (Hother j Hne) as (E1 & E2 & E3).
      rewrite E1 in Hst. rewrite E2 in Hcid. rewrite E3 in Htid.
      apply (invariant_elim e j s c t Hinv Hj Hst Hcid Htid).
Qed.

(** *** Swap-with-last removal keeps the link *)

Lemma copySlot_lookup_ne {A} (arr : list A) (i last j : nat) :
  j <> i -> copySlot arr i last !! j = arr !! j.
Proof.
  intros Hne. unfold copySlot. case_match; [| reflexivity].
  apply list_lookup_insert_ne. congruence.
Qed.

Arguments copySlot : simpl never.

Lemma removeDrone_invariant (i : nat) (e : Engine) :
  wellFormed e /\ commandLinked e ->
  wellFormed (removeDrone i e) /\ commandLinked (removeDrone i e).
Proof.
  intros Hinv. pose proof Hinv as ((Hfit & _ & Hobj & Hnx) & _).
  pose proof Hfit as (Fp & Fs & Ft & Fc & Fl & Fh).
  set (last := (droneCount (state e) - 1)%nat).
  assert (Hlive : forall c, liveId e c -> liveId (removeDrone i e) c).
  { intros c. apply liveId_view; unfold removeDrone;
      case_bool_decide; reflexivity. }
  assert (Hcount : droneCount (state (removeDrone i e)) = last).
  { unfold removeDrone. case_bool_decide; reflexivity. }
  apply invariant_intro.
  - rewrite Hcount. unfold storeFits, removeDrone.
    case_bool_decide; cbn; rewrite ?copySlot_length; unfold last; lia.
  - intros r cmd Hr. apply (Hobj r cmd).
    unfold removeDrone, lookupCmd in *. case_bool_decide; exact Hr.
  - unfold removeDrone. case_bool_decide; exact Hnx.
  - rewrite Hcount. intros j s c t Hj Hst Hcid Htid.
    apply (droneOk_registry e _ s c t Hlive).
    unfold removeDrone in Hst, Hcid, Htid. fold last in Hst, Hcid, Htid.
    case_bool_decide as Hne; cbn in Hst, Hcid, Htid.
    + destruct (decide (j = i)) as [-> | Hji].
      * rewrite copySlot_lookup in Hst by (unfold last in *; lia).
        rewrite copySlot_lookup in Hcid by (unfold last in *; lia).
        rewrite copySlot_lookup in Htid by (unfold last in *; lia).
        rewrite decide_True in Hst by reflexivity.
        rewrite decide_True in Hcid by reflexivity.
        rewrite decide_True in Htid by reflexivity.
        apply (invariant_elim e last s c t Hinv); [unfold last in *; lia | | |];
          assumption.
      * rewrite copySlot_lookup_ne in Hst by exact Hji.
        rewrite copySlot_lookup_ne in Hcid by exact Hji.
        rewrite copySlot_lookup_ne in Htid by exact Hji.
        apply (invariant_elim e j s c t Hinv); [unfold last in *; lia | | |];
          assumption.
    + apply (invariant_elim e j s c t Hinv); [unfold last in *; lia | | |];
        assumption.
Qed.

(** *** Squad creation keeps the link *)

Lemma interpolatePath_nonempty (Math_sqrt : Q -> Q) (points : list Vector3)
    (N : Z) :
  (1 <= length points)%nat ->
  (1 <= length (interpolatePath Math_sqrt points N))%nat.
Proof.
  intros Hlen. unfold interpolatePath.
  destruct points as [|p [|q points]]; [simpl in Hlen; lia | simpl; lia |].
  destruct (Qle_bool _ _); simpl; lia.
Qed.

Lemma assignedTarget_nonneg (type : AttackMode) (j k m : nat) :
  (1 <= m)%nat -> (0 <= assignedTarget type j k m)%Z.
Proof.
  intros Hm. unfold assignedTarget. destruct type; [lia |].
  destruct (Nat.ltb_spec 1 k) as [Hk|Hk]; [| lia].
  unfold wallSlot, Math_floor, double_mul, double_div.
  rewrite <- (Qfloor_Z 0). apply Qfloor_resp_le.
  change (inject_Z 0) with 0.
  apply roundDouble_nonneg, Qmult_le_0_compat.
  - apply roundDouble_nonneg, Qle_shift_div_l.
    + change 0 with (inject_Z 0). rewrite <- Zlt_Qlt. lia.
    + rewrite Qmult_0_l. change 0 with (inject_Z 0). rewrite <- Zle_Qle. lia.
  - change 0 with (inject_Z 0). rewrite <- Zle_Qle. lia.
Qed.

Lemma createSquad_lengths (Math_sqrt : Q -> Q) (e : Engine) :
  let e' := createSquadFromPending Math_sqrt e in
  length (dronePos e') = length (dronePos e)
  /\ length (droneLoad e') = length (droneLoad e)
  /\ length (droneHP e') = length (droneHP e)
  /\ length (droneState e') = length (droneState e)
  /\ length (droneCommandId e') = length (droneCommandId e)
  /\ length (droneTargetId e') = length (droneTargetId e)
  /\ droneCount (state e') = droneCount (state e).
Proof.
  unfold createSquadFromPending.
  destruct (length (pendingPath e) <? 2)%nat; [cbn; tauto |].
  case_bool_decide; [cbn; tauto |].
  cbv zeta.
  set (cmd := newCommand Math_sqrt e).
  set (l := take _ _).
  pose proof (assignDrones_frame (cmdId cmd) (cmdType cmd) (length l)
                (length (spreadPoints cmd)) l 0 (registerCommand cmd e))
    as Hframe.
  cbv zeta in Hframe.
  set (e4 := assignDrones _ _ _ _ _ _ _) in *. clearbody e4.
  destruct Hframe as (H1 & _ & _ & _ & _ & _ & H7 & H8 & H9 & H10 & H11 & H12).
  cbn. rewrite H1, H7, H8, H9, H10, H11, H12. cbn. tauto.
Qed.

Lemma createSquad_invariant (Math_sqrt : Q -> Q) (e : Engine) :
  wellFormed e /\ commandLinked e ->
  wellFormed (createSquadFromPending Math_sqrt e)
  /\ commandLinked (createSquadFromPending Math_sqrt e).
Proof.
  intros Hinv.
  destruct (Nat.ltb_spec (length (pendingPath e)) 2) as [Hshort|Hlen].
  { apply (invariant_view e); [| exact Hinv].
    unfold createSquadFromPending.
    apply Nat.ltb_lt in Hshort. rewrite Hshort. reflexivity. }
  destruct (decide (eligibleDrones e = [])) as [Hnil|Hne].
  { apply (invariant_view e); [| exact Hinv].
    rewrite (createSquad_rejected Math_sqrt e Hlen Hnil). reflexivity. }
  pose proof Hinv as ((Hfit & _ & Hobj & Hnx) & _).
  pose proof (createSquad_slots Math_sqrt e Hlen Hne Hfit) as [Hin Hout].
  pose proof (createSquad_registry Math_sqrt e Hlen Hne)
    as (Hcmds & Hobjs & Hnext & _).
  pose proof (createSquad_lengths Math_sqrt e)
    as (Lp & Ll & Lh & Ls & Lc & Lt & Ln).
  cbv zeta in *.
  set (e' := createSquadFromPending Math_sqrt e) in *. clearbody e'.
  set (cmd := newCommand Math_sqrt e) in *.
  set (assigned := take (Z.to_nat (needed e)) (eligibleDrones e)) in *.
  assert (Hlive : forall c, liveId e c -> liveId e' c).
  { intros c (r & cmd0 & Hr & Hcmd0 & Hid). exists r, cmd0.
    rewrite Hcmds. split; [apply elem_of_app; left; exact Hr |].
    split; [| exact Hid].
    unfold lookupCmd in *. rewrite Hobjs.
    apply lookup_app_l_Some. exact Hcmd0. }
  assert (Hnew : liveId e' (cmdId cmd)).
  { exists (length (commandObjs e)),
      (set_activeDroneCount (Z.of_nat (length assigned)) cmd).
    rewrite Hcmds. split; [apply elem_of_app; right; left |].
    split; [| reflexivity].
    unfold lookupCmd. rewrite Hobjs, lookup_app_r, Nat.sub_diag by lia.
    reflexivity. }
  assert (Hspread : (1 <= length (spreadPoints cmd))%nat).
  { apply interpolatePath_nonempty. lia. }
  apply invariant_intro.
  - unfold storeFits in *. rewrite Ln, Lp, Ll, Lh, Ls, Lc, Lt. exact Hfit.
  - intros r cmd0 Hr. unfold lookupCmd in Hr. rewrite Hobjs in Hr.
    apply lookup_app_Some in Hr as [Hr | [_ Hr]].
    + apply (Hobj r cmd0 Hr).
    + apply list_lookup_singleton_Some in Hr as [_ <-].
      cbn [path spreadPoints set_activeDroneCount].
      split; [cbn; lia | exact Hspread].
  - rewrite Hnext. lia.
  - intros j s c t Hj Hst Hcid Htid. rewrite Ln in Hj.
    destruct (decide (j ∈ assigned)) as [Hmem|Hnot].
    + apply list_elem_of_lookup_1 in Hmem as [pos Hpos].
      destruct (Hin pos j Hpos) as (E1 & E2 & E3 & _).
      rewrite E1 in Hst. rewrite E2 in Hcid. rewrite E3 in Htid.
      injection Hst as <-. injection Hcid as <-. injection Htid as <-.
      assert (Hid : (0 <= cmdId cmd)%Z) by (cbn; lia).
      split; [tauto |]. split; [intros _; exact Hnew |].
      intros _. apply assignedTarget_nonneg. exact Hspread.
    + destruct (Hout j Hnot) as (E1 & E2 & E3 & _).
      rewrite E1 in Hst. rewrite E2 in Hcid. rewrite E3 in Htid.
      apply (droneOk_registry e e' s c t Hlive).
      apply (invariant_elim e j s c t Hinv Hj Hst Hcid Htid).
Qed.

(** *** Squad removal keeps the link *)

(** The loop of [removeSquad] over the first [n] drones. *)
Lemma releaseDrones_spec (id : Z) (e : Engine) (n : nat) :
  let e' := foldl (releaseDrone id) e (seq 0 n) in
  (state e' = state e
   /\ commands e' = commands e
   /\ commandObjs e' = commandObjs e
   /\ nextCommandId e' = nextCommandId e
   /\ callbacks e' = callbacks e
   /\ dronePos e' = dronePos e
   /\ droneLoad e' = droneLoad e
   /\ droneHP e' = droneHP e
   /\ length (droneState e') = length (droneState e)
   /\ length (droneCommandId e') = length (droneCommandId e)
   /\ length (droneTargetId e') = length (droneTargetId e))
  /\ (forall j : nat,
        (j < n)%nat -> droneCommandId e !! j = Some id ->
        (j < length (droneState e))%nat ->
        (j < length (droneTargetId e))%nat ->
        droneState e' !! j = Some STATE_MINING_SEEK
        /\ droneCommandId e' !! j = Some (-1)%Z
        /\ droneTargetId e' !! j = Some (-1)%Z)
  /\ (forall j : nat,
        ~ ((j < n)%nat /\ droneCommandId e !! j = Some id) ->
        droneState e' !! j = droneState e !! j
        /\ droneCommandId e' !! j = droneCommandId e !! j
        /\ droneTargetId e' !! j = droneTargetId e !! j).
Proof.
  induction n as [|n IH].
  - cbn. split; [repeat split; reflexivity |].
    split; [intros j Hj; lia | intros j _; repeat split; reflexivity].
  - rewrite seq_S, foldl_app. cbn [foldl plus].
    cbv zeta in IH. set (en := foldl (releaseDrone id) e (seq 0 n)) in *.
    clearbody en.
    destruct IH as ((F1&F2&F3&F4&F5&F6&F7&F8&F9&F10&F11) & Ha & Hb).
    assert (Hn : droneCommandId en !! n = droneCommandId e !! n).
    { apply (Hb n). lia. }
    unfold releaseDrone. rewrite Hn.
    case_bool_decide as Hrel; cbn.
    + rewrite !length_insert.
      split; [repeat split; assumption |].
      split.
      * intros j Hj Hcid L1 L2.
        assert (L3 : (j < length (droneCommandId e))%nat)
          by (apply lookup_lt_Some in Hcid; exact Hcid).
        destruct (decide (j = n)) as [-> | Hne].
        -- rewrite !list_lookup_insert_eq by lia. repeat split; reflexivity.
        -- rewrite !list_lookup_insert_ne by congruence.
           apply Ha; [lia | assumption..].
      * intros j Hnot.
        assert (j <> n) by (intros ->; apply Hnot; split; [lia | exact Hrel]).
        rewrite !list_lookup_insert_ne by congruence.
        apply Hb. intros [Hj Hc]. apply Hnot. split; [lia | exact Hc].
    + split; [repeat split; assumption |].
      split.
      * intros j Hj Hcid L1 L2.
        assert (j <> n) by (intros ->; contradiction).
        apply Ha; [lia | assumption..].
      * intros j Hnot. apply Hb.
        intros [Hj Hc]. apply Hnot. split; [lia | exact Hc].
Qed.

Lemma removeSquad_invariant (id : Z) (reason : string) (e : Engine) :
  wellFormed e /\ commandLinked e ->
  wellFormed (removeSquad id reason e)
  /\ commandLinked (removeSquad id reason e).
Proof.
  intros Hinv. unfold removeSquad.
  destruct (findCommand e id) as [r0|]; [| exact Hinv].
  cbv zeta.
  set (e2 := set_state _ (set_commands _ e)).
  pose proof (releaseDrones_spec id e2 (droneCount (state e2))) as Hrel.
  cbv zeta in Hrel.
  set (e3 := foldl (releaseDrone id) e2 _) in *. clearbody e3.
  destruct Hrel as ((F1&F2&F3&F4&F5&F6&F7&F8&F9&F10&F11) & Ha & Hb).
  cbn in F1, F2, F3, F4, F6, F7, F8, F9, F10, F11, Ha, Hb.
  pose proof Hinv as ((Hfit & _ & Hobj & Hnx) & _).
  pose proof Hfit as (Fp & Fs & Ft & Fc & Fl & Fh).
  set (e' := if bool_decide (reason = ""%string) then _ else _).
  assert (Hview : linkView e'
                  = linkView (if bool_decide (commands e3 = [])
                              then set_nextCommandId 0 e3 else e3)).
  { unfold e'. repeat case_bool_decide; reflexivity. }
  set (e4 := if bool_decide (commands e3 = []) then _ else e3) in *.
  apply (invariant_view e4 e' Hview).
  assert (G1 : droneCount (state e4) = droneCount (state e)).
  { unfold e4. case_bool_decide; cbn; rewrite F1; reflexivity. }
  assert (G2 : droneState e4 = droneState e3
               /\ droneCommandId e4 = droneCommandId e3
               /\ droneTargetId e4 = droneTargetId e3
               /\ dronePos e4 = dronePos e /\ droneLoad e4 = droneLoad e
               /\ droneHP e4 = droneHP e
               /\ commandObjs e4 = commandObjs e
               /\ commands e4
                  = List.filter (fun r => negb (hasId e id r)) (commands e)).
  { unfold e4. case_bool_decide; cbn; rewrite ?F2, ?F3, ?F6, ?F7, ?F8;
      repeat split; reflexivity. }
  destruct G2 as (Gs & Gc & Gt & Gp & Gl & Gh & Go & Gcmds).
  assert (Hlive : forall c, c <> id -> liveId e c -> liveId e4 c).
  { intros c Hc (r & cmd & Hr & Hcmd & Hid). exists r, cmd.
    split; [| split; [unfold lookupCmd in *; rewrite Go; exact Hcmd
                     | exact Hid]].
    rewrite Gcmds. apply list_elem_of_In, filter_In.
    split; [apply list_elem_of_In; exact Hr |].
    unfold hasId. rewrite Hcmd. apply negb_true_iff, Z.eqb_neq. congruence. }
  apply invariant_intro.
  - unfold storeFits. rewrite G1, Gs, Gc, Gt, Gp, Gl, Gh, F9, F10, F11.
    exact Hfit.
  - intros r cmd Hr. apply (Hobj r cmd). unfold lookupCmd in *.
    rewrite Go in Hr. exact Hr.
  - unfold e4. case_bool_decide; cbn; [lia | rewrite F4; exact Hnx].
  - rewrite G1, Gs, Gc, Gt. intros j s c t Hj Hst Hcid Htid.
    destruct (decide (droneCommandId e !! j = Some id)) as [Hmine|Hother].
    + destruct (Ha j Hj Hmine ltac:(lia) ltac:(lia)) as (E1 & E2 & E3).
      rewrite E1 in Hst. rewrite E2 in Hcid.
      injection Hst as <-. injection Hcid as <-.
      split; [split; [lia | discriminate] |]. split; [lia | discriminate].
    + destruct (Hb j) as (E1 & E2 & E3); [tauto |].
      rewrite E1 in Hst. rewrite E2 in Hcid. rewrite E3 in Htid.
      destruct (invariant_elim e j s c t Hinv Hj Hst Hcid Htid)
        as (H1 & H2 & H3).
      split; [exact H1 |]. split; [| exact H3].
      intros Hpos. apply Hlive; [congruence | apply H2; exact Hpos].
Qed.

(** *** The drone update keeps the link *)

Lemma skeleton_alter (f : Command -> Command) (r : nat)
    (objs : list Command) :
  (forall c : Command, skeleton (f c) = skeleton c) ->
  skeleton <$> alter f r objs = skeleton <$> objs.
Proof.
  intros Hf. apply list_eq. intros k.
  rewrite !list_lookup_fmap, list_lookup_alter.
  case_decide as Hk; [| reflexivity].
  subst k. destruct (objs !! r) as [c|]; [| reflexivity].
  change (Some (skeleton (f c)) = Some (skeleton c)).
  rewrite Hf. reflexivity.
Qed.

Ltac solve_frame :=
  unfold sameFrame; cbn; rewrite ?length_insert;
  repeat split;
  try reflexivity;
  try (apply skeleton_alter; intros; reflexivity).

Lemma sameFrame_refl (e : Engine) : sameFrame e e.
Proof. solve_frame. Qed.

Lemma sameFrame_trans (e1 e2 e3 : Engine) :
  sameFrame e1 e2 -> sameFrame e2 e3 -> sameFrame e1 e3.
Proof.
  unfold sameFrame.
  intros (A1&A2&A3&A4&A5&A6&A7&A8&A9&A10) (B1&B2&B3&B4&B5&B6&B7&B8&B9&B10).
  repeat split; congruence.
Qed.

Lemma cmdMapOk_frame (e e' : Engine) (cmdMap : gmap Z ref) :
  sameFrame e e' -> cmdMapOk e cmdMap -> cmdMapOk e' cmdMap.
Proof.
  intros (_&_&_&_&_&_&_&Hcmds&Hsk&_) [Hkeys Hvals]. split.
  - intros c Hlive. apply Hkeys.
    apply (liveId_view e' e c (eq_sym Hcmds) (eq_sym Hsk) Hlive).
  - intros c r Hr. destruct (Hvals c r Hr) as (cmd & Hcmd & Hid).
    destruct (skeleton_lookup _ _ r cmd Hsk Hcmd) as (cmd' & Hcmd' & Heq).
    exists cmd'. split; [exact Hcmd' |]. unfold skeleton in Heq. congruence.
Qed.

Lemma invariant_frame_drone (e e' : Engine) (i : nat) :
  wellFormed e /\ commandLinked e ->
  sameFrame e e' ->
  (forall j : nat, j <> i ->
     droneState e' !! j = droneState e !! j
     /\ droneCommandId e' !! j = droneCommandId e !! j
     /\ droneTargetId e' !! j = droneTargetId e !! j) ->
  (forall (s : DroneState) (c t : Z),
     (i < droneCount (state e))%nat ->
     droneState e' !! i = Some s -> droneCommandId e' !! i = Some c ->
     droneTargetId e' !! i = Some t -> droneOk e s c t) ->
  wellFormed e' /\ commandLinked e'.
Proof.
  intros Hinv (A1&A2&A3&A4&A5&A6&A7&A8&A9&A10).
  apply invariant_update_drone; assumption.
Qed.

Lemma readDrone_fields (e : Engine) (i : nat) (d : Drone) :
  readDrone e i = Some d ->
  droneState e !! i = Some (dState d)
  /\ droneCommandId e !! i = Some (dCommand d)
  /\ droneTargetId e !! i = Some (dTarget d)
  /\ droneLoad e !! i = Some (dLoad d).
Proof.
  unfold readDrone. intros H.
  destruct (dronePos e !! (i * 3)%nat); [| discriminate].
  destruct (dronePos e !! (i * 3 + 1)%nat); [| discriminate].
  destruct (dronePos e !! (i * 3 + 2)%nat); [| discriminate].
  destruct (droneState e !! i); [| discriminate].
  destruct (droneTargetId e !! i); [| discriminate].
  destruct (droneCommandId e !! i); [| discriminate].
  destruct (droneLoad e !! i); [| discriminate].
  destruct (droneHP e !! i); [| discriminate].
  cbn in H. injection H as <-. cbn. repeat split; reflexivity.
Qed.

Lemma meleeAttack_frame (Math_sqrt : Q -> Q) (Math_random : nat -> Q)
    (pos : Vector3) (stride : nat) (e : Engine) :
  let e' := meleeAttack Math_sqrt Math_random pos stride e in
  sameFrame e e'
  /\ droneState e' = droneState e
  /\ droneCommandId e' = droneCommandId e
  /\ droneTargetId e' = droneTargetId e.
Proof.
  unfold meleeAttack. repeat case_match; cbn;
    (split; [solve_frame | repeat split; reflexivity]).
Qed.

Lemma writePos_frame (i : nat) (p : Vector3) (e : Engine) :
  sameFrame e (writePos i p e)
  /\ droneState (writePos i p e) = droneState e
  /\ droneCommandId (writePos i p e) = droneCommandId e
  /\ droneTargetId (writePos i p e) = droneTargetId e.
Proof. unfold writePos. split; [solve_frame | repeat split; reflexivity]. Qed.

(** An engine with the frame and the three link arrays of a linked one
    is linked. *)
Lemma invariant_same (e e' : Engine) :
  wellFormed e /\ commandLinked e ->
  sameFrame e e' ->
  droneState e' = droneState e ->
  droneCommandId e' = droneCommandId e ->
  droneTargetId e' = droneTargetId e ->
  wellFormed e' /\ commandLinked e'.
Proof.
  intros Hinv Hframe Hs Hc Ht.
  apply (invariant_frame_drone e e' 0 Hinv Hframe).
  - intros j _. rewrite Hs, Hc, Ht. repeat split; reflexivity.
  - intros s c t Hi Hst Hcid Htid. rewrite Hs in Hst. rewrite Hc in Hcid.
    rewrite Ht in Htid. apply (invariant_elim e 0 s c t Hinv Hi Hst Hcid Htid).
Qed.

Lemma removeSquad_registry (id : Z) (reason : string) (e : Engine) :
  commandObjs (removeSquad id reason e) = commandObjs e
  /\ droneCount (state (removeSquad id reason e)) = droneCount (state e)
  /\ (forall r : ref, r ∈ commands (removeSquad id reason e) ->
        r ∈ commands e).
Proof.
  unfold removeSquad.
  destruct (findCommand e id) as [r0|]; [| auto].
  cbv zeta.
  set (e2 := set_state _ (set_commands _ e)).
  pose proof (releaseDrones_spec id e2 (droneCount (state e2))) as Hrel.
  cbv zeta in Hrel.
  set (e3 := foldl (releaseDrone id) e2 _) in *. clearbody e3.
  destruct Hrel as ((F1&F2&F3&_) & _).
  cbn in F1, F2, F3.
  repeat case_bool_decide; cbn; rewrite F1, F2, F3; cbn;
    (split; [reflexivity |]; split; [reflexivity |];
     intros r Hr; apply list_elem_of_In, filter_In in Hr as [Hr _];
     apply list_elem_of_In; exact Hr).
Qed.

Lemma removeSquad_cmdMapOk (id : Z) (reason : string) (e : Engine)
    (cmdMap : gmap Z ref) :
  cmdMapOk e cmdMap -> cmdMapOk (removeSquad id reason e) cmdMap.
Proof.
  intros [Hkeys Hvals].
  destruct (removeSquad_registry id reason e) as (Hobjs & _ & Hsub).
  split.
  - intros c (r & cmd & Hr & Hcmd & Hid). apply Hkeys.
    exists r, cmd. split; [apply Hsub; exact Hr |].
    split; [| exact Hid]. unfold lookupCmd in *. rewrite <- Hobjs. exact Hcmd.
  - intros c r Hr. destruct (Hvals c r Hr) as (cmd & Hcmd & Hid).
    exists cmd. split; [| exact Hid].
    unfold lookupCmd in *. rewrite Hobjs. exact Hcmd.
Qed.

Lemma pointAt_in_range (pts : list Vector3) (t : Z) :
  (0 <= t < Z.of_nat (length pts))%Z -> is_Some (pointAt pts t).
Proof.
  intros Ht. unfold pointAt. destruct (Z.ltb_spec t 0) as [|_]; [lia |].
  apply lookup_lt_is_Some_2. lia.
Qed.

(** An update of a drone that is not attacking, and stays so. *)
Lemma invariant_idle (e e' : Engine) (i : nat) (d : Drone) :
  wellFormed e /\ commandLinked e ->
  readDrone e i = Some d -> dState d <> STATE_ATTACKING ->
  sameFrame e e' ->
  droneCommandId e' = droneCommandId e ->
  (droneState e' = droneState e
   \/ exists s : DroneState,
        s <> STATE_ATTACKING /\ droneState e' = <[i := s]> (droneState e)) ->
  (droneTargetId e' = droneTargetId e
   \/ exists t : Z, droneTargetId e' = <[i := t]> (droneTargetId e)) ->
  wellFormed e' /\ commandLinked e'.
Proof.
  intros Hinv Hd Hidle Hframe Hc Hs Ht.
  destruct (readDrone_fields e i d Hd) as (Fs & Fc & Ft & _).
  apply (invariant_frame_drone e e' i Hinv Hframe).
  - intros j Hj. rewrite Hc.
    destruct Hs as [-> | (s & _ & ->)]; destruct Ht as [-> | (t & ->)];
      rewrite ?list_lookup_insert_ne by congruence; repeat split; reflexivity.
  - intros s c t Hi Hst Hcid Htid. rewrite Hc, Fc in Hcid.
    injection Hcid as <-.
    destruct (invariant_elim e i _ _ _ Hinv Hi Fs Fc Ft) as (H1 & H2 & H3).
    assert (Hs' : s <> STATE_ATTACKING).
    { destruct Hs as [Hs | (s' & Hs' & Hs)]; rewrite Hs in Hst.
      - congruence.
      - apply list_lookup_insert_Some in Hst as [(_ & <- & _) | (Hne & _)];
          [exact Hs' | congruence]. }
    split; [split; [intros Hpos; apply H1 in Hpos; contradiction
                   | intros; contradiction] |].
    split; [intros Hpos; apply H1 in Hpos; contradiction
           | intros; contradiction].
Qed.

Section DroneUpdate.
Variables Math_sqrt Math_sin Math_cos : Q -> Q.
Variable Math_random : nat -> Q.

Lemma stepOk_frame (e e' : Engine) (cmdMap : gmap Z ref) :
  wellFormed e' /\ commandLinked e' -> sameFrame e e' ->
  cmdMapOk e cmdMap -> stepOk e e' cmdMap.
Proof.
  intros Hinv Hframe Hmap.
  split; [exact Hinv |]. split; [apply (cmdMapOk_frame e e' cmdMap Hframe Hmap) |].
  apply Hframe.
Qed.

(** The write-back after a move, with or without a strike. *)
Lemma moved_stepOk (e0 e : Engine) (cmdMap : gmap Z ref) (i : nat)
    (p pos : Vector3) (stride : nat) :
  wellFormed e /\ commandLinked e -> sameFrame e0 e -> cmdMapOk e0 cmdMap ->
  stepOk e0 (writePos i p (meleeAttack Math_sqrt Math_random pos stride e))
    cmdMap.
Proof.
  intros Hinv Hframe Hmap.
  destruct (meleeAttack_frame Math_sqrt Math_random pos stride e)
    as (M0 & M1 & M2 & M3).
  set (e1 := meleeAttack Math_sqrt Math_random pos stride e) in *.
  destruct (writePos_frame i p e1) as (W0 & W1 & W2 & W3).
  assert (Hf : sameFrame e (writePos i p e1))
    by (eapply sameFrame_trans; eassumption).
  apply stepOk_frame.
  - apply (invariant_same e _ Hinv Hf); congruence.
  - eapply sameFrame_trans; eassumption.
  - exact Hmap.
Qed.

Lemma updateWall_stepOk (e : Engine) (cmdMap : gmap Z ref) (i : nat)
    (move : Q) (d : Drone) (cmd : Command) :
  wellFormed e /\ commandLinked e -> cmdMapOk e cmdMap ->
  (0 <= dTarget d)%Z -> (1 <= length (spreadPoints cmd))%nat ->
  exists e' : Engine,
    updateWall Math_sqrt i move d cmd e = Some e' /\ stepOk e e' cmdMap.
Proof.
  intros Hinv Hmap Ht Hlen. unfold updateWall.
  set (len := Z.of_nat (length (spreadPoints cmd))).
  assert (Hpos : (0 < len)%Z) by (unfold len; lia).
  destruct (Z.eqb_spec len 0) as [|_]; [lia |].
  set (tIdx := if (len <=? dTarget d)%Z then Z.rem (dTarget d) len
               else dTarget d).
  assert (Hrange : (0 <= tIdx < len)%Z).
  { unfold tIdx. destruct (Z.leb_spec len (dTarget d)).
    - apply Z.rem_bound_pos; lia.
    - lia. }
  destruct (pointAt_in_range (spreadPoints cmd) tIdx Hrange) as [target Hp].
  rewrite Hp. cbn.
  eexists. split; [reflexivity |].
  destruct (writePos_frame i
              (if Qlt_bool 1 (distanceTo Math_sqrt (dPos d) target)
               then steerToward Math_sqrt (dPos d) target move else dPos d) e)
    as (W0 & W1 & W2 & W3).
  apply stepOk_frame; [| exact W0 | exact Hmap].
  apply (invariant_same e _ Hinv W0 W1 W2 W3).
Qed.

Lemma updateSwarm_stepOk (e : Engine) (cmdMap : gmap Z ref) (i : nat)
    (move : Q) (stride : nat) (d : Drone) (r : ref) (cmd : Command) :
  wellFormed e /\ commandLinked e -> cmdMapOk e cmdMap ->
  (i < droneCount (state e))%nat ->
  readDrone e i = Some d -> dState d = STATE_ATTACKING ->
  lookupCmd e r = Some cmd ->
  (0 <= dTarget d)%Z -> (1 <= length (path cmd))%nat ->
  exists e' : Engine,
    updateSwarm Math_sqrt Math_random i move stride d r cmd e = Some e'
    /\ stepOk e e' cmdMap.
Proof.
  intros Hinv Hmap Hi Hd Hatt Hcmd Ht Hlen.
  destruct (readDrone_fields e i d Hd) as (Fs & Fc & Ftid & _).
  pose proof Hinv as ((Hfit & _) & _).
  pose proof Hfit as (_ & Ls & Lt & Lc & _).
  destruct (invariant_elim e i _ _ _ Hinv Hi Fs Fc Ftid) as (H1 & H2 & H3).
  unfold updateSwarm.
  set (len := Z.of_nat (length (path cmd))).
  set (tIdx := if (len <=? dTarget d)%Z then 0%Z else dTarget d).
  assert (Hrange : (0 <= tIdx < len)%Z).
  { unfold tIdx, len. destruct (Z.leb_spec (Z.of_nat (length (path cmd)))
                                  (dTarget d)); lia. }
  destruct (pointAt_in_range (path cmd) tIdx Hrange) as [target Hp].
  rewrite Hp. cbn [mbind option_bind].
  destruct (Qlt_bool (distanceTo Math_sqrt (dPos d) target) move).
  - destruct (tIdx <? len - 1)%Z.
    + eexists. split; [reflexivity |].
      set (e1 := set_droneTargetId _ e).
      assert (Hf1 : sameFrame e e1) by (unfold e1; solve_frame).
      apply (moved_stepOk e e1 cmdMap i target target stride);
        [| exact Hf1 | exact Hmap].
      apply (invariant_frame_drone e e1 i Hinv Hf1).
      * intros j Hj. unfold e1. cbn.
        rewrite list_lookup_insert_ne by congruence.
        repeat split; reflexivity.
      * intros s c t _ Hst Hcid Htid. unfold e1 in *. cbn in Hst, Hcid, Htid.
        rewrite list_lookup_insert_eq in Htid by lia.
        rewrite Fs in Hst. rewrite Fc in Hcid.
        injection Hst as <-. injection Hcid as <-. injection Htid as <-.
        split; [exact H1 |]. split; [exact H2 |]. intros _. lia.
    + set (e3 := set_droneTargetId _ (set_droneCommandId _
                                        (set_droneState _ e))).
      set (e4 := decrementActive r e3).
      assert (Hf4 : sameFrame e e4) by (unfold e4, e3, decrementActive; solve_frame).
      assert (Hinv4 : wellFormed e4 /\ commandLinked e4).
      { apply (invariant_frame_drone e e4 i Hinv Hf4).
        - intros j Hj. unfold e4, e3, decrementActive. cbn.
          rewrite !list_lookup_insert_ne by congruence.
          repeat split; reflexivity.
        - intros s c t _ Hst Hcid Htid.
          unfold e4, e3, decrementActive in *. cbn in Hst, Hcid, Htid.
          rewrite list_lookup_insert_eq in Hst by lia.
          rewrite list_lookup_insert_eq in Hcid by lia.
          injection Hst as <-. injection Hcid as <-.
          split; [split; [lia | discriminate] |].
          split; [lia | discriminate]. }
      assert (Hok4 : stepOk e e4 cmdMap)
        by (apply stepOk_frame; assumption).
      assert (Hrem : forall id reason,
                stepOk e (removeSquad id reason e4) cmdMap).
      { intros id reason. destruct Hok4 as (_ & Hm4 & Hn4).
        split; [apply removeSquad_invariant; exact Hinv4 |].
        split; [apply removeSquad_cmdMapOk; exact Hm4 |].
        destruct (removeSquad_registry id reason e4) as (_ & Hn & _).
        congruence. }
      destruct (lookupCmd e4 r) as [cmd'|].
      * destruct (activeDroneCount cmd' <=? 0)%Z;
          eexists; (split; [reflexivity |]); [apply Hrem | exact Hok4].
      * eexists. split; [reflexivity | exact Hok4].
  - eexists. split; [reflexivity |].
    apply (moved_stepOk e e cmdMap i _ _ stride Hinv (sameFrame_refl e) Hmap).
Qed.
End DroneUpdate.

Section DroneFrame.
Variables Math_sqrt Math_sin Math_cos : Q -> Q.
Variable Math_random : nat -> Q.

Lemma updateSeeking_stepOk (e : Engine) (cmdMap : gmap Z ref) (dt : Q)
    (i : nat) (move : Q) (stride : nat) (d : Drone) :
  wellFormed e /\ commandLinked e -> cmdMapOk e cmdMap ->
  readDrone e i = Some d -> dState d = STATE_MINING_SEEK ->
  stepOk e (updateSeeking Math_sqrt Math_sin Math_cos dt i move stride d e)
    cmdMap.
Proof.
  intros Hinv Hmap Hd Hs.
  assert (Hidle : dState d <> STATE_ATTACKING) by (rewrite Hs; discriminate).
  assert (Hframe : sameFrame e
            (updateSeeking Math_sqrt Math_sin Math_cos dt i move stride d e)).
  { unfold updateSeeking, writePos. repeat case_match; solve_frame. }
  apply stepOk_frame; [| exact Hframe | exact Hmap].
  apply (invariant_idle e _ i d Hinv Hd Hidle Hframe).
  - unfold updateSeeking, writePos. repeat case_match; reflexivity.
  - unfold updateSeeking, writePos. repeat case_match;
      ((left; reflexivity)
       || (right; exists STATE_RETURNING; split;
           [discriminate | reflexivity])).
  - unfold updateSeeking, writePos. repeat case_match;
      ((left; reflexivity) || (right; eexists; reflexivity)).
Qed.

Lemma updateReturning_stepOk (e : Engine) (cmdMap : gmap Z ref) (i : nat)
    (move : Q) (d : Drone) :
  wellFormed e /\ commandLinked e -> cmdMapOk e cmdMap ->
  readDrone e i = Some d -> dState d = STATE_RETURNING ->
  stepOk e (updateReturning Math_sqrt i move d e) cmdMap.
Proof.
  intros Hinv Hmap Hd Hs.
  assert (Hidle : dState d <> STATE_ATTACKING) by (rewrite Hs; discriminate).
  assert (Hframe : sameFrame e (updateReturning Math_sqrt i move d e)).
  { unfold updateReturning, writePos. repeat case_match; solve_frame. }
  apply stepOk_frame; [| exact Hframe | exact Hmap].
  apply (invariant_idle e _ i d Hinv Hd Hidle Hframe).
  - unfold updateReturning, writePos. repeat case_match; reflexivity.
  - unfold updateReturning, writePos. repeat case_match;
      ((left; reflexivity)
       || (right; exists STATE_MINING_SEEK; split;
           [discriminate | reflexivity])).
  - unfold updateReturning, writePos. repeat case_match;
      ((left; reflexivity) || (right; eexists; reflexivity)).
Qed.

(** One drone update: it returns, and the link holds afterwards.  The
    branch for a command missing from the map is not taken, the map
    knowing every command an attacking drone refers to. *)
Lemma updateSingleDrone_stepOk (e : Engine) (cmdMap : gmap Z ref) (dt : Q)
    (i : nat) (move : Q) (stride : nat) :
  wellFormed e /\ commandLinked e -> cmdMapOk e cmdMap ->
  (i < droneCount (state e))%nat ->
  exists e' : Engine,
    updateSingleDrone Math_sqrt Math_sin Math_cos Math_random dt cmdMap i
      move stride e = Some e'
    /\ stepOk e e' cmdMap.
Proof.
  intros Hinv Hmap Hi.
  pose proof Hinv as ((Hfit & _ & Hobj & _) & _).
  destruct (readDrone_is_Some e _ i Hfit Hi) as [d Hd].
  destruct (readDrone_fields e i d Hd) as (Fs & Fc & Ft & _).
  destruct (invariant_elim e i _ _ _ Hinv Hi Fs Fc Ft) as (H1 & H2 & H3).
  unfold updateSingleDrone. rewrite Hd.
  destruct (dState d) eqn:Hs.
  - eexists. split; [reflexivity |].
    apply updateSeeking_stepOk; assumption.
  - eexists. split; [reflexivity |].
    apply updateReturning_stepOk; assumption.
  - assert (Hpos : (0 <= dCommand d)%Z) by (apply H1; reflexivity).
    destruct Hmap as [Hkeys Hvals].
    destruct (Hkeys _ (H2 Hpos)) as [r Hr]. rewrite Hr.
    destruct (Hvals _ r Hr) as (cmd & Hcmd & _). rewrite Hcmd.
    destruct (Hobj r cmd Hcmd) as [Lp Lsp].
    destruct (cmdType cmd).
    + apply (updateSwarm_stepOk Math_sqrt Math_random e cmdMap i move stride
               d r cmd Hinv (conj Hkeys Hvals) Hi Hd Hs Hcmd (H3 eq_refl) Lp).
    + apply (updateWall_stepOk Math_sqrt e cmdMap i move d cmd Hinv
               (conj Hkeys Hvals) (H3 eq_refl) Lsp).
Qed.

Lemma runLoop_stepOk (cmdMap : gmap Z ref) (dt move : Q) (stride : nat)
    (indices : list nat) :
  forall e : Engine,
  wellFormed e /\ commandLinked e -> cmdMapOk e cmdMap ->
  (forall i : nat, i ∈ indices -> (i < droneCount (state e))%nat) ->
  exists e' : Engine,
    runLoop Math_sqrt Math_sin Math_cos Math_random dt cmdMap move stride
      indices e = Some e'
    /\ stepOk e e' cmdMap.
Proof.
  unfold runLoop.
  induction indices as [|i indices IH]; intros e Hinv Hmap Hlive.
  - exists e. split; [reflexivity |]. split; [exact Hinv |]. split; auto.
  - cbn [foldl mbind option_bind].
    destruct (updateSingleDrone_stepOk e cmdMap dt i move stride Hinv Hmap)
      as (e1 & He1 & Hinv1 & Hmap1 & Hn1); [apply Hlive; left |].
    rewrite He1.
    destruct (IH e1 Hinv1 Hmap1) as (e' & He' & Hinv' & Hmap' & Hn').
    { intros j Hj. rewrite Hn1. apply Hlive. right. exact Hj. }
    exists e'. split; [exact He' |].
    split; [exact Hinv' |]. split; [exact Hmap' | congruence].
Qed.

Lemma strideLoop_bound (start stop stride i : nat) :
  i ∈ strideLoop start stop stride -> (i < stop)%nat.
Proof.
  unfold strideLoop. generalize (stop - start)%nat. intros fuel.
  revert start. induction fuel as [|fuel IH]; intros start; simpl.
  - intros H. inversion H.
  - destruct (Nat.ltb_spec start stop) as [Hlt|_]; [| intros H; inversion H].
    rewrite elem_of_cons. intros [-> | H]; [exact Hlt | eauto].
Qed.

(** The command map built as the frame starts. *)
Lemma buildCmdMap_ok (e : Engine) : cmdMapOk e (buildCmdMap e).
Proof.
  unfold buildCmdMap.
  assert (Hgen : forall (refs : list ref) (m : gmap Z ref),
            (forall c r, m !! c = Some r ->
               exists cmd, lookupCmd e r = Some cmd /\ cmdId cmd = c) ->
            let m' := foldl (fun (m : gmap Z ref) r =>
                               match lookupCmd e r with
                               | Some c => <[cmdId c := r]> m
                               | None => m
                               end) m refs in
            (forall c r, m' !! c = Some r ->
               exists cmd, lookupCmd e r = Some cmd /\ cmdId cmd = c)
            /\ (forall c, is_Some (m !! c) -> is_Some (m' !! c))
            /\ (forall r cmd, r ∈ refs -> lookupCmd e r = Some cmd ->
                  is_Some (m' !! cmdId cmd))).
  { induction refs as [|r0 refs IH]; intros m Hm; cbn [foldl].
    - split; [exact Hm |]. split; [auto |].
      intros r cmd Hr. inversion Hr.
    - destruct (lookupCmd e r0) as [c0|] eqn:Hr0.
      + destruct (IH (<[cmdId c0 := r0]> m)) as (G1 & G2 & G3).
        { intros c r Hl. apply lookup_insert_Some in Hl as [[<- <-] | [_ Hl]];
            [eauto | apply Hm; exact Hl]. }
        split; [exact G1 |]. split.
        * intros c Hc. apply G2.
          destruct (decide (cmdId c0 = c)) as [<- | Hne].
          -- rewrite lookup_insert_eq. eauto.
          -- rewrite lookup_insert_ne by exact Hne. exact Hc.
        * intros r cmd Hr Hcmd. apply elem_of_cons in Hr as [-> | Hr].
          -- assert (cmd = c0) as -> by congruence.
             apply G2. rewrite lookup_insert_eq. eauto.
          -- apply (G3 r cmd Hr Hcmd).
      + destruct (IH m Hm) as (G1 & G2 & G3).
        split; [exact G1 |]. split; [exact G2 |].
        intros r cmd Hr Hcmd. apply elem_of_cons in Hr as [-> | Hr].
        * congruence.
        * apply (G3 r cmd Hr Hcmd). }
  destruct (Hgen (commands e) ∅) as (G1 & _ & G3).
  { intros c r Hl. rewrite lookup_empty in Hl. discriminate. }
  split; [| exact G1].
  intros c (r & cmd & Hr & Hcmd & <-). apply (G3 r cmd Hr Hcmd).
Qed.

(** A whole frame of drone updates returns and keeps the link. *)
Lemma updateDrones_invariant (dt : Q) (e : Engine) :
  wellFormed e /\ commandLinked e ->
  exists e' : Engine,
    updateDrones Math_sqrt Math_sin Math_cos Math_random dt e = Some e'
    /\ (wellFormed e' /\ commandLinked e')
    /\ droneCount (state e') = droneCount (state e).
Proof.
  intros Hinv. unfold updateDrones.
  destruct (droneCount (state e) =? 0)%nat; [eauto |].
  cbv zeta.
  set (visibleCap := Z.to_nat (Z.min _ _)).
  assert (Hcap : (visibleCap <= droneCount (state e))%nat)
    by (unfold visibleCap; lia).
  destruct (runLoop_stepOk (buildCmdMap e) dt
              (strideMove (droneSpeed (state e)) dt
                 (fgStride (lagOptimization (state e)) visibleCap))
              (fgStride (lagOptimization (state e)) visibleCap)
              (strideLoop
                 (frame e mod fgStride (lagOptimization (state e)) visibleCap)
                 visibleCap
                 (fgStride (lagOptimization (state e)) visibleCap))
              e Hinv (buildCmdMap_ok e))
    as (e1 & He1 & Hinv1 & Hmap1 & Hn1).
  { intros i Hi. apply strideLoop_bound in Hi. lia. }
  rewrite He1. cbn [mbind option_bind].
  destruct (visibleCap <? droneCount (state e))%nat; [| eauto].
  destruct (runLoop_stepOk (buildCmdMap e) dt
              (strideMove (droneSpeed (state e)) dt
                 (bgStride (droneCount (state e) - visibleCap)))
              (bgStride (droneCount (state e) - visibleCap))
              (strideLoop
                 (visibleCap
                  + frame e mod bgStride (droneCount (state e) - visibleCap))
                 (droneCount (state e))
                 (bgStride (droneCount (state e) - visibleCap)))
              e1 Hinv1 Hmap1)
    as (e2 & He2 & Hinv2 & _ & Hn2).
  { intros i Hi. apply strideLoop_bound in Hi. lia. }
  exists e2. split; [exact He2 |]. split; [exact Hinv2 | congruence].
Qed.
End DroneFrame.

(** *** The missile update keeps the link *)

Lemma sameLinks_refl (e : Engine) : sameLinks e e.
Proof. split; [apply sameFrame_refl | repeat split; reflexivity]. Qed.

Lemma sameLinks_trans (e1 e2 e3 : Engine) :
  sameLinks e1 e2 -> sameLinks e2 e3 -> sameLinks e1 e3.
Proof.
  intros (F1 & A1 & A2 & A3) (F2 & B1 & B2 & B3).
  split; [apply (sameFrame_trans e1 e2 e3 F1 F2) |].
  repeat split; congruence.
Qed.

Lemma invariant_sameLinks (e e' : Engine) :
  wellFormed e /\ commandLinked e -> sameLinks e e' ->
  wellFormed e' /\ commandLinked e'.
Proof.
  intros Hinv (Hframe & Hs & Hc & Ht).
  apply (invariant_same e e' Hinv Hframe Hs Hc Ht).
Qed.

Lemma hitMothership_sameLinks (m : Missile) (e : Engine) :
  sameLinks e (hitMothership m e).
Proof.
  unfold hitMothership. cbv zeta.
  repeat case_match; (split; [solve_frame | repeat split; reflexivity]).
Qed.

Lemma stepMissile_sameLinks (dt : Q)
    (acc : Engine * list Missile * DamageQueue) (m : Missile) :
  sameLinks acc.1.1 (stepMissile dt acc m).1.1.
Proof.
  destruct acc as [[e kept] queue]. unfold stepMissile.
  destruct (missileFate e _); cbn [fst];
    (apply sameLinks_refl || apply hitMothership_sameLinks).
Qed.

Lemma foldl_stepMissile_sameLinks (dt : Q) (ms : list Missile) :
  forall acc : Engine * list Missile * DamageQueue,
  sameLinks acc.1.1 (foldl (stepMissile dt) acc ms).1.1.
Proof.
  induction ms as [|m ms IH]; intros acc; cbn [foldl].
  - apply sameLinks_refl.
  - apply (sameLinks_trans _ (stepMissile dt acc m).1.1);
      [apply stepMissile_sameLinks | apply IH].
Qed.

Section WallDamageLinks.
Variable Math_random : nat -> Q.

Lemma applyWallHit_sameLinks (cid : Z) (members : list nat)
    (acc : Engine * list nat) (dmg : Q) :
  sameLinks acc.1 (applyWallHit Math_random cid members acc dmg).1.
Proof.
  unfold applyWallHit. destruct acc as [e dead].
  destruct (pickLiving _ _ _ _ _) as [target calls]. cbv zeta.
  repeat case_match; cbn [fst];
    (split; [solve_frame | repeat split; reflexivity]).
Qed.

Lemma applyWallDamage_sameLinks (acc : Engine * list nat)
    (entry : Z * list Q) :
  sameLinks acc.1 (applyWallDamage Math_random acc entry).1.
Proof.
  unfold applyWallDamage.
  destruct (squadMembers acc.1 entry.1) as [|i members];
    [apply sameLinks_refl |].
  generalize (i :: members). intros ms.
  generalize (snd entry). intros dmgs. revert acc.
  induction dmgs as [|d dmgs IH]; intros acc; cbn [foldl].
  - apply sameLinks_refl.
  - apply (sameLinks_trans _
             (applyWallHit Math_random entry.1 ms acc d).1);
      [apply applyWallHit_sameLinks | apply IH].
Qed.

Lemma foldl_applyWallDamage_sameLinks (queue : DamageQueue) :
  forall acc : Engine * list nat,
  sameLinks acc.1 (foldl (applyWallDamage Math_random) acc queue).1.
Proof.
  induction queue as [|entry queue IH]; intros acc; cbn [foldl].
  - apply sameLinks_refl.
  - apply (sameLinks_trans _ (applyWallDamage Math_random acc entry).1);
      [apply applyWallDamage_sameLinks | apply IH].
Qed.

Lemma foldl_removeDrone_invariant (l : list nat) :
  forall e : Engine,
  wellFormed e /\ commandLinked e ->
  wellFormed (foldl (fun e' idx => removeDrone idx e') e l)
  /\ commandLinked (foldl (fun e' idx => removeDrone idx e') e l).
Proof.
  induction l as [|i l IH]; intros e Hinv; cbn [foldl]; [exact Hinv |].
  apply IH, removeDrone_invariant, Hinv.
Qed.

(** A frame of missiles keeps the link: hits on the mothership and on
    a formation leave the link arrays alone, and the drones destroyed
    are removed one by one. *)
Lemma updateMissiles_invariant (dt : Q) (e : Engine) :
  wellFormed e /\ commandLinked e ->
  wellFormed (updateMissiles Math_random dt e)
  /\ commandLinked (updateMissiles Math_random dt e).
Proof.
  intros Hinv. unfold updateMissiles.
  pose proof (foldl_stepMissile_sameLinks dt (rev (missiles e)) (e, [], []))
    as Hstep.
  destruct (foldl (stepMissile dt) (e, [], []) (rev (missiles e)))
    as [[e1 kept] queue].
  cbn [fst] in Hstep.
  assert (Hinv2 : wellFormed (set_missiles kept e1)
                  /\ commandLinked (set_missiles kept e1)).
  { apply (invariant_sameLinks e); [exact Hinv |].
    apply (sameLinks_trans e e1); [exact Hstep |].
    split; [solve_frame | repeat split; reflexivity]. }
  destruct queue as [|entry queue]; [exact Hinv2 |].
  pose proof (foldl_applyWallDamage_sameLinks (entry :: queue)
                (set_missiles kept e1, [])) as Hdmg.
  destruct (foldl (applyWallDamage Math_random)
              (set_missiles kept e1, []) (entry :: queue)) as [e3 dead].
  cbn [fst] in Hdmg.
  apply foldl_removeDrone_invariant.
  apply (invariant_sameLinks _ e3 Hinv2 Hdmg).
Qed.
End WallDamageLinks.

(** *** The soft failure of the drone update *)

(** An attacking drone whose command id the map of the frame does not
    know becomes seeking; its command id and its target reference stay
    as they were. *)
Lemma updateSingleDrone_dangling (Math_sqrt Math_sin Math_cos : Q -> Q)
    (Math_random : nat -> Q) (dt : Q) (cmdMap : gmap Z ref) (i : nat)
    (move : Q) (stride : nat) (e : Engine) (d : Drone) :
  readDrone e i = Some d -> dState d = STATE_ATTACKING ->
  cmdMap !! dCommand d = None ->
  updateSingleDrone Math_sqrt Math_sin Math_cos Math_random dt cmdMap i
    move stride e
  = Some (set_droneState (<[i := STATE_MINING_SEEK]> (droneState e)) e).
Proof.
  intros Hd Hs Hnone. unfold updateSingleDrone.
  rewrite Hd, Hs, Hnone. reflexivity.
Qed.

(** In a linked engine the map of the frame knows the command of every
    attacking drone: the soft failure is not met. *)
Lemma attacking_command_known (e : Engine) (cmdMap : gmap Z ref) (i : nat)
    (d : Drone) :
  wellFormed e /\ commandLinked e -> cmdMapOk e cmdMap ->
  (i < droneCount (state e))%nat ->
  readDrone e i = Some d -> dState d = STATE_ATTACKING ->
  exists (r : ref) (cmd : Command),
    cmdMap !! dCommand d = Some r /\ lookupCmd e r = Some cmd
    /\ cmdId cmd = dCommand d.
Proof.
  intros Hinv [Hkeys Hvals] Hi Hd Hs.
  destruct (readDrone_fields e i d Hd) as (Fs & Fc & Ft & _).
  destruct (invariant_elim e i _ _ _ Hinv Hi Fs Fc Ft) as (H1 & H2 & _).
  assert (Hpos : (0 <= dCommand d)%Z) by (apply H1; exact Hs).
  destruct (Hkeys _ (H2 Hpos)) as [r Hr].
  destruct (Hvals _ r Hr) as (cmd & Hcmd & Hid).
  exists r, cmd. auto.
Qed.

(** C5. The link between drones and commands is kept by every operation
    of the engine.  From an engine in which every live drone has a
    command id of at least [0] exactly when it is attacking, such an id
    being that of a command of the registry (and which is well formed:
    the arrays hold the live drones, an attacking drone has a target
    reference of at least [0], every command has points), the link and
    the well-formedness hold again after the creation of a squad, after
    the removal of a squad, after the update of one live drone under a
    command map that knows the registry (path completion included; the
    update returns, and the branch for a command missing from the map is
    not met), after a whole frame of drone updates, after the removal of
    a live drone and after a frame of missiles. *)
Theorem command_link_invariant (Math_sqrt Math_sin Math_cos : Q -> Q)
    (Math_random : nat -> Q) (e : Engine) :
  wellFormed e /\ commandLinked e ->
  (wellFormed (createSquadFromPending Math_sqrt e)
   /\ commandLinked (createSquadFromPending Math_sqrt e))
  /\ (forall (id : Z) (reason : string),
        wellFormed (removeSquad id reason e)
        /\ commandLinked (removeSquad id reason e))
  /\ (forall (dt : Q) (cmdMap : gmap Z ref) (i : nat) (move : Q)
        (stride : nat),
        cmdMapOk e cmdMap -> (i < droneCount (state e))%nat ->
        (forall d : Drone,
           readDrone e i = Some d -> dState d = STATE_ATTACKING ->
           is_Some (cmdMap !! dCommand d))
        /\ exists e' : Engine,
             updateSingleDrone Math_sqrt Math_sin Math_cos Math_random dt
               cmdMap i move stride e = Some e'
             /\ (wellFormed e' /\ commandLinked e')
             /\ cmdMapOk e' cmdMap)
  /\ (forall dt : Q,
        exists e' : Engine,
          updateDrones Math_sqrt Math_sin Math_cos Math_random dt e
          = Some e'
          /\ (wellFormed e' /\ commandLinked e'))
  /\ (forall i : nat,
        (i < droneCount (state e))%nat ->
        wellFormed (removeDrone i e) /\ commandLinked (removeDrone i e))
  /\ (forall dt : Q,
        wellFormed (updateMissiles Math_random dt e)
        /\ commandLinked (updateMissiles Math_random dt e)).
Proof.
  intros Hinv.
  split; [apply createSquad_invariant, Hinv |].
  split; [intros id reason; apply removeSquad_invariant, Hinv |].
  split.
  { intros dt cmdMap i move stride Hmap Hi. split.
    - intros d Hd Hs.
      destruct (attacking_command_known e cmdMap i d Hinv Hmap Hi Hd Hs)
        as (r & _ & Hr & _).
      exists r. exact Hr.
    - destruct (updateSingleDrone_stepOk Math_sqrt Math_sin Math_cos
                  Math_random e cmdMap dt i move stride Hinv Hmap Hi)
        as (e' & He' & Hinv' & Hmap' & _).
      exists e'. auto. }
  split.
  { intros dt.
    destruct (updateDrones_invariant Math_sqrt Math_sin Math_cos Math_random
                dt e Hinv) as (e' & He' & Hinv' & _).
    exists e'. auto. }
  split; [intros i _; apply removeDrone_invariant, Hinv |].
  intros dt. apply updateMissiles_invariant, Hinv.
Qed.

(** The formation of the example, a Wall of three drones under command
    [1]: it is linked, it stays so when the squad is recalled, and a
    frame of drone updates returns a linked engine. *)
Lemma command_link_invariant_witness :
  (wellFormed wallEngine /\ commandLinked wallEngine)
  /\ (wellFormed (removeSquad 1 "SQUAD RECALLED" wallEngine)
      /\ commandLinked (removeSquad 1 "SQUAD RECALLED" wallEngine))
  /\ exists e' : Engine,
       updateDrones Qsqrt noJitter noJitter alwaysZero (1 # 50) wallEngine
       = Some e'
       /\ (wellFormed e' /\ commandLinked e').
Proof.
  assert (Hinv : wellFormed wallEngine /\ commandLinked wallEngine).
  { apply createSquad_invariant.
    apply (invariant_view (initialEngine 6 8 exampleState));
      [reflexivity | apply invariant_initial; lia]. }
  destruct (command_link_invariant Qsqrt noJitter noJitter alwaysZero
              wallEngine Hinv) as (_ & Hrm & _ & Hupd & _ & _).
  split; [exact Hinv |].
  split; [exact (Hrm 1%Z "SQUAD RECALLED"%string) |].
  exact (Hupd (1 # 50)).
Defined.

(** * Further properties of the engine *)

(** ** Squad removal *)

Lemma hasId_ext (e e' : Engine) (id : Z) (r : ref) :
  commandObjs e' = commandObjs e -> hasId e' id r = hasId e id r.
Proof. intros H. unfold hasId, lookupCmd. rewrite H. reflexivity. Qed.

Lemma findCommand_ext (e e' : Engine) (id : Z) :
  commandObjs e' = commandObjs e -> commands e' = commands e ->
  findCommand e' id = findCommand e id.
Proof.
  intros Ho Hc. unfold findCommand. rewrite Hc. clear Hc.
  induction (commands e) as [|r l IH]; [reflexivity |].
  simpl. rewrite (hasId_ext e e' id r Ho), IH. reflexivity.
Qed.

Lemma find_ext_eq {A} (f g : A -> bool) (l : list A) :
  (forall x : A, f x = g x) -> List.find f l = List.find g l.
Proof.
  intros H. induction l as [|x l IH]; [reflexivity |].
  simpl. rewrite H, IH. reflexivity.
Qed.

Lemma find_filter_negb {A} (f : A -> bool) (l : list A) :
  List.find f (List.filter (fun x => negb (f x)) l) = None.
Proof.
  induction l as [|x l IH]; [reflexivity |].
  simpl. destruct (f x) eqn:Hx; simpl; [exact IH |].
  rewrite Hx. exact IH.
Qed.

(** The fields of the engine after the removal of a registered id. *)
Lemma removeSquad_found (id : Z) (reason : string) (e : Engine) :
  is_Some (findCommand e id) ->
  let e' := removeSquad id reason e in
  let e3 := foldl (releaseDrone id) e (seq 0 (droneCount (state e))) in
  commands e' = List.filter (fun r => negb (hasId e id r)) (commands e)
  /\ commandObjs e' = commandObjs e
  /\ state e'
     = set_activeSquads (Z.of_nat (length (commands e'))) (state e)
  /\ nextCommandId e'
     = (if bool_decide (commands e' = []) then 0%Z else nextCommandId e)
  /\ droneState e' = droneState e3
  /\ droneCommandId e' = droneCommandId e3
  /\ droneTargetId e' = droneTargetId e3
  /\ dronePos e' = dronePos e /\ droneLoad e' = droneLoad e
  /\ droneHP e' = droneHP e
  /\ callbacks e'
     = (if bool_decide (reason = EmptyString) then callbacks e
        else callbacks e ++ [onMessage (Text reason)]).
Proof.
  intros [r0 Hfind]. unfold removeSquad. rewrite Hfind. cbv zeta.
  set (cmds := List.filter (fun r => negb (hasId e id r)) (commands e)).
  set (e2 := set_state _ (set_commands cmds e)).
  assert (Hsame : forall l (a b : Engine),
            droneState a = droneState b ->
            droneCommandId a = droneCommandId b ->
            droneTargetId a = droneTargetId b ->
            droneState (foldl (releaseDrone id) a l)
            = droneState (foldl (releaseDrone id) b l)
            /\ droneCommandId (foldl (releaseDrone id) a l)
               = droneCommandId (foldl (releaseDrone id) b l)
            /\ droneTargetId (foldl (releaseDrone id) a l)
               = droneTargetId (foldl (releaseDrone id) b l)).
  { induction l as [|i l IH]; intros a b Hs Hc Ht; [auto |].
    cbn [foldl]. apply IH; unfold releaseDrone; rewrite Hc;
      case_bool_decide; cbn; congruence. }
  destruct (Hsame (seq 0 (droneCount (state e))) e2 e eq_refl eq_refl eq_refl)
    as (Gs & Gc & Gt).
  pose proof (releaseDrones_spec id e2 (droneCount (state e2))) as Hrel.
  cbv zeta in Hrel.
  change (droneCount (state e2)) with (droneCount (state e)) in *.
  set (e3 := foldl (releaseDrone id) e2 _) in *. clearbody e3.
  destruct Hrel as ((F1&F2&F3&F4&F5&F6&F7&F8&_) & _).
  cbn in F1, F2, F3, F4, F5, F6, F7, F8.
  repeat case_bool_decide; cbn;
    rewrite ?F1, ?F2, ?F3, ?F4, ?F5, ?F6, ?F7, ?F8, ?Gs, ?Gc, ?Gt; cbn;
    repeat split; try reflexivity; cbn in *; congruence.
Qed.

(** Removing a squad: an id that is not registered changes nothing, not
    even a message is sent.  For a registered id the commands of that id
    leave the registry, [activeSquads] is the number of commands left,
    [nextCommandId] returns to [0] exactly when none is left, every live
    drone of the squad becomes seeking with command id and target
    reference [-1], every other drone record stays as it was, and a
    second removal of the id changes nothing. *)
Theorem removeSquad_effect (id : Z) (reason : string) (e : Engine) :
  storeFits e (droneCount (state e)) ->
  let e' := removeSquad id reason e in
  (findCommand e id = None -> e' = e)
  /\ (is_Some (findCommand e id) ->
      findCommand e' id = None
      /\ commands e'
         = List.filter (fun r => negb (hasId e id r)) (commands e)
      /\ commandObjs e' = commandObjs e
      /\ activeSquads (state e') = Z.of_nat (length (commands e'))
      /\ nextCommandId e'
         = (if bool_decide (commands e' = []) then 0%Z
            else nextCommandId e)
      /\ (forall i : nat,
            (i < droneCount (state e))%nat ->
            droneCommandId e !! i = Some id ->
            droneState e' !! i = Some STATE_MINING_SEEK
            /\ droneCommandId e' !! i = Some (-1)%Z
            /\ droneTargetId e' !! i = Some (-1)%Z)
      /\ (forall i : nat,
            droneCommandId e !! i <> Some id ->
            droneState e' !! i = droneState e !! i
            /\ droneCommandId e' !! i = droneCommandId e !! i
            /\ droneTargetId e' !! i = droneTargetId e !! i)
      /\ dronePos e' = dronePos e /\ droneLoad e' = droneLoad e
      /\ droneHP e' = droneHP e
      /\ droneCount (state e') = droneCount (state e)
      /\ forall reason' : string, removeSquad id reason' e' = e').
Proof.
  intros Hfit e'. split.
  { intros Hnone. unfold e', removeSquad. rewrite Hnone. reflexivity. }
  intros Hsome.
  destruct (removeSquad_found id reason e Hsome)
    as (Hcmds & Hobjs & Hst & Hnext & Gs & Gc & Gt & Gp & Gl & Gh & _).
  fold e' in Hcmds, Hobjs, Hst, Hnext, Gs, Gc, Gt, Gp, Gl, Gh.
  pose proof (releaseDrones_spec id e (droneCount (state e))) as Hrel.
  cbv zeta in Hrel. destruct Hrel as (_ & Ha & Hb).
  destruct Hfit as (_ & Fs & Ft & _).
  assert (Hgone : findCommand e' id = None).
  { unfold findCommand. rewrite Hcmds.
    rewrite (find_ext_eq (hasId e' id) (hasId e id))
      by (intros r; apply hasId_ext; exact Hobjs).
    apply find_filter_negb. }
  split; [exact Hgone |]. split; [exact Hcmds |]. split; [exact Hobjs |].
  split; [rewrite Hst; reflexivity |]. split; [exact Hnext |].
  split.
  { intros i Hi Hmine. rewrite Gs, Gc, Gt. apply Ha; [exact Hi | exact Hmine | lia | lia]. }
  split.
  { intros i Hother. rewrite Gs, Gc, Gt. apply Hb. tauto. }
  split; [exact Gp |]. split; [exact Gl |]. split; [exact Gh |].
  split; [rewrite Hst; reflexivity |].
  intros reason'. unfold removeSquad. rewrite Hgone. reflexivity.
Qed.

(** ** The registry keeps distinct ids *)

Lemma lookupCmd_id_view (e e' : Engine) (r : ref) :
  cmdId <$> commandObjs e' = cmdId <$> commandObjs e ->
  cmdId <$> lookupCmd e' r = cmdId <$> lookupCmd e r.
Proof.
  intros H. unfold lookupCmd. rewrite <- !list_lookup_fmap, H. reflexivity.
Qed.

Lemma registryIds_view (e e' : Engine) :
  commands e' = commands e ->
  cmdId <$> commandObjs e' = cmdId <$> commandObjs e ->
  registryIds e' = registryIds e.
Proof.
  intros Hc Ho. unfold registryIds. rewrite Hc. clear Hc.
  induction (commands e) as [|r l IH]; [reflexivity |].
  cbn [omap list_omap]. rewrite (lookupCmd_id_view e e' r Ho), IH.
  reflexivity.
Qed.

Lemma registryOk_view (e e' : Engine) :
  registryView e' = registryView e -> registryOk e -> registryOk e'.
Proof.
  unfold registryView. intros [= Hc Ho Hn Ha] (H1 & H2 & H3 & H0 & H4).
  split; [| split; [| split; [| split]]].
  - intros r Hr. rewrite Hc in Hr.
    pose proof (lookupCmd_id_view e e' r Ho) as Hid.
    destruct (H1 r Hr) as [c Hcmd]. rewrite Hcmd in Hid.
    destruct (lookupCmd e' r); [eauto | discriminate].
  - rewrite (registryIds_view e e' Hc Ho). exact H2.
  - rewrite (registryIds_view e e' Hc Ho), Hn. exact H3.
  - rewrite Hn. exact H0.
  - rewrite Ha, Hc. exact H4.
Qed.

Lemma registryIds_elem (e : Engine) (c : Z) :
  c ∈ registryIds e
  <-> exists (r : ref) (cmd : Command),
        r ∈ commands e /\ lookupCmd e r = Some cmd /\ cmdId cmd = c.
Proof.
  unfold registryIds. rewrite list_elem_of_omap. split.
  - intros (r & Hr & Hc).
    destruct (lookupCmd e r) as [cmd|] eqn:Hcmd; [| discriminate].
    injection Hc as <-. eauto.
  - intros (r & cmd & Hr & Hcmd & <-). exists r. rewrite Hcmd. auto.
Qed.

Lemma registryIds_filter (e : Engine) (id : Z) (l : list ref) :
  omap (fun r => cmdId <$> lookupCmd e r)
       (List.filter (fun r => negb (hasId e id r)) l)
  = List.filter (fun c => negb (c =? id)%Z)
      (omap (fun r => cmdId <$> lookupCmd e r) l).
Proof.
  induction l as [|r l IH]; [reflexivity |].
  cbn [List.filter]. unfold hasId at 1.
  destruct (lookupCmd e r) as [cmd|] eqn:Hcmd.
  - destruct (cmdId cmd =? id)%Z eqn:Hid; cbn [negb omap list_omap];
      rewrite Hcmd; cbn [fmap option_fmap option_map List.filter];
      rewrite Hid; cbn [negb]; rewrite IH; reflexivity.
  - cbn [negb omap list_omap]. rewrite Hcmd. exact IH.
Qed.

Lemma removeSquad_registryOk (id : Z) (reason : string) (e : Engine) :
  registryOk e -> registryOk (removeSquad id reason e).
Proof.
  intros Hok.
  destruct (findCommand e id) as [r0|] eqn:Hfind;
    [| unfold removeSquad; rewrite Hfind; exact Hok].
  destruct (removeSquad_found id reason e (mk_is_Some _ _ Hfind))
    as (Hcmds & Hobjs & Hst & Hnext & _).
  set (e' := removeSquad id reason e) in *. clearbody e'.
  destruct Hok as (H1 & H2 & H3 & H0 & H4).
  assert (Hids : registryIds e'
                 = List.filter (fun c => negb (c =? id)%Z) (registryIds e)).
  { unfold registryIds. rewrite Hcmds, <- registryIds_filter.
    unfold lookupCmd. rewrite Hobjs. reflexivity. }
  split; [| split; [| split; [| split]]].
  - intros r Hr. rewrite Hcmds in Hr.
    apply list_elem_of_In, filter_In in Hr as [Hr _].
    unfold lookupCmd. rewrite Hobjs. apply H1, list_elem_of_In, Hr.
  - rewrite Hids. apply NoDup_ListNoDup, List.NoDup_filter,
      NoDup_ListNoDup, H2.
  - intros c Hc. rewrite Hnext.
    case_bool_decide as Hnil.
    + unfold registryIds in Hc. rewrite Hnil in Hc.
      apply elem_of_nil in Hc. contradiction.
    + rewrite Hids in Hc.
      apply list_elem_of_In, filter_In in Hc as [Hc _].
      apply H3, list_elem_of_In, Hc.
  - rewrite Hnext. case_bool_decide; [lia | exact H0].
  - rewrite Hst. reflexivity.
Qed.

Lemma createSquad_registryOk (Math_sqrt : Q -> Q) (e : Engine) :
  registryOk e -> registryOk (createSquadFromPending Math_sqrt e).
Proof.
  intros Hok.
  destruct (Nat.ltb_spec (length (pendingPath e)) 2) as [Hshort|Hlen].
  { apply (registryOk_view e); [| exact Hok].
    unfold createSquadFromPending.
    apply Nat.ltb_lt in Hshort. rewrite Hshort. reflexivity. }
  destruct (decide (eligibleDrones e = [])) as [Hnil|Hne].
  { apply (registryOk_view e); [| exact Hok].
    rewrite (createSquad_rejected Math_sqrt e Hlen Hnil). reflexivity. }
  destruct (createSquad_registry Math_sqrt e Hlen Hne)
    as (Hcmds & Hobjs & Hnext & _ & Hst & _).
  set (e' := createSquadFromPending Math_sqrt e) in *. clearbody e'.
  set (cmd := set_activeDroneCount _ (newCommand Math_sqrt e)) in *.
  destruct Hok as (H1 & H2 & H3 & H0 & H4).
  assert (Hold : forall r : ref, r ∈ commands e ->
                   lookupCmd e' r = lookupCmd e r).
  { intros r Hr. unfold lookupCmd. rewrite Hobjs.
    apply lookup_app_l, lookup_lt_is_Some, H1, Hr. }
  assert (Hnew : lookupCmd e' (length (commandObjs e)) = Some cmd).
  { unfold lookupCmd. rewrite Hobjs.
    rewrite lookup_app_r by lia. rewrite Nat.sub_diag. reflexivity. }
  assert (Hmap : forall l : list ref,
            (forall r : ref, r ∈ l -> lookupCmd e' r = lookupCmd e r) ->
            omap (fun r => cmdId <$> lookupCmd e' r) l
            = omap (fun r => cmdId <$> lookupCmd e r) l).
  { induction l as [|r l IH]; intros Hl; [reflexivity |].
    cbn [omap list_omap]. rewrite Hl by left.
    rewrite IH; [reflexivity |].
    intros r' Hr'. apply Hl. right. exact Hr'. }
  assert (Hids : registryIds e'
                 = registryIds e ++ [(nextCommandId e + 1)%Z]).
  { unfold registryIds. rewrite Hcmds, omap_app. f_equal.
    - apply Hmap, Hold.
    - cbn [omap list_omap]. rewrite Hnew. reflexivity. }
  split; [| split; [| split; [| split]]].
  - intros r Hr. rewrite Hcmds in Hr.
    apply elem_of_app in Hr as [Hr | Hr].
    + rewrite (Hold r Hr). apply H1, Hr.
    + apply list_elem_of_singleton in Hr as ->. rewrite Hnew. eauto.
  - rewrite Hids. apply NoDup_app. split; [exact H2 |].
    split; [| apply NoDup_singleton].
    intros c Hc Hc'. apply list_elem_of_singleton in Hc' as ->.
    apply H3 in Hc. lia.
  - intros c Hc. rewrite Hids in Hc. rewrite Hnext.
    apply elem_of_app in Hc as [Hc | Hc].
    + apply H3 in Hc. lia.
    + apply list_elem_of_singleton in Hc as ->. lia.
  - rewrite Hnext. lia.
  - rewrite Hst, Hcmds, length_app. cbn. rewrite H4. lia.
Qed.

Lemma cmdId_alter (f : Command -> Command) (r : nat) (objs : list Command) :
  (forall c : Command, cmdId (f c) = cmdId c) ->
  cmdId <$> alter f r objs = cmdId <$> objs.
Proof.
  intros Hf. apply list_eq. intros k.
  rewrite !list_lookup_fmap, list_lookup_alter.
  case_decide as Hk; [| reflexivity].
  subst k. destruct (objs !! r) as [c|]; [| reflexivity].
  change (Some (cmdId (f c)) = Some (cmdId c)).
  rewrite Hf. reflexivity.
Qed.

Ltac solve_view :=
  unfold registryView; cbn;
  rewrite ?cmdId_alter by (intros; reflexivity);
  reflexivity.

Lemma removeDrone_view (i : nat) (e : Engine) :
  registryView (removeDrone i e) = registryView e.
Proof. unfold removeDrone. case_bool_decide; solve_view. Qed.

Lemma foldl_removeDrone_view (l : list nat) :
  forall e : Engine,
  registryView (foldl (fun e' idx => removeDrone idx e') e l)
  = registryView e.
Proof.
  induction l as [|i l IH]; intros e; cbn [foldl]; [reflexivity |].
  rewrite IH. apply removeDrone_view.
Qed.

Lemma hitMothership_view (m : Missile) (e : Engine) :
  registryView (hitMothership m e) = registryView e.
Proof. unfold hitMothership. cbv zeta. repeat case_match; solve_view. Qed.

Lemma foldl_stepMissile_view (dt : Q) (ms : list Missile) :
  forall acc : Engine * list Missile * DamageQueue,
  registryView (foldl (stepMissile dt) acc ms).1.1 = registryView acc.1.1.
Proof.
  induction ms as [|m ms IH]; intros acc; cbn [foldl]; [reflexivity |].
  rewrite IH. destruct acc as [[e kept] queue]. unfold stepMissile.
  destruct (missileFate e _); cbn [fst]; try reflexivity.
  apply hitMothership_view.
Qed.

Section RegistryUnderFire.
Variables Math_sqrt Math_sin Math_cos : Q -> Q.
Variable Math_random : nat -> Q.

Lemma applyWallHit_view (cid : Z) (members : list nat)
    (acc : Engine * list nat) (dmg : Q) :
  registryView (applyWallHit Math_random cid members acc dmg).1
  = registryView acc.1.
Proof.
  unfold applyWallHit. destruct acc as [e dead].
  destruct (pickLiving _ _ _ _ _) as [target calls]. cbv zeta.
  repeat case_match; cbn [fst]; solve_view.
Qed.

Lemma foldl_applyWallDamage_view (queue : DamageQueue) :
  forall acc : Engine * list nat,
  registryView (foldl (applyWallDamage Math_random) acc queue).1
  = registryView acc.1.
Proof.
  induction queue as [|entry queue IH]; intros acc; cbn [foldl];
    [reflexivity |].
  rewrite IH. unfold applyWallDamage.
  destruct (squadMembers acc.1 entry.1) as [|i members]; [reflexivity |].
  generalize (i :: members). intros ms.
  generalize (snd entry). intros dmgs. revert acc.
  induction dmgs as [|d dmgs IHd]; intros acc; cbn [foldl]; [reflexivity |].
  rewrite IHd. apply applyWallHit_view.
Qed.

Lemma updateMissiles_view (dt : Q) (e : Engine) :
  registryView (updateMissiles Math_random dt e) = registryView e.
Proof.
  unfold updateMissiles.
  pose proof (foldl_stepMissile_view dt (rev (missiles e)) (e, [], []))
    as Hstep.
  destruct (foldl (stepMissile dt) (e, [], []) (rev (missiles e)))
    as [[e1 kept] queue].
  cbn [fst] in Hstep.
  destruct queue as [|entry queue]; [rewrite <- Hstep; reflexivity |].
  pose proof (foldl_applyWallDamage_view (entry :: queue)
                (set_missiles kept e1, [])) as Hdmg.
  destruct (foldl (applyWallDamage Math_random)
              (set_missiles kept e1, []) (entry :: queue)) as [e3 dead].
  cbn [fst] in Hdmg.
  rewrite foldl_removeDrone_view, Hdmg, <- Hstep. reflexivity.
Qed.

Lemma meleeAttack_view (pos : Vector3) (stride : nat) (e : Engine) :
  registryView (meleeAttack Math_sqrt Math_random pos stride e)
  = registryView e.
Proof. unfold meleeAttack. repeat case_match; solve_view. Qed.

Lemma updateSingleDrone_registryOk (dt : Q) (cmdMap : gmap Z ref) (i : nat)
    (move : Q) (stride : nat) (e e' : Engine) :
  registryOk e ->
  updateSingleDrone Math_sqrt Math_sin Math_cos Math_random dt cmdMap i
    move stride e = Some e' ->
  registryOk e'.
Proof.
  intros Hok. unfold updateSingleDrone.
  destruct (readDrone e i) as [d|]; [| intros [= <-]; exact Hok].
  destruct (dState d).
  - intros [= <-]. apply (registryOk_view e); [| exact Hok].
    unfold updateSeeking, writePos. repeat case_match; solve_view.
  - intros [= <-]. apply (registryOk_view e); [| exact Hok].
    unfold updateReturning, writePos. repeat case_match; solve_view.
  - destruct (cmdMap !! dCommand d) as [r|];
      [| intros [= <-]; apply (registryOk_view e); [solve_view | exact Hok]].
    destruct (lookupCmd e r) as [cmd|];
      [| intros [= <-]; apply (registryOk_view e); [solve_view | exact Hok]].
    destruct (cmdType cmd).
    + unfold updateSwarm. cbv zeta.
      destruct (pointAt _ _) as [target|]; [| discriminate].
      cbn [mbind option_bind].
      destruct (Qlt_bool _ move).
      * destruct (_ <? _)%Z.
        -- intros [= <-]. apply (registryOk_view e); [| exact Hok].
           unfold writePos, registryView. cbn.
           pose proof (meleeAttack_view target stride
                         (set_droneTargetId
                            (<[i := (dTarget d + 1)%Z]> (droneTargetId e)) e))
             as Hm.
           unfold registryView in Hm. cbn in Hm. exact Hm.
        -- set (e4 := decrementActive r _).
           assert (Hok4 : registryOk e4).
           { apply (registryOk_view e); [| exact Hok].
             unfold e4, decrementActive. solve_view. }
           clearbody e4.
           destruct (lookupCmd e4 r) as [cmd'|];
             [| intros [= <-]; exact Hok4].
           destruct (_ <=? _)%Z; intros [= <-];
             [apply removeSquad_registryOk |]; exact Hok4.
      * intros [= <-]. apply (registryOk_view e); [| exact Hok].
        unfold writePos, registryView. cbn.
        pose proof (meleeAttack_view
                      (steerToward Math_sqrt (dPos d) target move) stride e)
          as Hm.
        unfold registryView in Hm. exact Hm.
    + unfold updateWall. cbv zeta.
      destruct (_ =? 0)%Z; [discriminate |].
      destruct (pointAt _ _) as [target|]; [| discriminate].
      cbn [mbind option_bind]. intros [= <-].
      apply (registryOk_view e); [solve_view | exact Hok].
Qed.

Lemma runLoop_registryOk (dt : Q) (cmdMap : gmap Z ref) (move : Q)
    (stride : nat) (indices : list nat) :
  forall e e' : Engine,
  registryOk e ->
  runLoop Math_sqrt Math_sin Math_cos Math_random dt cmdMap move stride
    indices e = Some e' ->
  registryOk e'.
Proof.
  unfold runLoop.
  induction indices as [|i indices IH]; intros e e' Hok; cbn [foldl].
  - intros [= <-]. exact Hok.
  - cbn [mbind option_bind].
    destruct (updateSingleDrone _ _ _ _ dt cmdMap i move stride e)
      as [e1|] eqn:He1.
    + apply IH, (updateSingleDrone_registryOk dt cmdMap i move stride e e1 Hok He1).
    + intros Hnone. exfalso. revert Hnone. clear.
      induction indices as [|j indices IH]; cbn [foldl]; [discriminate |].
      exact IH.
Qed.

Lemma updateDrones_registryOk (dt : Q) (e e' : Engine) :
  registryOk e ->
  updateDrones Math_sqrt Math_sin Math_cos Math_random dt e = Some e' ->
  registryOk e'.
Proof.
  intros Hok. unfold updateDrones.
  destruct (droneCount (state e) =? 0)%nat; [intros [= <-]; exact Hok |].
  cbv zeta.
  destruct (runLoop _ _ _ _ dt (buildCmdMap e) _ _ _ e) as [e1|] eqn:He1;
    [| discriminate].
  cbn [mbind option_bind].
  pose proof (runLoop_registryOk _ _ _ _ _ _ _ Hok He1) as Hok1.
  destruct (_ <? _)%nat; [| intros [= <-]; exact Hok1].
  intros He2. apply (runLoop_registryOk _ _ _ _ _ _ _ Hok1 He2).
Qed.
End RegistryUnderFire.

(** ** The sweep of the empty squads *)

Lemma filter_keep_all {A} (f : A -> bool) (l : list A) :
  (forall x : A, x ∈ l -> f x = true) -> List.filter f l = l.
Proof.
  induction l as [|x l IH]; intros H; [reflexivity |].
  simpl. rewrite (H x) by left. rewrite IH; [reflexivity |].
  intros y Hy. apply H. right. exact Hy.
Qed.

(** With distinct ids, filtering an id out of the registry deletes one
    position. *)
Lemma filter_id_delete (e : Engine) (l : list ref) :
  forall (i : nat) (r : ref) (c : Command),
  NoDup (omap (fun r => cmdId <$> lookupCmd e r) l) ->
  l !! i = Some r -> lookupCmd e r = Some c ->
  List.filter (fun r' => negb (hasId e (cmdId c) r')) l
  = take i l ++ drop (S i) l.
Proof.
  induction l as [|r0 l IH]; intros i r c Hnd Hi Hc; [discriminate |].
  assert (Hother : forall (r' : ref),
            cmdId c ∉ omap (fun r => cmdId <$> lookupCmd e r) l ->
            r' ∈ l -> negb (hasId e (cmdId c) r') = true).
  { intros r' Hnot Hr'. unfold hasId.
    destruct (lookupCmd e r') as [c'|] eqn:Hc'; [| reflexivity].
    apply negb_true_iff, Z.eqb_neq. intros Heq. apply Hnot.
    apply list_elem_of_omap. exists r'. rewrite Hc'. cbn. auto with f_equal. }
  destruct i as [|i]; cbn [List.filter take drop app].
  - injection Hi as ->. unfold hasId at 1. rewrite Hc, Z.eqb_refl. cbn.
    apply filter_keep_all. intros r' Hr'. apply Hother; [| exact Hr'].
    cbn [omap list_omap] in Hnd. rewrite Hc in Hnd. cbn in Hnd.
    apply NoDup_cons in Hnd as [Hnot _]. exact Hnot.
  - cbn in Hi.
    assert (Hkeep : negb (hasId e (cmdId c) r0) = true).
    { unfold hasId. destruct (lookupCmd e r0) as [c0|] eqn:Hc0;
        [| reflexivity].
      apply negb_true_iff, Z.eqb_neq. intros Heq.
      cbn [omap list_omap] in Hnd. rewrite Hc0 in Hnd. cbn in Hnd.
      apply NoDup_cons in Hnd as [Hnot _]. apply Hnot.
      apply list_elem_of_omap. exists r. rewrite Hc. cbn.
      split; [apply (list_elem_of_lookup_2 _ i), Hi | congruence]. }
    rewrite Hkeep. f_equal. apply (IH i r c); [| exact Hi | exact Hc].
    cbn [omap list_omap] in Hnd.
    destruct (lookupCmd e r0); cbn in Hnd; [| exact Hnd].
    apply NoDup_cons in Hnd as [_ Hnd]. exact Hnd.
Qed.

Lemma isActive_ext (e e' : Engine) (r : ref) :
  commandObjs e' = commandObjs e -> isActive e' r = isActive e r.
Proof. intros H. unfold isActive, lookupCmd. rewrite H. reflexivity. Qed.

Lemma filter_ext_eq {A} (f g : A -> bool) (l : list A) :
  (forall x : A, f x = g x) -> List.filter f l = List.filter g l.
Proof.
  intros H. induction l as [|x l IH]; [reflexivity |].
  simpl. rewrite H, IH. reflexivity.
Qed.

Lemma sweepFrom_spec (n : nat) :
  forall e : Engine,
  registryOk e -> (n <= length (commands e))%nat ->
  exists e' : Engine,
    sweepFrom n e = Some e'
    /\ commands e'
       = List.filter (isActive e) (take n (commands e))
         ++ drop n (commands e)
    /\ commandObjs e' = commandObjs e
    /\ droneCount (state e') = droneCount (state e)
    /\ registryOk e'
    /\ (wellFormed e /\ commandLinked e ->
        wellFormed e' /\ commandLinked e').
Proof.
  induction n as [|i IH]; intros e Hok Hn.
  - exists e. cbn. rewrite drop_0. auto 10.
  - destruct (lookup_lt_is_Some_2 (commands e) i) as [r Hr]; [lia |].
    pose proof Hok as (H1 & H2 & _).
    destruct (H1 r (list_elem_of_lookup_2 _ _ _ Hr)) as [c Hc].
    cbn [sweepFrom]. rewrite Hr. cbn [mbind option_bind]. rewrite Hc.
    cbn [mbind option_bind].
    assert (Htake : take (S i) (commands e) = take i (commands e) ++ [r]).
    { apply take_S_r, Hr. }
    assert (Hdrop : drop i (commands e) = r :: drop (S i) (commands e)).
    { apply drop_S, Hr. }
    rewrite Htake, List.filter_app. cbn [List.filter]. unfold isActive at 2.
    rewrite Hc.
    destruct (activeDroneCount c <=? 0)%Z eqn:Hact; cbn [negb].
    + set (e1 := removeSquad (cmdId c) "" e).
      assert (Hfind : is_Some (findCommand e (cmdId c))).
      { unfold findCommand.
        destruct (List.find (hasId e (cmdId c)) (commands e)) eqn:Hf;
          [eauto |].
        exfalso.
        assert (Hin : In r (commands e))
          by (apply list_elem_of_In, (list_elem_of_lookup_2 _ i), Hr).
        pose proof (find_none _ _ Hf r Hin) as Hno.
        unfold hasId in Hno. rewrite Hc, Z.eqb_refl in Hno.
        discriminate. }
      destruct (removeSquad_found (cmdId c) "" e Hfind)
        as (Hcmds & Hobjs & Hst & _).
      fold e1 in Hcmds, Hobjs, Hst.
      rewrite (filter_id_delete e (commands e) i r c H2 Hr Hc) in Hcmds.
      assert (Hlen : (i <= length (commands e1))%nat).
      { rewrite Hcmds, length_app, length_take. lia. }
      destruct (IH e1 (removeSquad_registryOk _ _ e Hok) Hlen)
        as (e' & He' & Gc & Go & Gn & Gok & Ginv).
      exists e'. split; [exact He' |].
      split.
      { rewrite Gc, Hcmds.
        rewrite take_app_le by (rewrite length_take; lia).
        rewrite take_take, Nat.min_id.
        rewrite drop_app_ge by (rewrite length_take; lia).
        rewrite length_take, Nat.min_l by lia.
        rewrite Nat.sub_diag, drop_0, app_nil_r.
        f_equal. apply filter_ext_eq. intros x.
        apply isActive_ext, Hobjs. }
      split; [congruence |].
      split; [rewrite Gn, Hst; reflexivity |].
      split; [exact Gok |].
      intros Hinv. apply Ginv, removeSquad_invariant, Hinv.
    + destruct (IH e Hok ltac:(lia))
        as (e' & He' & Gc & Go & Gn & Gok & Ginv).
      exists e'. split; [exact He' |].
      split; [rewrite Gc, Hdrop, <- app_assoc; reflexivity |].
      auto.
Qed.

(** The sweep of [animate] over a registry of distinct ids raises no
    error and leaves exactly the commands whose [activeDroneCount] is
    positive, in their order; the command objects, the drone count, the
    registry invariant and the link between drones and commands are
    kept. *)
Theorem sweepSquads_keeps_active (e : Engine) :
  registryOk e ->
  exists e' : Engine,
    sweepSquads e = Some e'
    /\ commands e' = List.filter (isActive e) (commands e)
    /\ (forall (r : ref) (c : Command),
          r ∈ commands e' -> lookupCmd e' r = Some c ->
          (0 < activeDroneCount c)%Z)
    /\ (forall (r : ref) (c : Command),
          r ∈ commands e -> lookupCmd e r = Some c ->
          (0 < activeDroneCount c)%Z -> r ∈ commands e')
    /\ commandObjs e' = commandObjs e
    /\ droneCount (state e') = droneCount (state e)
    /\ registryOk e'
    /\ (wellFormed e /\ commandLinked e ->
        wellFormed e' /\ commandLinked e').
Proof.
  intros Hok. unfold sweepSquads.
  destruct (sweepFrom_spec (length (commands e)) e Hok (Nat.le_refl _))
    as (e' & He' & Gc & Go & Gn & Gok & Ginv).
  rewrite firstn_all, drop_all, app_nil_r in Gc.
  exists e'. split; [exact He' |]. split; [exact Gc |].
  split.
  { intros r c Hr Hc. rewrite Gc in Hr.
    apply list_elem_of_In, filter_In in Hr as [_ Hr].
    unfold isActive, lookupCmd in *. rewrite Go in Hc. rewrite Hc in Hr.
    apply negb_true_iff, Z.leb_gt in Hr. exact Hr. }
  split.
  { intros r c Hr Hc Hpos. rewrite Gc.
    apply list_elem_of_In, filter_In. split; [apply list_elem_of_In, Hr |].
    unfold isActive. rewrite Hc. apply negb_true_iff, Z.leb_gt, Hpos. }
  auto.
Qed.

Lemma registryOk_empty (e : Engine) :
  commands e = [] -> (0 <= nextCommandId e)%Z ->
  activeSquads (state e) = 0%Z -> registryOk e.
Proof.
  intros Hc Hn Ha. unfold registryOk, registryIds. rewrite Hc.
  split; [intros r Hr; apply elem_of_nil in Hr; contradiction |].
  split; [apply NoDup_nil_2 |].
  split; [intros c Hr; apply elem_of_nil in Hr; contradiction |].
  split; [exact Hn | rewrite Ha; reflexivity].
Qed.

Lemma registryOk_wallEngine : registryOk wallEngine.
Proof.
  apply createSquad_registryOk, registryOk_empty; reflexivity || (cbn; lia).
Qed.

Lemma sweepSquads_keeps_active_witness :
  exists e' : Engine,
    sweepSquads wallEngine = Some e' /\ commands e' = [0%nat].
Proof.
  destruct (sweepSquads_keeps_active wallEngine registryOk_wallEngine)
    as (e' & He' & Hc & _).
  exists e'. split; [exact He' |]. rewrite Hc. vm_compute. reflexivity.
Defined.

Lemma registryIds_lookup (e : Engine) (i : nat) (r : ref) (c : Command) :
  (forall r : ref, r ∈ commands e -> is_Some (lookupCmd e r)) ->
  commands e !! i = Some r -> lookupCmd e r = Some c ->
  registryIds e !! i = Some (cmdId c).
Proof.
  unfold registryIds. revert i.
  induction (commands e) as [|r0 l IH]; intros i H1 Hi Hc; [discriminate |].
  destruct (H1 r0) as [c0 Hc0]; [left |].
  cbn [omap list_omap]. rewrite Hc0. cbn.
  destruct i as [|i]; cbn in *.
  - injection Hi as ->. congruence.
  - apply IH; [| exact Hi | exact Hc].
    intros r' Hr'. apply H1. right. exact Hr'.
Qed.

(** The registry invariant is kept by every operation of the engine:
    squad creation, squad removal, a frame of drone updates, the removal
    of a drone and a frame of missiles leave a registry in which every
    reference has its object, the ids are distinct, positive and at most
    [nextCommandId], and [activeSquads] counts the commands.  In such a
    registry two positions that hold commands of the same id are the
    same position. *)
Theorem registry_ids_distinct (Math_sqrt Math_sin Math_cos : Q -> Q)
    (Math_random : nat -> Q) (e : Engine) :
  registryOk e ->
  registryOk (createSquadFromPending Math_sqrt e)
  /\ (forall (id : Z) (reason : string), registryOk (removeSquad id reason e))
  /\ (forall (dt : Q) (e' : Engine),
        updateDrones Math_sqrt Math_sin Math_cos Math_random dt e = Some e' ->
        registryOk e')
  /\ (wellFormed e /\ commandLinked e ->
      forall dt : Q,
      exists e' : Engine,
        updateDrones Math_sqrt Math_sin Math_cos Math_random dt e = Some e'
        /\ registryOk e')
  /\ (forall i : nat, registryOk (removeDrone i e))
  /\ (forall dt : Q, registryOk (updateMissiles Math_random dt e))
  /\ (forall (i j : nat) (r1 r2 : ref) (c1 c2 : Command),
        commands e !! i = Some r1 -> commands e !! j = Some r2 ->
        lookupCmd e r1 = Some c1 -> lookupCmd e r2 = Some c2 ->
        cmdId c1 = cmdId c2 -> i = j).
Proof.
  intros Hok.
  split; [apply createSquad_registryOk, Hok |].
  split; [intros id reason; apply removeSquad_registryOk, Hok |].
  split.
  { intros dt e' He'.
    apply (updateDrones_registryOk Math_sqrt Math_sin Math_cos Math_random
             dt e e' Hok He'). }
  split.
  { intros Hinv dt.
    destruct (updateDrones_invariant Math_sqrt Math_sin Math_cos Math_random
                dt e Hinv) as (e' & He' & _).
    exists e'. split; [exact He' |].
    apply (updateDrones_registryOk Math_sqrt Math_sin Math_cos Math_random
             dt e e' Hok He'). }
  split.
  { intros i. apply (registryOk_view e); [apply removeDrone_view | exact Hok]. }
  split.
  { intros dt. apply (registryOk_view e);
      [apply updateMissiles_view | exact Hok]. }
  intros i j r1 r2 c1 c2 Hi Hj Hc1 Hc2 Heq.
  destruct Hok as (H1 & H2 & _).
  pose proof (registryIds_lookup e i r1 c1 H1 Hi Hc1) as G1.
  pose proof (registryIds_lookup e j r2 c2 H1 Hj Hc2) as G2.
  rewrite Heq in G1.
  apply (NoDup_lookup _ i j _ H2 G1 G2).
Qed.

Lemma registry_ids_distinct_witness :
  registryOk (removeSquad 1 "SQUAD RECALLED" wallEngine)
  /\ registryOk (updateMissiles alwaysZero (1 # 50) wallEngine).
Proof.
  destruct (registry_ids_distinct Qsqrt noJitter noJitter alwaysZero
              wallEngine registryOk_wallEngine)
    as (_ & Hrm & _ & _ & _ & Hms & _).
  split; [exact (Hrm 1%Z "SQUAD RECALLED"%string) | exact (Hms (1 # 50))].
Defined.

Lemma invariant_wallEngine : wellFormed wallEngine /\ commandLinked wallEngine.
Proof.
  apply createSquad_invariant.
  apply (invariant_view (initialEngine 6 8 exampleState));
    [reflexivity | apply invariant_initial; lia].
Qed.

Lemma removeSquad_effect_witness :
  findCommand (removeSquad 1 "SQUAD RECALLED" wallEngine) 1 = None
  /\ removeSquad 1 "PATH COMPLETE"
       (removeSquad 1 "SQUAD RECALLED" wallEngine)
     = removeSquad 1 "SQUAD RECALLED" wallEngine.
Proof.
  destruct (removeSquad_effect 1 "SQUAD RECALLED" wallEngine
              (proj1 (proj1 invariant_wallEngine))) as [_ H].
  destruct H as (Hgone & _ & _ & _ & _ & _ & _ & _ & _ & _ & _ & Hidem).
  { exists 0%nat. vm_compute. reflexivity. }
  split; [exact Hgone | exact (Hidem "PATH COMPLETE"%string)].
Defined.

(** ** The work of one frame of drone updates *)

Lemma strideFrom_length (stop stride : nat) :
  (1 <= stride)%nat ->
  forall fuel start : nat,
  (length (strideFrom fuel start stop stride) * stride
   <= (stop - start) + (stride - 1))%nat.
Proof.
  intros Hk. induction fuel as [|fuel IH]; intros start; cbn [strideFrom].
  - cbn. lia.
  - destruct (Nat.ltb_spec start stop) as [Hlt|Hge]; [| cbn; lia].
    cbn [length]. specialize (IH (start + stride)%nat).
    set (L := length _) in *. clearbody L.
    replace (S L * stride)%nat with (L * stride + stride)%nat by lia.
    destruct (le_lt_dec stride (stop - start)) as [Hfar|Hnear]; [lia |].
    destruct L as [|L]; [lia |].
    replace (S L * stride)%nat with (L * stride + stride)%nat in IH by lia.
    lia.
Qed.

Lemma strideFrom_ge (stop stride : nat) :
  forall fuel start x : nat,
  x ∈ strideFrom fuel start stop stride -> (start <= x < stop)%nat.
Proof.
  induction fuel as [|fuel IH]; intros start x; cbn [strideFrom].
  - intros H. apply elem_of_nil in H. contradiction.
  - destruct (Nat.ltb_spec start stop) as [Hlt|Hge];
      [| intros H; apply elem_of_nil in H; contradiction].
    rewrite elem_of_cons. intros [-> | H]; [lia |].
    apply IH in H. lia.
Qed.

Lemma strideFrom_NoDup (stop stride : nat) :
  (1 <= stride)%nat ->
  forall fuel start : nat, NoDup (strideFrom fuel start stop stride).
Proof.
  intros Hk. induction fuel as [|fuel IH]; intros start; cbn [strideFrom].
  - apply NoDup_nil_2.
  - destruct (start <? stop)%nat; [| apply NoDup_nil_2].
    apply NoDup_cons. split; [| apply IH].
    intros H. apply strideFrom_ge in H. lia.
Qed.

Lemma ceil_div_bound (n : nat) (d : Z) :
  (0 < d)%Z ->
  (Z.of_nat n <= d * Qceiling (inject_Z (Z.of_nat n) / inject_Z d))%Z.
Proof.
  intros Hd.
  pose proof (Qle_ceiling (inject_Z (Z.of_nat n) / inject_Z d)) as Hc.
  set (c := Qceiling _) in *. clearbody c.
  assert (Hq : 0 < inject_Z d).
  { change 0 with (inject_Z 0). rewrite <- Zlt_Qlt. exact Hd. }
  apply (Qmult_le_compat_r _ _ (inject_Z d)) in Hc; [| lra].
  assert (He : inject_Z (Z.of_nat n) / inject_Z d * inject_Z d
               == inject_Z (Z.of_nat n)) by (field; lra).
  rewrite He, <- inject_Z_mult, <- Zle_Qle in Hc. lia.
Qed.

(** A frame of [updateDrones] updates at most [50000] drones in its
    first loop and at most [10000] in its second, whatever the number of
    drones and the frame counter; no drone is updated twice in a frame,
    and every drone updated is live. *)
Theorem update_budget (lagOpt : bool) (dCount frameNo : nat) :
  let renderLimit := if lagOpt then OPTIMIZED_RENDER_CAP else MAX_DRONES in
  let visibleCap := Z.to_nat (Z.min (Z.of_nat dCount) renderLimit) in
  let fgS := fgStride lagOpt visibleCap in
  let bgS := bgStride (dCount - visibleCap) in
  let fg := strideLoop (frameNo mod fgS) visibleCap fgS in
  let bg := strideLoop (visibleCap + frameNo mod bgS) dCount bgS in
  (Z.of_nat (length fg) <= 50000)%Z
  /\ (Z.of_nat (length bg) <= 10000)%Z
  /\ NoDup (fg ++ bg)
  /\ (forall i : nat, i ∈ fg ++ bg -> (i < dCount)%nat).
Proof.
  intros renderLimit visibleCap fgS bgS fg bg.
  pose proof (fgStride_pos lagOpt visibleCap) as Hfg. fold fgS in Hfg.
  pose proof (bgStride_pos (dCount - visibleCap)) as Hbg. fold bgS in Hbg.
  assert (Hcap : (visibleCap <= dCount)%nat) by (unfold visibleCap; lia).
  pose proof (strideFrom_length visibleCap fgS Hfg
                (visibleCap - frameNo mod fgS) (frameNo mod fgS)) as Lfg.
  pose proof (strideFrom_length dCount bgS Hbg
                (dCount - (visibleCap + frameNo mod bgS))
                (visibleCap + frameNo mod bgS)) as Lbg.
  fold (strideLoop (frameNo mod fgS) visibleCap fgS) in Lfg.
  fold (strideLoop (visibleCap + frameNo mod bgS) dCount bgS) in Lbg.
  fold fg in Lfg. fold bg in Lbg.
  split; [| split; [| split]].
  - unfold fgS, fgStride in *.
    destruct (negb lagOpt && (50000 <? Z.of_nat visibleCap)%Z) eqn:E.
    + pose proof (ceil_div_bound visibleCap 50000 ltac:(lia)) as Hc.
      unfold Math_ceil in *.
      change (inject_Z 50000) with (50000 : Q) in Hc.
      set (c := Qceiling _) in *. clearbody c. nia.
    + assert (Z.of_nat visibleCap <= 50000)%Z; [| nia].
      apply andb_false_iff in E as [E | E].
      * destruct lagOpt; [| discriminate].
        unfold visibleCap, renderLimit, OPTIMIZED_RENDER_CAP. lia.
      * apply Z.ltb_ge in E. exact E.
  - unfold bgS, bgStride in *.
    pose proof (ceil_div_bound (dCount - visibleCap) 10000 ltac:(lia)) as Hc.
    unfold Math_ceil in *.
    change (inject_Z 10000) with (10000 : Q) in Hc.
    set (c := Qceiling _) in *. clearbody c. nia.
  - apply NoDup_app. split; [apply strideFrom_NoDup, Hfg |].
    split; [| apply strideFrom_NoDup, Hbg].
    intros x Hx Hx'. apply strideFrom_ge in Hx, Hx'. lia.
  - intros i Hi. apply elem_of_app in Hi as [Hi | Hi];
      apply strideFrom_ge in Hi; lia.
Qed.

(** ** The distance to a segment *)

Lemma Qeqb_true (a b : Q) : Qeqb a b = true -> a == b.
Proof. apply Qeq_bool_eq. Qed.

Lemma Qeqb_false (a b : Q) : Qeqb a b = false -> ~ a == b.
Proof. intros H He. apply Qeq_eq_bool in He. unfold Qeqb in H. congruence. Qed.

Lemma Qsquare_nonneg (x : Q) : 0 <= x * x.
Proof. nra. Qed.

Lemma clamp01_cases (x : Q) :
  let t := Qmax 0 (Qmin 1 x) in
  0 <= t /\ t <= 1
  /\ ((t == x) \/ (t == 0 /\ x <= 0) \/ (t == 1 /\ 1 <= x)).
Proof.
  cbv zeta.
  destruct (Q.min_spec 1 x) as [[H1 E1] | [H1 E1]];
    destruct (Q.max_spec 0 (Qmin 1 x)) as [[H2 E2] | [H2 E2]];
    rewrite E2; rewrite ?E1 in *; repeat split; try lra;
    (try (left; lra)); try (right; left; lra); try (right; right; lra).
Qed.

Lemma segment_quadratic (l2 b q t s : Q) :
  0 < l2 -> q * l2 == b ->
  (t == q) \/ (t == 0 /\ q <= 0) \/ (t == 1 /\ 1 <= q) ->
  0 <= s -> s <= 1 ->
  0 <= (s - t) * (l2 * (s + t) - 2 * b).
Proof.
  intros Hpos Hb Hcases Hs0 Hs1.
  destruct Hcases as [He | [[He Hx] | [He Hx]]].
  - assert (E : (s - t) * (l2 * (s + t) - 2 * b)
                == l2 * ((s - t) * (s - t)))
      by (rewrite <- Hb, He; ring).
    rewrite E. pose proof (Qsquare_nonneg (s - t)). nra.
  - assert (Hb0 : b <= 0) by nra.
    rewrite He.
    assert (0 <= l2 * s) by (apply Qmult_le_0_compat; lra).
    apply Qmult_le_0_compat; lra.
  - assert (Hb1 : l2 <= b) by nra.
    rewrite He.
    assert (0 <= l2 * (1 - s)) by (apply Qmult_le_0_compat; lra).
    assert (E : (s - 1) * (l2 * (s + 1) - 2 * b)
                == (1 - s) * (2 * b - l2 * (s + 1))) by ring.
    rewrite E. apply Qmult_le_0_compat; lra.
Qed.

(** For a segment on the ground plane, [distToSegSq] is the squared
    distance from [p] to the segment: it is the squared distance to one
    of its points, and no point of the segment is closer. *)
Theorem distToSegSq_minimal (p v w : Vector3) :
  vy v == 0 -> vy w == 0 ->
  (exists t : Q,
     0 <= t /\ t <= 1
     /\ distToSegSq p v w == distanceToSquared p (lerpVectors v w t))
  /\ (forall s : Q, 0 <= s -> s <= 1 ->
        distToSegSq p v w <= distanceToSquared p (lerpVectors v w s)).
Proof.
  destruct p as [px py pz], v as [ax ay az], w as [bx b_y bz].
  cbn [vx vy vz]. intros Hv Hw. unfold distToSegSq.
  cbn [vx vy vz].
  destruct (Qeqb (distanceToSquared (Vec3 ax ay az) (Vec3 bx b_y bz)) 0)
    eqn:Hl2.
  - apply Qeqb_true in Hl2.
    unfold distanceToSquared, lerpVectors in *. cbn [vx vy vz] in *.
    pose proof (Qsquare_nonneg (ax - bx)) as Sx.
    pose proof (Qsquare_nonneg (ay - b_y)) as Sy.
    pose proof (Qsquare_nonneg (az - bz)) as Sz.
    assert (Hx : bx - ax == 0).
    { assert (H : (ax - bx) * (ax - bx) == 0) by lra.
      apply Qmult_integral in H. lra. }
    assert (Hz : bz - az == 0).
    { assert (H : (az - bz) * (az - bz) == 0) by lra.
      apply Qmult_integral in H. lra. }
    assert (Hy : b_y - ay == 0) by lra.
    split.
    + exists 0. split; [lra |]. split; [lra |]. ring.
    + intros s Hs0 Hs1. rewrite Hx, Hz, Hy. lra.
  - apply Qeqb_false in Hl2.
    set (l2 := distanceToSquared (Vec3 ax ay az) (Vec3 bx b_y bz)) in *.
    set (b := (px - ax) * (bx - ax) + (pz - az) * (bz - az)).
    destruct (clamp01_cases (b / l2)) as (Ht0 & Ht1 & Hcases).
    set (t := Qmax 0 (Qmin 1 (b / l2))) in *. clearbody t.
    assert (Hl2' : l2 == (bx - ax) * (bx - ax) + (bz - az) * (bz - az)).
    { unfold l2, distanceToSquared. cbn [vx vy vz]. rewrite Hv, Hw. ring. }
    assert (Hpos : 0 < l2).
    { pose proof (Qsquare_nonneg (bx - ax)) as Sx.
      pose proof (Qsquare_nonneg (bz - az)) as Sz.
      assert (0 <= l2) by (rewrite Hl2'; lra). lra. }
    assert (Hb : b / l2 * l2 == b) by (field; lra).
    set (q := b / l2) in *. clearbody q.
    split.
    + exists t. split; [exact Ht0 |]. split; [exact Ht1 |].
      unfold distanceToSquared, lerpVectors. cbn [vx vy vz].
      rewrite Hv, Hw. ring.
    + intros s Hs0 Hs1.
      unfold distanceToSquared, lerpVectors. cbn [vx vy vz].
      rewrite Hv, Hw.
      pose proof (segment_quadratic l2 b q t s Hpos Hb Hcases Hs0 Hs1)
        as Hgoal.
      rewrite Hl2' in Hgoal. unfold b in Hgoal. nra.
Qed.

Lemma distToSegSq_minimal_witness :
  distToSegSq (Vec3 0 0 10) (Vec3 (-15) 0 0) (Vec3 15 0 0)
  <= distanceToSquared (Vec3 0 0 10)
       (lerpVectors (Vec3 (-15) 0 0) (Vec3 15 0 0) (1 # 4)).
Proof.
  apply (proj2 (distToSegSq_minimal (Vec3 0 0 10) (Vec3 (-15) 0 0)
                  (Vec3 15 0 0) ltac:(reflexivity) ltac:(reflexivity)));
    lra.
Defined.

(** ** Which commands stop a missile *)

Lemma nearSegment_spec (p : Vector3) (pts : list Vector3) :
  nearSegment p pts = true
  <-> exists (k : nat) (v w : Vector3),
        pts !! k = Some v /\ pts !! S k = Some w
        /\ distToSegSq p v w < 100.
Proof.
  induction pts as [|v pts IH]; [split; [discriminate | intros (k&?&?&H&_); discriminate] |].
  destruct pts as [|w pts].
  - split; [discriminate |].
    intros (k & v' & w' & _ & Hw & _). destruct k; discriminate.
  - change (nearSegment p (v :: w :: pts))
      with (Qlt_bool (distToSegSq p v w) 100 || nearSegment p (w :: pts)).
    rewrite orb_true_iff, IH, Qlt_bool_iff. split.
    + intros [H | (k & v' & w' & Hv & Hw & H)].
      * exists 0%nat, v, w. auto.
      * exists (S k), v', w'. auto.
    + intros (k & v' & w' & Hv & Hw & H). destruct k as [|k].
      * left. cbn in Hv, Hw. congruence.
      * right. exists k, v', w'. auto.
Qed.

(** The test a command passes to stop the missile at [p]. *)
Lemma wallHit_spec (e : Engine) (p : Vector3) (refs : list ref) :
  match wallHit e p refs with
  | Some cid =>
      exists (r : ref) (cmd : Command),
        r ∈ refs /\ lookupCmd e r = Some cmd /\ cmdId cmd = cid
        /\ cmdType cmd = WALL
        /\ distanceToSquared p (center cmd)
           < radius cmd * radius cmd + 3000
        /\ nearSegment p (path cmd) = true
  | None =>
      forall (r : ref) (cmd : Command),
        r ∈ refs -> lookupCmd e r = Some cmd ->
        cmdType cmd = WALL ->
        distanceToSquared p (center cmd) < radius cmd * radius cmd + 3000 ->
        nearSegment p (path cmd) = false
  end.
Proof.
  induction refs as [|r refs IH]; cbn [wallHit].
  - intros r cmd Hr. apply elem_of_nil in Hr. contradiction.
  - destruct (lookupCmd e r) as [cmd|] eqn:Hcmd.
    + destruct (bool_decide (cmdType cmd = WALL)
                && Qlt_bool (distanceToSquared p (center cmd))
                     (radius cmd * radius cmd + 3000)
                && nearSegment p (path cmd)) eqn:Htest.
      * apply andb_true_iff in Htest as [Htest Hnear].
        apply andb_true_iff in Htest as [Hwall Hbroad].
        apply bool_decide_eq_true in Hwall. apply Qlt_bool_iff in Hbroad.
        exists r, cmd. repeat split; auto. left.
      * destruct (wallHit e p refs) as [cid|].
        -- destruct IH as (r' & cmd' & Hr' & H). exists r', cmd'.
           split; [right; exact Hr' | exact H].
        -- intros r' cmd' Hr' Hcmd' Hwall Hbroad.
           apply elem_of_cons in Hr' as [-> | Hr']; [| eauto].
           assert (cmd' = cmd) as -> by congruence.
           apply (bool_decide_eq_true_2 _) in Hwall.
           apply Qlt_bool_iff in Hbroad.
           rewrite Hwall, Hbroad in Htest. exact Htest.
    + destruct (wallHit e p refs) as [cid|].
      * destruct IH as (r' & cmd' & Hr' & H). exists r', cmd'.
        split; [right; exact Hr' | exact H].
      * intros r' cmd' Hr' Hcmd'.
        apply elem_of_cons in Hr' as [-> | Hr']; [congruence | eauto].
Qed.

(** A missile at [p] is stopped exactly when a Wall command of the
    registry has its centre within the broad-phase radius and a segment
    of its path within the threshold; the id queued is that of such a
    command.  Swarm commands stop no missile. *)
Theorem wallHit_intercepts (e : Engine) (p : Vector3) :
  (forall cid : Z,
     wallHit e p (commands e) = Some cid ->
     exists (r : ref) (cmd : Command) (k : nat) (v w : Vector3),
       r ∈ commands e /\ lookupCmd e r = Some cmd /\ cmdId cmd = cid
       /\ cmdType cmd = WALL
       /\ distanceToSquared p (center cmd) < radius cmd * radius cmd + 3000
       /\ path cmd !! k = Some v /\ path cmd !! S k = Some w
       /\ distToSegSq p v w < 100)
  /\ (wallHit e p (commands e) = None ->
      forall (r : ref) (cmd : Command) (k : nat) (v w : Vector3),
        r ∈ commands e -> lookupCmd e r = Some cmd ->
        cmdType cmd = WALL ->
        distanceToSquared p (center cmd) < radius cmd * radius cmd + 3000 ->
        path cmd !! k = Some v -> path cmd !! S k = Some w ->
        100 <= distToSegSq p v w)
  /\ ((forall (r : ref) (cmd : Command),
         r ∈ commands e -> lookupCmd e r = Some cmd ->
         cmdType cmd = SWARM) ->
      wallHit e p (commands e) = None
      /\ forall cid : Z, missileFate e p <> HitWall cid).
Proof.
  pose proof (wallHit_spec e p (commands e)) as Hspec.
  split; [| split].
  - intros cid Hcid. rewrite Hcid in Hspec.
    destruct Hspec as (r & cmd & Hr & Hcmd & Hid & Hwall & Hbroad & Hnear).
    apply nearSegment_spec in Hnear as (k & v & w & Hv & Hw & Hd).
    exists r, cmd, k, v, w. auto 10.
  - intros Hnone r cmd k v w Hr Hcmd Hwall Hbroad Hv Hw.
    rewrite Hnone in Hspec.
    pose proof (Hspec r cmd Hr Hcmd Hwall Hbroad) as Hfar.
    apply Qnot_lt_le. intros Hd.
    assert (Hnear : nearSegment p (path cmd) = true)
      by (apply nearSegment_spec; exists k, v, w; auto).
    congruence.
  - intros Hswarm.
    assert (Hnone : wallHit e p (commands e) = None).
    { destruct (wallHit e p (commands e)) as [cid|]; [| reflexivity].
      destruct Hspec as (r & cmd & Hr & Hcmd & _ & Hwall & _).
      rewrite (Hswarm r cmd Hr Hcmd) in Hwall. discriminate. }
    split; [exact Hnone |].
    intros cid. unfold missileFate. rewrite Hnone.
    repeat case_match; discriminate.
Qed.

(** ** The missiles left in flight *)

Lemma omap_length_le {A B} (f : A -> option B) (l : list A) :
  (length (omap f l) <= length l)%nat.
Proof.
  induction l as [|x l IH]; [reflexivity |].
  cbn [omap list_omap]. destruct (f x); cbn; lia.
Qed.

(** After a frame the missile list holds, in their order, the missiles
    that no Wall stopped and that are neither within [30] of the
    mothership nor further than the discard range, each advanced by its
    velocity for the frame time and otherwise unchanged; no missile is
    created. *)
Theorem missiles_after_frame (Math_random : nat -> Q) (dt : Q) (e : Engine) :
  let after := missiles (updateMissiles Math_random dt e) in
  after = omap (survivor dt e) (missiles e)
  /\ (length after <= length (missiles e))%nat
  /\ forall m' : Missile,
       m' ∈ after ->
       exists m : Missile,
         m ∈ missiles e
         /\ meshPosition m'
            = addScaledVector (meshPosition m) (velocity m) dt
         /\ velocity m' = velocity m /\ damage m' = damage m
         /\ wallHit e (meshPosition m') (commands e) = None
         /\ 900 <= lengthSq (meshPosition m')
         /\ lengthSq (meshPosition m') <= 2000000.
Proof.
  intros after.
  assert (Hafter : after = omap (survivor dt e) (missiles e))
    by apply updateMissiles_missiles.
  split; [exact Hafter |].
  split; [rewrite Hafter; apply omap_length_le |].
  intros m' Hm'. rewrite Hafter in Hm'.
  apply list_elem_of_omap in Hm' as (m & Hm & Hs).
  exists m. split; [exact Hm |].
  unfold survivor, missileFate in Hs. cbv zeta in Hs.
  destruct (wallHit e _ (commands e)) eqn:Hwall; [discriminate |].
  destruct (Qlt_bool (lengthSq _) 900) eqn:Hnear; [discriminate |].
  destruct (Qlt_bool 2000000 (lengthSq _)) eqn:Hfar; [discriminate |].
  injection Hs as <-. cbn [meshPosition velocity damage].
  apply Qlt_bool_false in Hnear, Hfar. auto 10.
Qed.

(** ** Removing the destroyed drones, largest index first *)

#[global] Instance descending_total : Total descending.
Proof. intros a b. unfold descending. lia. Qed.

#[global] Instance descending_trans : Transitive descending.
Proof. intros a b c. unfold descending. lia. Qed.

Lemma removeDrone_count (i : nat) (e : Engine) :
  droneCount (state (removeDrone i e)) = (droneCount (state e) - 1)%nat.
Proof. unfold removeDrone. case_bool_decide; reflexivity. Qed.

Lemma removeDrone_storeFits (i : nat) (e : Engine) :
  storeFits e (droneCount (state e)) ->
  storeFits (removeDrone i e) (droneCount (state (removeDrone i e))).
Proof.
  intros (Fp & Fs & Ft & Fc & Fl & Fh). rewrite removeDrone_count.
  unfold storeFits, removeDrone.
  case_bool_decide; cbn; rewrite ?copySlot_length; lia.
Qed.

Lemma filter_seq_all (f : nat -> bool) (start len : nat) :
  (forall j : nat, (start <= j < start + len)%nat -> f j = true) ->
  List.filter f (seq start len) = seq start len.
Proof.
  intros H. apply filter_keep_all. intros j Hj.
  apply list_elem_of_In, in_seq in Hj. apply H. lia.
Qed.

Lemma fmap_seq_ext {A} (f g : nat -> A) (l : list nat) :
  (forall j : nat, j ∈ l -> f j = g j) -> f <$> l = g <$> l.
Proof.
  intros H. induction l as [|x l IH]; [reflexivity |].
  cbn. rewrite (H x) by left. rewrite IH; [reflexivity |].
  intros j Hj. apply H. right. exact Hj.
Qed.

(** Removing indices in strictly descending order leaves the records of
    the other drones. *)
Lemma removeDrones_sorted (l : list nat) :
  forall e : Engine,
  storeFits e (droneCount (state e)) ->
  StronglySorted (fun a b => (b < a)%nat) l ->
  (forall i : nat, i ∈ l -> (i < droneCount (state e))%nat) ->
  let e' := foldl (fun e' idx => removeDrone idx e') e l in
  droneCount (state e') = (droneCount (state e) - length l)%nat
  /\ storeFits e' (droneCount (state e'))
  /\ liveDrones e'
     ≡ₚ readDrone e
          <$> List.filter (fun j => bool_decide (j ∉ l))
                (seq 0 (droneCount (state e))).
Proof.
  induction l as [|d l IH]; intros e Hfit Hsort Hlive; cbn [foldl].
  - cbv zeta. split; [cbn; lia |]. split; [exact Hfit |].
    unfold liveDrones. rewrite filter_seq_all; [reflexivity |].
    intros j _. apply bool_decide_eq_true_2, not_elem_of_nil.
  - apply StronglySorted_inv in Hsort as [Hsort Hbelow].
    rewrite Forall_forall in Hbelow.
    set (n := droneCount (state e)) in *.
    assert (Hd : (d < n)%nat) by (apply Hlive; left).
    set (e1 := removeDrone d e).
    assert (Hn1 : droneCount (state e1) = (n - 1)%nat)
      by apply removeDrone_count.
    destruct (IH e1) as (G1 & G2 & G3).
    { apply removeDrone_storeFits, Hfit. }
    { exact Hsort. }
    { intros i Hi. rewrite Hn1. specialize (Hbelow i Hi). lia. }
    cbv zeta. split; [rewrite G1, Hn1; cbn; lia |].
    split; [exact G2 |].
    rewrite G3, Hn1. clear G1 G2 G3 IH.
    assert (Hread : forall j : nat, (j < n)%nat ->
              readDrone e1 j
              = if decide (j = d) then readDrone e (n - 1) else readDrone e j).
    { intros j Hj. apply removeDrone_read; assumption. }
    set (m := (n - 1 - d)%nat).
    assert (Hseq1 : seq 0 (n - 1) = seq 0 d ++ seq d m).
    { replace (n - 1)%nat with (d + m)%nat by (unfold m; lia).
      apply seq_app. }
    assert (Hseq : seq 0 n = seq 0 d ++ d :: seq (S d) m).
    { replace n with (d + S m)%nat at 1 by (unfold m; lia).
      rewrite seq_app. reflexivity. }
    rewrite Hseq1, Hseq, !List.filter_app, !fmap_app.
    assert (Hhigh : forall j : nat, (d <= j)%nat -> j ∉ l).
    { intros j Hj Hin. specialize (Hbelow j Hin). lia. }
    apply Permutation_app.
    + rewrite (filter_ext_in (fun j => bool_decide (j ∉ d :: l))
                 (fun j => bool_decide (j ∉ l)) (seq 0 d)).
      2:{ intros j Hj. apply in_seq in Hj. apply bool_decide_ext.
          rewrite not_elem_of_cons. split; [tauto | intros H; split; [lia | exact H]]. }
      rewrite (fmap_seq_ext (readDrone e1) (readDrone e)); [reflexivity |].
      intros j Hj. apply list_elem_of_In, filter_In in Hj as [Hj _].
      apply in_seq in Hj. rewrite Hread by lia.
      case_decide; [lia | reflexivity].
    + rewrite filter_seq_all
        by (intros j Hj; apply bool_decide_eq_true_2, Hhigh; lia).
      cbn [List.filter].
      rewrite (bool_decide_eq_false_2 (d ∉ d :: l))
        by (intros H; apply H; left).
      rewrite filter_seq_all.
      2:{ intros j Hj. apply bool_decide_eq_true_2.
          rewrite not_elem_of_cons. split; [lia | apply Hhigh; lia]. }
      destruct m as [|m'] eqn:Hm; [reflexivity |].
      rewrite (seq_S m' (S d)).
      change (seq d (S m')) with (d :: seq (S d) m').
      rewrite fmap_app. cbn [fmap list_fmap].
      rewrite Hread by lia. rewrite decide_True by reflexivity.
      replace (S d + m')%nat with (n - 1)%nat by lia.
      rewrite (fmap_seq_ext (readDrone e1) (readDrone e)).
      * apply Permutation_cons_append.
      * intros j Hj. apply list_elem_of_In, in_seq in Hj.
        rewrite Hread by lia. case_decide; [lia | reflexivity].
Qed.

Lemma descending_strict (l : list nat) :
  StronglySorted descending l -> NoDup l ->
  StronglySorted (fun a b => (b < a)%nat) l.
Proof.
  induction l as [|a l IH]; intros Hs Hnd; [constructor |].
  apply StronglySorted_inv in Hs as [Hs Ha].
  apply NoDup_cons in Hnd as [Hnot Hnd].
  constructor; [apply IH; assumption |].
  rewrite Forall_forall in *. intros b Hb.
  specialize (Ha b Hb). unfold descending in Ha.
  assert (b <> a) by (intros ->; contradiction). lia.
Qed.

Lemma sortDescending_spec (dead : list nat) :
  NoDup dead ->
  StronglySorted (fun a b => (b < a)%nat) (sortDescending dead)
  /\ sortDescending dead ≡ₚ dead.
Proof.
  intros Hnd.
  pose proof (merge_sort_Permutation descending dead) as Hperm.
  fold (sortDescending dead) in Hperm.
  split; [| exact Hperm].
  apply descending_strict.
  - apply (StronglySorted_merge_sort descending); apply _.
  - rewrite Hperm. exact Hnd.
Qed.

(** The removal loop of [updateMissiles]: removing a set of live drones,
    largest index first, takes exactly those drones out of the store.
    The count drops by their number, and the live records afterwards are
    the records of the other drones, each once. *)
Theorem removeDrones_descending (dead : list nat) (e : Engine) :
  storeFits e (droneCount (state e)) ->
  NoDup dead ->
  (forall i : nat, i ∈ dead -> (i < droneCount (state e))%nat) ->
  let e' := foldl (fun e' idx => removeDrone idx e') e (sortDescending dead) in
  droneCount (state e') = (droneCount (state e) - length dead)%nat
  /\ storeFits e' (droneCount (state e'))
  /\ liveDrones e'
     ≡ₚ readDrone e
          <$> List.filter (fun j => bool_decide (j ∉ dead))
                (seq 0 (droneCount (state e))).
Proof.
  intros Hfit Hnd Hlive.
  destruct (sortDescending_spec dead Hnd) as [Hsorted Hperm].
  destruct (removeDrones_sorted (sortDescending dead) e Hfit Hsorted)
    as (G1 & G2 & G3).
  { intros i Hi. apply Hlive. rewrite <- Hperm. exact Hi. }
  cbv zeta. split; [rewrite G1, Hperm; reflexivity |].
  split; [exact G2 |].
  rewrite G3.
  rewrite (filter_ext_eq (fun j => bool_decide (j ∉ sortDescending dead))
             (fun j => bool_decide (j ∉ dead))); [reflexivity |].
  intros j. apply bool_decide_ext. rewrite Hperm. reflexivity.
Qed.

Lemma removeDrones_descending_witness :
  let e' := foldl (fun e' idx => removeDrone idx e') exampleEngine
              (sortDescending [1; 4]%nat) in
  droneCount (state e') = 4%nat
  /\ liveDrones e'
     ≡ₚ [readDrone exampleEngine 0; readDrone exampleEngine 2;
         readDrone exampleEngine 3; readDrone exampleEngine 5].
Proof.
  destruct (removeDrones_descending [1; 4]%nat exampleEngine)
    as (Hcount & _ & Hlive).
  - unfold storeFits. cbn. lia.
  - apply NoDup_ListNoDup. repeat constructor; cbn; intuition lia.
  - intros i Hi. apply list_elem_of_In in Hi. cbn in Hi. cbn.
    intuition lia.
  - split; [exact Hcount | exact Hlive].
Defined.

(** ** A frame of missiles leaves no destroyed drone in the store *)

Section Casualties.
Variable Math_random : nat -> Q.

Lemma pickLiving_spec (attempts : nat) (members : list nat) (e : Engine) :
  forall (calls : nat) (t : nat) (calls' : nat),
  pickLiving Math_random attempts members e calls = (Some t, calls') ->
  t ∈ members /\ exists h : Q, droneHP e !! t = Some h /\ 0 < h.
Proof.
  induction attempts as [|attempts IH]; intros calls t calls';
    cbn [pickLiving]; [discriminate |].
  cbv zeta.
  destruct (if (Math_floor _ <? 0)%Z then None else members !! _)
    as [t0|] eqn:Hidx; [| apply IH].
  destruct (droneHP e !! t0) as [h|] eqn:Hh; [| apply IH].
  destruct (Qlt_bool 0 h) eqn:Hpos; [| apply IH].
  intros [= <- <-]. split.
  - destruct (_ <? 0)%Z; [discriminate |].
    apply (list_elem_of_lookup_2 _ _ _ Hidx).
  - exists h. split; [exact Hh | apply Qlt_bool_iff, Hpos].
Qed.

Lemma addDead_elem (t : nat) (dead : list nat) (i : nat) :
  i ∈ addDead t dead <-> i = t \/ i ∈ dead.
Proof.
  unfold addDead. case_bool_decide as Ht.
  - split; [auto |]. intros [-> | H]; assumption.
  - rewrite elem_of_app, list_elem_of_singleton. tauto.
Qed.

Lemma addDead_NoDup (t : nat) (dead : list nat) :
  NoDup dead -> NoDup (addDead t dead).
Proof.
  intros Hnd. unfold addDead. case_bool_decide as Ht; [exact Hnd |].
  apply NoDup_app. split; [exact Hnd |].
  split; [| apply NoDup_singleton].
  intros x Hx Hx'. apply list_elem_of_singleton in Hx' as ->. contradiction.
Qed.

Lemma applyWallHit_dead (cid : Z) (members : list nat)
    (acc : Engine * list nat) (dmg : Q) :
  (forall t : nat, t ∈ members -> (t < droneCount (state acc.1))%nat) ->
  deadExactly acc.1 acc.2 ->
  deadExactly (applyWallHit Math_random cid members acc dmg).1
    (applyWallHit Math_random cid members acc dmg).2.
Proof.
  destruct acc as [e dead]. cbn [fst snd]. intros Hmem (Hnd & Hlive & Hhp).
  unfold applyWallHit.
  destruct (pickLiving Math_random 5 members e (randomCalls e))
    as [[t|] calls] eqn:Hpick; cbv zeta;
    [| split; [exact Hnd | split; [exact Hlive | exact Hhp]]].
  destruct (pickLiving_spec 5 members e _ t calls Hpick)
    as (Ht & h & Hh & Hpos).
  cbn [droneHP set_randomCalls]. rewrite Hh.
  assert (Htn : (t < droneCount (state e))%nat) by (apply Hmem, Ht).
  assert (Hfresh : t ∉ dead).
  { intros Hin. apply (Hhp t h Htn Hh) in Hin. lra. }
  assert (Hin : (t < length (droneHP e))%nat)
    by (apply lookup_lt_is_Some; eauto).
  destruct (Qle_bool (h - dmg) 0) eqn:Hkill.
  - apply Qle_bool_iff in Hkill.
    assert (Hgoal : deadExactly
                      (set_droneHP (<[t := h - dmg]> (droneHP e))
                         (set_randomCalls calls e)) (addDead t dead)).
    { split; [apply addDead_NoDup, Hnd |]. split.
      - intros i Hi. apply addDead_elem in Hi as [-> | Hi];
          [exact Htn | apply Hlive, Hi].
      - intros i hi Hi Hhi. cbn in Hi, Hhi. rewrite addDead_elem.
        destruct (decide (i = t)) as [-> | Hne].
        + rewrite list_lookup_insert_eq in Hhi by exact Hin.
          injection Hhi as <-. tauto.
        + rewrite list_lookup_insert_ne in Hhi by congruence.
          rewrite (Hhp i hi Hi Hhi). tauto. }
    cbn [fst snd].
    destruct (findCommand _ cid) as [r|]; [| exact Hgoal].
    destruct Hgoal as (G1 & G2 & G3).
    split; [exact G1 |]. split; [exact G2 | exact G3].
  - apply Qle_bool_false in Hkill. cbn [fst snd].
    split; [exact Hnd |]. split; [exact Hlive |].
    intros i hi Hi Hhi. cbn in Hi, Hhi.
    destruct (decide (i = t)) as [-> | Hne].
    + rewrite list_lookup_insert_eq in Hhi by exact Hin.
      injection Hhi as <-. split; [lra | contradiction].
    + rewrite list_lookup_insert_ne in Hhi by congruence.
      apply (Hhp i hi Hi Hhi).
Qed.
End Casualties.

Lemma readDrone_hp (e : Engine) (i : nat) (d : Drone) :
  readDrone e i = Some d -> droneHP e !! i = Some (dHP d).
Proof.
  unfold readDrone. intros H.
  destruct (dronePos e !! (i * 3)%nat); [| discriminate].
  destruct (dronePos e !! (i * 3 + 1)%nat); [| discriminate].
  destruct (dronePos e !! (i * 3 + 2)%nat); [| discriminate].
  destruct (droneState e !! i); [| discriminate].
  destruct (droneTargetId e !! i); [| discriminate].
  destruct (droneCommandId e !! i); [| discriminate].
  destruct (droneLoad e !! i); [| discriminate].
  destruct (droneHP e !! i); [| discriminate].
  cbn in H. injection H as <-. reflexivity.
Qed.

Lemma foldl_stepMissile_droneHP (dt : Q) (ms : list Missile) :
  forall acc : Engine * list Missile * DamageQueue,
  droneHP (foldl (stepMissile dt) acc ms).1.1 = droneHP acc.1.1.
Proof.
  induction ms as [|m ms IH]; intros acc; cbn [foldl]; [reflexivity |].
  rewrite IH. destruct acc as [[e kept] queue]. unfold stepMissile.
  destruct (missileFate e _); cbn [fst]; try reflexivity.
  unfold hitMothership. repeat case_match; reflexivity.
Qed.

Lemma storeFits_frame (e e' : Engine) :
  sameFrame e e' -> storeFits e (droneCount (state e)) ->
  storeFits e' (droneCount (state e')).
Proof.
  intros (A1&A2&A3&A4&A5&A6&A7&_). unfold storeFits.
  rewrite A1, A2, A3, A4, A5, A6, A7. tauto.
Qed.

Section CasualtiesOfAFrame.
Variable Math_random : nat -> Q.

Lemma applyWallDamage_dead (acc : Engine * list nat) (entry : Z * list Q) :
  deadExactly acc.1 acc.2 ->
  deadExactly (applyWallDamage Math_random acc entry).1
    (applyWallDamage Math_random acc entry).2.
Proof.
  intros Hdead. unfold applyWallDamage.
  assert (Hmem : forall t : nat,
            t ∈ squadMembers acc.1 entry.1 ->
            (t < droneCount (state acc.1))%nat).
  { intros t Ht. apply squadMembers_elem in Ht. tauto. }
  destruct (squadMembers acc.1 entry.1) as [|i members]; [exact Hdead |].
  revert Hmem. generalize (i :: members). intros ms.
  generalize (snd entry). intros dmgs. revert acc Hdead.
  induction dmgs as [|d dmgs IH]; intros acc Hdead Hmem; cbn [foldl];
    [exact Hdead |].
  apply IH.
  - apply applyWallHit_dead; assumption.
  - intros t Ht.
    destruct (applyWallHit_sameLinks Math_random entry.1 ms acc d)
      as ((Hn & _) & _).
    rewrite Hn. apply Hmem, Ht.
Qed.

Lemma foldl_applyWallDamage_dead (queue : DamageQueue) :
  forall acc : Engine * list nat,
  deadExactly acc.1 acc.2 ->
  deadExactly (foldl (applyWallDamage Math_random) acc queue).1
    (foldl (applyWallDamage Math_random) acc queue).2.
Proof.
  induction queue as [|entry queue IH]; intros acc Hdead; cbn [foldl];
    [exact Hdead |].
  apply IH, applyWallDamage_dead, Hdead.
Qed.

(** When every live drone has positive health and the arrays hold the
    live drones, the same is true after a frame of missiles: each drone
    whose health a hit took to zero or below has been removed, and no
    drone has been added. *)
Theorem updateMissiles_removes_dead (dt : Q) (e : Engine) :
  storeFits e (droneCount (state e)) -> hpPositive e ->
  let e' := updateMissiles Math_random dt e in
  hpPositive e'
  /\ storeFits e' (droneCount (state e'))
  /\ (droneCount (state e') <= droneCount (state e))%nat.
Proof.
  intros Hfit Hhp. unfold updateMissiles.
  pose proof (foldl_stepMissile_sameLinks dt (rev (missiles e)) (e, [], []))
    as [Hframe _].
  pose proof (foldl_stepMissile_droneHP dt (rev (missiles e)) (e, [], []))
    as Hsame.
  destruct (foldl (stepMissile dt) (e, [], []) (rev (missiles e)))
    as [[e1 kept] queue].
  cbn [fst] in Hframe, Hsame.
  set (e2 := set_missiles kept e1).
  assert (Hn2 : droneCount (state e2) = droneCount (state e))
    by apply Hframe.
  assert (Hfit2 : storeFits e2 (droneCount (state e2))).
  { apply (storeFits_frame e1 e2); [solve_frame |].
    apply (storeFits_frame e e1 Hframe Hfit). }
  assert (Hhp2 : hpPositive e2).
  { intros i h Hi Hh. rewrite Hn2 in Hi. cbn in Hh. rewrite Hsame in Hh.
    apply (Hhp i h Hi Hh). }
  destruct queue as [|entry queue].
  { cbv zeta. split; [exact Hhp2 |]. split; [exact Hfit2 | lia]. }
  assert (Hdead0 : deadExactly (e2, @nil nat).1 (e2, @nil nat).2).
  { cbn [fst snd]. split; [apply NoDup_nil_2 |].
    split; [intros i Hi; apply elem_of_nil in Hi; contradiction |].
    intros i h Hi Hh. specialize (Hhp2 i h Hi Hh).
    split; [lra | intros Hin; apply elem_of_nil in Hin; contradiction]. }
  pose proof (foldl_applyWallDamage_dead (entry :: queue) (e2, [])
                Hdead0) as Hdead.
  pose proof (foldl_applyWallDamage_sameLinks Math_random (entry :: queue)
                (e2, [])) as [Hframe3 _].
  destruct (foldl (applyWallDamage Math_random) (e2, [])
              (entry :: queue)) as [e3 dead].
  cbn [fst snd] in Hdead, Hframe3.
  destruct Hdead as (Hnd & Hlive & Hexact).
  assert (Hn3 : droneCount (state e3) = droneCount (state e))
    by (rewrite <- Hn2; apply Hframe3).
  assert (Hfit3 : storeFits e3 (droneCount (state e3)))
    by (apply (storeFits_frame e2 e3 Hframe3 Hfit2)).
  destruct (sortDescending_spec dead Hnd) as [Hsorted Hsortperm].
  destruct (removeDrones_sorted (sortDescending dead) e3 Hfit3 Hsorted)
    as (Hcount & Hfit' & Hperm).
  { intros i Hi. apply Hlive. rewrite <- Hsortperm. exact Hi. }
  set (e' := foldl _ e3 (sortDescending dead)) in *. clearbody e'.
  cbv zeta. split; [| split; [exact Hfit' | lia]].
  intros i h Hi Hh.
  destruct (readDrone_is_Some e' _ i Hfit' Hi) as [d Hd].
  pose proof (readDrone_hp e' i d Hd) as Hdh.
  assert (h = dHP d) as -> by congruence.
  assert (Hin : Some d ∈ liveDrones e').
  { unfold liveDrones. rewrite <- Hd. apply list_elem_of_fmap_2.
    apply list_elem_of_In, in_seq. lia. }
  rewrite Hperm in Hin.
  apply list_elem_of_fmap in Hin as (j & Hj & Hjin).
  apply list_elem_of_In, filter_In in Hjin as [Hjn Hjd].
  apply in_seq in Hjn. apply bool_decide_eq_true in Hjd.
  rewrite Hsortperm in Hjd. symmetry in Hj. pose proof (readDrone_hp e3 j d Hj) as Hjh.
  destruct (Qlt_le_dec 0 (dHP d)) as [Hpos | Hle]; [exact Hpos |].
  exfalso. apply Hjd, (Hexact j (dHP d)); [lia | exact Hjh | exact Hle].
Qed.
End CasualtiesOfAFrame.

Lemma storeFits_set_missiles (ms : list Missile) (e : Engine) :
  storeFits e (droneCount (state e)) ->
  storeFits (set_missiles ms e) (droneCount (state (set_missiles ms e))).
Proof. exact id. Qed.

Lemma hpPositive_set_missiles (ms : list Missile) (e : Engine) :
  hpPositive e -> hpPositive (set_missiles ms e).
Proof. exact id. Qed.

Lemma hpPositive_wallEngine : hpPositive wallEngine.
Proof.
  intros i h Hi Hh.
  assert (Hn : droneCount (state wallEngine) = 6%nat)
    by (vm_compute; reflexivity).
  rewrite Hn in Hi.
  do 6 (destruct i as [|i];
        [vm_compute in Hh; injection Hh as <-; reflexivity |]).
  lia.
Qed.

Lemma updateMissiles_removes_dead_witness :
  let e := set_missiles [exampleMissile] wallEngine in
  let e' := updateMissiles alwaysZero (1 # 10) e in
  hpPositive e' /\ droneCount (state e') = 5%nat.
Proof.
  cbv zeta.
  destruct (updateMissiles_removes_dead alwaysZero (1 # 10)
              (set_missiles [exampleMissile] wallEngine))
    as (Hhp & _ & _).
  - apply storeFits_set_missiles. exact (proj1 (proj1 invariant_wallEngine)).
  - apply hpPositive_set_missiles, hpPositive_wallEngine.
  - split; [exact Hhp | vm_compute; reflexivity].
Defined.

(** ** Drawing a path *)

Section Drawing.
Variable Math_sqrt : Q -> Q.

Lemma spaced_snoc (pts : list Vector3) (q p : Vector3) :
  spaced Math_sqrt pts -> last pts = Some q ->
  5 < distanceTo Math_sqrt q p -> spaced Math_sqrt (pts ++ [p]).
Proof.
  intros Hsp Hlast Hfar k a b Ha Hb.
  rewrite last_lookup in Hlast.
  destruct (decide (S k < length pts)%nat) as [Hin | Hout].
  - rewrite lookup_app_l in Ha, Hb by lia. apply (Hsp k a b Ha Hb).
  - assert (Hk : S k = length pts).
    { apply lookup_lt_Some in Hb. rewrite length_app in Hb. cbn in Hb. lia. }
    rewrite lookup_app_l in Ha by lia.
    rewrite lookup_app_r in Hb by lia.
    rewrite Hk, Nat.sub_diag in Hb. injection Hb as <-.
    replace (pred (length pts)) with k in Hlast by lia.
    assert (a = q) as -> by congruence. exact Hfar.
Qed.

Lemma addPathPoint_frame (hit : option Vector3) (e : Engine) :
  addPathPoint Math_sqrt hit e
  = set_pendingPath (pendingPath (addPathPoint Math_sqrt hit e)) e.
Proof.
  unfold addPathPoint. destruct e. repeat case_match; reflexivity.
Qed.

Lemma addPathPoint_spaced (hit : option Vector3) (e : Engine) :
  spaced Math_sqrt (pendingPath e) ->
  spaced Math_sqrt (pendingPath (addPathPoint Math_sqrt hit e)).
Proof.
  intros Hsp. unfold addPathPoint.
  destruct hit as [p|]; [| exact Hsp].
  destruct (last (pendingPath e)) as [q|] eqn:Hlast.
  - destruct (Qlt_bool 5 _) eqn:Hfar; [| exact Hsp].
    apply (spaced_snoc _ q p Hsp Hlast), Qlt_bool_iff, Hfar.
  - apply last_None in Hlast. cbn. rewrite Hlast.
    intros k a b Ha Hb. destruct k; discriminate.
Qed.

Lemma spaced_totalLen (pts : list Vector3) :
  spaced Math_sqrt pts ->
  5 * inject_Z (Z.of_nat (length pts - 1))
  <= sumQ (segDists Math_sqrt pts).
Proof.
  induction pts as [|a pts IH]; intros Hsp; [vm_compute; discriminate |].
  destruct pts as [|b pts]; [vm_compute; discriminate |].
  change (segDists Math_sqrt (a :: b :: pts))
    with (distanceTo Math_sqrt a b :: segDists Math_sqrt (b :: pts)).
  change (sumQ (distanceTo Math_sqrt a b :: segDists Math_sqrt (b :: pts)))
    with (distanceTo Math_sqrt a b + sumQ (segDists Math_sqrt (b :: pts))).
  pose proof (Hsp 0%nat a b eq_refl eq_refl) as Hab.
  assert (Hrest : spaced Math_sqrt (b :: pts)).
  { intros k x y Hx Hy. apply (Hsp (S k) x y Hx Hy). }
  specialize (IH Hrest).
  replace (length (a :: b :: pts) - 1)%nat
    with (S (length (b :: pts) - 1)) by (cbn; lia).
  rewrite Nat2Z.inj_succ, <- Z.add_1_r, inject_Z_plus.
  change (inject_Z 1) with 1. lra.
Qed.

(** A stroke leaves everything but the pending path as it was, and the
    path it leaves has consecutive points further than [5] apart.  Such
    a path of two points or more is never taken for degenerate by the
    sampler: the command made from it has exactly [1000] spread
    points, its first and its last being the ends of the path. *)
Theorem stroke_is_spaced (hits : list (option Vector3)) (e : Engine) :
  let e1 := drawStroke Math_sqrt hits e in
  e1 = set_pendingPath (pendingPath e1) e
  /\ spaced Math_sqrt (pendingPath e1)
  /\ ((2 <= length (pendingPath e1))%nat ->
      let cmd := newCommand Math_sqrt e1 in
      5 <= totalLen Math_sqrt (pendingPath e1)
      /\ length (spreadPoints cmd) = 1000%nat
      /\ head (spreadPoints cmd) = head (pendingPath e1)
      /\ last (spreadPoints cmd) = last (pendingPath e1)).
Proof.
  cbv zeta. unfold drawStroke.
  assert (Hgen : forall (hits : list (option Vector3)) (e0 : Engine),
            spaced Math_sqrt (pendingPath e0) ->
            let e1 := foldl (fun e' hit => addPathPoint Math_sqrt hit e')
                        e0 hits in
            e1 = set_pendingPath (pendingPath e1) e0
            /\ spaced Math_sqrt (pendingPath e1)).
  { clear. induction hits as [|hit hits IH]; intros e0 Hsp; cbn [foldl].
    - split; [destruct e0; reflexivity | exact Hsp].
    - destruct (IH (addPathPoint Math_sqrt hit e0)
                  (addPathPoint_spaced hit e0 Hsp)) as [Hframe Hsp'].
      cbv zeta. split; [| exact Hsp'].
      rewrite Hframe at 1. rewrite (addPathPoint_frame hit e0).
      reflexivity. }
  destruct (Hgen hits (set_pendingPath [] e)) as [Hframe Hsp].
  { intros k a b Ha. discriminate. }
  set (e1 := foldl _ (set_pendingPath [] e) hits) in *. clearbody e1.
  split; [rewrite Hframe at 1; reflexivity |].
  split; [exact Hsp |].
  intros Hlen.
  assert (Htotal : 5 <= totalLen Math_sqrt (pendingPath e1)).
  { rewrite totalLen_sum.
    pose proof (spaced_totalLen (pendingPath e1) Hsp) as Hsum.
    assert (1 <= inject_Z (Z.of_nat (length (pendingPath e1) - 1))).
    { change 1 with (inject_Z 1). rewrite <- Zle_Qle. lia. }
    lra. }
  split; [exact Htotal |].
  change (spreadPoints (newCommand Math_sqrt e1))
    with (interpolatePath Math_sqrt (pendingPath e1) 1000).
  assert (Hnd : 1 # 10 < totalLen Math_sqrt (pendingPath e1)) by lra.
  destruct (interpolatePath_lookup Math_sqrt (pendingPath e1) 1000 0
              Hlen Hnd ltac:(lia) ltac:(lia))
    as (first & final & Hfirst & Hfinal & Hcount & H0).
  destruct (interpolatePath_lookup Math_sqrt (pendingPath e1) 1000 999
              Hlen Hnd ltac:(lia) ltac:(lia))
    as (first' & final' & _ & Hfinal' & _ & H999).
  assert (final' = final) as -> by congruence.
  split; [exact Hcount |]. split.
  - rewrite Hfirst, head_lookup, H0. reflexivity.
  - rewrite Hfinal, last_lookup, Hcount.
    change (pred (Z.to_nat 1000)) with 999%nat. rewrite H999.
    reflexivity.
Qed.
End Drawing.

(** ** Recalling a squad with a click *)

Lemma clickedSquad_spec (e : Engine) (p : Vector3) (refs : list ref) :
  match clickedSquad e p refs with
  | Some id =>
      exists (r : ref) (cmd : Command),
        r ∈ refs /\ lookupCmd e r = Some cmd /\ cmdId cmd = id
        /\ distanceToSquared (center cmd) p
           <= radius cmd * radius cmd + 2500
        /\ nearPath p (path cmd) = true
  | None =>
      forall (r : ref) (cmd : Command),
        r ∈ refs -> lookupCmd e r = Some cmd ->
        distanceToSquared (center cmd) p <= radius cmd * radius cmd + 2500 ->
        nearPath p (path cmd) = false
  end.
Proof.
  induction refs as [|r refs IH]; cbn [clickedSquad].
  - intros r cmd Hr. apply elem_of_nil in Hr. contradiction.
  - assert (Hskip :
      match clickedSquad e p refs with
      | Some id =>
          exists (r0 : ref) (cmd : Command),
            r0 ∈ r :: refs /\ lookupCmd e r0 = Some cmd /\ cmdId cmd = id
            /\ distanceToSquared (center cmd) p
               <= radius cmd * radius cmd + 2500
            /\ nearPath p (path cmd) = true
      | None => True
      end).
    { destruct (clickedSquad e p refs); [| exact I].
      destruct IH as (r' & cmd' & Hr' & H). exists r', cmd'.
      split; [right; exact Hr' | exact H]. }
    destruct (lookupCmd e r) as [cmd|] eqn:Hcmd.
    + destruct (Qlt_bool _ (distanceToSquared (center cmd) p)) eqn:Hbroad.
      * destruct (clickedSquad e p refs); [exact Hskip |].
        intros r' cmd' Hr' Hcmd' Hnear.
        apply elem_of_cons in Hr' as [-> | Hr']; [| eauto].
        assert (cmd' = cmd) as -> by congruence.
        apply Qlt_bool_iff in Hbroad. lra.
      * apply Qlt_bool_false in Hbroad.
        destruct (nearPath p (path cmd)) eqn:Hnear.
        -- exists r, cmd. split; [left |].
           split; [exact Hcmd |]. split; [reflexivity |].
           split; [exact Hbroad | exact Hnear].
        -- destruct (clickedSquad e p refs); [exact Hskip |].
           intros r' cmd' Hr' Hcmd' Hb.
           apply elem_of_cons in Hr' as [-> | Hr']; [| eauto].
           congruence.
    + destruct (clickedSquad e p refs); [exact Hskip |].
      intros r' cmd' Hr' Hcmd' Hb.
      apply elem_of_cons in Hr' as [-> | Hr']; [congruence | eauto].
Qed.

(** A click on the ground recalls at most one squad.  When no command
    of the registry has its path within [30] of the point (among those
    the test on the centre lets through), nothing changes.  Otherwise
    one command leaves the registry, its path being that near; the
    other commands stay in their order, the message is sent, every
    live drone of the squad becomes seeking with command id [-1], and
    the registry invariant and the link between drones and commands are
    kept. *)
Theorem checkSquadClick_recalls_one (p : Vector3) (e : Engine) :
  registryOk e ->
  storeFits e (droneCount (state e)) ->
  let e' := checkSquadClick (Some p) e in
  registryOk e'
  /\ (wellFormed e /\ commandLinked e -> wellFormed e' /\ commandLinked e')
  /\ (e' = e
      /\ (forall (r : ref) (cmd : Command),
            r ∈ commands e -> lookupCmd e r = Some cmd ->
            distanceToSquared (center cmd) p
              <= radius cmd * radius cmd + 2500 ->
            nearPath p (path cmd) = false)
      \/ exists (i : nat) (r : ref) (cmd : Command),
           commands e !! i = Some r /\ lookupCmd e r = Some cmd
           /\ nearPath p (path cmd) = true
           /\ e' = removeSquad (cmdId cmd) "SQUAD RECALLED" e
           /\ commands e' = take i (commands e) ++ drop (S i) (commands e)
           /\ callbacks e'
              = callbacks e ++ [onMessage (Text "SQUAD RECALLED")]
           /\ forall j : nat,
                (j < droneCount (state e))%nat ->
                droneCommandId e !! j = Some (cmdId cmd) ->
                droneState e' !! j = Some STATE_MINING_SEEK
                /\ droneCommandId e' !! j = Some (-1)%Z).
Proof.
  intros Hok Hfit. cbv zeta. unfold checkSquadClick.
  pose proof (clickedSquad_spec e p (commands e)) as Hspec.
  destruct (clickedSquad e p (commands e)) as [id|].
  - destruct Hspec as (r & cmd & Hr & Hcmd & <- & _ & Hnear).
    split; [apply removeSquad_registryOk, Hok |].
    split; [apply removeSquad_invariant |].
    right. apply list_elem_of_lookup in Hr as [i Hi].
    exists i, r, cmd.
    assert (Hfind : is_Some (findCommand e (cmdId cmd))).
    { unfold findCommand.
      destruct (List.find (hasId e (cmdId cmd)) (commands e)) eqn:Hf;
        [eauto |].
      exfalso.
      assert (Hin : In r (commands e))
        by (apply list_elem_of_In, (list_elem_of_lookup_2 _ i), Hi).
      pose proof (find_none _ _ Hf r Hin) as Hno.
      unfold hasId in Hno. rewrite Hcmd, Z.eqb_refl in Hno.
      discriminate. }
    destruct (removeSquad_found (cmdId cmd) "SQUAD RECALLED" e Hfind)
      as (Hcmds & _ & _ & _ & Gs & Gc & _ & _ & _ & _ & Hcb).
    destruct Hok as (_ & Hnd & _).
    rewrite (filter_id_delete e (commands e) i r cmd Hnd Hi Hcmd) in Hcmds.
    pose proof (releaseDrones_spec (cmdId cmd) e (droneCount (state e)))
      as Hrel.
    cbv zeta in Hrel. destruct Hrel as (_ & Ha & _).
    destruct Hfit as (_ & Fs & Ft & _).
    repeat split; try assumption.
    + rewrite Gs. apply Ha; [assumption | assumption | lia | lia].
    + rewrite Gc. apply Ha; [assumption | assumption | lia | lia].
  - split; [exact Hok |]. split; [auto |]. left. split; [reflexivity |].
    exact Hspec.
Qed.

Lemma checkSquadClick_recalls_one_witness :
  registryOk (checkSquadClick (Some (Vec3 0 0 0)) wallEngine).
Proof.
  apply (checkSquadClick_recalls_one (Vec3 0 0 0) wallEngine
           registryOk_wallEngine (proj1 (proj1 invariant_wallEngine))).
Defined.

(** ** The shop *)

(** No upgrade and no repair takes the resources below zero, and none
    changes the number of drones or of squads. *)
Theorem upgrades_never_overdraw (m : Q) (s : GameState) :
  0 <= resources s ->
  Forall (fun buy : Q -> GameState -> GameState =>
            0 <= resources (buy m s)
            /\ droneCount (buy m s) = droneCount s
            /\ activeSquads (buy m s) = activeSquads s)
    [buySpeed; buyMining; buyCargo; buyCrit; buyShield; buyDamage;
     buyWallHP; buyShieldRegen; fun _ => repairHull].
Proof.
  intros Hpos.
  repeat (apply Forall_cons_2;
          [unfold buySpeed, buyMining, buyCargo, buyCrit, buyShield,
             buyDamage, buyWallHP, buyShieldRegen, repairHull, pay;
           cbv zeta;
           repeat match goal with
                  | |- context [Qle_bool ?c ?r] =>
                      let H := fresh "H" in
                      destruct (Qle_bool c r) eqn:H;
                      [apply Qle_bool_iff in H |]
                  | |- context [Qlt_bool ?a ?b] =>
                      destruct (Qlt_bool a b)
                  end;
           unfold set_droneSpeed, set_miningSpeed, set_cargoCapacity,
             set_critChance, set_shieldMax, set_shieldCurrent,
             set_damageMultiplier, set_wallHP, set_shieldRegen,
             set_hullIntegrity, set_resources;
           cbn [andb resources droneCount activeSquads];
           (split; [lra | split; reflexivity]) |]).
  apply Forall_nil_2.
Qed.

Lemma upgrades_never_overdraw_witness :
  0 <= resources (buyShield 1 (set_resources 6000 exampleState)).
Proof.
  pose proof (upgrades_never_overdraw 1 (set_resources 6000 exampleState)
                ltac:(cbn; lra)) as H.
  rewrite !Forall_cons in H.
  exact (proj1 (proj1 (proj2 (proj2 (proj2 (proj2 H)))))).
Defined.

(** The price of drone health is nothing at level [1], whatever the
    multiplier: the upgrade is bought even with no resources and leaves
    them untouched. *)
Theorem buyWallHP_free_at_level_one (m : Q) (s : GameState) :
  wallHP s == 1 -> 0 <= resources s ->
  wallHP (buyWallHP m s) == 1 + m
  /\ resources (buyWallHP m s) == resources s.
Proof.
  intros Hlevel Hpos. unfold buyWallHP. cbv zeta.
  assert (Hfree : 3000 * (wallHP s - 1) * m == 0) by (rewrite Hlevel; ring).
  destruct (Qle_bool _ (resources s)) eqn:Hbuy.
  - cbn. rewrite Hfree, Hlevel. split; ring.
  - apply Qle_bool_false in Hbuy. rewrite Hfree in Hbuy. lra.
Qed.

Lemma buyWallHP_free_at_level_one_witness :
  wallHP (buyWallHP 100 (set_wallHP 1 exampleState)) == 101.
Proof.
  destruct (buyWallHP_free_at_level_one 100 (set_wallHP 1 exampleState))
    as [H _]; [reflexivity | cbn; lra |].
  rewrite H. reflexivity.
Defined.

(** ** Buying drones *)

Lemma readDrone_ext (e e' : Engine) (i : nat) :
  dronePos e' !! (i * 3)%nat = dronePos e !! (i * 3)%nat ->
  dronePos e' !! (i * 3 + 1)%nat = dronePos e !! (i * 3 + 1)%nat ->
  dronePos e' !! (i * 3 + 2)%nat = dronePos e !! (i * 3 + 2)%nat ->
  droneState e' !! i = droneState e !! i ->
  droneTargetId e' !! i = droneTargetId e !! i ->
  droneCommandId e' !! i = droneCommandId e !! i ->
  droneLoad e' !! i = droneLoad e !! i ->
  droneHP e' !! i = droneHP e !! i ->
  readDrone e' i = readDrone e i.
Proof.
  intros H1 H2 H3 H4 H5 H6 H7 H8. unfold readDrone.
  rewrite H1, H2, H3, H4, H5, H6, H7, H8. reflexivity.
Qed.

Lemma triple_lookup (l : list Q) (i : nat) (x y z : Q) :
  (i * 3 + 2 < length l)%nat ->
  let l' := <[(i * 3 + 2)%nat := z]>
              (<[(i * 3 + 1)%nat := y]> (<[(i * 3)%nat := x]> l)) in
  l' !! (i * 3)%nat = Some x
  /\ l' !! (i * 3 + 1)%nat = Some y
  /\ l' !! (i * 3 + 2)%nat = Some z.
Proof.
  intros Hlen. cbv zeta. split; [| split].
  - rewrite (list_lookup_insert_ne _ (i * 3 + 2) (i * 3)) by lia.
    rewrite (list_lookup_insert_ne _ (i * 3 + 1) (i * 3)) by lia.
    apply list_lookup_insert_eq. lia.
  - rewrite (list_lookup_insert_ne _ (i * 3 + 2) (i * 3 + 1)) by lia.
    apply list_lookup_insert_eq. rewrite length_insert. lia.
  - apply list_lookup_insert_eq. rewrite !length_insert. lia.
Qed.

Section BuyingDrones.
Variables Math_sin Math_cos : Q -> Q.
Variable Math_random : nat -> Q.
Variable Math_PI : Q.
Variable toLocaleString : Z -> string.

Lemma initDrone_frame (i : nat) (e : Engine) :
  state (initDrone Math_sin Math_cos Math_random Math_PI i e) = state e
  /\ commands (initDrone Math_sin Math_cos Math_random Math_PI i e) = commands e
  /\ commandObjs (initDrone Math_sin Math_cos Math_random Math_PI i e) = commandObjs e
  /\ nextCommandId (initDrone Math_sin Math_cos Math_random Math_PI i e) = nextCommandId e
  /\ callbacks (initDrone Math_sin Math_cos Math_random Math_PI i e) = callbacks e
  /\ length (dronePos (initDrone Math_sin Math_cos Math_random Math_PI i e)) = length (dronePos e)
  /\ length (droneState (initDrone Math_sin Math_cos Math_random Math_PI i e)) = length (droneState e)
  /\ length (droneTargetId (initDrone Math_sin Math_cos Math_random Math_PI i e)) = length (droneTargetId e)
  /\ length (droneCommandId (initDrone Math_sin Math_cos Math_random Math_PI i e)) = length (droneCommandId e)
  /\ length (droneLoad (initDrone Math_sin Math_cos Math_random Math_PI i e)) = length (droneLoad e)
  /\ length (droneHP (initDrone Math_sin Math_cos Math_random Math_PI i e)) = length (droneHP e).
Proof.
  unfold initDrone, writePos. cbn. rewrite !length_insert.
  repeat split; reflexivity.
Qed.

Lemma initDrone_other (i j : nat) (e : Engine) :
  j <> i ->
  readDrone (initDrone Math_sin Math_cos Math_random Math_PI i e) j = readDrone e j.
Proof.
  intros Hne. apply readDrone_ext; unfold initDrone, writePos; cbn;
    rewrite ?list_lookup_insert_ne by lia; reflexivity.
Qed.

Lemma initDrone_self (i : nat) (e : Engine) (n : nat) :
  storeFits e n -> (i < n)%nat ->
  exists pos : Vector3,
    readDrone (initDrone Math_sin Math_cos Math_random Math_PI i e) i
    = Some (MkDrone pos STATE_MINING_SEEK (-1) (-1) 0 1).
Proof.
  intros (Fp & Fs & Ft & Fc & Fl & Fh) Hi.
  unfold readDrone, initDrone, writePos. cbv zeta.
  cbn [dronePos droneState droneTargetId droneCommandId droneLoad droneHP
       randomCalls set_dronePos set_randomCalls set_droneState
       set_droneTargetId set_droneCommandId set_droneLoad set_droneHP].
  cbn [vx vy vz].
  match goal with
  | |- context [<[(i * 3 + 2)%nat := ?z]>
                  (<[(i * 3 + 1)%nat := ?y]> (<[(i * 3)%nat := ?x]> _))] =>
      destruct (triple_lookup (dronePos e) i x y z ltac:(lia))
        as (T1 & T2 & T3)
  end.
  rewrite T1, T2, T3.
  rewrite !list_lookup_insert_eq by lia.
  cbn [mbind option_bind]. eauto.
Qed.

Lemma initDrones_spec (k : nat) :
  forall (s : nat) (e : Engine) (n : nat),
  storeFits e n -> (s + k <= n)%nat ->
  let e' := foldl (fun e' i => initDrone Math_sin Math_cos Math_random Math_PI i e') e (seq s k) in
  (state e' = state e
   /\ commands e' = commands e
   /\ commandObjs e' = commandObjs e
   /\ nextCommandId e' = nextCommandId e
   /\ callbacks e' = callbacks e)
  /\ storeFits e' n
  /\ (forall j : nat, ~ (s <= j < s + k)%nat ->
        readDrone e' j = readDrone e j)
  /\ (forall j : nat, (s <= j < s + k)%nat ->
        exists pos : Vector3,
          readDrone e' j
          = Some (MkDrone pos STATE_MINING_SEEK (-1) (-1) 0 1)).
Proof.
  induction k as [|k IH]; intros s e n Hfit Hle; cbn [seq foldl].
  - cbv zeta. split; [auto 10 |]. split; [exact Hfit |].
    split; [reflexivity | intros j Hj; lia].
  - destruct (initDrone_frame s e)
      as (A1&A2&A3&A4&A5&A6&A7&A8&A9&A10&A11).
    assert (Hfit1 : storeFits (initDrone Math_sin Math_cos Math_random Math_PI s e) n).
    { unfold storeFits in *. rewrite A6, A7, A8, A9, A10, A11. exact Hfit. }
    destruct (IH (S s) (initDrone Math_sin Math_cos Math_random Math_PI s e) n Hfit1 ltac:(lia))
      as ((B1&B2&B3&B4&B5) & Hfit' & Hout & Hin).
    cbv zeta. split; [repeat split; congruence |].
    split; [exact Hfit' |]. split.
    + intros j Hj. rewrite Hout by lia. apply initDrone_other. lia.
    + intros j Hj. destruct (decide (j = s)) as [-> | Hne].
      * rewrite Hout by lia. apply (initDrone_self s e n Hfit). lia.
      * apply Hin. lia.
Qed.
End BuyingDrones.

Lemma storeFits_le (e : Engine) (n m : nat) :
  storeFits e n -> (m <= n)%nat -> storeFits e m.
Proof. unfold storeFits. intros (A&B&C&D&E&F) H. lia. Qed.

(** Fresh idle drones appended to the live ones keep the link. *)
Lemma invariant_grow (e e' : Engine) :
  wellFormed e /\ commandLinked e ->
  (droneCount (state e) <= droneCount (state e'))%nat ->
  storeFits e' (droneCount (state e')) ->
  commands e' = commands e -> commandObjs e' = commandObjs e ->
  nextCommandId e' = nextCommandId e ->
  (forall i : nat, (i < droneCount (state e))%nat ->
     readDrone e' i = readDrone e i) ->
  (forall i : nat,
     (droneCount (state e) <= i < droneCount (state e'))%nat ->
     exists pos : Vector3,
       readDrone e' i = Some (MkDrone pos STATE_MINING_SEEK (-1) (-1) 0 1)) ->
  wellFormed e' /\ commandLinked e'.
Proof.
  intros Hinv Hle Hfit' Hcmds Hobjs Hnext Hold Hnew.
  pose proof Hinv as ((Hfit & _ & Hobj & Hnx) & _).
  apply invariant_intro.
  - exact Hfit'.
  - intros r cmd Hr. unfold lookupCmd in Hr. rewrite Hobjs in Hr.
    apply (Hobj r cmd Hr).
  - rewrite Hnext. exact Hnx.
  - intros i s c t Hi Hs Hc Ht.
    destruct (readDrone_is_Some e' _ i Hfit' Hi) as [d Hd].
    destruct (readDrone_fields e' i d Hd) as (Fs & Fc & Ft & _).
    assert (s = dState d) as -> by congruence.
    assert (c = dCommand d) as -> by congruence.
    assert (t = dTarget d) as -> by congruence.
    destruct (le_lt_dec (droneCount (state e)) i) as [Hfresh | Hlive].
    + destruct (Hnew i (conj Hfresh Hi)) as [pos Hpos].
      assert (d = MkDrone pos STATE_MINING_SEEK (-1) (-1) 0 1) as ->
        by congruence.
      cbn. split; [split; [lia | discriminate] |].
      split; [lia | discriminate].
    + rewrite (Hold i Hlive) in Hd.
      destruct (readDrone_fields e i d Hd) as (Gs & Gc & Gt & _).
      destruct (invariant_elim e i _ _ _ Hinv Hlive Gs Gc Gt)
        as (H1 & H2 & H3).
      split; [exact H1 |]. split; [| exact H3].
      intros Hpos. apply (liveId_view e e'); [exact Hcmds | | apply H2, Hpos].
      rewrite Hobjs. reflexivity.
Qed.

Lemma droneLimit_le (p : Progress) : (droneLimit p <= MAX_DRONES)%Z.
Proof. unfold droneLimit. destruct (customMaxDronesEnabled p); lia. Qed.

Section DronePurchase.
Variables Math_sin Math_cos : Q -> Q.
Variable Math_random : nat -> Q.
Variable Math_PI : Q.
Variable toLocaleString : Z -> string.

(** Buying drones in an engine whose arrays have [MAX_DRONES] slots: the
    count never drops, grows by at most the amount asked and never past
    the limit in force; the resources stay at least zero; the records of
    the drones there before are untouched; each new drone is seeking,
    with command id and target reference [-1], no load and health [1];
    the registry is untouched and the link between drones and commands
    is kept. *)
Theorem buyDrones_within_capacity (amt : nat) (cost : Q) (e : Engine)
    (p : Progress) :
  wellFormed e /\ commandLinked e ->
  storeFits e (Z.to_nat MAX_DRONES) ->
  0 <= resources (state e) ->
  let g' := buyDrones Math_sin Math_cos Math_random Math_PI toLocaleString
              amt cost (e, p) in
  let n := droneCount (state e) in
  let n' := droneCount (state g'.1) in
  (n <= n' <= n + amt)%nat
  /\ (Z.of_nat n' <= Z.max (Z.of_nat n) (droneLimit p))%Z
  /\ 0 <= resources (state g'.1)
  /\ (forall i : nat, (i < n)%nat -> readDrone g'.1 i = readDrone e i)
  /\ (forall i : nat, (n <= i < n')%nat ->
        exists pos : Vector3,
          readDrone g'.1 i
          = Some (MkDrone pos STATE_MINING_SEEK (-1) (-1) 0 1))
  /\ (wellFormed g'.1 /\ commandLinked g'.1)
  /\ commands g'.1 = commands e /\ commandObjs g'.1 = commandObjs e.
Proof.
  intros Hinv Hcap Hres. cbv zeta. unfold buyDrones.
  assert (Hsame : forall e0 : Engine,
            linkView e0 = linkView e -> resources (state e0) = resources (state e) ->
            (forall i, readDrone e0 i = readDrone e i) ->
            commandObjs e0 = commandObjs e ->
            (droneCount (state e) <= droneCount (state e0)
             <= droneCount (state e) + amt)%nat
            /\ (Z.of_nat (droneCount (state e0))
                <= Z.max (Z.of_nat (droneCount (state e))) (droneLimit p))%Z
            /\ 0 <= resources (state e0)
            /\ (forall i : nat, (i < droneCount (state e))%nat ->
                  readDrone e0 i = readDrone e i)
            /\ (forall i : nat,
                  (droneCount (state e) <= i < droneCount (state e0))%nat ->
                  exists pos : Vector3,
                    readDrone e0 i
                    = Some (MkDrone pos STATE_MINING_SEEK (-1) (-1) 0 1))
            /\ (wellFormed e0 /\ commandLinked e0)
            /\ commands e0 = commands e /\ commandObjs e0 = commandObjs e).
  { intros e0 Hview Hr Hread Hobjs.
    pose proof Hview as Hv. unfold linkView in Hv.
    injection Hv as Hn _ _ _ _ _ _ Hcmds _ _.
    rewrite Hn, Hr.
    split; [lia |]. split; [lia |]. split; [exact Hres |].
    split; [auto |]. split; [intros i Hi; lia |].
    split; [apply (invariant_view e e0 Hview Hinv) |]. auto. }
  destruct (Qlt_bool (resources (state e)) 1);
    [apply Hsame; reflexivity |].
  set (p1 := if isTutorial p && (tutorialStep p =? 1)%Z
             then set_tutorialStep 2 p else p).
  assert (Hlim : droneLimit p1 = droneLimit p).
  { unfold p1. destruct (isTutorial p && (tutorialStep p =? 1)%Z);
      reflexivity. }
  rewrite Hlim.
  destruct (droneLimit p - Z.of_nat (droneCount (state e)) <=? 0)%Z eqn:Hfull;
    [apply Hsame; reflexivity |].
  apply Z.leb_gt in Hfull.
  set (actualAmount :=
         if (droneLimit p - Z.of_nat (droneCount (state e))
             <? Z.of_nat amt)%Z
         then (droneLimit p - Z.of_nat (droneCount (state e)))%Z
         else Z.of_nat amt).
  assert (Hamt : (0 <= actualAmount <= Z.of_nat amt)%Z
                 /\ (actualAmount
                     <= droneLimit p - Z.of_nat (droneCount (state e)))%Z).
  { unfold actualAmount.
    destruct (Z.ltb_spec (droneLimit p - Z.of_nat (droneCount (state e)))
                (Z.of_nat amt)); lia. }
  set (actualCost := if (_ <? Z.of_nat amt)%Z then _ else cost).
  destruct (Qle_bool actualCost (resources (state e))) eqn:Hpay;
    [| apply Hsame; reflexivity].
  apply Qle_bool_iff in Hpay.
  set (e1 := set_state (pay actualCost (state e)) e).
  set (k := Z.to_nat actualAmount).
  change (droneCount (state e1)) with (droneCount (state e)).
  set (n := droneCount (state e)).
  pose proof (droneLimit_le p) as Hmax.
  destruct (initDrones_spec Math_sin Math_cos Math_random Math_PI k n e1
              (Z.to_nat MAX_DRONES) Hcap ltac:(unfold k, n in *; lia))
    as ((B1&B2&B3&B4&B5) & Hfit2 & Hout & Hin).
  set (e2 := foldl _ e1 (seq n k)) in *. clearbody e2.
  set (e3 := set_state (set_droneCount (n + k)%nat (state e2)) e2).
  set (e4 := if (actualAmount <? Z.of_nat amt)%Z then _ else e3).
  cbn [fst].
  assert (Hframe : state e4 = state e3 /\ commands e4 = commands e2
                   /\ commandObjs e4 = commandObjs e2
                   /\ nextCommandId e4 = nextCommandId e2
                   /\ (forall i, readDrone e4 i = readDrone e2 i)
                   /\ (forall m, storeFits e2 m -> storeFits e4 m)).
  { unfold e4. destruct (actualAmount <? Z.of_nat amt)%Z;
      (split; [reflexivity |]); (split; [reflexivity |]);
      (split; [reflexivity |]); (split; [reflexivity |]);
      (split; [reflexivity | intros m Hm; exact Hm]). }
  destruct Hframe as (C1 & C2 & C3 & C4 & C5 & C6).
  assert (Hn' : droneCount (state e4) = (n + k)%nat)
    by (rewrite C1; reflexivity).
  assert (Hold : forall i : nat, (i < n)%nat -> readDrone e4 i = readDrone e i).
  { intros i Hi. rewrite C5, Hout by lia. reflexivity. }
  assert (Hnew : forall i : nat, (n <= i < droneCount (state e4))%nat ->
            exists pos : Vector3,
              readDrone e4 i
              = Some (MkDrone pos STATE_MINING_SEEK (-1) (-1) 0 1)).
  { intros i Hi. rewrite C5. apply Hin. lia. }
  rewrite Hn'.
  split; [unfold k; lia |]. split; [unfold k, n; lia |].
  split; [rewrite C1; cbn; rewrite B1; cbn; lra |].
  split; [exact Hold |].
  split; [rewrite Hn' in Hnew; exact Hnew |].
  split; [| split; [rewrite C2, B2 | rewrite C3, B3]; reflexivity].
  apply (invariant_grow e e4 Hinv).
  - fold n. lia.
  - rewrite Hn'. apply C6, (storeFits_le e2 (Z.to_nat MAX_DRONES));
      [exact Hfit2 | unfold k, n; lia].
  - rewrite C2, B2. reflexivity.
  - rewrite C3, B3. reflexivity.
  - rewrite C4, B4. reflexivity.
  - exact Hold.
  - exact Hnew.
Qed.
End DronePurchase.

Lemma storeFits_initial (n capacity : nat) (s : GameState) :
  storeFits (initialEngine n capacity s) capacity.
Proof. unfold storeFits. cbn. rewrite !length_replicate. lia. Qed.

Lemma resources_initial (n capacity : nat) (s : GameState) :
  resources (state (initialEngine n capacity s)) = resources s.
Proof. reflexivity. Qed.

Lemma buyDrones_within_capacity_witness :
  let g' := buyDrones noJitter noJitter alwaysZero (355 # 113) noDigits
              10 20 (fullEngine, defaultProgress) in
  (droneCount (state fullEngine) <= droneCount (state g'.1)
   <= droneCount (state fullEngine) + 10)%nat
  /\ (wellFormed g'.1 /\ commandLinked g'.1).
Proof.
  destruct (buyDrones_within_capacity noJitter noJitter alwaysZero
              (355 # 113) noDigits 10 20 fullEngine defaultProgress)
    as (Hcount & _ & _ & _ & _ & Hinv & _).
  - apply invariant_initial. unfold MAX_DRONES. lia.
  - apply storeFits_initial.
  - unfold fullEngine. rewrite resources_initial. cbn. lra.
  - split; [exact Hcount | exact Hinv].
Defined.

(** ** The slots of a new squad *)

Lemma wallSlot_ratio (j k : nat) :
  (1 < k)%nat -> (j <= k - 1)%nat ->
  0 <= double_div (inject_Z (Z.of_nat j)) (inject_Z (Z.of_nat k - 1)) <= 1.
Proof.
  intros Hk Hj. unfold double_div.
  assert (Hden : 0 < inject_Z (Z.of_nat k - 1)).
  { change 0 with (inject_Z 0). rewrite <- Zlt_Qlt. lia. }
  assert (Hr0 : 0 <= inject_Z (Z.of_nat j) / inject_Z (Z.of_nat k - 1)).
  { apply Qle_shift_div_l; [exact Hden |]. rewrite Qmult_0_l.
    change 0 with (inject_Z 0). rewrite <- Zle_Qle. lia. }
  assert (Hr1 : inject_Z (Z.of_nat j) / inject_Z (Z.of_nat k - 1) <= 1).
  { apply Qle_shift_div_r; [exact Hden |]. rewrite Qmult_1_l.
    rewrite <- Zle_Qle. lia. }
  split; [apply roundDouble_nonneg, Hr0 |].
  apply Qle_trans with (roundDouble (inject_Z 1));
    [| rewrite roundDouble_Z by (cbn; lia); apply Qle_refl].
  apply roundDouble_mono, Hr1.
Qed.

Lemma wallSlot_bounds (j k m : nat) :
  (1 < k)%nat -> (j <= k - 1)%nat -> (1 <= m)%nat ->
  (Z.of_nat m < 2 ^ 53)%Z ->
  (0 <= wallSlot j k m <= Z.of_nat m - 1)%Z.
Proof.
  intros Hk Hj Hm Hmax. unfold wallSlot, Math_floor.
  assert (Hm0 : 0 <= inject_Z (Z.of_nat m - 1)).
  { change 0 with (inject_Z 0). rewrite <- Zle_Qle. lia. }
  destruct (wallSlot_ratio j k Hk Hj) as [Hr0 Hr1].
  set (ratio := double_div _ _) in *. clearbody ratio.
  unfold double_mul. split.
  - rewrite <- (Qfloor_Z 0). apply Qfloor_resp_le.
    change (inject_Z 0) with 0.
    apply roundDouble_nonneg, Qmult_le_0_compat; assumption.
  - rewrite <- (Qfloor_Z (Z.of_nat m - 1)) at 2. apply Qfloor_resp_le.
    apply Qle_trans with (roundDouble (inject_Z (Z.of_nat m - 1)));
      [| rewrite roundDouble_Z by lia; apply Qle_refl].
    apply roundDouble_mono.
    rewrite <- (Qmult_1_l (inject_Z (Z.of_nat m - 1))) at 2.
    apply Qmult_le_compat_r; assumption.
Qed.

Lemma wallSlot_mono (j j' k m : nat) :
  (1 < k)%nat -> (j <= j')%nat -> (1 <= m)%nat ->
  (wallSlot j k m <= wallSlot j' k m)%Z.
Proof.
  intros Hk Hj Hm. unfold wallSlot, Math_floor, double_mul, double_div.
  apply Qfloor_resp_le, roundDouble_mono.
  assert (Hden : 0 < inject_Z (Z.of_nat k - 1)).
  { change 0 with (inject_Z 0). rewrite <- Zlt_Qlt. lia. }
  assert (Hm0 : 0 <= inject_Z (Z.of_nat m - 1)).
  { change 0 with (inject_Z 0). rewrite <- Zle_Qle. lia. }
  apply Qmult_le_compat_r; [| exact Hm0].
  apply roundDouble_mono.
  unfold Qdiv. apply Qmult_le_compat_r.
  - rewrite <- Zle_Qle. lia.
  - apply Qlt_le_weak, Qinv_lt_0_compat, Hden.
Qed.

Section NewSquad.
Variable Math_sqrt : Q -> Q.

(** Every drone assigned by [createSquadFromPending] receives a target
    reference that is an index into the points of the new command, the
    spread points of a Wall or the path of a Swarm, so that its first
    update finds its point; along a Wall the slots do not decrease in
    the order of assignment.  The pending path is a JavaScript array and
    so has fewer than [2 ^ 32] points. *)
Theorem assigned_slots_in_bounds (e : Engine) :
  (2 <= length (pendingPath e))%nat ->
  (Z.of_nat (length (pendingPath e)) < 2 ^ 32)%Z ->
  eligibleDrones e <> [] ->
  storeFits e (droneCount (state e)) ->
  let e' := createSquadFromPending Math_sqrt e in
  let assigned := take (Z.to_nat (needed e)) (eligibleDrones e) in
  exists cmd : Command,
    commandObjs e' !! length (commandObjs e) = Some cmd
    /\ cmdId cmd = (nextCommandId e + 1)%Z
    /\ (1 <= length (commandPoints cmd))%nat
    /\ (forall (j i : nat),
          assigned !! j = Some i ->
          exists t : Z,
            droneTargetId e' !! i = Some t
            /\ droneCommandId e' !! i = Some (cmdId cmd)
            /\ (0 <= t < Z.of_nat (length (commandPoints cmd)))%Z
            /\ is_Some (pointAt (commandPoints cmd) t))
    /\ (forall (j j' i i' : nat) (t t' : Z),
          (j <= j')%nat ->
          assigned !! j = Some i -> assigned !! j' = Some i' ->
          droneTargetId e' !! i = Some t ->
          droneTargetId e' !! i' = Some t' -> (t <= t')%Z).
Proof.
  intros Hlen Hmax Hne Hfit. cbv zeta.
  destruct (createSquad_registry Math_sqrt e Hlen Hne)
    as (_ & Hobjs & _).
  destruct (createSquad_slots Math_sqrt e Hlen Hne Hfit) as [Hslots _].
  cbv zeta in Hslots.
  set (e' := createSquadFromPending Math_sqrt e) in *. clearbody e'.
  set (assigned := take (Z.to_nat (needed e)) (eligibleDrones e)) in *.
  set (cmd0 := newCommand Math_sqrt e) in *.
  set (cmd := set_activeDroneCount (Z.of_nat (length assigned)) cmd0) in *.
  assert (Hpath : (2 <= length (path cmd0))%nat) by exact Hlen.
  assert (Hspread : (1 <= length (spreadPoints cmd0))%nat).
  { apply interpolatePath_nonempty. lia. }
  assert (Hsmax : (Z.of_nat (length (spreadPoints cmd0)) < 2 ^ 53)%Z).
  { pose proof (interpolatePath_length Math_sqrt (pendingPath e) 1000
                  ltac:(lia)) as [Hl | Hl]; unfold cmd0, newCommand;
      cbn [spreadPoints]; rewrite Hl; lia. }
  assert (Hid : cmdId cmd = (nextCommandId e + 1)%Z) by reflexivity.
  assert (Hcp : commandPoints cmd
                = match cmdType cmd0 with
                  | WALL => spreadPoints cmd0
                  | SWARM => path cmd0
                  end) by reflexivity.
  assert (Hcid : cmdId cmd = cmdId cmd0) by reflexivity.
  clearbody cmd0. clearbody cmd.
  assert (Hpts : (1 <= length (commandPoints cmd))%nat).
  { rewrite Hcp. destruct (cmdType cmd0); lia. }
  assert (Hbound : forall j : nat,
            (j < length assigned)%nat ->
            (0 <= assignedTarget (cmdType cmd0) j (length assigned)
                    (length (spreadPoints cmd0))
             < Z.of_nat (length (commandPoints cmd)))%Z).
  { intros j Hj. unfold assignedTarget. rewrite Hcp.
    destruct (cmdType cmd0); [lia |].
    destruct (Nat.ltb_spec 1 (length assigned)) as [Hk | Hk]; [| lia].
    pose proof (wallSlot_bounds j (length assigned)
                  (length (spreadPoints cmd0)) Hk ltac:(lia) Hspread Hsmax).
    lia. }
  exists cmd. split.
  { rewrite Hobjs, lookup_app_r by lia.
    rewrite Nat.sub_diag. reflexivity. }
  split; [exact Hid |]. split; [exact Hpts |]. split.
  - intros j i Hj. destruct (Hslots j i Hj) as (_ & Hc & Ht & _).
    rewrite <- Hcid in Hc.
    exists (assignedTarget (cmdType cmd0) j (length assigned)
              (length (spreadPoints cmd0))).
    pose proof (Hbound j (lookup_lt_Some _ _ _ Hj)) as Hb.
    split; [exact Ht |]. split; [exact Hc |]. split; [exact Hb |].
    unfold pointAt.
    set (t := assignedTarget _ _ _ _) in *. clearbody t.
    destruct (Z.ltb_spec t 0) as [|_]; [lia |].
    apply lookup_lt_is_Some. lia.
  - intros j j' i i' t t' Hjj Hj Hj' Ht Ht'.
    destruct (Hslots j i Hj) as (_ & _ & Gt & _).
    destruct (Hslots j' i' Hj') as (_ & _ & Gt' & _).
    assert (t = assignedTarget (cmdType cmd0) j (length assigned)
                  (length (spreadPoints cmd0))) as -> by congruence.
    assert (t' = assignedTarget (cmdType cmd0) j' (length assigned)
                   (length (spreadPoints cmd0))) as -> by congruence.
    unfold assignedTarget. destruct (cmdType cmd0); [lia |].
    destruct (Nat.ltb_spec 1 (length assigned)) as [Hk | Hk]; [| lia].
    apply wallSlot_mono; [exact Hk | exact Hjj | exact Hspread].
Qed.
End NewSquad.

Lemma assigned_slots_in_bounds_witness :
  exists cmd : Command,
    commandObjs wallEngine !! 0%nat = Some cmd
    /\ (1 <= length (commandPoints cmd))%nat.
Proof.
  destruct (assigned_slots_in_bounds Qsqrt exampleEngine)
    as (cmd & Hcmd & _ & Hpts & _).
  - cbn. lia.
  - cbn. lia.
  - vm_compute. discriminate.
  - unfold storeFits. cbn. lia.
  - exists cmd. split; [exact Hcmd | exact Hpts].
Defined.

(** ** A seeking drone and its asteroid *)

Section Mining.
Variables Math_sqrt Math_sin Math_cos : Q -> Q.

Lemma asteroidAt_mod (e : Engine) (i : nat) :
  asteroids e <> [] ->
  is_Some (asteroidAt e (Z.of_nat (i mod length (asteroids e)))).
Proof.
  intros Hne. unfold asteroidAt, pointAt.
  destruct (Z.ltb_spec (Z.of_nat (i mod length (asteroids e))) 0); [lia |].
  rewrite Nat2Z.id. apply lookup_lt_is_Some.
  apply Nat.mod_upper_bound. destruct (asteroids e); [contradiction | discriminate].
Qed.

(** While there is an asteroid, a seeking drone leaves its update with
    a target reference that names one: the reference it came with when
    that named an asteroid, and otherwise its own index modulo the
    number of asteroids.  The update changes no command id, no asteroid
    and no other drone's target; the drone's load stays or grows by the
    mining step, and the drone turns to returning only with a load that
    reaches the cargo capacity. *)
Theorem seeking_keeps_valid_target (dt : Q) (i : nat) (move : Q)
    (stride : nat) (d : Drone) (e : Engine) :
  readDrone e i = Some d -> dState d = STATE_MINING_SEEK ->
  asteroids e <> [] ->
  let e' := updateSeeking Math_sqrt Math_sin Math_cos dt i move stride d e in
  (exists (t : Z) (ast : Vector3),
     droneTargetId e' !! i = Some t /\ asteroidAt e' t = Some ast
     /\ (is_Some (asteroidAt e (dTarget d)) -> t = dTarget d)
     /\ (asteroidAt e (dTarget d) = None ->
         t = Z.of_nat (i mod length (asteroids e))))
  /\ asteroids e' = asteroids e
  /\ droneCommandId e' = droneCommandId e
  /\ (forall j : nat, j <> i -> droneTargetId e' !! j = droneTargetId e !! j)
  /\ (exists load : Q,
        droneLoad e' !! i = Some load
        /\ (load = dLoad d
            \/ load = dLoad d + dt * inject_Z (Z.of_nat stride) * 10
                                * miningSpeed (state e))
        /\ (droneState e' !! i = Some STATE_MINING_SEEK
            \/ droneState e' !! i = Some STATE_RETURNING
               /\ cargoCapacity (state e) <= load)).
Proof.
  intros Hd Hs Hne.
  destruct (readDrone_fields e i d Hd) as (Fs & Fc & Ft & Fl).
  rewrite Hs in Fs.
  assert (Hin : (i < length (droneTargetId e))%nat)
    by (apply lookup_lt_is_Some; eauto).
  assert (Hinl : (i < length (droneLoad e))%nat)
    by (apply lookup_lt_is_Some; eauto).
  assert (Hins : (i < length (droneState e))%nat)
    by (apply lookup_lt_is_Some; eauto).
  assert (Hcount : (0 <? length (asteroids e))%nat = true).
  { apply Nat.ltb_lt. destruct (asteroids e); [contradiction | cbn; lia]. }
  cbv zeta. unfold updateSeeking. cbv zeta. rewrite Hcount, andb_true_r.
  set (e1 := if (dTarget d =? -1)%Z
                || negb (bool_decide (is_Some (asteroidAt e (dTarget d))))
             then set_droneTargetId
                    (<[i := Z.of_nat (i mod length (asteroids e))]>
                       (droneTargetId e)) e
             else e).
  assert (H1 : exists (t : Z) (ast : Vector3),
            droneTargetId e1 !! i = Some t /\ asteroidAt e1 t = Some ast
            /\ (is_Some (asteroidAt e (dTarget d)) -> t = dTarget d)
            /\ (asteroidAt e (dTarget d) = None ->
                t = Z.of_nat (i mod length (asteroids e)))
            /\ asteroids e1 = asteroids e
            /\ droneCommandId e1 = droneCommandId e
            /\ droneLoad e1 = droneLoad e /\ droneState e1 = droneState e
            /\ state e1 = state e
            /\ length (droneState e1) = length (droneState e)
            /\ (forall j : nat, j <> i ->
                  droneTargetId e1 !! j = droneTargetId e !! j)).
  { destruct (asteroidAt e (dTarget d)) as [a0|] eqn:Ha0.
    - assert (Hnot : (dTarget d =? -1)%Z = false).
      { apply Z.eqb_neq. intros Heq. rewrite Heq in Ha0. discriminate. }
      unfold e1. rewrite Hnot, bool_decide_eq_true_2 by eauto. cbn [orb negb].
      exists (dTarget d), a0.
      split; [exact Ft |]. split; [exact Ha0 |].
      split; [intros _; reflexivity |]. split; [discriminate |].
      repeat split; reflexivity.
    - assert (Hcond : (dTarget d =? -1)%Z
                      || negb (bool_decide (is_Some (@None Vector3))) = true).
      { rewrite bool_decide_eq_false_2 by (intros [? ?]; discriminate).
        apply orb_true_r. }
      unfold e1. rewrite Hcond.
      destruct (asteroidAt_mod e i Hne) as [ast Hast].
      exists (Z.of_nat (i mod length (asteroids e))), ast.
      split; [apply list_lookup_insert_eq; exact Hin |].
      split; [exact Hast |].
      split; [intros [? ?]; discriminate |].
      split; [reflexivity |].
      repeat split; try reflexivity.
      intros j Hj. cbn. apply list_lookup_insert_ne. congruence. }
  clearbody e1.
  destruct H1 as (t & ast & Ht & Hast & Hkeep & Hre & Ea & Ec & El & Es
                  & Est & Elen & Hother).
  rewrite Ht. change (default (dTarget d) (Some t)) with t. rewrite Hast.
  set (load := dLoad d + dt * inject_Z (Z.of_nat stride) * 10
                         * miningSpeed (state e1)).
  destruct (Qlt_bool (distanceToSquared (dPos d) ast) 3000).
  - destruct (Qle_bool (cargoCapacity (state (set_droneLoad _ e1))) load)
      eqn:Hfull.
    + split.
      { exists t, ast.
        split; [exact Ht |]. split; [exact Hast |]. auto. }
      unfold writePos. cbn. rewrite Ea, Ec.
      split; [reflexivity |]. split; [reflexivity |].
      split; [exact Hother |].
      exists load. rewrite El, Es.
      split; [apply list_lookup_insert_eq; exact Hinl |].
      split; [right; unfold load; rewrite Est; reflexivity |].
      right. split; [apply list_lookup_insert_eq; exact Hins |].
      apply Qle_bool_iff in Hfull. cbn in Hfull. rewrite Est in Hfull.
      exact Hfull.
    + split.
      { exists t, ast.
        split; [exact Ht |]. split; [exact Hast |]. auto. }
      unfold writePos. cbn. rewrite Ea, Ec.
      split; [reflexivity |]. split; [reflexivity |].
      split; [exact Hother |].
      exists load. rewrite El, Es.
      split; [apply list_lookup_insert_eq; exact Hinl |].
      split; [right; unfold load; rewrite Est; reflexivity |].
      left. exact Fs.
  - split.
    { exists t, ast.
      split; [exact Ht |]. split; [exact Hast |]. auto. }
    unfold writePos. cbn. rewrite Ea, Ec.
    split; [reflexivity |]. split; [reflexivity |].
    split; [exact Hother |].
    exists (dLoad d). rewrite El, Es.
    split; [exact Fl |]. split; [left; reflexivity |]. left. exact Fs.
Qed.
End Mining.

Lemma seeking_keeps_valid_target_witness :
  droneTargetId
    (updateSeeking Qsqrt noJitter noJitter (1 # 10) 1 5 1 secondMiner
       miningEngine) !! 1%nat = Some 1%Z.
Proof.
  destruct (seeking_keeps_valid_target Qsqrt noJitter noJitter (1 # 10) 1 5 1
              secondMiner miningEngine)
    as ((t & ast & Ht & _ & _ & Hre) & _).
  - reflexivity.
  - reflexivity.
  - discriminate.
  - rewrite Ht, Hre; reflexivity.
Defined.

(** ** The mining economy over a frame *)

Lemma releaseDrone_ledger (id : Z) (e : Engine) (i : nat) :
  ledger (releaseDrone id e i) = ledger e.
Proof. unfold releaseDrone. case_bool_decide; reflexivity. Qed.

Lemma foldl_releaseDrone_ledger (id : Z) (l : list nat) :
  forall e : Engine, ledger (foldl (releaseDrone id) e l) = ledger e.
Proof.
  induction l as [|i l IH]; intros e; cbn [foldl]; [reflexivity |].
  rewrite IH. apply releaseDrone_ledger.
Qed.

Lemma removeSquad_ledger (id : Z) (reason : string) (e : Engine) :
  ledger (removeSquad id reason e) = ledger e.
Proof.
  unfold removeSquad. destruct (findCommand e id); [| reflexivity].
  cbv zeta.
  set (e2 := set_state _ _).
  assert (H2 : ledger e2 = ledger e) by reflexivity.
  pose proof (foldl_releaseDrone_ledger id (seq 0 (droneCount (state e2))) e2)
    as H3.
  set (e3 := foldl (releaseDrone id) e2 _) in *. clearbody e3 e2.
  rewrite <- H2, <- H3.
  repeat case_bool_decide; reflexivity.
Qed.

Lemma earns_ledger (e e' : Engine) :
  loadsNonneg e -> ledger e' = ledger e -> earns e e'.
Proof.
  unfold ledger, earns, loadsNonneg. intros Hl [= Hd Hr Hm].
  rewrite Hd, Hr, Hm. split; [reflexivity |]. split; [apply Qle_refl | exact Hl].
Qed.

Lemma earns_trans (e1 e2 e3 : Engine) :
  earns e1 e2 -> earns e2 e3 -> earns e1 e3.
Proof.
  intros (Hm1 & Hr1 & _) (Hm2 & Hr2 & Hl). split; [congruence |].
  split; [eapply Qle_trans; eassumption | exact Hl].
Qed.

Lemma floor_nonneg (q : Q) : 0 <= q -> 0 <= inject_Z (Math_floor q).
Proof.
  intros H. unfold Math_floor.
  change 0 with (inject_Z 0). rewrite <- Zle_Qle.
  change 0%Z with (Qfloor 0). apply Qfloor_resp_le. exact H.
Qed.

Section Economy.
Variables Math_sqrt Math_sin Math_cos : Q -> Q.
Variable Math_random : nat -> Q.

Lemma meleeAttack_ledger (pos : Vector3) (stride : nat) (e : Engine) :
  ledger (meleeAttack Math_sqrt Math_random pos stride e) = ledger e.
Proof. unfold meleeAttack. repeat case_match; reflexivity. Qed.

Lemma updateSingleDrone_earns (dt : Q) (cmdMap : gmap Z ref) (i : nat)
    (move : Q) (stride : nat) (e e' : Engine) :
  0 <= dt -> 0 <= miningSpeed (state e) -> loadsNonneg e ->
  updateSingleDrone Math_sqrt Math_sin Math_cos Math_random dt cmdMap i
    move stride e = Some e' ->
  earns e e'.
Proof.
  intros Hdt Hms Hl. unfold updateSingleDrone.
  destruct (readDrone e i) as [d|] eqn:Hd;
    [| intros [= <-]; apply earns_ledger; [exact Hl | reflexivity]].
  destruct (readDrone_fields e i d Hd) as (_ & _ & _ & Fl).
  assert (Hload : 0 <= dLoad d).
  { unfold loadsNonneg in Hl. rewrite Forall_lookup in Hl.
    exact (Hl i _ Fl). }
  destruct (dState d).
  - intros [= <-]. unfold updateSeeking, writePos. cbv zeta.
    set (e1 := if _ : bool then _ else e).
    assert (H1 : ledger e1 = ledger e)
      by (unfold e1; case_match; reflexivity).
    clearbody e1. injection H1 as Hd1 Hr1 Hm1.
    assert (Hgain : 0 <= dLoad d + dt * inject_Z (Z.of_nat stride) * 10
                                   * miningSpeed (state e1)).
    { rewrite Hm1.
      assert (0 <= inject_Z (Z.of_nat stride))
        by (change 0 with (inject_Z 0); rewrite <- Zle_Qle; lia).
      assert (0 <= dt * inject_Z (Z.of_nat stride))
        by (apply Qmult_le_0_compat; assumption).
      assert (0 <= dt * inject_Z (Z.of_nat stride) * 10)
        by (apply Qmult_le_0_compat; [assumption | lra]).
      assert (0 <= dt * inject_Z (Z.of_nat stride) * 10
                   * miningSpeed (state e))
        by (apply Qmult_le_0_compat; assumption).
      lra. }
    assert (Hle1 : resources (state e) <= resources (state e1))
      by (rewrite Hr1; apply Qle_refl).
    assert (Hl1 : Forall (fun l : Q => 0 <= l) (droneLoad e1))
      by (rewrite Hd1; exact Hl).
    unfold earns, loadsNonneg.
    destruct (asteroidAt e1 _) as [ast|];
      [| exact (conj Hm1 (conj Hle1 Hl1))].
    destruct (Qlt_bool _ 3000); [| exact (conj Hm1 (conj Hle1 Hl1))].
    destruct (Qle_bool _ _);
      exact (conj Hm1 (conj Hle1 (Forall_insert _ _ i _ Hl1 Hgain))).
  - intros [= <-]. unfold updateReturning, writePos. cbv zeta.
    unfold earns, loadsNonneg.
    case_match; cbn.
    + split; [reflexivity |]. split.
      * pose proof (floor_nonneg (dLoad d) Hload). lra.
      * apply Forall_insert; [exact Hl | apply Qle_refl].
    + split; [reflexivity |]. split; [apply Qle_refl | exact Hl].
  - destruct (cmdMap !! dCommand d) as [r|];
      [| intros [= <-]; apply earns_ledger; [exact Hl | reflexivity]].
    destruct (lookupCmd e r) as [cmd|];
      [| intros [= <-]; apply earns_ledger; [exact Hl | reflexivity]].
    destruct (cmdType cmd).
    + unfold updateSwarm. cbv zeta.
      destruct (pointAt _ _) as [target|]; [| discriminate].
      cbn [mbind option_bind].
      destruct (Qlt_bool _ move).
      * destruct (_ <? _)%Z.
        -- intros [= <-]. apply earns_ledger; [exact Hl |].
           unfold writePos, ledger. cbn.
           pose proof (meleeAttack_ledger target stride
                         (set_droneTargetId
                            (<[i := (dTarget d + 1)%Z]> (droneTargetId e)) e))
             as Hm.
           unfold ledger in Hm. cbn in Hm. exact Hm.
        -- set (e4 := decrementActive r _).
           assert (H4 : ledger e4 = ledger e) by reflexivity.
           clearbody e4.
           destruct (lookupCmd e4 r) as [cmd'|];
             [| intros [= <-]; apply earns_ledger; assumption].
           destruct (_ <=? _)%Z; intros [= <-];
             (apply earns_ledger; [exact Hl |]);
             rewrite ?removeSquad_ledger; exact H4.
      * intros [= <-]. apply earns_ledger; [exact Hl |].
        unfold writePos, ledger. cbn.
        pose proof (meleeAttack_ledger
                      (steerToward Math_sqrt (dPos d) target move) stride e)
          as Hm.
        unfold ledger in Hm. exact Hm.
    + unfold updateWall. cbv zeta.
      destruct (_ =? 0)%Z; [discriminate |].
      destruct (pointAt _ _) as [target|]; [| discriminate].
      cbn [mbind option_bind]. intros [= <-].
      apply earns_ledger; [exact Hl | reflexivity].
Qed.

Lemma runLoop_earns (dt : Q) (cmdMap : gmap Z ref) (move : Q)
    (stride : nat) (indices : list nat) :
  0 <= dt ->
  forall e e' : Engine,
  0 <= miningSpeed (state e) -> loadsNonneg e ->
  runLoop Math_sqrt Math_sin Math_cos Math_random dt cmdMap move stride
    indices e = Some e' ->
  earns e e'.
Proof.
  intros Hdt. unfold runLoop.
  induction indices as [|i indices IH]; intros e e' Hms Hl; cbn [foldl].
  - intros [= <-]. apply earns_ledger; [exact Hl | reflexivity].
  - cbn [mbind option_bind].
    destruct (updateSingleDrone _ _ _ _ dt cmdMap i move stride e)
      as [e1|] eqn:He1.
    + intros Hrest.
      pose proof (updateSingleDrone_earns dt cmdMap i move stride e e1
                    Hdt Hms Hl He1) as H1.
      apply (earns_trans e e1 e'); [exact H1 |].
      destruct H1 as (Hm1 & _ & Hl1).
      apply IH; [rewrite Hm1; exact Hms | exact Hl1 | exact Hrest].
    + intros Hnone. exfalso. revert Hnone. clear.
      induction indices as [|j indices IH]; cbn [foldl]; [discriminate |].
      exact IH.
Qed.

(** A frame of drone updates never costs resources: when no drone
    carries a negative load and neither the frame time nor the mining
    speed is negative, the resources after [updateDrones] are at least
    what they were, and still no drone carries a negative load. *)
Theorem updateDrones_never_loses (dt : Q) (e e' : Engine) :
  0 <= dt -> 0 <= miningSpeed (state e) -> loadsNonneg e ->
  updateDrones Math_sqrt Math_sin Math_cos Math_random dt e = Some e' ->
  resources (state e) <= resources (state e') /\ loadsNonneg e'.
Proof.
  intros Hdt Hms Hl. unfold updateDrones.
  destruct (droneCount (state e) =? 0)%nat.
  { intros [= <-]. split; [apply Qle_refl | exact Hl]. }
  cbv zeta.
  destruct (runLoop _ _ _ _ dt (buildCmdMap e) _ _ _ e) as [e1|] eqn:He1;
    [| discriminate].
  cbn [mbind option_bind].
  pose proof (runLoop_earns _ _ _ _ _ Hdt _ _ Hms Hl He1)
    as (Hm1 & Hr1 & Hl1).
  destruct (_ <? _)%nat.
  - intros He2.
    assert (Hms1 : 0 <= miningSpeed (state e1)) by (rewrite Hm1; exact Hms).
    pose proof (runLoop_earns _ _ _ _ _ Hdt _ _ Hms1 Hl1 He2)
      as (_ & Hr2 & Hl2).
    split; [eapply Qle_trans; eassumption | exact Hl2].
  - intros [= <-]. split; [exact Hr1 | exact Hl1].
Qed.
End Economy.

Lemma updateDrones_never_loses_witness :
  exists e' : Engine,
    updateDrones Qsqrt noJitter noJitter alwaysZero (1 # 10) miningEngine
    = Some e'
    /\ resources (state miningEngine) <= resources (state e')
    /\ loadsNonneg e'.
Proof.
  destruct (updateDrones Qsqrt noJitter noJitter alwaysZero (1 # 10)
              miningEngine) as [e'|] eqn:He.
  - exists e'. split; [reflexivity |].
    apply (updateDrones_never_loses Qsqrt noJitter noJitter alwaysZero
             (1 # 10) miningEngine e').
    + vm_compute. discriminate.
    + vm_compute. discriminate.
    + unfold loadsNonneg. cbn. repeat constructor; vm_compute; discriminate.
    + exact He.
  - vm_compute in He. discriminate.
Defined.

(** ** The shield over a frame *)

Lemma foldl_removeDrone_shield (l : list nat) :
  forall e : Engine,
  shieldOf (foldl (fun e' idx => removeDrone idx e') e l) = shieldOf e.
Proof.
  induction l as [|i l IH]; intros e; cbn [foldl]; [reflexivity |].
  rewrite IH. unfold removeDrone. case_bool_decide; reflexivity.
Qed.

Lemma foldl_stepMissile_shield (dt : Q) (ms : list Missile) :
  Forall (fun m : Missile => 0 <= damage m) ms ->
  forall acc : Engine * list Missile * DamageQueue,
  shieldMax (state (foldl (stepMissile dt) acc ms).1.1)
  = shieldMax (state acc.1.1)
  /\ shieldCurrent (state (foldl (stepMissile dt) acc ms).1.1)
     <= shieldCurrent (state acc.1.1).
Proof.
  induction 1 as [|m ms Hm _ IH]; intros acc; cbn [foldl].
  - split; [reflexivity | apply Qle_refl].
  - destruct (IH (stepMissile dt acc m)) as [Hmax Hcur].
    rewrite Hmax. clear IH Hmax.
    assert (Hstep : shieldMax (state (stepMissile dt acc m).1.1)
                    = shieldMax (state acc.1.1)
                    /\ shieldCurrent (state (stepMissile dt acc m).1.1)
                       <= shieldCurrent (state acc.1.1)).
    { destruct acc as [[e kept] queue]. unfold stepMissile.
      destruct (missileFate e _); cbn [fst];
        try (split; [reflexivity | apply Qle_refl]).
      unfold hitMothership. repeat case_match; cbn;
        (split; [reflexivity |]); lra. }
    destruct Hstep as [Hmax' Hcur'].
    split; [exact Hmax' | eapply Qle_trans; eassumption].
Qed.

Section ShieldUnderFire.
Variable Math_random : nat -> Q.

Lemma applyWallHit_shield (cid : Z) (members : list nat)
    (acc : Engine * list nat) (dmg : Q) :
  shieldOf (applyWallHit Math_random cid members acc dmg).1 = shieldOf acc.1.
Proof.
  unfold applyWallHit. destruct acc as [e dead].
  destruct (pickLiving _ _ _ _ _) as [target calls]. cbv zeta.
  repeat case_match; reflexivity.
Qed.

Lemma foldl_applyWallDamage_shield (queue : DamageQueue) :
  forall acc : Engine * list nat,
  shieldOf (foldl (applyWallDamage Math_random) acc queue).1 = shieldOf acc.1.
Proof.
  induction queue as [|entry queue IH]; intros acc; cbn [foldl];
    [reflexivity |].
  rewrite IH. unfold applyWallDamage.
  destruct (squadMembers acc.1 entry.1) as [|i members]; [reflexivity |].
  generalize (i :: members). intros ms.
  generalize (snd entry). intros dmgs. revert acc.
  induction dmgs as [|d dmgs IHd]; intros acc; cbn [foldl]; [reflexivity |].
  rewrite IHd. apply applyWallHit_shield.
Qed.

Lemma updateMissiles_shield (dt : Q) (e : Engine) :
  Forall (fun m : Missile => 0 <= damage m) (missiles e) ->
  shieldMax (state (updateMissiles Math_random dt e)) = shieldMax (state e)
  /\ shieldCurrent (state (updateMissiles Math_random dt e))
     <= shieldCurrent (state e).
Proof.
  intros Hdmg. unfold updateMissiles.
  assert (Hrev : Forall (fun m : Missile => 0 <= damage m) (rev (missiles e)))
    by (apply Forall_rev; exact Hdmg).
  pose proof (foldl_stepMissile_shield dt (rev (missiles e)) Hrev (e, [], []))
    as Hstep.
  destruct (foldl (stepMissile dt) (e, [], []) (rev (missiles e)))
    as [[e1 kept] queue].
  cbn [fst] in Hstep.
  destruct queue as [|entry queue]; [exact Hstep |].
  pose proof (foldl_applyWallDamage_shield (entry :: queue)
                (set_missiles kept e1, [])) as Hq.
  destruct (foldl (applyWallDamage Math_random)
              (set_missiles kept e1, []) (entry :: queue)) as [e3 dead].
  cbn [fst] in Hq.
  pose proof (foldl_removeDrone_shield (sortDescending dead) e3) as Hr.
  rewrite Hq in Hr. injection Hr as Hc Hm. rewrite Hc, Hm. exact Hstep.
Qed.

(** The shield stays at most five above its capacity through a frame of
    at most a tenth of a second: the regeneration caps it at the
    capacity, missiles of non-negative damage only lower it, and the
    regeneration that runs while no enemy is left adds fifty times the
    frame time without a cap.  That last step does take a shield that
    is below the capacity by less than its increment above the
    capacity. *)
Theorem shield_overshoot_bounded (dt : Q) (e : Engine) :
  0 <= dt -> dt <= 1 # 10 ->
  Forall (fun m : Missile => 0 <= damage m) (missiles e) ->
  shieldBounded (state e) ->
  shieldBounded (regenShield dt (state e))
  /\ shieldBounded (state (updateMissiles Math_random dt e))
  /\ shieldBounded (idleShieldRegen dt (state e))
  /\ (shieldMax (state e) - dt * 50 < shieldCurrent (state e) ->
      shieldCurrent (state e) < shieldMax (state e) ->
      shieldMax (state e) < shieldCurrent (idleShieldRegen dt (state e))).
Proof.
  intros Hdt0 Hdt1 Hdmg Hb. unfold shieldBounded in *.
  split; [| split; [| split]].
  - unfold regenShield.
    destruct (Qlt_bool (shieldCurrent (state e)) (shieldMax (state e))
              && Qlt_bool 0 (shieldRegen (state e))); [| exact Hb].
    cbn.
    pose proof (Q.le_min_l (shieldMax (state e))
                  (shieldCurrent (state e)
                   + shieldRegen (state e) * dt * 20)).
    lra.
  - destruct (updateMissiles_shield dt e Hdmg) as [Hm Hc].
    rewrite Hm. lra.
  - unfold idleShieldRegen.
    destruct (Qlt_bool (shieldCurrent (state e)) (shieldMax (state e)))
      eqn:Hlt; [| exact Hb].
    apply Qlt_bool_iff in Hlt. cbn. lra.
  - intros Hnear Hlt. unfold idleShieldRegen.
    assert (Qlt_bool (shieldCurrent (state e)) (shieldMax (state e)) = true)
      as -> by (apply Qlt_bool_iff; exact Hlt).
    cbn. lra.
Qed.
End ShieldUnderFire.

Lemma shield_overshoot_bounded_witness :
  shieldBounded
    (state (updateMissiles alwaysZero (1 # 10)
              (set_missiles [exampleMissile] exampleEngine)))
  /\ shieldBounded (idleShieldRegen (1 # 10) (state exampleEngine)).
Proof.
  destruct (shield_overshoot_bounded alwaysZero (1 # 10)
              (set_missiles [exampleMissile] exampleEngine))
    as (_ & Hm & Hi & _).
  - vm_compute. discriminate.
  - vm_compute. discriminate.
  - apply Forall_cons_2; [vm_compute; discriminate | apply Forall_nil_2].
  - vm_compute. discriminate.
  - split; [exact Hm | exact Hi].
Defined.

(** ** Deploying a squad and recalling it *)

Lemma findCommand_None (e : Engine) (id : Z) :
  id ∉ registryIds e -> findCommand e id = None.
Proof.
  unfold findCommand, registryIds.
  induction (commands e) as [|r l IH]; intros Hnot; [reflexivity |].
  cbn [List.find omap list_omap] in *. unfold hasId at 1.
  destruct (lookupCmd e r) as [c|]; cbn in Hnot.
  - apply not_elem_of_cons in Hnot as [Hne Hnot].
    destruct (Z.eqb_spec (cmdId c) id) as [Heq|_]; [congruence |].
    apply IH, Hnot.
  - apply IH, Hnot.
Qed.

Lemma findCommand_Some (e : Engine) (id : Z) :
  id ∈ registryIds e -> is_Some (findCommand e id).
Proof.
  unfold findCommand, registryIds.
  induction (commands e) as [|r l IH]; intros Hin;
    [apply elem_of_nil in Hin; contradiction |].
  cbn [List.find omap list_omap] in *. unfold hasId at 1.
  destruct (lookupCmd e r) as [c|]; cbn in Hin.
  - destruct (Z.eqb_spec (cmdId c) id) as [Heq|Hne]; [eauto |].
    apply elem_of_cons in Hin as [Heq | Hin]; [congruence |].
    apply IH, Hin.
  - apply IH, Hin.
Qed.

(** Recalling the squad a deployment has just made undoes the
    deployment in the registry: the commands and their objects are the
    ones from before it and [activeSquads] is back at its value, whether
    or not the deployment went through.  The drones it had assigned are
    seeking, with no command and no target. *)
Theorem deploy_then_recall (Math_sqrt : Q -> Q) (reason : string)
    (e : Engine) :
  registryOk e -> storeFits e (droneCount (state e)) ->
  let id := (nextCommandId e + 1)%Z in
  let e2 := removeSquad id reason (createSquadFromPending Math_sqrt e) in
  commands e2 = commands e
  /\ activeSquads (state e2) = activeSquads (state e)
  /\ (forall r : ref, r ∈ commands e -> lookupCmd e2 r = lookupCmd e r)
  /\ (forall i : nat,
        (2 <= length (pendingPath e))%nat ->
        i ∈ take (Z.to_nat (needed e)) (eligiblePool e) ->
        droneState e2 !! i = Some STATE_MINING_SEEK
        /\ droneCommandId e2 !! i = Some (-1)%Z
        /\ droneTargetId e2 !! i = Some (-1)%Z).
Proof.
  intros Hok Hfit id e2.
  pose proof Hok as (H1 & H2 & H3 & H0 & H4).
  assert (Hfresh : id ∉ registryIds e).
  { intros Hin. apply H3 in Hin. unfold id in Hin. lia. }
  destruct (Nat.ltb_spec (length (pendingPath e)) 2) as [Hshort|Hlen].
  { assert (He1 : createSquadFromPending Math_sqrt e = set_pendingPath [] e).
    { unfold createSquadFromPending.
      apply Nat.ltb_lt in Hshort. rewrite Hshort. reflexivity. }
    assert (He2 : e2 = set_pendingPath [] e).
    { unfold e2. rewrite He1. unfold removeSquad.
      rewrite (findCommand_ext e (set_pendingPath [] e) id) by reflexivity.
      rewrite (findCommand_None e id Hfresh). reflexivity. }
    rewrite He2. split; [reflexivity |]. split; [reflexivity |].
    split; [reflexivity |]. intros i Hlen. lia. }
  destruct (decide (eligibleDrones e = [])) as [Hnil|Hne].
  { assert (He2 : e2 = set_pendingPath [] (emit (Text "NO IDLE DRONES") e)).
    { unfold e2. rewrite (createSquad_rejected Math_sqrt e Hlen Hnil).
      unfold removeSquad.
      rewrite (findCommand_ext e (set_pendingPath [] (emit _ e)) id)
        by reflexivity.
      rewrite (findCommand_None e id Hfresh). reflexivity. }
    rewrite He2. split; [reflexivity |]. split; [reflexivity |].
    split; [reflexivity |]. intros i _ Hi.
    rewrite eligiblePool_take, Hnil, take_nil in Hi.
    apply elem_of_nil in Hi. contradiction. }
  pose proof (createSquad_registry Math_sqrt e Hlen Hne)
    as (Hcmds & Hobjs & Hnext & _ & Hst & _).
  pose proof (createSquad_slots Math_sqrt e Hlen Hne Hfit) as [Hin _].
  pose proof (createSquad_lengths Math_sqrt e)
    as (_ & _ & _ & Ls & Lc & Lt & Ln).
  cbv zeta in Hcmds, Hobjs, Hnext, Hst, Hin, Ls, Lc, Lt, Ln.
  unfold e2. clear e2.
  set (e1 := createSquadFromPending Math_sqrt e) in *. clearbody e1.
  set (cmd := set_activeDroneCount _ (newCommand Math_sqrt e)) in *.
  assert (Hcid : cmdId cmd = id) by reflexivity.
  assert (Hold : forall r : ref, r ∈ commands e ->
                   lookupCmd e1 r = lookupCmd e r).
  { intros r Hr. unfold lookupCmd. rewrite Hobjs.
    apply lookup_app_l, lookup_lt_is_Some, H1, Hr. }
  assert (Hnew : lookupCmd e1 (length (commandObjs e)) = Some cmd).
  { unfold lookupCmd. rewrite Hobjs.
    rewrite lookup_app_r by lia. rewrite Nat.sub_diag. reflexivity. }
  assert (Hreg : id ∈ registryIds e1).
  { apply registryIds_elem. exists (length (commandObjs e)), cmd.
    rewrite Hcmds. split; [apply elem_of_app; right; left |].
    split; [exact Hnew | exact Hcid]. }
  destruct (removeSquad_found id reason e1 (findCommand_Some e1 id Hreg))
    as (Rcmds & Robjs & Rst & _ & Rds & Rdc & Rdt & _).
  cbv zeta in Rcmds, Robjs, Rst, Rds, Rdc, Rdt.
  set (e2 := removeSquad id reason e1) in *. clearbody e2.
  assert (Hkeep : List.filter (fun r => negb (hasId e1 id r)) (commands e)
                  = commands e).
  { apply filter_keep_all. intros r Hr. unfold hasId.
    rewrite (Hold r Hr).
    destruct (lookupCmd e r) as [c|] eqn:Hc; [| reflexivity].
    apply negb_true_iff, Z.eqb_neq. intros Heq. apply Hfresh.
    apply registryIds_elem. exists r, c. auto. }
  assert (Hcmds2 : commands e2 = commands e).
  { rewrite Rcmds, Hcmds, List.filter_app, Hkeep.
    cbn [List.filter]. unfold hasId. rewrite Hnew, Hcid, Z.eqb_refl.
    cbn. apply app_nil_r. }
  split; [exact Hcmds2 |].
  split; [rewrite Rst, Hcmds2; cbn; symmetry; exact H4 |].
  split.
  { intros r Hr. unfold lookupCmd at 1. rewrite Robjs.
    apply (Hold r Hr). }
  intros i _ Hi. rewrite eligiblePool_take in Hi.
  assert (Hlive : (i < droneCount (state e))%nat)
    by (apply eligibleDrones_live, assigned_eligible, Hi).
  apply list_elem_of_lookup in Hi as (j & Hj).
  destruct (Hin j i Hj) as (_ & Hc & _).
  destruct (releaseDrones_spec id e1 (droneCount (state e1)))
    as (_ & Hrel & _).
  destruct Hfit as (_ & F1 & F2 & _).
  rewrite Rds, Rdc, Rdt.
  apply Hrel; [lia | exact Hc | lia | lia].
Qed.

Lemma deploy_then_recall_witness :
  commands (removeSquad (nextCommandId exampleEngine + 1) EmptyString
              (createSquadFromPending Qsqrt exampleEngine))
  = commands exampleEngine.
Proof.
  destruct (deploy_then_recall Qsqrt EmptyString exampleEngine) as (Hc & _).
  - apply registryOk_empty; [reflexivity | cbn; lia | reflexivity].
  - unfold storeFits. cbn. lia.
  - exact Hc.
Defined.

(** * The stride scheduler over frames *)

(** ** Steering along a line *)

Section Line.
Variable Math_sqrt : Q -> Q.
Hypothesis Math_sqrt_proper :
  forall x y : Q, x == y -> Math_sqrt x == Math_sqrt y.

Variables (pos target : Vector3) (D : Q).
Hypothesis D_pos : 0 < D.

(** [D] is the distance from [pos] to [target] as [Math.sqrt] gives it,
    and along the line the root scales with the distance, as the real
    square root does. *)
Hypothesis Math_sqrt_line :
  forall c : Q, 0 <= c ->
  Math_sqrt (c * c * distanceToSquared pos target) == c * D.

(** The squared distance left at [s] along the line. *)
Lemma along_distanceSq (p : Vector3) (s : Q) :
  p =v= along pos target D s ->
  distanceToSquared p target
  == (D - s) / D * ((D - s) / D) * distanceToSquared pos target.
Proof.
  intros (Hx & Hy & Hz).
  unfold along, lerpVectors in Hx, Hy, Hz. cbn [vx vy vz] in Hx, Hy, Hz.
  unfold distanceToSquared in *. cbv zeta in *.
  rewrite Hx, Hy, Hz.
  assert (HD : ~ D == 0) by lra.
  field. exact HD.
Qed.

Lemma along_distance (p : Vector3) (s : Q) :
  s <= D -> p =v= along pos target D s ->
  distanceTo Math_sqrt p target == D - s.
Proof.
  intros Hs Hp. unfold distanceTo.
  rewrite (Math_sqrt_proper _ _ (along_distanceSq p s Hp)).
  rewrite Math_sqrt_line.
  - field. lra.
  - apply Qle_shift_div_l; [exact D_pos | lra].
Qed.

(** Short of the target, a steering step advances by the whole budget
    along the line. *)
Lemma steerToward_along (p : Vector3) (s move : Q) :
  s < D -> p =v= along pos target D s ->
  steerToward Math_sqrt p target move =v= along pos target D (s + move).
Proof.
  intros Hs Hp.
  assert (Hlen : vlength Math_sqrt (subVectors target p) == D - s).
  { unfold vlength.
    transitivity (Math_sqrt (distanceToSquared p target)).
    - apply Math_sqrt_proper.
      unfold lengthSq, distanceToSquared, subVectors. cbn [vx vy vz]. ring.
    - apply along_distance; [lra | exact Hp]. }
  destruct Hp as (Hx & Hy & Hz).
  unfold along, lerpVectors in *. cbn [vx vy vz] in Hx, Hy, Hz.
  unfold steerToward, normalize, divideScalar, multiplyScalar,
    addScaledVector, veq.
  set (len := vlength Math_sqrt (subVectors target p)) in *.
  assert (Hone : orOne len = len).
  { unfold orOne, Qeqb. destruct (Qeq_bool len 0) eqn:E; [| reflexivity].
    apply Qeq_bool_iff in E. lra. }
  rewrite Hone. unfold subVectors. cbn [vx vy vz].
  assert (HD : ~ D == 0) by lra.
  assert (HDs : ~ D - s == 0) by lra.
  rewrite Hlen, Hx, Hy, Hz.
  repeat split; field; auto.
Qed.
End Line.

(** ** What the update of one drone leaves of the others *)

Lemma plan_alter (f : Command -> Command) (r : nat) (objs : list Command) :
  (forall c : Command, plan (f c) = plan c) ->
  plan <$> alter f r objs = plan <$> objs.
Proof.
  intros Hf. apply list_eq. intros k.
  rewrite !list_lookup_fmap, list_lookup_alter.
  case_decide as Hk; [| reflexivity].
  subst k. destruct (objs !! r) as [c|]; [| reflexivity].
  change (Some (plan (f c)) = Some (plan c)).
  rewrite Hf. reflexivity.
Qed.

Lemma plan_lookup (e e' : Engine) (r : ref) (cmd : Command) :
  plan <$> commandObjs e' = plan <$> commandObjs e ->
  lookupCmd e r = Some cmd ->
  exists cmd' : Command, lookupCmd e' r = Some cmd' /\ plan cmd' = plan cmd.
Proof.
  intros Hp Hr. unfold lookupCmd in *.
  assert (H : (plan <$> commandObjs e') !! r = Some (plan cmd)).
  { rewrite Hp. apply list_lookup_fmap_Some_2. exact Hr. }
  apply list_lookup_fmap_Some_1 in H as (cmd' & Heq & Hcmd').
  eauto.
Qed.

Lemma sameSchedule_refl (e : Engine) : sameSchedule e e.
Proof. unfold sameSchedule. auto 10. Qed.

Lemma sameSchedule_trans (e1 e2 e3 : Engine) :
  sameSchedule e1 e2 -> sameSchedule e2 e3 -> sameSchedule e1 e3.
Proof.
  intros (A1 & A2 & A3 & A4 & A5 & A6) (B1 & B2 & B3 & B4 & B5 & B6).
  unfold sameSchedule. rewrite B1, B3, B4, B5, B6. auto 10.
Qed.

Ltac solve_schedule :=
  unfold sameSchedule; cbn;
  rewrite ?plan_alter by (intros; reflexivity);
  repeat split; try reflexivity; try (intros; assumption).

Ltac solve_record :=
  apply readDrone_ext; cbn;
  rewrite ?list_lookup_insert_ne by lia; reflexivity.

Lemma foldl_releaseDrone_frame (id : Z) (l : list nat) :
  forall e : Engine, frame (foldl (releaseDrone id) e l) = frame e.
Proof.
  induction l as [|i l IH]; intros e; cbn [foldl]; [reflexivity |].
  rewrite IH. unfold releaseDrone. case_bool_decide; reflexivity.
Qed.

Lemma removeSquad_sameSchedule (id : Z) (reason : string) (e : Engine) :
  sameSchedule e (removeSquad id reason e).
Proof.
  destruct (removeSquad_registry id reason e) as (Hobjs & Hcount & Hsub).
  split; [rewrite Hobjs; reflexivity |].
  split; [exact Hsub |]. split; [exact Hcount |].
  unfold removeSquad. destruct (findCommand e id); [| auto].
  cbv zeta.
  set (e2 := set_state _ (set_commands _ e)).
  pose proof (releaseDrones_spec id e2 (droneCount (state e2))) as Hrel.
  pose proof (foldl_releaseDrone_frame id (seq 0 (droneCount (state e2))) e2)
    as Hfr.
  cbv zeta in Hrel.
  set (e3 := foldl (releaseDrone id) e2 _) in *. clearbody e3.
  destruct Hrel as ((Hst & _) & _).
  repeat case_bool_decide; unfold emit; cbn; rewrite Hst, Hfr;
    repeat split; reflexivity.
Qed.

Lemma removeSquad_record (id : Z) (reason : string) (e : Engine) (i : nat) :
  droneCommandId e !! i <> Some id ->
  readDrone (removeSquad id reason e) i = readDrone e i.
Proof.
  intros Hne.
  destruct (findCommand e id) as [r0|] eqn:Hfind;
    [| unfold removeSquad; rewrite Hfind; reflexivity].
  destruct (removeSquad_found id reason e (mk_is_Some _ _ Hfind))
    as (_ & _ & _ & _ & Rs & Rc & Rt & Rp & Rl & Rh & _).
  cbv zeta in Rs, Rc, Rt.
  destruct (releaseDrones_spec id e (droneCount (state e)))
    as (_ & _ & Hother).
  destruct (Hother i) as (Os & Oc & Ot); [intros [_ H]; contradiction |].
  apply readDrone_ext; rewrite ?Rp, ?Rl, ?Rh, ?Rs, ?Rc, ?Rt; auto.
Qed.

Section OtherDrones.
Variables Math_sqrt Math_sin Math_cos : Q -> Q.
Variable Math_random : nat -> Q.

Lemma meleeAttack_core (pos : Vector3) (stride : nat) (e : Engine) :
  let e' := meleeAttack Math_sqrt Math_random pos stride e in
  state e' = state e /\ commandObjs e' = commandObjs e
  /\ commands e' = commands e /\ frame e' = frame e
  /\ dronePos e' = dronePos e /\ droneState e' = droneState e
  /\ droneTargetId e' = droneTargetId e
  /\ droneCommandId e' = droneCommandId e
  /\ droneLoad e' = droneLoad e /\ droneHP e' = droneHP e.
Proof.
  unfold meleeAttack. repeat case_match; cbn; auto 12.
Qed.

(** The update of drone [j] leaves the record of another drone [i]
    alone, as long as the command of [i], if the frame's map knows it,
    is a Wall: the only update that reaches other drones is the removal
    of a Swarm whose last drone has arrived. *)
Lemma updateSingleDrone_other (dt : Q) (cmdMap : gmap Z ref) (i j : nat)
    (move : Q) (stride : nat) (e e' : Engine) :
  j <> i -> cmdMapOk e cmdMap ->
  (forall (c : Z) (r : ref) (cmd : Command),
     droneCommandId e !! i = Some c -> cmdMap !! c = Some r ->
     lookupCmd e r = Some cmd -> cmdType cmd = WALL) ->
  updateSingleDrone Math_sqrt Math_sin Math_cos Math_random dt cmdMap j
    move stride e = Some e' ->
  sameSchedule e e' /\ readDrone e' i = readDrone e i.
Proof.
  intros Hji [_ Hvals] Hsafe. unfold updateSingleDrone.
  destruct (readDrone e j) as [d|] eqn:Hd;
    [| intros [= <-]; split; [apply sameSchedule_refl | reflexivity]].
  destruct (dState d).
  - intros [= <-]. unfold updateSeeking, writePos.
    split; [repeat case_match; solve_schedule
           | repeat case_match; solve_record].
  - intros [= <-]. unfold updateReturning, writePos.
    split; [repeat case_match; solve_schedule
           | repeat case_match; solve_record].
  - destruct (cmdMap !! dCommand d) as [r|] eqn:Hr;
      [| intros [= <-]; split; [solve_schedule | solve_record]].
    destruct (lookupCmd e r) as [cmd|] eqn:Hcmd;
      [| intros [= <-]; split; [solve_schedule | solve_record]].
    destruct (cmdType cmd) eqn:Htype.
    + unfold updateSwarm. cbv zeta.
      destruct (pointAt _ _) as [target|]; [| discriminate].
      cbn [mbind option_bind].
      destruct (Qlt_bool _ move).
      * destruct (_ <? _)%Z.
        -- intros [= <-].
           pose proof (meleeAttack_core target stride
                         (set_droneTargetId
                            (<[j := (dTarget d + 1)%Z]> (droneTargetId e)) e))
             as (M1 & M2 & M3 & M4 & M5 & M6 & M7 & M8 & M9 & M10).
           cbv zeta in *. cbn in M1, M2, M3, M4, M5, M6, M7, M8, M9, M10.
           split.
           ++ unfold sameSchedule, writePos. cbn.
              rewrite M1, M2, M3, M4. auto 10.
           ++ apply readDrone_ext; unfold writePos; cbn;
                rewrite ?M5, ?M6, ?M7, ?M8, ?M9, ?M10;
                rewrite ?list_lookup_insert_ne by lia; reflexivity.
        -- set (e4 := decrementActive r _).
           assert (H4 : sameSchedule e e4)
             by (unfold e4, decrementActive; solve_schedule).
           assert (R4 : readDrone e4 i = readDrone e i)
             by (unfold e4, decrementActive; solve_record).
           assert (C4 : droneCommandId e4 !! i = droneCommandId e !! i).
           { unfold e4, decrementActive. cbn.
             apply list_lookup_insert_ne. exact Hji. }
           assert (L4 : lookupCmd e4 r
                        = Some (set_activeDroneCount
                                  (activeDroneCount cmd - 1) cmd)).
           { unfold e4, decrementActive, lookupCmd. cbn.
             rewrite list_lookup_alter. case_decide; [| congruence].
             change (commandObjs e !! r) with (lookupCmd e r).
             rewrite Hcmd. reflexivity. }
           rewrite L4. clearbody e4.
           destruct (_ <=? _)%Z; intros [= <-]; [| split; assumption].
           split.
           ++ eapply sameSchedule_trans;
                [exact H4 | apply removeSquad_sameSchedule].
           ++ rewrite removeSquad_record; [exact R4 |].
              rewrite C4. cbn. intros Hc.
              destruct (Hvals _ r Hr) as (cmd0 & Hcmd0 & Hid).
              assert (cmd0 = cmd) as -> by congruence.
              rewrite Hid in Hc.
              pose proof (Hsafe _ r cmd Hc Hr Hcmd). congruence.
      * intros [= <-].
        pose proof (meleeAttack_core
                      (steerToward Math_sqrt (dPos d) target move) stride e)
          as (M1 & M2 & M3 & M4 & M5 & M6 & M7 & M8 & M9 & M10).
        cbv zeta in *.
        split.
        -- unfold sameSchedule, writePos. cbn.
           rewrite M1, M2, M3, M4. auto 10.
        -- apply readDrone_ext; unfold writePos; cbn;
             rewrite ?M5, ?M6, ?M7, ?M8, ?M9, ?M10;
             rewrite ?list_lookup_insert_ne by lia; reflexivity.
    + unfold updateWall. cbv zeta.
      destruct (_ =? 0)%Z; [discriminate |].
      destruct (pointAt _ _) as [target|]; [| discriminate].
      cbn [mbind option_bind]. intros [= <-].
      unfold writePos. split; [solve_schedule | solve_record].
Qed.
End OtherDrones.

(** ** The update of the drone itself *)

Lemma readDrone_writePos (e : Engine) (i : nat) (d : Drone) (p : Vector3) :
  readDrone e i = Some d ->
  readDrone (writePos i p e) i = Some (movedTo p d).
Proof.
  unfold readDrone. intros H.
  destruct (dronePos e !! (i * 3)%nat) as [x|]; [| discriminate].
  destruct (dronePos e !! (i * 3 + 1)%nat) as [y|]; [| discriminate].
  destruct (dronePos e !! (i * 3 + 2)%nat) as [z|] eqn:Hz; [| discriminate].
  assert (Hlen : (i * 3 + 2 < length (dronePos e))%nat)
    by (apply lookup_lt_is_Some; eauto).
  destruct (triple_lookup (dronePos e) i (vx p) (vy p) (vz p) Hlen)
    as (T1 & T2 & T3).
  cbv zeta in T1, T2, T3.
  unfold writePos. cbn [dronePos set_dronePos droneState droneTargetId
                          droneCommandId droneLoad droneHP].
  rewrite T1, T2, T3.
  destruct (droneState e !! i); [| discriminate].
  destruct (droneTargetId e !! i); [| discriminate].
  destruct (droneCommandId e !! i); [| discriminate].
  destruct (droneLoad e !! i); [| discriminate].
  destruct (droneHP e !! i); [| discriminate].
  cbn in H. injection H as <-. destruct p. reflexivity.
Qed.

Lemma heading_moved (e : Engine) (cmdMap : gmap Z ref) (d : Drone)
    (p target : Vector3) :
  heading e cmdMap d target -> heading e cmdMap (movedTo p d) target.
Proof. intros H. exact H. Qed.

Lemma heading_sameSchedule (e e' : Engine) (cmdMap : gmap Z ref) (d : Drone)
    (target : Vector3) :
  sameSchedule e e' -> heading e cmdMap d target ->
  heading e' cmdMap d target.
Proof.
  intros (Hplan & _) [H | (Hs & r & cmd & Hr & Hcmd & Htype & Hpt)];
    [left; exact H |].
  right. split; [exact Hs |].
  destruct (plan_lookup e e' r cmd Hplan Hcmd) as (cmd' & Hcmd' & Heq).
  unfold plan in Heq. injection Heq as Hid Hty Hpa Hsp.
  exists r, cmd'. split; [exact Hr |]. split; [exact Hcmd' |].
  split; [congruence |]. unfold wallIndex in *. rewrite Hsp. exact Hpt.
Qed.

Section TheDrone.
Variables Math_sqrt Math_sin Math_cos : Q -> Q.
Variable Math_random : nat -> Q.

(** A drone that heads for [target] and is not within ten of it steers
    toward it by the whole budget. *)
Lemma updateSingleDrone_visit (dt : Q) (cmdMap : gmap Z ref) (i : nat)
    (move : Q) (stride : nat) (e : Engine) (d : Drone) (target : Vector3) :
  readDrone e i = Some d -> heading e cmdMap d target ->
  10 <= distanceTo Math_sqrt (dPos d) target ->
  updateSingleDrone Math_sqrt Math_sin Math_cos Math_random dt cmdMap i
    move stride e
  = Some (writePos i (steerToward Math_sqrt (dPos d) target move) e).
Proof.
  intros Hd [(Hs & _ & ->) | (Hs & r & cmd & Hr & Hcmd & Htype & Hpt)] Hfar.
  - apply updateSingleDrone_returning; assumption.
  - unfold updateSingleDrone. rewrite Hd, Hs, Hr, Hcmd, Htype.
    unfold updateWall. cbv zeta.
    fold (wallIndex cmd (dTarget d)).
    assert (Hne : (Z.of_nat (length (spreadPoints cmd)) =? 0)%Z = false).
    { apply Z.eqb_neq. intros Hz.
      unfold pointAt in Hpt. destruct (_ <? _)%Z; [discriminate |].
      apply lookup_lt_Some in Hpt. lia. }
    rewrite Hne, Hpt. cbn [mbind option_bind].
    assert (Hgo : Qlt_bool 1 (distanceTo Math_sqrt (dPos d) target) = true)
      by (apply Qlt_bool_iff; lra).
    rewrite Hgo. reflexivity.
Qed.

Lemma stepOk_trans (e1 e2 e3 : Engine) (cmdMap : gmap Z ref) :
  stepOk e1 e2 cmdMap -> stepOk e2 e3 cmdMap -> stepOk e1 e3 cmdMap.
Proof.
  intros (_ & _ & H1) (A & B & H2). split; [exact A |].
  split; [exact B | congruence].
Qed.

(** A loop over distinct indices: the drone moves once if the loop
    visits it, and keeps its heading. *)
Lemma runLoop_drone (dt : Q) (cmdMap : gmap Z ref) (move : Q) (stride : nat)
    (i : nat) (target : Vector3) (l : list nat) :
  NoDup l ->
  forall (e : Engine) (d : Drone),
  wellFormed e /\ commandLinked e -> cmdMapOk e cmdMap ->
  (forall j : nat, j ∈ l -> (j < droneCount (state e))%nat) ->
  readDrone e i = Some d -> heading e cmdMap d target ->
  (i ∈ l -> 10 <= distanceTo Math_sqrt (dPos d) target) ->
  exists e' : Engine,
    runLoop Math_sqrt Math_sin Math_cos Math_random dt cmdMap move stride
      l e = Some e'
    /\ stepOk e e' cmdMap
    /\ sameSchedule e e'
    /\ readDrone e' i
       = Some (if bool_decide (i ∈ l)
               then movedTo (steerToward Math_sqrt (dPos d) target move) d
               else d)
    /\ heading e' cmdMap d target.
Proof.
  unfold runLoop.
  induction 1 as [|j l Hnot Hnd IH]; intros e d Hinv Hmap Hlive Hd Hh Hfar.
  - exists e. split; [reflexivity |].
    split; [split; [exact Hinv |]; split; [exact Hmap | reflexivity] |].
    split; [apply sameSchedule_refl |].
    rewrite bool_decide_eq_false_2 by (intros H; apply elem_of_nil in H; exact H).
    split; [exact Hd | exact Hh].
  - cbn [foldl mbind option_bind].
    destruct (updateSingleDrone_stepOk Math_sqrt Math_sin Math_cos Math_random
                e cmdMap dt j move stride Hinv Hmap)
      as (e1 & He1 & Hok1); [apply Hlive; left |].
    pose proof Hok1 as (Hinv1 & Hmap1 & Hn1).
    rewrite He1.
    assert (Hlive1 : forall j' : nat, j' ∈ l ->
              (j' < droneCount (state e1))%nat).
    { intros j' Hj'. rewrite Hn1. apply Hlive. right. exact Hj'. }
    destruct (decide (j = i)) as [-> | Hji].
    + rewrite (updateSingleDrone_visit dt cmdMap i move stride e d target
                 Hd Hh (Hfar ltac:(left))) in He1.
      injection He1 as <-.
      set (p := steerToward Math_sqrt (dPos d) target move) in *.
      destruct (IH (writePos i p e) (movedTo p d) Hinv1 Hmap1 Hlive1)
        as (e' & He' & Hok' & Hsch' & Hd' & Hh').
      { apply readDrone_writePos. exact Hd. }
      { apply (heading_sameSchedule e); [| exact Hh].
        unfold writePos. solve_schedule. }
      { intros Hin. contradiction. }
      exists e'. split; [exact He' |].
      split; [apply (stepOk_trans _ _ _ _ Hok1 Hok') |].
      split.
      { apply (sameSchedule_trans _ (writePos i p e)); [| exact Hsch'].
        unfold writePos. solve_schedule. }
      rewrite bool_decide_eq_false_2 in Hd' by exact Hnot.
      rewrite bool_decide_eq_true_2 by left.
      split; [exact Hd' | exact Hh'].
    + destruct (readDrone_fields e i d Hd) as (_ & Fc & _).
      destruct (updateSingleDrone_other Math_sqrt Math_sin Math_cos
                  Math_random dt cmdMap i j move stride e e1 Hji Hmap)
        as (Hsch1 & Hrec1); [| exact He1 |].
      { intros c r cmd Hc Hr Hcmd. rewrite Fc in Hc. injection Hc as <-.
        destruct Hh as [(_ & Hnone & _) | (_ & r0 & cmd0 & Hr0 & Hcmd0 & Hty & _)];
          congruence. }
      destruct (IH e1 d Hinv1 Hmap1 Hlive1) as (e' & He' & Hok' & Hsch' & Hd' & Hh').
      { rewrite Hrec1. exact Hd. }
      { apply (heading_sameSchedule e); assumption. }
      { intros Hin. apply Hfar. right. exact Hin. }
      exists e'. split; [exact He' |].
      split; [apply (stepOk_trans _ _ _ _ Hok1 Hok') |].
      split; [apply (sameSchedule_trans _ e1); assumption |].
      split; [| exact Hh'].
      rewrite Hd'. f_equal.
      assert (Hiff : i ∈ j :: l <-> i ∈ l).
      { rewrite elem_of_cons. split; [intros [-> | H]; [contradiction | exact H] | auto]. }
      rewrite (bool_decide_ext _ _ Hiff). reflexivity.
Qed.
End TheDrone.

(** ** The frame's map and the registry *)

Lemma buildCmdMap_registry (e : Engine) (c : Z) (r : ref) :
  buildCmdMap e !! c = Some r ->
  r ∈ commands e
  /\ exists cmd : Command, lookupCmd e r = Some cmd /\ cmdId cmd = c.
Proof.
  unfold buildCmdMap.
  assert (Hgen : forall (refs : list ref) (m : gmap Z ref),
            foldl (fun (m : gmap Z ref) r =>
                     match lookupCmd e r with
                     | Some c => <[cmdId c := r]> m
                     | None => m
                     end) m refs !! c = Some r ->
            m !! c = Some r
            \/ (r ∈ refs
                /\ exists cmd : Command,
                     lookupCmd e r = Some cmd /\ cmdId cmd = c)).
  { induction refs as [|r0 refs IH]; intros m Hm; cbn [foldl] in Hm.
    - left. exact Hm.
    - destruct (lookupCmd e r0) as [c0|] eqn:Hr0.
      + destruct (IH _ Hm) as [Hin | (Hin & Hcmd)].
        * apply lookup_insert_Some in Hin as [[<- <-] | [_ Hin]].
          -- right. split; [left | eauto].
          -- left. exact Hin.
        * right. split; [right; exact Hin | exact Hcmd].
      + destruct (IH _ Hm) as [Hin | (Hin & Hcmd)];
          [left; exact Hin | right; split; [right; exact Hin | exact Hcmd]]. }
  intros H. destruct (Hgen _ _ H) as [Hin | Hin]; [| exact Hin].
  rewrite lookup_empty in Hin. discriminate.
Qed.

(** With distinct ids a command of the registry is known by its id. *)
Lemma registry_ref_unique (e : Engine) (r1 r2 : ref) (c1 c2 : Command) :
  registryOk e -> r1 ∈ commands e -> r2 ∈ commands e ->
  lookupCmd e r1 = Some c1 -> lookupCmd e r2 = Some c2 ->
  cmdId c1 = cmdId c2 -> r1 = r2.
Proof.
  intros (H1 & H2 & _) Hr1 Hr2 Hc1 Hc2 Hid.
  apply list_elem_of_lookup in Hr1 as [a Ha].
  apply list_elem_of_lookup in Hr2 as [b Hb].
  pose proof (registryIds_lookup e a r1 c1 H1 Ha Hc1) as Ia.
  pose proof (registryIds_lookup e b r2 c2 H1 Hb Hc2) as Ib.
  rewrite Hid in Ia.
  pose proof (NoDup_lookup _ _ _ _ H2 Ia Ib) as ->.
  congruence.
Qed.

Lemma steersTo_heading (e : Engine) (i : nat) (d : Drone) (target : Vector3) :
  wellFormed e /\ commandLinked e -> registryOk e ->
  (i < droneCount (state e))%nat -> readDrone e i = Some d ->
  steersTo e i target -> heading e (buildCmdMap e) d target.
Proof.
  intros Hinv Hreg Hi Hd Hsteer.
  destruct (readDrone_fields e i d Hd) as (Fs & Fc & Ft & _).
  destruct (invariant_elim e i _ _ _ Hinv Hi Fs Fc Ft) as (L1 & L2 & _).
  destruct Hsteer as [(Hs & ->) | (Hs & c & t & r & cmd & Hc & Ht & Hr & Hcmd
                                   & Hid & Hty & Hpt)].
  - left. rewrite Fs in Hs. injection Hs as Hs.
    split; [exact Hs |]. split; [| reflexivity].
    destruct (buildCmdMap e !! dCommand d) as [r|] eqn:Hr; [| reflexivity].
    exfalso.
    apply buildCmdMap_registry in Hr as (Hin & cmd & Hcmd & Hid).
    destruct Hreg as (_ & _ & H3 & _).
    assert (Hpos : (0 < dCommand d <= nextCommandId e)%Z).
    { apply H3, registryIds_elem. eauto. }
    assert (dState d = STATE_ATTACKING) by (apply L1; lia).
    congruence.
  - right. rewrite Fs in Hs. injection Hs as Hs.
    rewrite Fc in Hc. injection Hc as <-.
    rewrite Ft in Ht. injection Ht as <-.
    split; [exact Hs |].
    destruct (buildCmdMap_ok e) as [Hkeys _].
    destruct (Hkeys (dCommand d)) as [r' Hr'].
    { exists r, cmd. auto. }
    pose proof Hr' as Hr''.
    apply buildCmdMap_registry in Hr'' as (Hin' & cmd' & Hcmd' & Hid').
    assert (r' = r) as ->.
    { apply (registry_ref_unique e r' r cmd' cmd); auto. congruence. }
    exists r, cmd. auto.
Qed.

(** At the end of a frame the heading found through the map of its
    start is again one through the registry. *)
Lemma heading_steersTo (e0 e' : Engine) (i : nat) (d : Drone)
    (target : Vector3) :
  registryOk e0 -> sameSchedule e0 e' ->
  wellFormed e' /\ commandLinked e' ->
  (i < droneCount (state e'))%nat -> readDrone e' i = Some d ->
  heading e' (buildCmdMap e0) d target -> steersTo e' i target.
Proof.
  intros Hreg (Hplan & Hsub & _) Hinv Hi Hd Hh.
  destruct (readDrone_fields e' i d Hd) as (Fs & Fc & Ft & _).
  destruct Hh as [(Hs & _ & ->) | (Hs & r & cmd & Hr & Hcmd & Hty & Hpt)].
  - left. rewrite Fs, Hs. auto.
  - right. rewrite Fs, Hs. split; [reflexivity |].
    destruct (invariant_elim e' i _ _ _ Hinv Hi Fs Fc Ft) as (L1 & L2 & _).
    destruct (L2 ltac:(apply L1; exact Hs)) as (r2 & cmd2 & Hr2 & Hcmd2 & Hid2).
    apply buildCmdMap_registry in Hr as (Hin0 & cmd0 & Hcmd0 & Hid0).
    destruct (plan_lookup e' e0 r2 cmd2 (eq_sym Hplan) Hcmd2)
      as (cmd20 & Hcmd20 & Heq).
    unfold plan in Heq. injection Heq as Hid20 _ _ _.
    assert (r2 = r) as ->.
    { apply (registry_ref_unique e0 r2 r cmd20 cmd0); auto. congruence. }
    assert (cmd2 = cmd) as -> by congruence.
    exists (dCommand d), (dTarget d), r, cmd. auto 10.
Qed.

(** ** One frame *)

Lemma strideOf_pos (e : Engine) (i : nat) : (1 <= strideOf e i)%nat.
Proof.
  unfold strideOf. destruct (_ <? _)%nat; [apply fgStride_pos | apply bgStride_pos].
Qed.

Lemma visibleCap_le (e : Engine) : (visibleCap e <= droneCount (state e))%nat.
Proof. unfold visibleCap. lia. Qed.

(** The first loop visits the drones below [visibleCap] on the frames of
    phase [0], the second loop the others. *)
Lemma fg_visit (e : Engine) (i : nat) :
  i ∈ strideLoop (frame e
                  mod fgStride (lagOptimization (state e)) (visibleCap e))
        (visibleCap e) (fgStride (lagOptimization (state e)) (visibleCap e))
  <-> (i < visibleCap e)%nat
      /\ phase (strideOf e i) (loopBase e i) i (frame e) = 0%Z.
Proof.
  unfold strideOf, loopBase.
  destruct (Nat.ltb_spec i (visibleCap e)) as [Hlt | Hge].
  - rewrite <- (visited_phase _ 0 (visibleCap e) i (frame e)
                  (fgStride_pos _ _) ltac:(lia)).
    cbn [Nat.add]. tauto.
  - split; [| lia]. intros H. apply strideLoop_bound in H. lia.
Qed.

Lemma bg_visit (e : Engine) (i : nat) :
  (i < droneCount (state e))%nat ->
  i ∈ strideLoop (visibleCap e
                  + frame e
                    mod bgStride (droneCount (state e) - visibleCap e))
        (droneCount (state e))
        (bgStride (droneCount (state e) - visibleCap e))
  <-> (visibleCap e <= i)%nat
      /\ phase (strideOf e i) (loopBase e i) i (frame e) = 0%Z.
Proof.
  intros Hi. unfold strideOf, loopBase.
  destruct (Nat.ltb_spec i (visibleCap e)) as [Hlt | Hge].
  - split; [| lia]. intros H. apply strideFrom_ge in H. lia.
  - rewrite <- (visited_phase _ (visibleCap e) (droneCount (state e)) i
                  (frame e) (bgStride_pos _) ltac:(lia)).
    tauto.
Qed.

Section OneFrame.
Variables Math_sqrt Math_sin Math_cos : Q -> Q.
Variable Math_random : nat -> Q.

(** A frame of [updateDrones] moves a drone that steers to a fixed
    point once, by the budget of its stride, if the frame has phase [0]
    for it, and not at all otherwise; the drone keeps steering to the
    point. *)
Lemma updateDrones_drone (dt : Q) (e : Engine) (i : nat) (d : Drone)
    (target : Vector3) :
  wellFormed e /\ commandLinked e -> registryOk e ->
  (i < droneCount (state e))%nat ->
  readDrone e i = Some d -> steersTo e i target ->
  (phase (strideOf e i) (loopBase e i) i (frame e) = 0%Z ->
   10 <= distanceTo Math_sqrt (dPos d) target) ->
  exists e' : Engine,
    updateDrones Math_sqrt Math_sin Math_cos Math_random dt e = Some e'
    /\ (wellFormed e' /\ commandLinked e') /\ registryOk e'
    /\ sameSchedule e e' /\ steersTo e' i target
    /\ readDrone e' i
       = Some (if (phase (strideOf e i) (loopBase e i) i (frame e) =? 0)%Z
               then movedTo
                      (steerToward Math_sqrt (dPos d) target
                         (strideMove (droneSpeed (state e)) dt
                            (strideOf e i))) d
               else d).
Proof.
  intros Hinv Hreg Hi Hd Hsteer Hfar.
  pose proof (steersTo_heading e i d target Hinv Hreg Hi Hd Hsteer) as Hh.
  pose proof (visibleCap_le e) as Hvc.
  assert (Hgoal : exists e' : Engine,
            updateDrones Math_sqrt Math_sin Math_cos Math_random dt e
            = Some e'
            /\ stepOk e e' (buildCmdMap e) /\ sameSchedule e e'
            /\ heading e' (buildCmdMap e) d target
            /\ readDrone e' i
               = Some (if (phase (strideOf e i) (loopBase e i) i (frame e)
                           =? 0)%Z
                       then movedTo
                              (steerToward Math_sqrt (dPos d) target
                                 (strideMove (droneSpeed (state e)) dt
                                    (strideOf e i))) d
                       else d)).
  { unfold updateDrones.
    destruct (Nat.eqb_spec (droneCount (state e)) 0) as [Hz | _]; [lia |].
    cbv zeta. fold (visibleCap e).
    set (fgS := fgStride (lagOptimization (state e)) (visibleCap e)).
    set (bgS := bgStride (droneCount (state e) - visibleCap e)).
    pose proof (fg_visit e i) as Hfg. fold fgS in Hfg.
    pose proof (bg_visit e i Hi) as Hbg. fold bgS in Hbg.
    destruct (runLoop_drone Math_sqrt Math_sin Math_cos Math_random dt
                (buildCmdMap e) (strideMove (droneSpeed (state e)) dt fgS)
                fgS i target
                (strideLoop (frame e mod fgS) (visibleCap e) fgS)
                (strideFrom_NoDup _ _ (fgStride_pos _ _) _ _)
                e d Hinv (buildCmdMap_ok e))
      as (e1 & He1 & Hok1 & Hsch1 & Hd1 & Hh1); [| exact Hd | exact Hh | |].
    { intros j Hj. apply strideLoop_bound in Hj. lia. }
    { intros Hin. apply Hfar, Hfg, Hin. }
    rewrite He1. cbn [mbind option_bind].
    destruct (Nat.ltb_spec (visibleCap e) (droneCount (state e)))
      as [Hbgrun | Hnobg].
    - pose proof Hok1 as (Hinv1 & Hmap1 & Hn1).
      set (d1 := if bool_decide
                      (i ∈ strideLoop (frame e mod fgS) (visibleCap e) fgS)
                 then movedTo
                        (steerToward Math_sqrt (dPos d) target
                           (strideMove (droneSpeed (state e)) dt fgS)) d
                 else d) in *.
      assert (Hh1' : heading e1 (buildCmdMap e) d1 target).
      { unfold d1. destruct (bool_decide _); exact Hh1. }
      destruct (runLoop_drone Math_sqrt Math_sin Math_cos Math_random dt
                  (buildCmdMap e) (strideMove (droneSpeed (state e)) dt bgS)
                  bgS i target
                  (strideLoop (visibleCap e + frame e mod bgS)
                     (droneCount (state e)) bgS)
                  (strideFrom_NoDup _ _ (bgStride_pos _) _ _)
                  e1 d1 Hinv1 Hmap1)
        as (e2 & He2 & Hok2 & Hsch2 & Hd2 & Hh2);
        [| exact Hd1 | exact Hh1' | |].
      { intros j Hj. apply strideLoop_bound in Hj. lia. }
      { intros Hin. apply Hbg in Hin as [Hge Hph].
        unfold d1. rewrite bool_decide_eq_false_2 by (rewrite Hfg; lia).
        apply Hfar, Hph. }
      exists e2. split; [exact He2 |].
      split; [apply (stepOk_trans _ _ _ _ Hok1 Hok2) |].
      split; [apply (sameSchedule_trans _ e1); assumption |].
      split.
      { revert Hh2. unfold d1. destruct (bool_decide _); intros H; exact H. }
      rewrite Hd2. f_equal. unfold d1.
      destruct (Z.eqb_spec (phase (strideOf e i) (loopBase e i) i (frame e)) 0)
        as [Hph | Hph].
      + destruct (Nat.ltb_spec i (visibleCap e)) as [Hlt | Hge].
        * rewrite (bool_decide_eq_false_2 (i ∈ strideLoop (_ + _) _ _))
            by (rewrite Hbg; lia).
          rewrite bool_decide_eq_true_2 by (apply Hfg; auto).
          unfold strideOf. destruct (Nat.ltb_spec i (visibleCap e)); [| lia].
          reflexivity.
        * rewrite (bool_decide_eq_true_2 (i ∈ strideLoop (_ + _) _ _))
            by (apply Hbg; auto).
          rewrite bool_decide_eq_false_2 by (rewrite Hfg; lia).
          unfold strideOf. destruct (Nat.ltb_spec i (visibleCap e)); [lia |].
          reflexivity.
      + rewrite (bool_decide_eq_false_2 (i ∈ strideLoop (_ + _) _ _))
          by (rewrite Hbg; tauto).
        rewrite bool_decide_eq_false_2 by (rewrite Hfg; tauto).
        reflexivity.
    - exists e1. split; [reflexivity |].
      split; [exact Hok1 |]. split; [exact Hsch1 |]. split; [exact Hh1 |].
      rewrite Hd1. f_equal.
      assert (Hlt : (i < visibleCap e)%nat) by lia.
      destruct (Z.eqb_spec (phase (strideOf e i) (loopBase e i) i (frame e)) 0)
        as [Hph | Hph].
      + rewrite bool_decide_eq_true_2 by (apply Hfg; auto).
        unfold strideOf. destruct (Nat.ltb_spec i (visibleCap e)); [| lia].
        reflexivity.
      + rewrite bool_decide_eq_false_2 by (rewrite Hfg; tauto).
        reflexivity. }
  destruct Hgoal as (e' & He' & (Hinv' & _ & Hn') & Hsch' & Hh' & Hd').
  exists e'. split; [exact He' |]. split; [exact Hinv' |].
  split; [apply (updateDrones_registryOk _ _ _ _ dt e e' Hreg He') |].
  split; [exact Hsch' |]. split; [| exact Hd'].
  apply (heading_steersTo e e' i _ target Hreg Hsch' Hinv'
           ltac:(lia) Hd').
  destruct (_ =? _)%Z; exact Hh'.
Qed.
End OneFrame.

(** ** Frame after frame *)

Lemma loop_range (e : Engine) (i : nat) :
  (i < droneCount (state e))%nat -> (loopBase e i <= i < loopStop e i)%nat.
Proof.
  intros Hi. unfold loopBase, loopStop.
  destruct (Nat.ltb_spec i (visibleCap e)); lia.
Qed.

Lemma schedule_render (e e1 : Engine) (i : nat) (dt : Q) :
  sameSchedule e e1 ->
  strideOf (render e1) i = strideOf e i
  /\ loopBase (render e1) i = loopBase e i
  /\ loopStop (render e1) i = loopStop e i
  /\ perFrame (render e1) dt = perFrame e dt
  /\ droneSpeed (state (render e1)) = droneSpeed (state e)
  /\ droneCount (state (render e1)) = droneCount (state e)
  /\ frame (render e1) = S (frame e).
Proof.
  intros (_ & _ & Hn & Hl & Hs & Hf).
  unfold strideOf, loopBase, loopStop, perFrame, visibleCap, render. cbn.
  rewrite Hn, Hl, Hs, Hf. auto 10.
Qed.

Lemma along_proper (pos target : Vector3) (D s s' : Q) :
  s == s' -> along pos target D s =v= along pos target D s'.
Proof.
  intros H. unfold along, lerpVectors, veq. cbn [vx vy vz].
  rewrite H. repeat split; reflexivity.
Qed.

Lemma along_0 (pos target : Vector3) (D : Q) : pos =v= along pos target D 0.
Proof.
  unfold along, lerpVectors, veq, Qdiv. cbn [vx vy vz].
  repeat split; ring.
Qed.

Lemma budget_mono (pf : Q) (a b : Z) :
  0 <= pf -> (a <= b)%Z -> pf * inject_Z a <= pf * inject_Z b.
Proof.
  intros Hpf Hab. rewrite !(Qmult_comm pf).
  apply Qmult_le_compat_r; [rewrite <- Zle_Qle; exact Hab | exact Hpf].
Qed.

Section FrameAfterFrame.
Variables Math_sqrt Math_sin Math_cos : Q -> Q.
Variable Math_random : nat -> Q.
Hypothesis Math_sqrt_proper :
  forall x y : Q, x == y -> Math_sqrt x == Math_sqrt y.

Variables (dt : Q) (i : nat) (pos target : Vector3) (D : Q).
Hypothesis D_pos : 0 < D.
Hypothesis Math_sqrt_line :
  forall c : Q, 0 <= c ->
  Math_sqrt (c * c * distanceToSquared pos target) == c * D.

(** The drone after [n] frames, while the target stays out of reach: it
    has advanced along the line by one stride budget for each update it
    received. *)
Lemma droneFrames_drone (n : nat) :
  forall (e : Engine) (d : Drone) (s : Q),
  wellFormed e /\ commandLinked e -> registryOk e ->
  (i < droneCount (state e))%nat ->
  readDrone e i = Some d -> steersTo e i target ->
  0 <= perFrame e dt -> 0 <= s ->
  dPos d =v= along pos target D s ->
  s + perFrame e dt
      * inject_Z (Z.of_nat n + Z.of_nat (strideOf e i) - 1
                  - phase (strideOf e i) (loopBase e i) i (frame e))
    + 10 <= D ->
  exists (e' : Engine) (d' : Drone),
    droneFrames Math_sqrt Math_sin Math_cos Math_random dt n e = Some e'
    /\ (wellFormed e' /\ commandLinked e') /\ registryOk e'
    /\ steersTo e' i target
    /\ readDrone e' i = Some d'
    /\ dPos d'
       =v= along pos target D
             (s + strideMove (droneSpeed (state e)) dt (strideOf e i)
                  * inject_Z (Z.of_nat
                                (visits (strideOf e i) (loopBase e i)
                                   (loopStop e i) i (frame e) n))).
Proof.
  induction n as [|n IH]; intros e d s Hinv Hreg Hi Hd Hsteer Hpf Hs Hpos Hfar.
  - exists e, d. split; [reflexivity |]. split; [exact Hinv |].
    split; [exact Hreg |]. split; [exact Hsteer |]. split; [exact Hd |].
    rewrite Hpos. apply along_proper. cbn [visits]. simpl inject_Z. ring.
  - set (k := strideOf e i) in *. set (base := loopBase e i) in *.
    set (stop := loopStop e i) in *. set (f := frame e) in *.
    pose proof (strideOf_pos e i) as Hk. fold k in Hk.
    pose proof (loop_range e i Hi) as Hrange. fold base stop in Hrange.
    pose proof (phase_bound k base i f Hk) as Hphi.
    pose proof (phase_S k base i f Hk) as HS.
    pose proof (visited_phase k base stop i f Hk Hrange) as Hv.
    set (pf := perFrame e dt) in *.
    assert (Hmove : strideMove (droneSpeed (state e)) dt k
                    == pf * inject_Z (Z.of_nat k))
      by (unfold strideMove, pf, perFrame; reflexivity).
    assert (Hbud : 0 <= pf * inject_Z (Z.of_nat (S n) + Z.of_nat k - 1
                                       - phase k base i f)).
    { apply Qmult_le_0_compat; [exact Hpf |].
      change 0 with (inject_Z 0). rewrite <- Zle_Qle. lia. }
    assert (Hguard : 10 <= distanceTo Math_sqrt (dPos d) target).
    { rewrite (along_distance Math_sqrt Math_sqrt_proper pos target D D_pos
                 Math_sqrt_line (dPos d) s ltac:(lra) Hpos).
      lra. }
    destruct (updateDrones_drone Math_sqrt Math_sin Math_cos Math_random dt
                e i d target Hinv Hreg Hi Hd Hsteer (fun _ => Hguard))
      as (e1 & He1 & Hinv1 & Hreg1 & Hsch1 & Hsteer1 & Hd1).
    fold k base f in Hd1.
    destruct (schedule_render e e1 i dt Hsch1)
      as (Ek & Eb & Es & Ep & Ev & En & Ef).
    cbn [droneFrames]. unfold droneFrame. rewrite He1.
    cbn [mbind option_bind].
    destruct (Z.eqb_spec (phase k base i f) 0) as [Hz | Hnz].
    + set (mv := strideMove (droneSpeed (state e)) dt k) in *.
      set (p := steerToward Math_sqrt (dPos d) target mv) in *.
      assert (Hp : p =v= along pos target D (s + mv)).
      { apply (steerToward_along Math_sqrt Math_sqrt_proper pos target D
                 D_pos Math_sqrt_line (dPos d) s mv);
          [lra | exact Hpos]. }
      assert (Hmv0 : 0 <= mv).
      { rewrite Hmove. apply Qmult_le_0_compat; [exact Hpf |].
        change 0 with (inject_Z 0). rewrite <- Zle_Qle. lia. }
      destruct (IH (render e1) (movedTo p d) (s + mv))
        as (e' & d' & He' & Hinv' & Hreg' & Hsteer' & Hd' & Hpos');
        [exact Hinv1 | exact Hreg1 | rewrite En; exact Hi | exact Hd1
        | exact Hsteer1 | rewrite Ep; exact Hpf | lra | exact Hp | |].
      { rewrite Ep, Ek, Eb, Ef. fold pf k base f. rewrite HS.
        assert (E : inject_Z (Z.of_nat (S n) + Z.of_nat k - 1 - 0)
                    == inject_Z (Z.of_nat k)
                       + inject_Z (Z.of_nat n + Z.of_nat k - 1
                                   - (Z.of_nat k - 1))).
        { rewrite <- inject_Z_plus. apply inject_Z_injective. lia. }
        rewrite Hz, E in Hfar. rewrite Hmove.
        rewrite Qmult_plus_distr_r in Hfar. lra. }
      exists e', d'. split; [exact He' |]. split; [exact Hinv' |].
      split; [exact Hreg' |]. split; [exact Hsteer' |].
      split; [exact Hd' |].
      rewrite Hpos'. apply along_proper.
      rewrite Ev, Ek, Eb, Es, Ef. fold k base stop f mv.
      cbn [visits]. rewrite bool_decide_eq_true_2 by (apply Hv; exact Hz).
      rewrite Nat2Z.inj_add, inject_Z_plus. simpl (inject_Z (Z.of_nat 1)).
      ring.
    + destruct (IH (render e1) d s)
        as (e' & d' & He' & Hinv' & Hreg' & Hsteer' & Hd' & Hpos');
        [exact Hinv1 | exact Hreg1 | rewrite En; exact Hi | exact Hd1
        | exact Hsteer1 | rewrite Ep; exact Hpf | exact Hs | exact Hpos | |].
      { rewrite Ep, Ek, Eb, Ef. fold pf k base f. rewrite HS.
        replace (Z.of_nat n + Z.of_nat k - 1 - (phase k base i f - 1))%Z
          with (Z.of_nat (S n) + Z.of_nat k - 1 - phase k base i f)%Z by lia.
        exact Hfar. }
      exists e', d'. split; [exact He' |]. split; [exact Hinv' |].
      split; [exact Hreg' |]. split; [exact Hsteer' |].
      split; [exact Hd' |].
      rewrite Hpos'. apply along_proper.
      rewrite Ev, Ek, Eb, Es, Ef. fold k base stop f.
      cbn [visits].
      rewrite bool_decide_eq_false_2 by (rewrite Hv; exact Hnz).
      reflexivity.
Qed.
End FrameAfterFrame.

(** ** Stride equivalence *)

Section Displacement.
Variables Math_sqrt Math_sin Math_cos : Q -> Q.
Variable Math_random : nat -> Q.
Hypothesis Math_sqrt_proper :
  forall x y : Q, x == y -> Math_sqrt x == Math_sqrt y.

(** The distance covered in [n] frames under the stride of the drone:
    [n] frame budgets, give or take less than a stride of them. *)
Lemma droneFrames_displacement (dt : Q) (e : Engine) (i : nat)
    (pos target : Vector3) (D : Q) (n : nat) :
  wellFormed e /\ commandLinked e -> registryOk e ->
  (i < droneCount (state e))%nat ->
  dronePosition e i = Some pos -> steersTo e i target ->
  0 <= perFrame e dt ->
  0 < D ->
  (forall c : Q, 0 <= c ->
   Math_sqrt (c * c * distanceToSquared pos target) == c * D) ->
  perFrame e dt * inject_Z (Z.of_nat n + Z.of_nat (strideOf e i) - 1) + 10
    <= D ->
  exists (e' : Engine) (p : Vector3) (delta : Z),
    droneFrames Math_sqrt Math_sin Math_cos Math_random dt n e = Some e'
    /\ dronePosition e' i = Some p
    /\ steersTo e' i target
    /\ p =v= along pos target D
               (perFrame e dt * inject_Z (Z.of_nat n + delta))
    /\ (Z.abs delta <= Z.of_nat (strideOf e i) - 1)%Z
    /\ ((n mod strideOf e i = 0)%nat -> delta = 0%Z).
Proof.
  intros Hinv Hreg Hi Hpos Hsteer Hpf HD Hlen Hfar.
  unfold dronePosition in Hpos.
  destruct (readDrone e i) as [d|] eqn:Hd; [| discriminate].
  cbn in Hpos. injection Hpos as Hpos.
  set (k := strideOf e i) in *.
  pose proof (strideOf_pos e i) as Hk. fold k in Hk.
  pose proof (loop_range e i Hi) as Hrange.
  pose proof (phase_bound k (loopBase e i) i (frame e) Hk) as Hb0.
  pose proof (phase_bound k (loopBase e i) i (frame e + n) Hk) as Hb1.
  pose proof (visits_phase k (loopBase e i) (loopStop e i) i Hk Hrange
                (frame e) n) as Hv.
  destruct (droneFrames_drone Math_sqrt Math_sin Math_cos Math_random
              Math_sqrt_proper dt i pos target D HD Hlen
              n e d 0 Hinv Hreg Hi Hd Hsteer Hpf ltac:(lra))
    as (e' & d' & He' & _ & _ & Hsteer' & Hd' & Hp').
  { rewrite Hpos. apply along_0. }
  { fold k.
    pose proof (budget_mono (perFrame e dt)
                  (Z.of_nat n + Z.of_nat k - 1
                   - phase k (loopBase e i) i (frame e))
                  (Z.of_nat n + Z.of_nat k - 1) Hpf ltac:(lia)).
    lra. }
  fold k in Hp'.
  exists e', (dPos d'),
    (phase k (loopBase e i) i (frame e + n)
     - phase k (loopBase e i) i (frame e))%Z.
  split; [exact He' |].
  split; [unfold dronePosition; rewrite Hd'; reflexivity |].
  split; [exact Hsteer' |].
  split; [| split].
  - rewrite Hp'. apply along_proper.
    unfold strideMove, perFrame.
    rewrite Qplus_0_l, <- Qmult_assoc, <- inject_Z_mult, Hv.
    apply Qmult_comp; [reflexivity |]. apply inject_Z_injective. lia.
  - lia.
  - intros Hmod.
    rewrite (phase_period k (loopBase e i) i (frame e) n Hk Hmod). lia.
Qed.

(** C1.  Two engines run [n] frames of the drone update at the same
    speed and frame time.  In each a drone starts from [pos] and steers
    in a straight line to the fixed point [target], which stays out of
    reach: a returning drone on its way to the dock, or a Wall drone on
    its way to its slot, from any point in any direction.  [D] is the
    distance from [pos] to [target] as [Math.sqrt] gives it, and along
    the line the root scales with the distance, as the real square root
    does.  The loops of [updateDrones]
    visit the first drone with stride [k1] and the second with stride
    [k2], whatever the drone counts and optimisation flags that make
    them so, and whatever the frame numbers they start on.  Both drones
    end on the line from [pos] to [target], at distances from [pos]
    that differ by at most [k1 - 1 + (k2 - 1)] frame budgets; a drone
    of stride [1] has covered [n] frame budgets exactly; and the two
    drones end at the same point when [n] is a multiple of both
    strides. *)
Theorem stride_equivalence (dt : Q) (e1 e2 : Engine) (i1 i2 : nat)
    (pos target : Vector3) (D : Q) (n : nat) :
  wellFormed e1 /\ commandLinked e1 -> registryOk e1 ->
  wellFormed e2 /\ commandLinked e2 -> registryOk e2 ->
  (i1 < droneCount (state e1))%nat -> (i2 < droneCount (state e2))%nat ->
  dronePosition e1 i1 = Some pos -> dronePosition e2 i2 = Some pos ->
  steersTo e1 i1 target -> steersTo e2 i2 target ->
  droneSpeed (state e2) = droneSpeed (state e1) ->
  0 <= perFrame e1 dt ->
  0 < D ->
  (forall c : Q, 0 <= c ->
   Math_sqrt (c * c * distanceToSquared pos target) == c * D) ->
  let k1 := strideOf e1 i1 in
  let k2 := strideOf e2 i2 in
  perFrame e1 dt * inject_Z (Z.of_nat n + Z.of_nat (Nat.max k1 k2) - 1) + 10
    <= D ->
  exists (e1' e2' : Engine) (p1 p2 : Vector3) (s1 s2 : Q),
    droneFrames Math_sqrt Math_sin Math_cos Math_random dt n e1 = Some e1'
    /\ droneFrames Math_sqrt Math_sin Math_cos Math_random dt n e2 = Some e2'
    /\ dronePosition e1' i1 = Some p1 /\ dronePosition e2' i2 = Some p2
    /\ steersTo e1' i1 target /\ steersTo e2' i2 target
    /\ p1 =v= along pos target D s1 /\ p2 =v= along pos target D s2
    /\ Qabs (s1 - s2)
       <= perFrame e1 dt * inject_Z (Z.of_nat k1 - 1 + (Z.of_nat k2 - 1))
    /\ (k1 = 1%nat -> s1 == perFrame e1 dt * inject_Z (Z.of_nat n))
    /\ ((n mod k1 = 0)%nat -> (n mod k2 = 0)%nat -> p1 =v= p2).
Proof.
  intros Hinv1 Hreg1 Hinv2 Hreg2 Hi1 Hi2 Hpos1 Hpos2 Hst1 Hst2 Hspeed Hpf
    HD Hlen k1 k2 Hfar.
  assert (Hpf2 : perFrame e2 dt = perFrame e1 dt)
    by (unfold perFrame; rewrite Hspeed; reflexivity).
  set (pf := perFrame e1 dt) in *.
  destruct (droneFrames_displacement dt e1 i1 pos target D n Hinv1 Hreg1 Hi1
              Hpos1 Hst1 Hpf HD Hlen)
    as (e1' & p1 & d1 & He1 & Hp1 & Hs1 & Ha1 & Hb1 & Hm1).
  { fold pf k1.
    pose proof (budget_mono pf (Z.of_nat n + Z.of_nat k1 - 1)
                  (Z.of_nat n + Z.of_nat (Nat.max k1 k2) - 1) Hpf
                  ltac:(lia)). lra. }
  destruct (droneFrames_displacement dt e2 i2 pos target D n Hinv2 Hreg2 Hi2
              Hpos2 Hst2 ltac:(rewrite Hpf2; exact Hpf) HD Hlen)
    as (e2' & p2 & d2 & He2 & Hp2 & Hs2 & Ha2 & Hb2 & Hm2).
  { rewrite Hpf2. fold k2.
    pose proof (budget_mono pf (Z.of_nat n + Z.of_nat k2 - 1)
                  (Z.of_nat n + Z.of_nat (Nat.max k1 k2) - 1) Hpf
                  ltac:(lia)). lra. }
  rewrite Hpf2 in Ha2. fold pf k1 in Ha1, Hb1, Hm1. fold k2 in Hb2, Hm2.
  exists e1', e2', p1, p2, (pf * inject_Z (Z.of_nat n + d1)),
    (pf * inject_Z (Z.of_nat n + d2)).
  split; [exact He1 |]. split; [exact He2 |].
  split; [exact Hp1 |]. split; [exact Hp2 |].
  split; [exact Hs1 |]. split; [exact Hs2 |].
  split; [exact Ha1 |]. split; [exact Ha2 |].
  split; [| split].
  - assert (E : pf * inject_Z (Z.of_nat n + d1)
                - pf * inject_Z (Z.of_nat n + d2)
                == pf * inject_Z (d1 - d2)).
    { unfold Z.sub. rewrite !inject_Z_plus, inject_Z_opp. ring. }
    rewrite E. apply Qabs_Qle_condition.
    pose proof (budget_mono pf (d1 - d2)
                  (Z.of_nat k1 - 1 + (Z.of_nat k2 - 1)) Hpf ltac:(lia)) as Hhi.
    pose proof (budget_mono pf (- (Z.of_nat k1 - 1 + (Z.of_nat k2 - 1)))
                  (d1 - d2) Hpf ltac:(lia)) as Hlo.
    rewrite inject_Z_opp in Hlo.
    split; [| exact Hhi].
    assert (E2 : pf * - inject_Z (Z.of_nat k1 - 1 + (Z.of_nat k2 - 1))
                 == - (pf * inject_Z (Z.of_nat k1 - 1 + (Z.of_nat k2 - 1))))
      by ring.
    rewrite E2 in Hlo. exact Hlo.
  - intros Hone. assert (d1 = 0%Z) as -> by lia.
    rewrite Z.add_0_r. reflexivity.
  - intros M1 M2. rewrite Ha1, Ha2, (Hm1 M1), (Hm2 M2). reflexivity.
Qed.
End Displacement.

(** *** The crowded engine *)

Lemma crowd_val : Z.of_nat crowd = 100001%Z.
Proof. unfold crowd. lia. Qed.

Lemma crowd_state (lagOpt : bool) (i : nat) (s : DroneState) :
  droneState (crowdEngine lagOpt) !! i = Some s -> s <> STATE_ATTACKING.
Proof.
  unfold crowdEngine. cbn [droneState].
  destruct (decide (i = 7%nat)) as [-> | Hne].
  - rewrite list_lookup_insert_eq
      by (rewrite length_replicate; pose proof crowd_val; lia).
    intros [= <-]. discriminate.
  - rewrite list_lookup_insert_ne by congruence.
    intros H. apply lookup_replicate in H as [-> _]. discriminate.
Qed.

Lemma crowd_invariant (lagOpt : bool) :
  wellFormed (crowdEngine lagOpt) /\ commandLinked (crowdEngine lagOpt).
Proof.
  apply invariant_intro.
  - unfold storeFits, crowdEngine.
    cbn [state crowdState droneCount dronePos droneState droneTargetId
           droneCommandId droneLoad droneHP].
    rewrite !length_insert, !length_replicate. lia.
  - intros r cmd Hr. unfold lookupCmd in Hr. cbn in Hr.
    rewrite lookup_nil in Hr. discriminate.
  - cbn. lia.
  - intros i s c t _ Hs Hc _.
    apply crowd_state in Hs.
    unfold crowdEngine in Hc. cbn [droneCommandId] in Hc.
    apply lookup_replicate in Hc as [-> _].
    unfold droneOk. split; [split; [lia | contradiction] |].
    split; [lia | contradiction].
Qed.

Lemma crowd_registryOk (lagOpt : bool) : registryOk (crowdEngine lagOpt).
Proof. apply registryOk_empty; [reflexivity | cbn; lia | reflexivity]. Qed.

Lemma crowd_returning (lagOpt : bool) :
  droneState (crowdEngine lagOpt) !! 7%nat = Some STATE_RETURNING.
Proof.
  unfold crowdEngine. cbn [droneState].
  apply list_lookup_insert_eq. rewrite length_replicate.
  pose proof crowd_val. lia.
Qed.

Lemma crowd_position (lagOpt : bool) :
  dronePosition (crowdEngine lagOpt) 7 = Some (Vec3 30 50 0).
Proof.
  pose proof crowd_val as Hc.
  unfold dronePosition, readDrone.
  rewrite (crowd_returning lagOpt).
  unfold crowdEngine.
  cbn [dronePos droneTargetId droneCommandId droneLoad droneHP].
  change (7 * 3)%nat with 21%nat. change (21 + 1)%nat with 22%nat.
  change (21 + 2)%nat with 23%nat.
  rewrite (list_lookup_insert_ne _ 23 21) by lia.
  rewrite (list_lookup_insert_ne _ 22 21) by lia.
  rewrite (list_lookup_insert_eq _ 21) by (rewrite length_replicate; lia).
  rewrite (list_lookup_insert_ne _ 23 22) by lia.
  rewrite (list_lookup_insert_eq _ 22)
    by (rewrite length_insert, length_replicate; lia).
  rewrite (list_lookup_insert_eq _ 23)
    by (rewrite !length_insert, length_replicate; lia).
  rewrite !lookup_replicate_2 by lia.
  reflexivity.
Qed.

Lemma crowd_visibleCap (lagOpt : bool) :
  visibleCap (crowdEngine lagOpt)
  = if lagOpt then Z.to_nat 40000 else crowd.
Proof.
  unfold visibleCap, crowdEngine.
  cbn [state crowdState droneCount lagOptimization].
  rewrite crowd_val. destruct lagOpt; reflexivity.
Qed.

(** With the optimisation drone 7 is updated on every frame, without it
    on every third. *)
Lemma crowd_stride (lagOpt : bool) :
  strideOf (crowdEngine lagOpt) 7 = if lagOpt then 1%nat else 3%nat.
Proof.
  pose proof crowd_val as Hc.
  unfold strideOf. rewrite crowd_visibleCap.
  destruct lagOpt.
  - destruct (Nat.ltb_spec 7 (Z.to_nat 40000)) as [_ | H]; [| lia].
    reflexivity.
  - destruct (Nat.ltb_spec 7 crowd) as [_ | H]; [| lia].
    unfold fgStride, crowdEngine.
    cbn [state crowdState lagOptimization negb andb].
    rewrite Hc. reflexivity.
Qed.

(** The rational root is exact along the line from [(30, 50, 0)] to the
    dock, which is fifty long. *)
Lemma Qsqrt_line_50 (c : Q) :
  0 <= c ->
  Qsqrt (c * c * distanceToSquared (Vec3 30 50 0) dock) == c * 50.
Proof.
  intros Hc.
  assert (E : c * c * distanceToSquared (Vec3 30 50 0) dock
              == c * 50 * (c * 50)).
  { unfold distanceToSquared, dock. cbn [vx vy vz]. ring. }
  rewrite (Qsqrt_proper _ _ E). apply Qsqrt_square. lra.
Qed.

Lemma stride_equivalence_witness :
  exists (e1' e2' : Engine) (p1 p2 : Vector3),
    droneFrames Qsqrt noJitter noJitter alwaysZero (1 # 50) 6
      (crowdEngine true) = Some e1'
    /\ droneFrames Qsqrt noJitter noJitter alwaysZero (1 # 50) 6
         (crowdEngine false) = Some e2'
    /\ dronePosition e1' 7 = Some p1 /\ dronePosition e2' 7 = Some p2
    /\ p1 =v= p2.
Proof.
  destruct (stride_equivalence Qsqrt noJitter noJitter alwaysZero
              (fun x y H => eq_ind_r (fun z => z == Qsqrt y) (Qeq_refl _)
                              (Qsqrt_proper x y H))
              (1 # 50) (crowdEngine true) (crowdEngine false)
              7 7 (Vec3 30 50 0) dock 50 6)
    as (e1' & e2' & p1 & p2 & s1 & s2 & H1 & H2 & P1 & P2 & _ & _ & _ & _
        & _ & _ & Hsame).
  - apply crowd_invariant.
  - apply crowd_registryOk.
  - apply crowd_invariant.
  - apply crowd_registryOk.
  - pose proof crowd_val. cbn [crowdEngine state crowdState droneCount]. lia.
  - pose proof crowd_val. cbn [crowdEngine state crowdState droneCount]. lia.
  - apply crowd_position.
  - apply crowd_position.
  - left. split; [apply crowd_returning | reflexivity].
  - left. split; [apply crowd_returning | reflexivity].
  - reflexivity.
  - unfold perFrame. cbn [crowdEngine state crowdState droneSpeed].
    vm_compute. discriminate.
  - reflexivity.
  - apply Qsqrt_line_50.
  - rewrite !crowd_stride. unfold perFrame.
    cbn [crowdEngine state crowdState droneSpeed].
    vm_compute. discriminate.
  - exists e1', e2', p1, p2.
    split; [exact H1 |]. split; [exact H2 |].
    split; [exact P1 |]. split; [exact P2 |].
    apply Hsame; rewrite crowd_stride; reflexivity.
Defined.
